(* ===== verification/_CoqProject ===== *)
-Q . S2P
Prelude.v
GoText.v
GoUrl.v
GoFormat.v
Model.v
Db.v
Evolve.v
OneTime.v
AgentRepo.v
ManifestRepo.v
SentRepo.v
StatusRepo.v
Repositories.v
Wire.v
Lib.v
Stub.v
Suit.v
Teep.v
Rats.v
Qvl.v
Collateral.v
Verifiers.v
Demo.v
Tam.v
Server.v
Logger.v
Startup.v
VerifierLog.v
Diag.v
Console.v
ConsoleDebug.v
Ends.v
Total.v
Frame.v
Requests.v
TamFrames.v
Scenario.v
Trust.v
Messages.v
Service.v
Lifecycle.v
Meanwhile.v
ManifestFlow.v
Registry.v
UpdateFlow.v
Progress.v
Session.v
Onboarding.v
Quote.v
CollateralFlow.v
CacheFlow.v
ChallengeFlow.v
Credits.v
DemoFlow.v
StartupFlow.v
DiagFlow.v
ConsoleFlow.v
