(* ===== verification/Prelude.v ===== *)
(** * AttesTAM: a verification library

    AttesTAM is a Trusted Application Manager (TAM) of the TEEP protocol: a Go server that
    attests devices, keeps a repository of signed SUIT manifests, sends agents the
    manifests they need, and records what they have installed.  This library is a shallow
    embedding of its core, with the theorems that say what makes it correct.

    ** The program and its parts

    An HTTP request reaches [ServeHTTP] ([internal/server/handler.go]).  One path takes TEEP
    messages and calls the TAM ([internal/tam]); the others register and list manifests and
    report the status of agents.  The TAM authenticates a message, looks up the message it
    answers by a one-time token or challenge, has evidence appraised by a verifier
    ([internal/infra/rats]), decodes SUIT data ([internal/suit]), and keeps all its state in
    an SQLite database ([internal/infra/sqlite]).  Handlers run concurrently and share only
    that database, the clock, the random source and the table of verifiers.

    The verifiers ([internal/infra/rats]) are a client of a Veraison server, reached over
    HTTP, and one that calls Intel's native quote library on collateral it gets from Intel's
    service and keeps in a directory of files.  [cmd/attestam/main.go] reads the settings and
    has [internal/server/server.go] make the server; in demo mode that seeds the database
    ([internal/demo]).  A second program, the admin console ([cmd/admin-console]), is a web
    front end: it asks a TAM for its agents and manifests and uploads manifests to it.

    ** The files

    The state:
    - [Prelude.v]: results of a Go call ([res]: a value, an error, a panic, or fuel run
      out); programs as resumptions ([Prog]), whose steps are single accesses to the state;
      [run] executes a program alone, [sched] interleaves a list of them; slices with their
      bounds check; shared automation.
    - [GoText.v]: [strings.EqualFold], [ToLower], [TrimSpace] and hexadecimal text.
      [GoUrl.v]: [net/url], [path], and the parts of [net/http] that clients use.
      [GoFormat.v]: UTF-8, [strconv.Quote] and the formats of times and numbers.
    - [Model.v]: the errors, the rows of the tables and the schema ([internal/domain/model],
      [internal/tam/errors.go], [createSchema] of [database.go]).
    - [Db.v]: the world a program runs in ([World]: database, clock, draws, files, the HTTP
      requests sent), the interface [Relation] of a table, SQL statements and file operations
      as atomic steps each of which can fail, and transactions that roll back.  [Platform]
      holds what the environment decides.
    - [Evolve.v]: the well-formedness invariant [wf] (the UNIQUE constraints and the order of
      the ids), the relation [evolves] that every step respects, and [safe]/[harmless]
      programs: the rely-guarantee rules all interleaving theorems rest on.
    - [Frame.v]: which programs move the database only along a given relation ([moves]),
      which only read, which leave a table alone, and which leave the rest of the world alone.

    The repositories, each operation of [internal/infra/sqlite]:
    - [OneTime.v]: [token_repo.go] and [challenge_repo.go], the same code over two tables,
      written once against the class [OneTime] and instantiated twice.
    - [AgentRepo.v]: [agent_repo.go], [device_repo.go], [entity_repo.go],
      [manifest_signing_key_repo.go].
    - [ManifestRepo.v]: [suit_manifest_repo.go].  [SentRepo.v]: the two repositories of sent
      messages.  [StatusRepo.v]: [agent_status_repo.go].
    - [Repositories.v]: the interfaces of [internal/domain/service/repositories.go] as records
      of operations.

    Data and libraries:
    - [Wire.v]: messages, envelopes, reports, claims as records.
    - [Lib.v]: the class of everything that is not in the repository: CBOR, COSE, EAT, JSON,
      base64, PEM, X.509 and hash functions, what an HTTP exchange yields, and Intel's native
      library.  Nothing is assumed of them; a theorem that relies on one of them says so in
      a hypothesis.  [Stub.v] is a concrete instance, for witnesses.

    The program:
    - [Suit.v]: [internal/suit/manifest.go] and [report.go].
    - [Teep.v]: [internal/tam/teep_message.go].
    - [Rats.v]: what all verifiers share, and the pretty printer of [internal/util/cbor.go].
      [Qvl.v]: quotes, verdicts and lifetimes of collateral.  [Collateral.v]: the client of
      Intel's service and the cache ([intel_qvl_pcs.go], [intel_qvl_collateral.go]).
      [Verifiers.v]: the Veraison client and the QVL verifier ([verifier_client.go],
      [intel_qvl_verifier.go], [backend.go]).
    - [Demo.v]: [internal/demo], the demo data.
    - [Tam.v]: [tam.go], [keyring.go], [agent_status.go], [manifest_repository_flow.go] and
      [sgx_quote_bundle.go].
    - [Server.v]: [internal/server/handler.go].
    - [Logger.v]: [internal/logger/logger.go].
    - [Startup.v]: package [flag], [config.go], [server.go] and [main.go] up to the server.
      [Lifecycle.v]: the rest of [main] and the methods of [Server]: signals, the goroutine
      that listens, connections and the graceful shutdown, as a step relation ([step]) over
      the state of the process ([Process]).
    - [Diag.v]: the diagnostic text of messages, identifiers and keys (the [CBORDiagString]
      methods, [PrintCOSEKey]), and the records it goes into.  [VerifierLog.v]: what the two
      verifiers log.
    - [Console.v]: [cmd/admin-console].  Its state ([System]) is the cache of agents next to
      the world; what an exchange with the TAM does is a parameter ([Exchange]).

    The theorems:
    - [Ends.v]: programs that never run out of fuel.  [Total.v]: total correctness
      ([yields]): what a program returns and leaves behind where no call fails.
    - [Requests.v], [TamFrames.v]: the lemmas that put every handler into the framework of
      [Evolve.v] and [Frame.v].  [Scenario.v]: a concrete agent and the states it drives
      a TAM through, which the witnesses evaluate.
    - [Trust.v]: how a key becomes an agent's key, and what a signature proves.
    - [Credits.v]: an accounting argument over all interleavings: every enrolment is paid for
      with a challenge.
    - [UpdateFlow.v]: starting a session, answering with an Update, handling reports.
    - [Meanwhile.v]: what requests that do not know a token leave alone.  [Progress.v]: what
      the TAM does for an agent that does its part, message by message.  [Session.v]: whole
      conversations with an enrolled agent; [Onboarding.v]: those that begin with a device the
      TAM does not know.
    - [ManifestFlow.v]: verifying and registering manifests, downgrades, races.
    - [Registry.v]: the manifest repository as an abstract map, and that [SetEnvelope],
      [GetManifest] and [GetManifests] implement its operations.
    - [Quote.v]: quotes, SGX bundles, the QVL verdict, collateral lifetimes.
    - [CollateralFlow.v], [CacheFlow.v]: what is asked of Intel's service and what is made of
      its answers; the cache as a store whose operations can fail at any point.
    - [ChallengeFlow.v]: the two calls to a Veraison server, and the requests on the wire.
    - [Messages.v]: decoding and signing TEEP messages.
    - [Service.v]: all requests together, a revocation in their midst, and what a client sees.
    - [DemoFlow.v]: starting in demo mode, once and again.  [StartupFlow.v]: settings, and
      what a production server starts with.
    - [DiagFlow.v]: what the debug log gives away.  [ConsoleDebug.v]: the console's debug
      output changes nothing.  [ConsoleFlow.v]: the console and the server run together
      ([tam_exchange] is the exchange whose steps are those of [ServeHTTP]): what the console
      shows and reports is what the TAM has.
    - [OneTime.v], [StatusRepo.v] and [Logger.v] hold the theorems about themselves.

    ** How state and operations correspond

    A method of a repository or of the TAM is a definition [Type_Method] (or the method's
    name) in the monad [M] of programs over [World].  A SQL statement is one step; Go code
    between statements is pure; [db.BeginTx ... Commit] is one step, since SQLite serialises
    writers.  Between two steps any other request may run.  A nil slice is told from an
    empty one ([option]) where the code or an encoder can see the difference.  Panics are
    results ([Panic]), so the absence of one is part of what a theorem says.  Integers are
    [Z]; [int64] bounds appear where the code or the database can reach them.  An HTTP
    exchange is a step that records the call and reads the answer off the history
    ([http_Do]): it follows redirects as Go's client does, and [http_wire] lists the requests
    it sends. A write to a file may stop after any prefix.

    ** What the theorems show

    - Trust: a key enters the table of agents only through affirmed and fresh evidence that
      claims it, in a message it signed, and costs a challenge of its own; replayed evidence
      is refused; a revoked agent stays revoked and gets no Update, under any interleaving;
      SGX evidence is bound to its quote.
    - One-time values: a token is consumed at most once however requests interleave; the loop
      that draws a fresh one ends.
    - Manifests: what is registered is verified and newer than what is there; the repository
      refines a map from components to their newest entries; a downgrade below a stored
      manifest fails under any interleaving, but two registrations at once can both pass.
    - Updates and status: an Update is the latest of what was asked for and is on record;
      reports are applied in order, atomically and exactly.
    - Conversations: an agent that answers each message as it should is always served, however
      many other requests come in between: a request, a QueryRequest, a QueryResponse, an
      Update, a report of success, and the records say what it has installed; a device the
      TAM does not know is asked for evidence first, and enrolled.
    - Verdicts: a verdict is the native library's, on collateral fetched for that quote or
      current in the cache, which holds only complete entries filed where they belong,
      whatever fails; the values that the C wrapper presets are never taken for it, and no
      size it is given exceeds its block; evidence is posted to nobody but the session the
      verifier opened and where 307 and 308 redirects lead from it.
    - Service: any requests in any order keep the invariant; bad requests change nothing.
    - Start-up: seeding the demo data again changes nothing; a production server signs with
      the configured key and trusts nobody; which setting wins; the values logged cannot end
      the line of their record (DEL and C1 controls do pass); a
      process that ends with status 0 has answered everybody.
    - Console: its pages are the registry and the agents as the TAM has them now, whatever
      was cached; an upload is reported as registered exactly if it was registered, verified,
      and is then shown; it always answers, even where the TAM panics; the debug output is
      invisible.
    - Decoders: total, in bounds, and inverse to the encoders, up to the empty slices that
      [omitempty] drops.
    - Defects: each place where the code does not do what it means to is a theorem, too
      (failure reports, status window, nil verifier, missing administrator, the race of two
      registrations, formats that are never accepted, corrupt cache entries, demo agents
      that go stale, a private key and forged lines in the debug log, a page that breaks with
      a thousand agents, evidence that follows redirects to any host, a zero [nextUpdate] that
      makes the others forgotten).

    ** Bounds and fuel

    Three loops are not structural.  Drawing a token or challenge until it is new takes
    [loop_fuel] turns, a parameter: [GenerateUniqueToken_total] shows that any fuel larger
    than the number of tokens is enough when the draws differ.  Reading the certificates of a
    quote takes as many turns as there are bytes; [quote_certificates_terminate] shows that
    this is enough.  [os.CreateTemp] tries 10000 names, and an HTTP client sends ten
    requests for a call, as Go does.  Loops over lists are structural.  Row ids are below [max_int64] by the schema.

    ** What is not modelled

    The database file, its pragmas and closing it (whether a connection enforces foreign keys
    is a parameter); the transport of HTTP, and time in the shutdown (its
    deadline can pass at any moment); the index page and the static files of the console (a
    parameter); where in the code the logger is called (the records that are modelled are
    definitions of their own); freeing C memory; the native quote library and the codecs of
    CBOR, COSE, JSON, PEM and X.509 (parameters).  What is left of the source besides is
    import lists, comments and types that only carry their names.  *)

From stdpp Require Export prelude gmap strings list sorting.
From Stdlib Require Export Strings.Byte.

#[global] Set Default Proof Using "Type*".

(** ** Bytes

    A Go [byte] is Rocq's 256-constructor [Byte.byte]; a Go [[]byte] whose
    nil-ness the code never tests is a [bytes]; one whose nil-ness it does test
    is an [option bytes] ([None] is the nil slice). *)

Abbreviation bytes := (list Byte.byte).

#[export] Instance byte_eq_decision : EqDecision Byte.byte := Byte.byte_eq_dec.

#[export] Instance byte_countable : Countable Byte.byte.
Proof.
  refine (inj_countable Byte.to_N Byte.of_N _).
  exact Byte.of_to_N.
Defined.

#[export] Instance byte_inhabited : Inhabited Byte.byte := populate Byte.x00.

Definition Z_of_byte (b : Byte.byte) : Z := Z.of_N (Byte.to_N b).

Definition byte_of_Z (z : Z) : Byte.byte :=
  default Byte.x00 (Byte.of_N (Z.to_N (z `mod` 256))).

(** Byte strings written as lists of numbers, for concrete inputs. *)
Definition bs (l : list Z) : bytes := map byte_of_Z l.

Lemma Z_of_byte_range (b : Byte.byte) : (0 ≤ Z_of_byte b < 256)%Z.
Proof.
  unfold Z_of_byte. pose proof (Byte.to_N_bounded b). lia.
Qed.

Lemma byte_of_Z_of_byte (b : Byte.byte) : byte_of_Z (Z_of_byte b) = b.
Proof.
  unfold byte_of_Z. rewrite Z.mod_small by apply Z_of_byte_range.
  unfold Z_of_byte. rewrite N2Z.id. by rewrite Byte.of_to_N.
Qed.

(** ** Results

    What a Go call can do: return normally, return a non-nil [error], panic
    (a nil dereference or a slice index out of range), or, for the model of an
    unbounded loop, run out of the fuel it was given. *)

Inductive res (E A : Type) : Type :=
  | Ok (a : A)
  | Err (e : E)
  | Panic
  | OutOfFuel.
Arguments Ok {E A} a.
Arguments Err {E A} e.
Arguments Panic {E A}.
Arguments OutOfFuel {E A}.

Definition res_map {E A B : Type} (f : A → B) (r : res E A) : res E B :=
  match r with
  | Ok a => Ok (f a)
  | Err e => Err e
  | Panic => Panic
  | OutOfFuel => OutOfFuel
  end.

Definition res_of_option {E A : Type} (e : E) (o : option A) : res E A :=
  match o with Some a => Ok a | None => Err e end.

(** [res] is itself a monad: pure code that can fail is written in it. *)
#[export] Instance res_ret {E} : MRet (res E) := λ A a, Ok a.
#[export] Instance res_bind {E} : MBind (res E) := λ A B f r,
  match r with
  | Ok a => f a
  | Err e => Err e
  | Panic => Panic
  | OutOfFuel => OutOfFuel
  end.

Definition res_map_err {E E' A : Type} (f : E → E') (r : res E A) : res E' A :=
  match r with
  | Ok a => Ok a
  | Err e => Err (f e)
  | Panic => Panic
  | OutOfFuel => OutOfFuel
  end.

Lemma res_bind_Ok {E A B : Type} (f : A → res E B) (r : res E A) (b : B) :
  r ≫= f = Ok b ↔ ∃ a, r = Ok a ∧ f a = Ok b.
Proof. destruct r; naive_solver. Qed.

Lemma res_of_option_Ok {E A : Type} (e : E) (o : option A) (a : A) :
  res_of_option e o = Ok a ↔ o = Some a.
Proof. destruct o; naive_solver. Qed.

(** ** Programs

    Code that touches the state is a resumption: a sequence of atomic steps.
    Each [Step] is one indivisible access to the shared state (one SQL
    statement, one transaction, one reading of the clock); between two steps
    another goroutine may run.  [run] executes a program alone. *)

Inductive Prog (E S A : Type) : Type :=
  | Done (r : res E A)
  | Step (upd : S → S) (k : S → Prog E S A).
Arguments Done {E S A} r.
Arguments Step {E S A} upd k.

Section prog.
Context {E S : Type}.

Fixpoint run {A} (p : Prog E S A) (s : S) : res E A * S :=
  match p with
  | Done r => (r, s)
  | Step upd k => run (k s) (upd s)
  end.

Fixpoint prog_bind {A B} (f : A → Prog E S B) (p : Prog E S A) : Prog E S B :=
  match p with
  | Done (Ok a) => f a
  | Done (Err e) => Done (Err e)
  | Done Panic => Done Panic
  | Done OutOfFuel => Done OutOfFuel
  | Step upd k => Step upd (λ s, prog_bind f (k s))
  end.

(** [x, err := f()] followed by a test of [err]: the error becomes a value. *)
Fixpoint try {A} (p : Prog E S A) : Prog E S (A + E) :=
  match p with
  | Done (Ok a) => Done (Ok (inl a))
  | Done (Err e) => Done (Ok (inr e))
  | Done Panic => Done Panic
  | Done OutOfFuel => Done OutOfFuel
  | Step upd k => Step upd (λ s, try (k s))
  end.

(** [if err != nil { return ..., f(err) }]. *)
Fixpoint map_err {A} (f : E → E) (p : Prog E S A) : Prog E S A :=
  match p with
  | Done r => Done (res_map_err f r)
  | Step upd k => Step upd (λ s, map_err f (k s))
  end.

Definition throw {A} (e : E) : Prog E S A := Done (Err e).
Definition panic {A} : Prog E S A := Done Panic.
Definition lift {A} (r : res E A) : Prog E S A := Done r.

(** One atomic access: compute a result and the next state from the state. *)
Definition atomically {A} (f : S → res E A * S) : Prog E S A :=
  Step (λ s, (f s).2) (λ s, Done (f s).1).
End prog.

#[export] Instance prog_ret {E S} : MRet (Prog E S) := λ A a, Done (Ok a).
#[export] Instance prog_mbind {E S} : MBind (Prog E S) := λ A B f p, prog_bind f p.

(** Sequencing inside [run]. *)
Definition run_then {E S A B : Type} (f : A → Prog E S B) (o : res E A * S) : res E B * S :=
  match o with
  | (Ok a, s) => run (f a) s
  | (Err e, s) => (Err e, s)
  | (Panic, s) => (Panic, s)
  | (OutOfFuel, s) => (OutOfFuel, s)
  end.

Section prog_facts.
Context {E S : Type}.
Implicit Types s : S.

Lemma run_bind {A B} (f : A → Prog E S B) (p : Prog E S A) s :
  run (p ≫= f) s = run_then f (run p s).
Proof.
  unfold mbind, prog_mbind. revert s.
  induction p as [[a|e| |]|upd k IH]; intros s; simpl; done.
Qed.

Lemma run_try {A} (p : Prog E S A) s :
  run (try p) s =
    (match (run p s).1 with
     | Ok a => Ok (inl a)
     | Err e => Ok (inr e)
     | Panic => Panic
     | OutOfFuel => OutOfFuel
     end, (run p s).2).
Proof.
  revert s. induction p as [[a|e| |]|upd k IH]; intros s; simpl; done.
Qed.

Lemma run_map_err {A} (f : E → E) (p : Prog E S A) s :
  run (map_err f p) s = (res_map_err f (run p s).1, (run p s).2).
Proof. revert s. induction p as [r|upd k IH]; intros s; simpl; done. Qed.

Lemma run_ret {A} (a : A) s : run (mret a : Prog E S A) s = (Ok a, s).
Proof. done. Qed.

Lemma run_atomically {A} (f : S → res E A * S) s : run (atomically f) s = f s.
Proof. simpl. by destruct (f s). Qed.

(** The monad laws, up to running. *)
Lemma run_bind_ret_l {A B} (f : A → Prog E S B) (a : A) s :
  run (mret a ≫= f) s = run (f a) s.
Proof. by rewrite run_bind, run_ret. Qed.

Lemma run_bind_assoc {A B C} (p : Prog E S A) (f : A → Prog E S B) (g : B → Prog E S C) s :
  run ((p ≫= f) ≫= g) s = run (p ≫= λ a, f a ≫= g) s.
Proof.
  rewrite !run_bind. destruct (run p s) as [[] ?]; simpl; by rewrite ?run_bind.
Qed.

(** Inverting a run of a sequence that returned. *)
Lemma run_bind_Ok {A B} (f : A → Prog E S B) (p : Prog E S A) s b s' :
  run (p ≫= f) s = (Ok b, s') →
  ∃ a s1, run p s = (Ok a, s1) ∧ run (f a) s1 = (Ok b, s').
Proof.
  rewrite run_bind. destruct (run p s) as [[a|e| |] s1]; simpl; naive_solver.
Qed.

Lemma run_lift_Ok {A} (r : res E A) s a s' :
  run (lift r : Prog E S A) s = (Ok a, s') → r = Ok a ∧ s' = s.
Proof. simpl. by intros [= -> ->]. Qed.

Lemma run_map_err_Ok {A} f (p : Prog E S A) s a s' :
  run (map_err f p) s = (Ok a, s') → run p s = (Ok a, s').
Proof. rewrite run_map_err. destruct (run p s) as [[]]; naive_solver. Qed.

Lemma run_try_Ok {A} (p : Prog E S A) s r s' :
  run (try p) s = (Ok r, s') →
  match r with inl a => run p s = (Ok a, s') | inr e => run p s = (Err e, s') end.
Proof. rewrite run_try. destruct (run p s) as [[]]; simpl; naive_solver. Qed.
End prog_facts.

(** *** Rely-guarantee reasoning

    [rg G Q p s]: started when the state is [s], and with other goroutines moving
    the state along [G] between any two of its steps, every step of [p] moves the
    state along [G], and if [p] returns [a] then [Q a] holds of the state then and
    from then on.  [G] is both what a goroutine relies on and what it guarantees. *)
Section rely_guarantee.
Context {E S : Type} (G : S → S → Prop) `{!PreOrder G}.
Implicit Types s : S.

Inductive rg {A} (Q : A → S → Prop) : Prog E S A → S → Prop :=
  | rg_ret a s : (∀ s', G s s' → Q a s') → rg Q (mret a) s
  | rg_fail r s : (∀ a, r ≠ Ok a) → rg Q (Done r) s
  | rg_step upd k s :
      (∀ s', G s s' → G s' (upd s')) →
      (∀ s', G s s' → rg Q (k s') (upd s')) →
      rg Q (Step upd k) s.

Lemma rg_ret_inv {A} (Q : A → S → Prop) a s : rg Q (Done (Ok a)) s → ∀ s', G s s' → Q a s'.
Proof. inversion 1 as [| ? ? Hr|]; subst; [done|]. by destruct (Hr a). Qed.

Lemma rg_step_inv {A} (Q : A → S → Prop) upd k s :
  rg Q (Step upd k) s → ∀ s', G s s' → G s' (upd s') ∧ rg Q (k s') (upd s').
Proof. inversion 1; subst. auto. Qed.

Lemma rg_mono {A} (Q : A → S → Prop) p s s' : G s s' → rg Q p s → rg Q p s'.
Proof.
  intros HG. destruct 1; constructor; try done.
  all: intros s2 Hs2; assert (G s s2) by (by etrans); auto.
Qed.

Lemma rg_weaken {A} (Q Q' : A → S → Prop) p s :
  rg Q p s → (∀ a s', G s s' → Q a s' → Q' a s') → rg Q' p s.
Proof.
  induction 1 as [a s HQ|r s Hr|upd k s HG Hk IH]; intros HQ'; constructor; try done.
  - auto.
  - intros s' Hs'. apply IH; [done|]. intros a s2 Hs2. apply HQ'.
    etrans; [done|]. etrans; [by apply HG|done].
Qed.

Lemma rg_bind {A B} (Q : A → S → Prop) (Q' : B → S → Prop) (p : Prog E S A) (f : A → Prog E S B) s :
  rg Q p s →
  (∀ a s', G s s' → (∀ s2, G s' s2 → Q a s2) → rg Q' (f a) s') →
  rg Q' (p ≫= f) s.
Proof.
  unfold mbind, prog_mbind.
  induction 1 as [a s HQ|r s Hr|upd k s HG Hk IH]; intros Hf; simpl.
  - by apply Hf.
  - destruct r as [a| | |]; [by destruct (Hr a)|by constructor..].
  - constructor; [done|]. intros s' Hs'. apply IH; [done|].
    intros a s2 Hs2. apply Hf. etrans; [done|]. etrans; [by apply HG|done].
Qed.

Lemma rg_try {A} (Q : A → S → Prop) (p : Prog E S A) s :
  rg Q p s → rg (λ r s', match r with inl a => Q a s' | inr _ => True end) (try p) s.
Proof.
  induction 1 as [a s HQ|r s Hr|upd k s HG Hk IH]; simpl.
  - by constructor.
  - destruct r as [a|e| |]; [by destruct (Hr a)|..]; [by apply (rg_ret _ (inr e))|by constructor..].
  - by constructor.
Qed.

Lemma rg_map_err {A} (Q : A → S → Prop) g (p : Prog E S A) s :
  rg Q p s → rg Q (map_err g p) s.
Proof.
  induction 1 as [a s HQ|r s Hr|upd k s HG Hk IH]; simpl.
  - by constructor.
  - destruct r as [a|e| |]; [by destruct (Hr a)|by constructor..].
  - by constructor.
Qed.

Lemma rg_throw {A} (Q : A → S → Prop) e s : rg Q (throw e) s.
Proof. by constructor. Qed.
Lemma rg_panic {A} (Q : A → S → Prop) s : rg Q panic s.
Proof. by constructor. Qed.

Lemma rg_lift {A} (Q : A → S → Prop) r s :
  (∀ a s', r = Ok a → G s s' → Q a s') → rg Q (lift r) s.
Proof. destruct r as [a| | |]; intros HQ; [apply rg_ret; eauto|by constructor..]. Qed.

Lemma rg_atomically {A} (Q : A → S → Prop) (f : S → res E A * S) s :
  (∀ s', G s s' → G s' (f s').2) →
  (∀ s' a s2, G s s' → (f s').1 = Ok a → G (f s').2 s2 → Q a s2) →
  rg Q (atomically f) s.
Proof.
  intros HG HQ. constructor; [done|]. intros s' Hs'.
  destruct (f s').1 as [a| | |] eqn:Hf; [|by constructor..].
  apply rg_ret. intros s2 Hs2. by eapply HQ.
Qed.

(** Alone: the other goroutines do nothing. *)
Lemma rg_run {A} (Q : A → S → Prop) (p : Prog E S A) s :
  rg Q p s → G s (run p s).2 ∧ ∀ a, (run p s).1 = Ok a → Q a (run p s).2.
Proof.
  induction 1 as [a s HQ|r s Hr|upd k s HG Hk IH]; simpl.
  - split; [done|]. intros ? [= <-]. by apply HQ.
  - split; [done|]. intros a ->. by destruct (Hr a).
  - destruct (IH s) as [HG' HQ]; [done|]. split; [etrans; [by apply HG|done]|done].
Qed.
End rely_guarantee.

(** *** Concurrent goroutines

    A pool of programs over one shared state; the scheduler picks any of them
    for one atomic step. *)
Inductive sched {E S A : Type} : list (Prog E S A) * S → list (Prog E S A) * S → Prop :=
  | sched_step ps1 upd k ps2 s :
      sched (ps1 ++ Step upd k :: ps2, s) (ps1 ++ k s :: ps2, upd s).

(** One goroutine may run to its end before the others move. *)
Lemma sched_run {E S A} (ps1 : list (Prog E S A)) p ps2 s :
  rtc sched (ps1 ++ p :: ps2, s) (ps1 ++ Done (run p s).1 :: ps2, (run p s).2).
Proof.
  revert s. induction p as [r|upd k IH]; intros s; simpl; [done|].
  eapply rtc_l; [apply sched_step|]. apply IH.
Qed.

Lemma sched_rg {E S A} (G : S → S → Prop) `{!PreOrder G} (Qs : list (A → S → Prop))
    (c c' : list (Prog E S A) * S) :
  rtc sched c c' →
  Forall2 (λ Q p, rg G Q p c.2) Qs c.1 →
  G c.2 c'.2 ∧ Forall2 (λ Q p, rg G Q p c'.2) Qs c'.1.
Proof.
  induction 1 as [c|c1 c2 c3 Hs _ IH]; intros Hall; [done|].
  inversion Hs as [ps1 upd k ps2 s]; subst; simpl in *.
  apply Forall2_app_inv_r in Hall as (Q1 & Q2 & H1 & H2 & ->).
  apply Forall2_cons_inv_r in H2 as (Q & Q2' & Hk & H2 & ->).
  destruct (rg_step_inv _ _ _ _ _ Hk s) as [HG Hk']; [done|].
  destruct IH as [HG' IH].
  - apply Forall2_app; [|constructor; [done|]].
    + eapply Forall2_impl; [exact H1|]. intros. by eapply rg_mono.
    + eapply Forall2_impl; [exact H2|]. intros. by eapply rg_mono.
  - split; [by etrans|done].
Qed.

(** A pool of which only the steps matter, not what is returned. *)
Lemma pool_rg {E S A} (G : S → S → Prop) `{!PreOrder G} (ps ps' : list (Prog E S A)) s s' :
  rtc sched (ps, s) (ps', s') → Forall (λ p, rg G (λ _ _, True) p s) ps →
  G s s' ∧ Forall (λ p, rg G (λ _ _, True) p s') ps'.
Proof.
  intros Hs Hps.
  destruct (sched_rg G (replicate (length ps) (λ _ _, True)) _ _ Hs) as [HG Hall].
  - cbn [fst snd]. by apply Forall2_replicate_l.
  - split; [done|]. clear -Hall. cbn [fst snd] in Hall. revert Hall. generalize (length ps).
    induction ps' as [|p ps' IH]; intros [|n] Hall; inversion Hall; constructor; [done|by eapply IH].
Qed.

#[global] Arguments atomically {E S A} f : simpl never.
#[global] Arguments prog_bind {E S A B} f p : simpl never.
#[global] Arguments prog_mbind {E S} A B f p : simpl never.
#[global] Arguments try {E S A} p : simpl never.
#[global] Arguments map_err {E S A} f p : simpl never.

Create HintDb attestam discriminated.
#[export] Hint Resolve rg_throw rg_panic : attestam.

(** ** Tactics *)

(** Run a sequence one call further, in the goal or in a hypothesis. *)
Ltac prog_simpl :=
  repeat (rewrite ?run_bind, ?run_try, ?run_map_err, ?run_ret in *; simpl in * ).

(** Split a hypothesis [run (x ← p; k) s = (Ok b, s')] at its first call. *)
Ltac run_inv H :=
  let a := fresh "a" in let s1 := fresh "s" in
  let H1 := fresh "Hrun" in let H2 := fresh "Hk" in
  apply run_bind_Ok in H as (a & s1 & H1 & H2).

Ltac case_res :=
  match goal with
  | |- context [run ?p ?s] => let r := fresh "r" in let s' := fresh "s" in
      let Hr := fresh "Hrun" in destruct (run p s) as [r s'] eqn:Hr; destruct r; simpl
  end.

(** ** Lists *)

Lemma fmap_NoDup_inj {A B} (g : A → B) (l : list A) (x y : A) :
  NoDup (g <$> l) → x ∈ l → y ∈ l → g x = g y → x = y.
Proof.
  intros Hnd [i Hi]%list_elem_of_lookup [j Hj]%list_elem_of_lookup Hg.
  assert (i = j) as ->; [|congruence].
  eapply NoDup_lookup; [exact Hnd| |]; rewrite list_lookup_fmap; [by rewrite Hi|].
  rewrite Hj. simpl. by f_equal.
Qed.

(** ** Go slices and integers *)

(** [b[lo:hi]]: a slice expression panics unless [0 <= lo <= hi <= len(b)]
    (the slices here are never re-extended into their spare capacity). *)
Definition go_slice {E} (b : bytes) (lo hi : Z) : res E bytes :=
  if bool_decide ((0 ≤ lo)%Z ∧ (lo ≤ hi)%Z ∧ (hi ≤ Z.of_nat (length b))%Z)
  then Ok (take (Z.to_nat (hi - lo)) (drop (Z.to_nat lo) b))
  else Panic.

Lemma go_slice_Ok {E} (b : bytes) (lo hi : Z) :
  (0 ≤ lo)%Z → (lo ≤ hi)%Z → (hi ≤ Z.of_nat (length b))%Z →
  go_slice (E:=E) b lo hi = Ok (take (Z.to_nat (hi - lo)) (drop (Z.to_nat lo) b)).
Proof. intros. unfold go_slice. by rewrite bool_decide_true. Qed.

Lemma go_slice_length {E} (b : bytes) (lo hi : Z) (r : bytes) :
  go_slice (E:=E) b lo hi = Ok r → Z.of_nat (length r) = (hi - lo)%Z.
Proof.
  unfold go_slice. case_bool_decide as H; [|done]. intros [= <-].
  rewrite length_take, length_drop. lia.
Qed.

(** [binary.LittleEndian.Uint16] and [Uint32], on a slice of exactly that size. *)
Definition le_uint (b : bytes) : Z :=
  foldr (λ x acc, (Z_of_byte x + 256 * acc)%Z) 0%Z b.

Lemma le_uint_range (b : bytes) : (0 ≤ le_uint b < 256 ^ Z.of_nat (length b))%Z.
Proof.
  induction b as [|x b IH]; simpl; [lia|].
  rewrite Nat2Z.inj_succ, Z.pow_succ_r by lia.
  pose proof (Z_of_byte_range x). lia.
Qed.

Definition max_int64 : Z := 2 ^ 63 - 1.
Definition uint64_ok (z : Z) : bool := bool_decide ((0 ≤ z)%Z ∧ (z < 2 ^ 64)%Z).

(** [len(x)] of a slice that may be nil. *)
Definition slice {A} (o : option (list A)) : list A := default [] o.

(** Time: nanoseconds since the Unix epoch; [time.Time{}] is year 1. *)
Definition second : Z := 1000000000.
Definition zero_time : Z := -62135596800 * second.
Definition hour : Z := 3600 * second.
