(* ===== verification/GoText.v ===== *)
(** Go's [strings] and [encoding/hex] as the code uses them.

    A Go [string] is a byte sequence, modelled as Rocq's [string].  The functions
    of [strings] that look at case or white space work on runes; here a string is
    cut into [rune] tokens that single out every non-ASCII rune whose case folding,
    lower case or white-space property can be observed against an ASCII constant
    (which is how every call in the source uses them): U+017F folds to [s], U+212A
    folds and lowers to [k], U+0130 lowers to [i].  Other non-ASCII bytes are kept
    as they are. *)

From S2P Require Import Prelude.
From Stdlib Require Import Ascii.

Inductive rune := RAscii (c : ascii) | RLongS | RKelvin | RDotI | RByte (c : ascii).

#[export] Instance rune_eq_dec : EqDecision rune.
Proof. solve_decision. Defined.

Definition code (c : ascii) : N := N_of_ascii c.
Definition is_code (n : N) (c : ascii) : bool := N.eqb (code c) n.

Definition rune_of_byte (c : ascii) : rune :=
  if N.ltb (code c) 128 then RAscii c else RByte c.

(** [for _, r := range s]. *)
Fixpoint runes (s : string) : list rune :=
  match s with
  | EmptyString => []
  | String c1 rest1 =>
      match rest1 with
      | String c2 rest2 =>
          if is_code 0xC5 c1 && is_code 0xBF c2 then RLongS :: runes rest2
          else if is_code 0xC4 c1 && is_code 0xB0 c2 then RDotI :: runes rest2
          else match rest2 with
               | String c3 rest3 =>
                   if is_code 0xE2 c1 && is_code 0x84 c2 && is_code 0xAA c3
                   then RKelvin :: runes rest3
                   else rune_of_byte c1 :: runes rest1
               | EmptyString => rune_of_byte c1 :: runes rest1
               end
      | EmptyString => [rune_of_byte c1]
      end
  end.

Definition ascii_lower (c : ascii) : ascii :=
  if (N.leb 65 (code c) && N.leb (code c) 90)%bool
  then ascii_of_N (code c + 32) else c.

Definition ascii_upper (c : ascii) : ascii :=
  if (N.leb 97 (code c) && N.leb (code c) 122)%bool
  then ascii_of_N (code c - 32) else c.

(** The representative of a rune's simple-folding orbit. *)
Definition fold_rune (r : rune) : rune :=
  match r with
  | RAscii c => RAscii (ascii_lower c)
  | RLongS => RAscii "s"
  | RKelvin => RAscii "k"
  | r => r
  end.

(** [strings.EqualFold(s, t)]. *)
Definition EqualFold (s t : string) : bool :=
  bool_decide (map fold_rune (runes s) = map fold_rune (runes t)).

Definition lower_rune (r : rune) : string :=
  match r with
  | RAscii c => String (ascii_lower c) EmptyString
  | RLongS => String (ascii_of_N 0xC5) (String (ascii_of_N 0xBF) EmptyString)
  | RKelvin => "k"
  | RDotI => "i"
  | RByte c => String c EmptyString
  end.

(** [strings.ToLower(s)]. *)
Definition ToLower (s : string) : string :=
  foldr (λ r acc, String.append (lower_rune r) acc) EmptyString (runes s).

(** [strings.HasPrefix(s, p)]. *)
Definition HasPrefix (s p : string) : bool := String.prefix p s.

(** *** [strings.TrimSpace] *)

Definition ascii_space (c : ascii) : bool :=
  ((N.leb 9 (code c) && N.leb (code c) 13) || is_code 32 c)%bool.

(** U+0085 and U+00A0, in UTF-8. *)
Definition space2 (c1 c2 : ascii) : bool :=
  (is_code 0xC2 c1 && (is_code 0x85 c2 || is_code 0xA0 c2))%bool.

(** U+1680, U+2000..U+200A, U+2028, U+2029, U+202F, U+205F and U+3000. *)
Definition space3 (c1 c2 c3 : ascii) : bool :=
  ((is_code 0xE1 c1 && is_code 0x9A c2 && is_code 0x80 c3)
   || (is_code 0xE2 c1 && is_code 0x80 c2
       && ((N.leb 0x80 (code c3) && N.leb (code c3) 0x8A)
           || is_code 0xA8 c3 || is_code 0xA9 c3 || is_code 0xAF c3))
   || (is_code 0xE2 c1 && is_code 0x81 c2 && is_code 0x9F c3)
   || (is_code 0xE3 c1 && is_code 0x80 c2 && is_code 0x80 c3))%bool.

(** Drop leading white space; [flip] reads the multi-byte patterns backwards, for
    the reversed string. *)
Fixpoint trim_from (flip : bool) (l : list ascii) : list ascii :=
  match l with
  | [] => []
  | c1 :: r1 =>
      if ascii_space c1 then trim_from flip r1
      else match r1 with
           | [] => l
           | c2 :: r2 =>
               if (if flip then space2 c2 c1 else space2 c1 c2) then trim_from flip r2
               else match r2 with
                    | [] => l
                    | c3 :: r3 =>
                        if (if flip then space3 c3 c2 c1 else space3 c1 c2 c3)
                        then trim_from flip r3 else l
                    end
           end
  end.

Definition TrimSpace (s : string) : string :=
  String.string_of_list_ascii
    (reverse (trim_from true (reverse (trim_from false (String.list_ascii_of_string s))))).

(** *** [hex.EncodeToString] *)

Definition hex_digit (n : N) : ascii :=
  if N.ltb n 10 then ascii_of_N (48 + n) else ascii_of_N (87 + n).

Fixpoint EncodeToString (b : bytes) : string :=
  match b with
  | [] => EmptyString
  | x :: b' =>
      String (hex_digit (Byte.to_N x / 16))
        (String (hex_digit (Byte.to_N x mod 16)) (EncodeToString b'))
  end.

(** [strings.ToUpper] of an ASCII string. *)
Fixpoint ToUpper_ascii (s : string) : string :=
  match s with
  | EmptyString => EmptyString
  | String c s' => String (ascii_upper c) (ToUpper_ascii s')
  end.

Definition string_of_bytes (b : bytes) : string := String.string_of_list_byte b.
Definition bytes_of_string (s : string) : bytes := String.list_byte_of_string s.

(** *** Facts *)

Example EqualFold_long_s : EqualFold (string_of_bytes (bs [0xC5; 0xBF]%Z)) "S" = true.
Proof. reflexivity. Qed.

Example TrimSpace_both :
  TrimSpace (String.append (string_of_bytes (bs [32; 0xC2; 0xA0]%Z)) "a b
 ") = "a b".
Proof. reflexivity. Qed.

Lemma EncodeToString_length (b : bytes) : String.length (EncodeToString b) = 2 * length b.
Proof. induction b as [|x b IH]; simpl; [done|]. rewrite IH. lia. Qed.

(** Folding and lowering agree on every rune that folds to an ASCII character
    other than [s]. *)
Lemma lower_of_fold (r : rune) (c : ascii) :
  fold_rune r = RAscii c → c ≠ "s"%char → lower_rune r = String c EmptyString.
Proof. destruct r; simpl; naive_solver. Qed.

Lemma lower_of_fold_s (r : rune) :
  fold_rune r = RAscii "s" →
  lower_rune r = "s" ∨ lower_rune r = String (ascii_of_N 0xC5) (String (ascii_of_N 0xBF) EmptyString).
Proof. destruct r as [c| | | |]; simpl; intros; simplify_eq; auto. left. congruence. Qed.
