(* ===== verification/GoUrl.v ===== *)
(** Go's [net/url], [path] and the parts of [net/http] that the clients use: URLs as
    records, escaping, parsing, printing and resolving; query values; lexical path
    cleaning; requests and responses.  The syntax of a bracketed IP literal, which
    releases of Go check differently, is an argument of the parser. *)

From S2P Require Import Prelude GoText.
From Stdlib Require Import Ascii.

Infix "+++" := String.append (at level 60, right associativity).

(** ** Cutting strings *)

(** [strings.Cut(s, c)]: before, after, found. *)
Fixpoint Cut (n : N) (s : string) : string * string * bool :=
  match s with
  | EmptyString => (EmptyString, EmptyString, false)
  | String c s' =>
      if is_code n c then (EmptyString, s', true)
      else let '(a, b, f) := Cut n s' in (String c a, b, f)
  end.

(** [strings.Split(s, c)]. *)
Fixpoint Split (n : N) (s : string) : list string :=
  match s with
  | EmptyString => [EmptyString]
  | String c s' =>
      if is_code n c then EmptyString :: Split n s'
      else match Split n s' with
           | [] => [String c EmptyString]
           | p :: ps => String c p :: ps
           end
  end.

(** Cutting at the last occurrence instead: [None] if there is none. *)
Fixpoint cut_last (n : N) (s : string) : option (string * string) :=
  match s with
  | EmptyString => None
  | String c s' =>
      match cut_last n s' with
      | Some (a, b) => Some (String c a, b)
      | None => if is_code n c then Some (EmptyString, s') else None
      end
  end.

Fixpoint contains_code (n : N) (s : string) : bool :=
  match s with
  | EmptyString => false
  | String c s' => is_code n c || contains_code n s'
  end.

(** [strings.Contains(s, t)] and [strings.HasSuffix(s, t)]. *)
Fixpoint Contains (s t : string) : bool :=
  String.prefix t s || match s with EmptyString => false | String _ s' => Contains s' t end.

Fixpoint HasSuffix (s t : string) : bool :=
  String.eqb s t || match s with EmptyString => false | String _ s' => HasSuffix s' t end.

(** [strings.Trim(s, c)] for one character. *)
Fixpoint trim_left (n : N) (s : string) : string :=
  match s with
  | String c s' => if is_code n c then trim_left n s' else s
  | EmptyString => EmptyString
  end.

Fixpoint trim_right (n : N) (s : string) : string :=
  match s with
  | EmptyString => EmptyString
  | String c s' =>
      match trim_right n s' with
      | EmptyString => if is_code n c then EmptyString else String c EmptyString
      | r => String c r
      end
  end.

Definition Trim (n : N) (s : string) : string := trim_right n (trim_left n s).

Definition is_digit (c : ascii) : bool := (N.leb 48 (code c) && N.leb (code c) 57)%bool.
Definition is_alpha (c : ascii) : bool :=
  ((N.leb 65 (code c) && N.leb (code c) 90) || (N.leb 97 (code c) && N.leb (code c) 122))%bool.

Fixpoint all_chars (p : ascii → bool) (s : string) : bool :=
  match s with EmptyString => true | String c s' => p c && all_chars p s' end.

Definition one_of (s : string) (c : ascii) : bool := contains_code (code c) s.

(** ** Escaping *)

Inductive encoding := encodePath | encodeHost | encodeUserPassword | encodeQueryComponent | encodeFragment.

Definition is_host (mode : encoding) : bool := match mode with encodeHost => true | _ => false end.
Definition is_query (mode : encoding) : bool :=
  match mode with encodeQueryComponent => true | _ => false end.

Definition shouldEscape (c : ascii) (mode : encoding) : bool :=
  if is_alpha c || is_digit c then false
  else if is_host mode && one_of "!$&'()*+,;=:[]<>" c then false
  else if is_host mode && is_code 34 c then false
  else if one_of "-_.~" c then false
  else if one_of "$&+,/:;=?@" c then
    match mode with
    | encodePath => is_code 63 c
    | encodeUserPassword => one_of "@/?:" c
    | encodeQueryComponent => true
    | encodeFragment => false
    | encodeHost => true
    end
  else match mode with
       | encodeFragment => negb (one_of "!()*" c)
       | _ => true
       end.

Definition upper_hex (n : N) : ascii :=
  if N.ltb n 10 then ascii_of_N (48 + n) else ascii_of_N (55 + n).

Definition unhex (c : ascii) : option N :=
  let n := code c in
  if (N.leb 48 n && N.leb n 57)%bool then Some (n - 48)%N
  else if (N.leb 97 n && N.leb n 102)%bool then Some (n - 87)%N
  else if (N.leb 65 n && N.leb n 70)%bool then Some (n - 55)%N
  else None.

Definition escape_char (c : ascii) : string :=
  String "%" (String (upper_hex (code c / 16)) (String (upper_hex (code c mod 16)) EmptyString)).

Fixpoint escape (s : string) (mode : encoding) : string :=
  match s with
  | EmptyString => EmptyString
  | String c s' =>
      if is_query mode && is_code 32 c then String "+" (escape s' mode)
      else if shouldEscape c mode then escape_char c +++ escape s' mode
      else String c (escape s' mode)
  end.

(** Both passes of [unescape]: [None] on a malformed escape, or on a character that may
    not stand in a host. *)
Fixpoint unescape (s : string) (mode : encoding) : option string :=
  match s with
  | EmptyString => Some EmptyString
  | String c s' =>
      if is_code 37 c then
        match s' with
        | String h1 (String h2 s2) =>
            match unhex h1, unhex h2 with
            | Some n1, Some n2 =>
                if is_host mode && N.ltb n1 8 && negb (N.eqb n1 2 && N.eqb n2 5) then None
                else String (ascii_of_N (16 * n1 + n2)) <$> unescape s2 mode
            | _, _ => None
            end
        | _ => None
        end
      else if is_query mode && is_code 43 c then String " " <$> unescape s' mode
      else if is_host mode && N.ltb (code c) 128 && shouldEscape c mode then None
      else String c <$> unescape s' mode
  end.

Definition QueryEscape (s : string) : string := escape s encodeQueryComponent.
Definition QueryUnescape (s : string) : option string := unescape s encodeQueryComponent.

(** ** URLs *)

(** [url.Userinfo]: the password where it is set. *)
Record Userinfo := mkUserinfo { User_username : string; User_password : option string }.

Record URL := mkURL {
  URL_Scheme : string;
  URL_Opaque : string;
  URL_User : option Userinfo;
  URL_Host : string;
  URL_Path : string;
  URL_RawPath : string;
  URL_OmitHost : bool;
  URL_ForceQuery : bool;
  URL_RawQuery : string;
  URL_Fragment : string;
  URL_RawFragment : string;
}.

Definition with_path_query (path query : string) (u : URL) : URL :=
  mkURL (URL_Scheme u) (URL_Opaque u) (URL_User u) (URL_Host u) path (URL_RawPath u) (URL_OmitHost u)
    (URL_ForceQuery u) query (URL_Fragment u) (URL_RawFragment u).

Definition setPath (u : URL) (p : string) : option URL :=
  path ← unescape p encodePath;
  Some (mkURL (URL_Scheme u) (URL_Opaque u) (URL_User u) (URL_Host u) path
          (if String.eqb p (escape path encodePath) then "" else p) (URL_OmitHost u)
          (URL_ForceQuery u) (URL_RawQuery u) (URL_Fragment u) (URL_RawFragment u)).

Definition setFragment (u : URL) (f : string) : option URL :=
  frag ← unescape f encodeFragment;
  Some (mkURL (URL_Scheme u) (URL_Opaque u) (URL_User u) (URL_Host u) (URL_Path u) (URL_RawPath u)
          (URL_OmitHost u) (URL_ForceQuery u) (URL_RawQuery u) frag
          (if String.eqb f (escape frag encodeFragment) then "" else f)).

(** [getScheme]: [None] for a missing protocol scheme. *)
Fixpoint scheme_scan (s : string) : option (string * string) :=
  match s with
  | EmptyString => None
  | String c s' =>
      if is_code 58 c then Some (EmptyString, s')
      else if is_alpha c || is_digit c || one_of "+-." c
      then match scheme_scan s' with Some (a, b) => Some (String c a, b) | None => None end
      else None
  end.

Definition getScheme (s : string) : option (string * string) :=
  match s with
  | EmptyString => Some ("", s)
  | String c _ =>
      if is_code 58 c then None
      else if negb (is_alpha c) then Some ("", s)
      else Some (default ("", s) (scheme_scan s))
  end.

Definition validOptionalPort (port : string) : bool :=
  match port with
  | EmptyString => true
  | String c digits => is_code 58 c && all_chars is_digit digits
  end.

Definition validUserinfo (s : string) : bool :=
  all_chars (λ c, is_alpha c || is_digit c || one_of "-._:~!$&'()*+,;=%@" c) s.

Definition has_ctl (s : string) : bool :=
  negb (all_chars (λ c, negb (N.ltb (code c) 32 || is_code 127 c)) s).

Section parse.
(** a host that starts with a bracket *)
Context (bracketed_host : string → option string).

Definition parseHost (host : string) : option string :=
  if HasPrefix host "[" then bracketed_host host
  else
    match cut_last 58 host with
    | Some (_, port) =>
        if all_chars is_digit port then unescape host encodeHost else None
    | None => unescape host encodeHost
    end.

Definition parseAuthority (authority : string) : option (option Userinfo * string) :=
  match cut_last 64 authority with
  | None => host ← parseHost authority; Some (None, host)
  | Some (userinfo, rest) =>
      host ← parseHost rest;
      if negb (validUserinfo userinfo) then None
      else
        let '(username, password, set) := Cut 58 userinfo in
        username ← unescape username encodeUserPassword;
        if set : bool then
          password ← unescape password encodeUserPassword;
          Some (Some (mkUserinfo username (Some password)), host)
        else Some (Some (mkUserinfo username None), host)
  end.

(** [parse(rawURL, false)]: no fragment. *)
Definition parse_ (rawURL : string) : option URL :=
  if has_ctl rawURL then None
  else if String.eqb rawURL "*" then Some (mkURL "" "" None "" "*" "" false false "" "" "")
  else
    r ← getScheme rawURL;
    let scheme := ToLower r.1 in
    let '(before, query, found) := Cut 63 r.2 in
    let force := found && String.eqb query "" in
    let rest := before in
    let url := mkURL scheme "" None "" "" "" false force query "" "" in
    if negb (HasPrefix rest "/") && negb (String.eqb scheme "")
    then Some (mkURL scheme rest None "" "" "" false force query "" "")
    else if negb (HasPrefix rest "/") && contains_code 58 (Cut 47 rest).1.1 then None
    else if (negb (String.eqb scheme "") || negb (HasPrefix rest "///")) && HasPrefix rest "//" then
      let '(authority, tail, slash) := Cut 47 (String.substring 2 (String.length rest) rest) in
      a ← parseAuthority authority;
      setPath (mkURL scheme "" a.1 a.2 "" "" false force query "" "")
        (if slash : bool then String "/" tail else "")
    else
      setPath (mkURL scheme "" None "" "" ""
                 (negb (String.eqb scheme "") && HasPrefix rest "/") force query "" "") rest.

Definition Parse (rawURL : string) : option URL :=
  let '(u, frag, _) := Cut 35 rawURL in
  url ← parse_ u;
  if String.eqb frag "" then Some url else setFragment url frag.

(** [validEncoded] and [EscapedPath]. *)
Definition validEncoded (s : string) (mode : encoding) : bool :=
  all_chars (λ c, one_of "!$&'()*+,;=:@[]%" c || negb (shouldEscape c mode)) s.

Definition EscapedPath (u : URL) : string :=
  if negb (String.eqb (URL_RawPath u) "") && validEncoded (URL_RawPath u) encodePath &&
     bool_decide (unescape (URL_RawPath u) encodePath = Some (URL_Path u))
  then URL_RawPath u
  else if String.eqb (URL_Path u) "*" then "*" else escape (URL_Path u) encodePath.

Definition EscapedFragment (u : URL) : string :=
  if negb (String.eqb (URL_RawFragment u) "") && validEncoded (URL_RawFragment u) encodeFragment &&
     bool_decide (unescape (URL_RawFragment u) encodeFragment = Some (URL_Fragment u))
  then URL_RawFragment u
  else escape (URL_Fragment u) encodeFragment.

Definition Userinfo_String (ui : Userinfo) : string :=
  escape (User_username ui) encodeUserPassword +++
  match User_password ui with Some p => ":" +++ escape p encodeUserPassword | None => "" end.

Definition is_some_user (u : URL) : bool := match URL_User u with Some _ => true | None => false end.

(** [URL.String]. *)
Definition URL_String (u : URL) : string :=
  let scheme := if String.eqb (URL_Scheme u) "" then "" else URL_Scheme u +++ ":" in
  let no_host := String.eqb (URL_Host u) "" in
  let body :=
    if negb (String.eqb (URL_Opaque u) "") then URL_Opaque u
    else
      let authority :=
        if (negb (String.eqb (URL_Scheme u) "") || negb no_host || is_some_user u) &&
           negb (URL_OmitHost u && no_host && negb (is_some_user u)) then
          (if negb no_host || negb (String.eqb (URL_Path u) "") || is_some_user u then "//" else "") +++
          (match URL_User u with Some ui => Userinfo_String ui +++ "@" | None => "" end) +++
          escape (URL_Host u) encodeHost
        else "" in
      let path := EscapedPath u in
      let slash := if negb (String.eqb path "") && negb (HasPrefix path "/") && negb no_host then "/" else "" in
      let dot := if String.eqb (scheme +++ authority +++ slash) "" && contains_code 58 (Cut 47 path).1.1
                 then "./" else "" in
      authority +++ slash +++ dot +++ path in
  scheme +++ body +++
  (if URL_ForceQuery u || negb (String.eqb (URL_RawQuery u) "") then "?" +++ URL_RawQuery u else "") +++
  (if String.eqb (URL_Fragment u) "" then "" else "#" +++ EscapedFragment u).

(** [URL.Hostname]: the host without its port and without brackets. *)
Definition Hostname (u : URL) : string :=
  let host := URL_Host u in
  let host := match cut_last 58 host with
              | Some (h, port) => if all_chars is_digit port then h else host
              | None => host
              end in
  if HasPrefix host "[" && HasSuffix host "]"
  then String.substring 1 (String.length host - 2) host else host.

(** [resolvePath]: one turn of its loop is one segment; [dst] is the output after the
    slash it starts with. *)
Fixpoint resolve_segments (segs : list string) (dst : string) (first : bool) : string :=
  match segs with
  | [] => dst
  | elem :: rest =>
      let last := match rest with [] => true | _ => false end in
      if String.eqb elem "." then
        resolve_segments rest (if last then dst +++ "/" else dst) false
      else if String.eqb elem ".." then
        match cut_last 47 dst with
        | None => resolve_segments rest (if last then "/" else "") true
        | Some (d, _) => resolve_segments rest (if last then d +++ "/" else d) first
        end
      else resolve_segments rest (dst +++ (if first then "" else "/") +++ elem) false
  end.

Definition resolvePath (base ref : string) : string :=
  let full :=
    if String.eqb ref "" then base
    else if HasPrefix ref "/" then ref
    else match cut_last 47 base with
         | Some (d, _) => d +++ "/" +++ ref
         | None => ref
         end in
  if String.eqb full "" then ""
  else
    let r := resolve_segments (Split 47 full) "" true in
    if HasPrefix r "/" then r else String "/" r.

(** [setPath] leaves the URL alone when it fails, and its error is ignored. *)
Definition ResolveReference (u ref : URL) : URL :=
  let scheme := if String.eqb (URL_Scheme ref) "" then URL_Scheme u else URL_Scheme ref in
  let url := mkURL scheme (URL_Opaque ref) (URL_User ref) (URL_Host ref) (URL_Path ref) (URL_RawPath ref)
               (URL_OmitHost ref) (URL_ForceQuery ref) (URL_RawQuery ref) (URL_Fragment ref) (URL_RawFragment ref) in
  if negb (String.eqb (URL_Scheme ref) "") || negb (String.eqb (URL_Host ref) "") || is_some_user ref
  then default url (setPath url (resolvePath (EscapedPath ref) ""))
  else if negb (String.eqb (URL_Opaque ref) "")
  then mkURL scheme (URL_Opaque ref) None "" "" (URL_RawPath ref) (URL_OmitHost ref)
               (URL_ForceQuery ref) (URL_RawQuery ref) (URL_Fragment ref) (URL_RawFragment ref)
  else
    let keep := String.eqb (URL_Path ref) "" && negb (URL_ForceQuery ref) && String.eqb (URL_RawQuery ref) "" in
    let query := if keep then URL_RawQuery u else URL_RawQuery ref in
    let keepf := keep && String.eqb (URL_Fragment ref) "" in
    let frag := if keepf then URL_Fragment u else URL_Fragment ref in
    let rawfrag := if keepf then URL_RawFragment u else URL_RawFragment ref in
    if String.eqb (URL_Path ref) "" && negb (String.eqb (URL_Opaque u) "")
    then mkURL scheme (URL_Opaque u) None "" "" (URL_RawPath ref) (URL_OmitHost ref)
                 (URL_ForceQuery ref) query frag rawfrag
    else
      let url := mkURL scheme (URL_Opaque ref) (URL_User u) (URL_Host u) (URL_Path ref) (URL_RawPath ref)
                   (URL_OmitHost ref) (URL_ForceQuery ref) query frag rawfrag in
      default url (setPath url (resolvePath (EscapedPath u) (EscapedPath ref))).

(** [URL.Parse]. *)
Definition URL_Parse (u : URL) (ref : string) : option URL :=
  refURL ← Parse ref;
  Some (ResolveReference u refURL).
End parse.

(** ** Query values *)

(** [url.Values]: a map from names to values; each name once. *)
Abbreviation Values := (list (string * list string)).

Fixpoint Values_Add (k v : string) (q : Values) : Values :=
  match q with
  | [] => [(k, [v])]
  | (k', vs) :: q' => if String.eqb k k' then (k, vs ++ [v]) :: q' else (k', vs) :: Values_Add k v q'
  end.

Definition Values_Set (k v : string) (q : Values) : Values :=
  filter (λ e, String.eqb e.1 k = false) q ++ [(k, [v])].

(** [URL.Query]: malformed pairs are dropped. *)
Definition ParseQuery (query : string) : Values :=
  foldl (λ q pair,
    if String.eqb pair "" || contains_code 59 pair then q
    else
      let '(k, v, _) := Cut 61 pair in
      match QueryUnescape k, QueryUnescape v with
      | Some k, Some v => Values_Add k v q
      | _, _ => q
      end) [] (Split 38 query).

Definition key_le (a b : string * list string) : Prop := String.leb a.1 b.1 = true.
#[export] Instance key_le_dec a b : Decision (key_le a b).
Proof. unfold key_le. apply _. Defined.

(** [Values.Encode]: sorted by name. *)
Definition Values_Encode (q : Values) : string :=
  String.concat "&"
    (concat (map (λ '(k, vs), map (λ v, QueryEscape k +++ "=" +++ QueryEscape v) vs)
       (merge_sort key_le q))).

(** ** package path *)

(** [path.Clean], segment by segment: [out] is the cleaned path reversed. *)
Fixpoint clean_segments (rooted : bool) (segs : list string) (out : list string) : list string :=
  match segs with
  | [] => reverse out
  | s :: rest =>
      if String.eqb s "" || String.eqb s "." then clean_segments rooted rest out
      else if String.eqb s ".." then
        match out with
        | o :: out' => if String.eqb o ".." then clean_segments rooted rest (s :: out)
                       else clean_segments rooted rest out'
        | [] => clean_segments rooted rest (if rooted then [] else [s])
        end
      else clean_segments rooted rest (s :: out)
  end.

Definition Clean (p : string) : string :=
  let rooted := HasPrefix p "/" in
  let out := String.concat "/" (clean_segments rooted (Split 47 p) []) in
  if rooted then "/" +++ out else if String.eqb out "" then "." else out.

(** [path.Join], and [filepath.Join] on Unix. *)
Definition Join (elems : list string) : string :=
  match filter (λ e, String.eqb e "" = false) elems with
  | [] => ""
  | l => Clean (String.concat "/" l)
  end.

(** ** net/http *)

(** [http.Client]: its transport is the [Client_Insecure] flag. *)
Record HttpClient := mkHttpClient { Client_Timeout : Z; Client_Insecure : bool }.

Record HttpRequest := mkHttpRequest {
  Http_Method : string;
  Http_URL : string;
  Http_Header : list (string * string);
  Http_Body : bytes;
}.

(** [None] is a body that cannot be read to its end. *)
Record HttpResponse := mkHttpResponse {
  Http_StatusCode : Z;
  Http_ResponseHeader : list (string * string);
  Http_ResponseBody : option bytes;
}.

(** [Header.Get]: names of headers do not depend on case; absent is empty. *)
Definition Header_Get (header : list (string * string)) (key : string) : string :=
  default "" (snd <$> List.find (λ e, String.eqb (ToLower e.1) (ToLower key)) header).

(** ** Facts *)

(** One character of [QueryEscape]. *)
Definition query_char (c : ascii) : string :=
  if is_code 32 c then "+"
  else if shouldEscape c encodeQueryComponent then escape_char c else String c EmptyString.

Lemma QueryEscape_cons c s : QueryEscape (String c s) = query_char c +++ QueryEscape s.
Proof.
  unfold QueryEscape, query_char. cbn [escape is_query andb]. destruct (is_code 32 c); [done|].
  by destruct (shouldEscape _ _).
Qed.

Lemma unescape_query_char c s :
  unescape (query_char c +++ s) encodeQueryComponent = String c <$> unescape s encodeQueryComponent.
Proof. destruct c as [[] [] [] [] [] [] [] []]; reflexivity. Qed.

Lemma QueryUnescape_QueryEscape s : QueryUnescape (QueryEscape s) = Some s.
Proof.
  unfold QueryUnescape. induction s as [|c s IH]; [done|].
  by rewrite QueryEscape_cons, unescape_query_char, IH.
Qed.

(** An escaped string has none of the characters that structure a query. *)
Lemma contains_code_app n s t : contains_code n (s +++ t) = contains_code n s || contains_code n t.
Proof. induction s as [|c s IH]; simpl; [done|]. by rewrite IH, orb_assoc. Qed.

Lemma query_char_plain n c :
  n ∈ [38; 59; 61; 47; 63; 35]%N → contains_code n (query_char c) = false.
Proof.
  intros Hn. repeat (apply elem_of_cons in Hn as [->|Hn];
    [destruct c as [[] [] [] [] [] [] [] []]; reflexivity|]).
  by apply not_elem_of_nil in Hn.
Qed.

Lemma QueryEscape_plain n s :
  n ∈ [38; 59; 61; 47; 63; 35]%N → contains_code n (QueryEscape s) = false.
Proof.
  intros Hn. induction s as [|c s IH]; [done|].
  by rewrite QueryEscape_cons, contains_code_app, query_char_plain, IH.
Qed.

Lemma QueryEscape_id s : all_chars (λ c, is_alpha c || is_digit c) s = true → QueryEscape s = s.
Proof.
  induction s as [|c s IH]; [done|]. cbn [all_chars]. intros [Hc Hs]%andb_true_iff.
  rewrite QueryEscape_cons, IH by done. revert Hc. by destruct c as [[] [] [] [] [] [] [] []].
Qed.

Lemma Split_plain n s : contains_code n s = false → Split n s = [s].
Proof.
  induction s as [|c s IH]; simpl; [done|]. intros [Hc Hs]%orb_false_iff.
  by rewrite Hc, IH.
Qed.

Lemma Cut_app n s c t :
  contains_code n s = false → is_code n c = true → Cut n (s +++ String c t) = (s, t, true).
Proof.
  intros Hs Hc. induction s as [|c' s IH]; simpl in *; [by rewrite Hc|].
  apply orb_false_iff in Hs as [Hc' Hs]. rewrite Hc'. by rewrite IH.
Qed.

(** A single value survives the way through a URL. *)
Lemma ParseQuery_Encode_single k v :
  k ≠ "" → ParseQuery (Values_Encode [(k, [v])]) = [(k, [v])].
Proof.
  intros Hk. unfold Values_Encode.
  change (merge_sort key_le [(k, [v])]) with [(k, [v])]. cbn [map concat app String.concat].
  unfold ParseQuery.
  assert (∀ n, n ∈ [38; 59]%N → contains_code n (QueryEscape k +++ "=" +++ QueryEscape v) = false) as Hp.
  { intros n Hn. rewrite !contains_code_app.
    assert (n ∈ [38; 59; 61; 47; 63; 35]%N) as Hn' by set_solver.
    rewrite !QueryEscape_plain by done. apply elem_of_cons in Hn as [->|Hn]; [done|].
    apply list_elem_of_singleton in Hn as ->. done. }
  rewrite Split_plain by (apply Hp; left). cbn [foldl].
  rewrite Hp by (right; left).
  destruct (String.eqb_spec (QueryEscape k +++ "=" +++ QueryEscape v) "") as [He|_].
  { destruct (QueryEscape k); done. }
  cbn [orb]. change ("=" +++ QueryEscape v) with (String "=" (QueryEscape v)).
  rewrite Cut_app; [|apply QueryEscape_plain; set_solver|done].
  by rewrite !QueryUnescape_QueryEscape.
Qed.

(** *** Paths *)

Lemma append_cons c (s t : string) : String c s +++ t = String c (s +++ t).
Proof. done. Qed.

Lemma list_of_app s t :
  String.list_ascii_of_string (s +++ t) = String.list_ascii_of_string s ++ String.list_ascii_of_string t.
Proof. induction s as [|c s IH]; [done|]. rewrite append_cons. simpl. by rewrite IH. Qed.

Lemma list_of_inj s t : String.list_ascii_of_string s = String.list_ascii_of_string t → s = t.
Proof.
  intros Hl. rewrite <- (String.string_of_list_ascii_of_string s), <- (String.string_of_list_ascii_of_string t).
  by rewrite Hl.
Qed.

Lemma string_app_inj_l d s t : d +++ s = d +++ t → s = t.
Proof. induction d as [|c d IH]; [done|]. rewrite !append_cons. intros [= H]. auto. Qed.

Lemma string_app_inj_r s t d : s +++ d = t +++ d → s = t.
Proof.
  intros H. apply (f_equal String.list_ascii_of_string) in H. rewrite !list_of_app in H.
  by apply app_inv_tail, list_of_inj in H.
Qed.

Lemma string_app_assoc (a b c : string) : (a +++ b) +++ c = a +++ b +++ c.
Proof. induction a as [|x a IH]; [done|]. by rewrite !append_cons, IH. Qed.

Lemma string_app_nil_r (s : string) : s +++ "" = s.
Proof. induction s as [|x s IH]; [done|]. by rewrite append_cons, IH. Qed.

Lemma Split_cons n s : ∃ p ps, Split n s = p :: ps.
Proof.
  destruct s as [|c s]; simpl; [eauto|]. destruct (is_code n c); [eauto|].
  destruct (Split n s); eauto.
Qed.

Lemma Split_app n s c t : is_code n c = true → Split n (s +++ String c t) = Split n s ++ Split n t.
Proof.
  intros Hc. induction s as [|c' s IH]; [simpl; by rewrite Hc|]. rewrite append_cons. simpl. rewrite IH.
  destruct (is_code n c'); [done|]. destruct (Split_cons n s) as (p & ps & ->). done.
Qed.

(** A file name: one segment that [Clean] keeps. *)
Definition file_name (s : string) : Prop :=
  contains_code 47 s = false ∧ s ≠ "" ∧ s ≠ "." ∧ s ≠ "..".

Lemma clean_segments_last rooted segs out :
  ∃ front, ∀ s, file_name s → clean_segments rooted (segs ++ [s]) out = front ++ [s].
Proof.
  revert out. induction segs as [|x segs IH]; intros out.
  - exists (reverse out). intros s (_ & H1 & H2 & H3). cbn [app clean_segments].
    rewrite !(proj2 (String.eqb_neq _ _)) by done. cbn [orb]. by rewrite reverse_cons.
  - cbn [app clean_segments]. repeat case_match; apply IH.
Qed.

Lemma concat_last sep l : ∃ front, ∀ s, String.concat sep (l ++ [s]) = front +++ s.
Proof.
  induction l as [|x l [front IH]]; [by exists ""|].
  exists (x +++ sep +++ front). intros s. cbn [app]. specialize (IH s).
  destruct (l ++ [s]) as [|y l'] eqn:He; [by destruct l|].
  change (String.concat sep (x :: y :: l')) with (x +++ sep +++ String.concat sep (y :: l')).
  by rewrite IH, !string_app_assoc.
Qed.

(** All files of a directory have one prefix. *)
Lemma Join_dir dir : ∃ front, ∀ s, file_name s → Join [dir; s] = front +++ s.
Proof.
  destruct (clean_segments_last (HasPrefix dir "/") (if String.eqb dir "" then [] else Split 47 dir) [])
    as [segs Hsegs].
  destruct (concat_last "/" segs) as [front Hfront].
  exists (if HasPrefix dir "/" then "/" +++ front else front). intros s Hs.
  pose proof Hs as (Hplain & Hne & _ & _).
  assert (String.eqb s "" = false) as Hse by (by apply String.eqb_neq).
  assert (∀ f : string, f +++ s ≠ "") as Hfs by (by intros [|??]; destruct s).
  unfold Join. rewrite filter_cons. destruct (String.eqb_spec dir "") as [->|Hdir].
  - rewrite decide_False by done. rewrite filter_cons, decide_True by done. cbn [filter list_filter].
    change (String.concat "/" [s]) with s. change (HasPrefix "" "/") with false in *. unfold Clean.
    assert (HasPrefix s "/" = false) as ->.
    { destruct s as [|c s]; [done|]. unfold HasPrefix, String.prefix. destruct (ascii_dec _ _) as [<-|]; done. }
    rewrite Split_plain by done. specialize (Hsegs s Hs). cbn [app] in Hsegs. rewrite Hsegs, Hfront.
    destruct (String.eqb_spec (front +++ s) "") as [He|]; [by destruct (Hfs front)|done].
  - rewrite decide_True by done. rewrite filter_cons, decide_True by done. cbn [filter list_filter].
    change (String.concat "/" [dir; s]) with (dir +++ String "/" s). unfold Clean.
    assert (HasPrefix (dir +++ String "/" s) "/" = HasPrefix dir "/") as ->.
    { destruct dir as [|c dir]; [done|]. rewrite append_cons. unfold HasPrefix, String.prefix.
      destruct (ascii_dec "/" c); [|done]. by destruct (dir +++ _), dir. }
    rewrite Split_app by done. rewrite (Split_plain 47 s) by done. rewrite (Hsegs s Hs), Hfront.
    destruct (HasPrefix dir "/"); [by rewrite string_app_assoc|].
    destruct (String.eqb_spec (front +++ s) "") as [He|]; [by destruct (Hfs front)|done].
Qed.
