(* ===== verification/GoFormat.v ===== *)
(** Text as the standard library makes it: UTF-8 decoding, [strconv.Quote], and which of it
    is free of C0 control characters. *)

From S2P Require Import Prelude GoText GoUrl.
From stdpp Require Import pretty.
From Stdlib Require Import Ascii.

(** ** UTF-8 and strconv.Quote *)

(** A byte that is not part of valid UTF-8, or a rune with its encoding. *)
Inductive utf8_token := TInvalid (c : ascii) | TRune (r : N) (enc : list ascii).

Definition in_range (lo hi : N) (c : ascii) : bool := (N.leb lo (code c) && N.leb (code c) hi)%bool.
Definition continuation : ascii → bool := in_range 0x80 0xBF.
Definition bits6 (c : ascii) : N := code c mod 64.

Definition valid2 (c1 c2 : ascii) : bool := (in_range 0xC2 0xDF c1 && continuation c2)%bool.
Definition valid3 (c1 c2 c3 : ascii) : bool :=
  (continuation c3 &&
   ((is_code 0xE0 c1 && in_range 0xA0 0xBF c2)
    || ((in_range 0xE1 0xEC c1 || in_range 0xEE 0xEF c1) && continuation c2)
    || (is_code 0xED c1 && in_range 0x80 0x9F c2)))%bool.
Definition valid4 (c1 c2 c3 c4 : ascii) : bool :=
  (continuation c3 && continuation c4 &&
   ((is_code 0xF0 c1 && in_range 0x90 0xBF c2)
    || (in_range 0xF1 0xF3 c1 && continuation c2)
    || (is_code 0xF4 c1 && in_range 0x80 0x8F c2)))%bool.

(** [utf8.DecodeRuneInString], repeatedly. *)
Fixpoint utf8 (l : list ascii) : list utf8_token :=
  match l with
  | [] => []
  | c1 :: l1 =>
      if N.ltb (code c1) 0x80 then TRune (code c1) [c1] :: utf8 l1
      else match l1 with
           | c2 :: l2 =>
               if valid2 c1 c2 then TRune (code c1 mod 32 * 64 + bits6 c2) [c1; c2] :: utf8 l2
               else match l2 with
                    | c3 :: l3 =>
                        if valid3 c1 c2 c3
                        then TRune ((code c1 mod 16 * 64 + bits6 c2) * 64 + bits6 c3) [c1; c2; c3] :: utf8 l3
                        else match l3 with
                             | c4 :: l4 =>
                                 if valid4 c1 c2 c3 c4
                                 then TRune (((code c1 mod 8 * 64 + bits6 c2) * 64 + bits6 c3) * 64 + bits6 c4)
                                        [c1; c2; c3; c4] :: utf8 l4
                                 else TInvalid c1 :: utf8 l1
                             | [] => TInvalid c1 :: utf8 l1
                             end
                    | [] => TInvalid c1 :: utf8 l1
                    end
           | [] => [TInvalid c1]
           end
  end.

(** [n] lower-case hexadecimal digits. *)
Fixpoint hex_digits (n : nat) (r : N) : list ascii :=
  match n with
  | O => []
  | S n => hex_digits n (r / 16) ++ [hex_digit (r mod 16)]
  end.

Definition backslash : ascii := ascii_of_N 92.
Definition double_quote : ascii := ascii_of_N 34.

(** What text takes from the standard library's tables and formatters. *)
Class Formats := {
  (** the runes from U+0080 on that [strconv.IsPrint] accepts *)
  unicode_IsPrint : N → bool;
  (** [Time.UTC().Format(time.RFC3339Nano)], [Duration.String],
      [strconv.FormatFloat(v, 'g', -1, 64)] of the bits of [v] *)
  Format_RFC3339Nano : Z → string;
  Duration_String : Z → string;
  FormatFloat : Z → string;
}.

Section quote.
Context `{Formats}.

Definition IsPrint (r : N) : bool :=
  if N.ltb r 0x80 then (N.leb 0x20 r && N.leb r 0x7E)%bool else unicode_IsPrint r.

(** The escapes of the control characters that have a letter. *)
Definition escape_letter (r : N) : option ascii :=
  match r with
  | 7 => Some "a"%char | 8 => Some "b"%char | 12 => Some "f"%char | 10 => Some "n"%char
  | 13 => Some "r"%char | 9 => Some "t"%char | 11 => Some "v"%char
  | _ => None
  end%N.

Definition quote_token (t : utf8_token) : list ascii :=
  match t with
  | TInvalid c => [backslash; "x"%char] ++ hex_digits 2 (code c)
  | TRune r enc =>
      if (N.eqb r 34 || N.eqb r 92)%bool then backslash :: enc
      else if IsPrint r then enc
      else match escape_letter r with
           | Some c => [backslash; c]
           | None =>
               if (N.ltb r 0x20 || N.eqb r 0x7F)%bool then [backslash; "x"%char] ++ hex_digits 2 r
               else if N.ltb r 0x10000 then [backslash; "u"%char] ++ hex_digits 4 r
               else [backslash; "U"%char] ++ hex_digits 8 r
           end
  end.

Definition Quote (s : string) : string :=
  String.string_of_list_ascii
    (double_quote :: concat (map quote_token (utf8 (String.list_ascii_of_string s))) ++ [double_quote]).
End quote.

(** [strings.Join]. *)
Fixpoint strings_Join (sep : string) (l : list string) : string :=
  match l with
  | [] => ""
  | [s] => s
  | s :: l' => s +++ sep +++ strings_Join sep l'
  end.

(** ** Text without C0 control characters *)

Section no_c0.
Context `{Formats}.

(** No byte below the space: newline, carriage return, tab, escape and the other C0
    controls. DEL (0x7F) and the C1 controls, encoded as 0xC2 0x80 to 0xC2 0x9F, are not
    excluded. *)
Definition not_c0 (c : ascii) : Prop := (32 ≤ code c)%N.
Definition no_c0 (s : string) : Prop := Forall not_c0 (String.list_ascii_of_string s).

Lemma no_c0_app s t : no_c0 s → no_c0 t → no_c0 (s +++ t).
Proof. unfold no_c0. rewrite list_of_app. apply Forall_app_2. Qed.

Lemma no_c0_join sep l : no_c0 sep → Forall no_c0 l → no_c0 (strings_Join sep l).
Proof.
  intros Hsep. induction 1 as [|s l Hs Hl IH]; [constructor|].
  destruct l; [done|]. apply no_c0_app; [done|by apply no_c0_app].
Qed.

(** A token is one byte below 128, or made of bytes that are not. *)
Definition token_bytes (t : utf8_token) : Prop :=
  match t with
  | TInvalid c => (128 ≤ code c)%N
  | TRune r enc => (∃ c, enc = [c] ∧ r = code c ∧ (code c < 128)%N) ∨ Forall (λ c, 128 ≤ code c)%N enc
  end.
Definition bytes_of (t : utf8_token) : list ascii :=
  match t with TInvalid c => [c] | TRune _ enc => enc end.

Lemma in_range_lo lo hi c : in_range lo hi c = true → (lo ≤ code c)%N.
Proof. unfold in_range. rewrite andb_true_iff, N.leb_le. tauto. Qed.

Lemma high_bytes c1 c2 c3 c4 :
  (128 ≤ code c1)%N →
  (valid2 c1 c2 = true → Forall (λ c, 128 ≤ code c)%N [c1; c2]) ∧
  (valid3 c1 c2 c3 = true → Forall (λ c, 128 ≤ code c)%N [c1; c2; c3]) ∧
  (valid4 c1 c2 c3 c4 = true → Forall (λ c, 128 ≤ code c)%N [c1; c2; c3; c4]).
Proof.
  intros H1. unfold valid2, valid3, valid4, continuation, in_range, is_code.
  rewrite !andb_true_iff, !orb_true_iff, !andb_true_iff, !orb_true_iff, !N.leb_le, !N.eqb_eq.
  split_and!; intros Hv; repeat constructor; lia.
Qed.

(** Decoding reads the bytes in order. *)
Lemma utf8_bytes l : Forall token_bytes (utf8 l) ∧ concat (map bytes_of (utf8 l)) = l.
Proof.
  enough (∀ n l, length l ≤ n → Forall token_bytes (utf8 l) ∧ concat (map bytes_of (utf8 l)) = l) by eauto.
  clear l. intros n. induction n as [|n IH]; intros [|c1 l1]; simpl; try (by split; [constructor|]); [lia|].
  intros Hl. assert (∀ t l', token_bytes t → length l' ≤ n →
    Forall token_bytes (t :: utf8 l') ∧ concat (map bytes_of (t :: utf8 l')) = bytes_of t ++ l') as Hcons.
  { intros t l' Ht [? Hc]%IH. simpl. rewrite Hc. by split; [constructor|]. }
  destruct (N.ltb_spec (code c1) 128) as [Hc1|Hc1].
  { apply Hcons; [|lia]. left. by exists c1. }
  destruct l1 as [|c2 l2]; [by split; [repeat constructor|]|].
  destruct (valid2 c1 c2) eqn:V2.
  { apply Hcons; [right; by apply (high_bytes c1 c2 c1 c1)|simpl in *; lia]. }
  destruct l2 as [|c3 l3]; [apply Hcons; [done|simpl in *; lia]|].
  destruct (valid3 c1 c2 c3) eqn:V3.
  { apply Hcons; [right; by apply (high_bytes c1 c2 c3 c1)|simpl in *; lia]. }
  destruct l3 as [|c4 l4]; [apply Hcons; [done|simpl in *; lia]|].
  destruct (valid4 c1 c2 c3 c4) eqn:V4;
    (apply Hcons; [first [right; by apply (high_bytes c1 c2 c3 c4)|done]|simpl in *; lia]).
Qed.

Lemma hex_digit_not_c0 n : (n < 16)%N → not_c0 (hex_digit n).
Proof.
  intros Hn. unfold not_c0, hex_digit, code. case_match; rewrite N_ascii_embedding by lia; lia.
Qed.

Lemma hex_digits_not_c0 n r : Forall not_c0 (hex_digits n r).
Proof.
  revert r. induction n as [|n IH]; intros r; simpl; [constructor|]. apply Forall_app_2; [done|].
  constructor; [|constructor]. apply hex_digit_not_c0, N.mod_lt. done.
Qed.

Lemma escape_not_c0 x l : not_c0 x → Forall not_c0 l → Forall not_c0 (backslash :: x :: l).
Proof. by repeat constructor. Qed.

Lemma quote_token_not_c0 t : token_bytes t → Forall not_c0 (quote_token t).
Proof.
  destruct t as [c|r enc]; simpl.
  - intros _. apply escape_not_c0; [done|apply (hex_digits_not_c0 2)].
  - intros He. assert ((32 ≤ r)%N → Forall not_c0 enc) as Henc.
    { intros Hr. destruct He as [(c & -> & -> & _)|He]; [by constructor|].
      eapply Forall_impl; [exact He|]. unfold not_c0. lia. }
    destruct (N.eqb r 34 || N.eqb r 92)%bool eqn:E.
    { constructor; [done|]. apply Henc. apply orb_true_iff in E as [->%N.eqb_eq| ->%N.eqb_eq]; lia. }
    destruct (IsPrint r) eqn:Hp.
    { apply Henc. unfold IsPrint in Hp. change 0x80%N with 128%N in Hp.
      destruct (N.ltb_spec r 128); [|lia]. apply andb_true_iff in Hp as [Hp%N.leb_le _]. done. }
    destruct (escape_letter r) as [x|] eqn:Hx.
    { apply escape_not_c0; [|constructor]. unfold escape_letter in Hx. repeat case_match; by simplify_eq. }
    repeat case_match; (apply escape_not_c0; [done|]);
      [apply (hex_digits_not_c0 2)|apply (hex_digits_not_c0 4)|apply (hex_digits_not_c0 8)].
Qed.

Lemma Quote_no_c0 s : no_c0 (Quote s).
Proof.
  unfold no_c0, Quote. rewrite String.list_ascii_of_string_of_list_ascii.
  constructor; [done|]. apply Forall_app_2; [|by repeat constructor].
  apply Forall_concat, Forall_map. destruct (utf8_bytes (String.list_ascii_of_string s)) as [Ht _].
  eapply Forall_impl; [exact Ht|]. apply quote_token_not_c0.
Qed.

Lemma pretty_N_no_c0 (n : N) : no_c0 (pretty n).
Proof.
  unfold pretty, pretty_N. case_decide; [by repeat constructor|].
  assert (∀ x s, no_c0 s → no_c0 (pretty_N_go x s)) as Hgo; [|apply Hgo; constructor].
  intros x. induction (N.lt_wf_0 x) as [x _ IH]. intros s Hs.
  destruct (decide (0 < x)%N) as [Hx|]; [|by replace x with 0%N by lia].
  rewrite pretty_N_go_step by done. apply IH; [by apply N.div_lt|].
  constructor; [|done]. unfold pretty_N_char, not_c0. repeat case_match; done.
Qed.

Lemma pretty_Z_no_c0 (z : Z) : no_c0 (pretty z).
Proof. destruct z; simpl; [by repeat constructor|apply pretty_N_no_c0|constructor; [done|apply pretty_N_no_c0]]. Qed.

(** The formatters print no C0 control character. *)
Class C0FreeFormats : Prop := {
  Format_RFC3339Nano_no_c0 t : no_c0 (Format_RFC3339Nano t);
  Duration_String_no_c0 d : no_c0 (Duration_String d);
  FormatFloat_no_c0 b : no_c0 (FormatFloat b);
}.
End no_c0.
