(* ===== verification/Model.v ===== *)
(** Error values and the rows of the state database: [internal/tam/errors.go],
    [internal/suit/error.go], [internal/domain/error.go], [internal/domain/model]
    and the schema of [internal/infra/sqlite/database.go]. *)

From S2P Require Import Prelude.

(** ** Errors

    Sentinels are compared by identity in Go, so each is a constructor.
    [ErrorString] is [errors.New] or [fmt.Errorf] without [%w]; [Wrapped] is
    [fmt.Errorf] with [%w].  [ErrNoRows] is [sql.ErrNoRows], [ErrDriver] any other
    error of the database driver, [ErrLib] an error value made by a library. *)
Inductive error : Type :=
  (* internal/tam/errors.go *)
  | ErrFatal
  | ErrNotTEEPMessage
  | ErrNotSupported
  | ErrInvalidType
  | ErrInvalidValue
  | ErrKidIsMissing
  | ErrNotAuthenticated
  | ErrVerifierNotConfigured
  | ErrAttestationFailed
  | ErrNotAResponse
  | ErrAttestationPayloadNotFound
  (* internal/suit/error.go *)
  | ErrSUITFatal
  | ErrSUITManifestInvalidFormat
  | ErrSUITManifestNotAuthenticated
  | ErrSUITManifestMissingKID
  | ErrSUITManifestSmallerSequenceNumber
  | ErrSUITManifestSigningKeyMismatch
  (* internal/domain/error.go *)
  | ErrNotFound
  | ErrExpired
  | ErrRevoked
  (* libraries *)
  | ErrNoRows
  | ErrDriver
  | ErrLib
  | ErrNotExist
  | ErrIO
  | ErrorString (s : string)
  | Wrapped (s : string) (e : error).

#[export] Instance error_eq_dec : EqDecision error.
Proof. solve_decision. Defined.

(** [errors.Is(err, target)]. *)
Fixpoint errors_Is (e target : error) : bool :=
  bool_decide (e = target) ||
  match e with Wrapped _ e' => errors_Is e' target | _ => false end.

(** ** Rows

    One record per Go struct of [internal/domain/model] (the field names carry the
    struct's name, since Rocq's projections share one name space), and one per
    link table that has no struct. *)

Record Entity := mkEntity {
  Entity_ID : Z;
  Entity_Name : string;
  IsTAMAdmin : bool;
  IsTCDeveloper : bool;
  IsDeviceAdmin : bool;
  Entity_CreatedAt : Z;
}.

Record ManifestSigningKey := mkManifestSigningKey {
  ManifestSigningKey_ID : Z;
  ManifestSigningKey_KID : bytes;
  ManifestSigningKey_EntityID : Z;
  ManifestSigningKey_PublicKey : bytes;
  ManifestSigningKey_CreatedAt : Z;
  ManifestSigningKey_ExpiredAt : Z;
}.

Record SuitManifest := mkSuitManifest {
  SuitManifest_ID : Z;
  SuitManifest_Manifest : bytes;
  SuitManifest_Digest : bytes;
  SuitManifest_SigningKeyID : Z;
  SuitManifest_TrustedComponentID : bytes;
  SuitManifest_SequenceNumber : Z;
  SuitManifest_CreatedAt : Z;
}.

Record SuitManifestOverview := mkSuitManifestOverview {
  Overview_TrustedComponentID : bytes;
  Overview_SequenceNumber : Z;
}.

Record Device := mkDevice {
  Device_ID : Z;
  Device_UEID : bytes;
  Device_AdminID : Z;
  Device_CreatedAt : Z;
}.

Record Agent := mkAgent {
  Agent_ID : Z;
  Agent_KID : bytes;
  Agent_DeviceID : option Z;
  Agent_CreatedAt : Z;
  Agent_ExpiredAt : Z;
  Agent_RevokedAt : option Z;
  Agent_PublicKey : bytes;
}.

(** A row of [agent_holding_suit_manifests]. *)
Record Holding := mkHolding {
  Holding_ID : Z;
  Holding_AgentID : Z;
  Holding_SuitManifestID : Z;
  Holding_CreatedAt : Z;
  Holding_Deleted : bool;
}.

Record AgentStatus := mkAgentStatus {
  AgentStatus_AgentKID : bytes;
  AgentStatus_DeviceUEID : option bytes;
  AgentStatus_SuitManifests : list SuitManifestOverview;
  AgentStatus_UpdatedAt : Z;
}.

Record Token := mkToken {
  Token_ID : Z;
  Token_Token : bytes;
  Token_CreatedAt : Z;
  Token_ExpiredAt : Z;
  Token_Consumed : bool;
}.

Record Challenge := mkChallenge {
  Challenge_ID : Z;
  Challenge_Challenge : bytes;
  Challenge_CreatedAt : Z;
  Challenge_ExpiredAt : Z;
  Challenge_Consumed : bool;
}.

Record SentQueryRequestMessage := mkSentQueryRequestMessage {
  SentQueryRequest_ID : Z;
  SentQueryRequest_AgentID : option Z;
  AttestationRequested_sent : bool;
  TCListRequested_sent : bool;
  SentQueryRequest_TokenID : option Z;
  SentQueryRequest_ChallengeID : option Z;
  SentQueryRequest_CreatedAt : Z;
}.

Record SentUpdateMessage := mkSentUpdateMessage {
  SentUpdate_ID : Z;
  SentUpdate_AgentID : Z;
  SentUpdate_TokenID : Z;
  SentUpdate_CreatedAt : Z;
}.

Record SentUpdateMessageWithManifests := mkSentUpdateMessageWithManifests {
  With_SentUpdateMessage : SentUpdateMessage;
  With_Token : Token;
  With_Manifests : list SuitManifest;
}.

(** A row of [sent_manifests_in_update_messages]. *)
Record SentManifest := mkSentManifest {
  SentManifest_ID : Z;
  SentManifest_SentUpdateID : Z;
  SentManifest_SuitManifestID : Z;
}.

(** A row of [suit_reports]. *)
Record SuitReport := mkSuitReport {
  SuitReport_ID : Z;
  SuitReport_AgentID : option Z;
  SuitReport_SuitManifestID : option Z;
  SuitReport_Report : bytes;
  SuitReport_CreatedAt : Z;
  SuitReport_Resolved : bool;
}.

(** ** The database

    A table is its rows in rowid order and its [AUTOINCREMENT] counter. *)
Record Table (R : Type) := mkTable { rows : list R; seq : Z }.
Arguments mkTable {R} rows seq.
Arguments rows {R} t.
Arguments seq {R} t.

Record DB := mkDB {
  entities : Table Entity;
  manifest_signing_keys : Table ManifestSigningKey;
  suit_manifests : Table SuitManifest;
  devices : Table Device;
  agents : Table Agent;
  agent_holding_suit_manifests : Table Holding;
  tokens : Table Token;
  challenges : Table Challenge;
  sent_query_request_messages : Table SentQueryRequestMessage;
  sent_update_messages : Table SentUpdateMessage;
  sent_manifests_in_update_messages : Table SentManifest;
  suit_reports : Table SuitReport;
}.

Definition empty_table {R} : Table R := mkTable [] 0.

(** The state [createSchema] leaves a new file in. *)
Definition empty_DB : DB :=
  mkDB empty_table empty_table empty_table empty_table empty_table empty_table
       empty_table empty_table empty_table empty_table empty_table empty_table.
