(* ===== verification/Db.v ===== *)
(** The state a request runs over, and one primitive per kind of access to it: the SQLite
    database as the repositories see it (tables, statements, transactions), the clock,
    [crypto/rand], and the files of a directory.

    What is outside the program is a parameter ([Platform]): the readings of the
    clock, the bytes of [crypto/rand], which database calls fail with a driver
    error, which file operations fail and how much a failed write has written, whether
    the connection that serves a statement enforces foreign keys
    (the pragma is set on one connection of the pool), and the order in which
    SQLite returns rows that an [ORDER BY] leaves tied. *)

From stdpp Require Import pretty.
From S2P Require Import Prelude Model GoText GoUrl.

Class Platform := {
  clock : nat → Z;
  entropy : nat → option (nat → Byte.byte);
  db_fault : nat → bool;
  file_fault : nat → bool;
  short_write : nat → nat;
  (** the random part of the name a try of [os.CreateTemp] makes up *)
  temp_random : nat → nat → string;
  foreign_keys : bool;
  (** how many turns an unbounded loop may take before the model gives up *)
  loop_fuel : nat;
  (** [ORDER BY]: a permutation sorted by the comparison *)
  sql_order {R : Type} (le : R → R → bool) : list R → list R;
  sql_order_perm {R : Type} (le : R → R → bool) l : sql_order le l ≡ₚ l;
  sql_order_sorted {R : Type} (le : R → R → bool) l :
    (∀ x y, le x y = true ∨ le y x = true) →
    (∀ x y z, le x y = true → le y z = true → le x z = true) →
    StronglySorted (λ x y, le x y = true) (sql_order le l);
}.

(** The database, how much of each external sequence has been read ([w_net] counts the
    calls of a verifier that the caller of [NewTAM] supplied), the verifier backends built
    so far, the files, and every HTTP request sent, with the client that sent it. *)
Record World := mkWorld {
  w_db : DB;
  w_reads : nat;
  w_draws : nat;
  w_calls : nat;
  w_net : nat;
  w_backends : list string;
  w_files : gmap string bytes;
  w_fops : nat;
  w_sent : list (HttpClient * HttpRequest);
}.

Definition with_db (d : DB) (w : World) : World :=
  mkWorld d (w_reads w) (w_draws w) (w_calls w) (w_net w) (w_backends w) (w_files w) (w_fops w) (w_sent w).
Definition tick_clock (w : World) : World :=
  mkWorld (w_db w) (S (w_reads w)) (w_draws w) (w_calls w) (w_net w) (w_backends w) (w_files w) (w_fops w) (w_sent w).
Definition tick_draw (w : World) : World :=
  mkWorld (w_db w) (w_reads w) (S (w_draws w)) (w_calls w) (w_net w) (w_backends w) (w_files w) (w_fops w) (w_sent w).
Definition tick_call (w : World) : World :=
  mkWorld (w_db w) (w_reads w) (w_draws w) (S (w_calls w)) (w_net w) (w_backends w) (w_files w) (w_fops w) (w_sent w).
Definition tick_net (w : World) : World :=
  mkWorld (w_db w) (w_reads w) (w_draws w) (w_calls w) (S (w_net w)) (w_backends w) (w_files w) (w_fops w) (w_sent w).
Definition add_backend (b : string) (w : World) : World :=
  mkWorld (w_db w) (w_reads w) (w_draws w) (w_calls w) (w_net w) (b :: w_backends w) (w_files w) (w_fops w) (w_sent w).
Definition with_files (fs : gmap string bytes) (w : World) : World :=
  mkWorld (w_db w) (w_reads w) (w_draws w) (w_calls w) (w_net w) (w_backends w) fs (S (w_fops w)) (w_sent w).
Definition add_sent (r : HttpClient * HttpRequest) (w : World) : World :=
  mkWorld (w_db w) (w_reads w) (w_draws w) (w_calls w) (w_net w) (w_backends w) (w_files w) (w_fops w) (w_sent w ++ [r]).

Definition initial_world : World := mkWorld empty_DB 0 0 0 0 [] ∅ 0 [].

Abbreviation M A := (Prog error World A).

(** ** Tables by row type *)

Class Relation (R : Type) := {
  rel_get : DB → Table R;
  rel_set : Table R → DB → DB;
  rel_id : R → Z;
  rel_get_set t d : rel_get (rel_set t d) = t;
}.

Section relations.
Local Ltac rel g s i := exact (Build_Relation _ g s i (λ t d, eq_refl)).

#[export] Instance rel_entities : Relation Entity.
Proof.
  rel entities (λ t d, mkDB t (manifest_signing_keys d) (suit_manifests d) (devices d) (agents d)
    (agent_holding_suit_manifests d) (tokens d) (challenges d) (sent_query_request_messages d)
    (sent_update_messages d) (sent_manifests_in_update_messages d) (suit_reports d)) Entity_ID.
Defined.

#[export] Instance rel_keys : Relation ManifestSigningKey.
Proof.
  rel manifest_signing_keys (λ t d, mkDB (entities d) t (suit_manifests d) (devices d) (agents d)
    (agent_holding_suit_manifests d) (tokens d) (challenges d) (sent_query_request_messages d)
    (sent_update_messages d) (sent_manifests_in_update_messages d) (suit_reports d)) ManifestSigningKey_ID.
Defined.

#[export] Instance rel_manifests : Relation SuitManifest.
Proof.
  rel suit_manifests (λ t d, mkDB (entities d) (manifest_signing_keys d) t (devices d) (agents d)
    (agent_holding_suit_manifests d) (tokens d) (challenges d) (sent_query_request_messages d)
    (sent_update_messages d) (sent_manifests_in_update_messages d) (suit_reports d)) SuitManifest_ID.
Defined.

#[export] Instance rel_devices : Relation Device.
Proof.
  rel devices (λ t d, mkDB (entities d) (manifest_signing_keys d) (suit_manifests d) t (agents d)
    (agent_holding_suit_manifests d) (tokens d) (challenges d) (sent_query_request_messages d)
    (sent_update_messages d) (sent_manifests_in_update_messages d) (suit_reports d)) Device_ID.
Defined.

#[export] Instance rel_agents : Relation Agent.
Proof.
  rel agents (λ t d, mkDB (entities d) (manifest_signing_keys d) (suit_manifests d) (devices d) t
    (agent_holding_suit_manifests d) (tokens d) (challenges d) (sent_query_request_messages d)
    (sent_update_messages d) (sent_manifests_in_update_messages d) (suit_reports d)) Agent_ID.
Defined.

#[export] Instance rel_holdings : Relation Holding.
Proof.
  rel agent_holding_suit_manifests (λ t d, mkDB (entities d) (manifest_signing_keys d)
    (suit_manifests d) (devices d) (agents d) t (tokens d) (challenges d)
    (sent_query_request_messages d) (sent_update_messages d)
    (sent_manifests_in_update_messages d) (suit_reports d)) Holding_ID.
Defined.

#[export] Instance rel_tokens : Relation Token.
Proof.
  rel tokens (λ t d, mkDB (entities d) (manifest_signing_keys d) (suit_manifests d) (devices d)
    (agents d) (agent_holding_suit_manifests d) t (challenges d) (sent_query_request_messages d)
    (sent_update_messages d) (sent_manifests_in_update_messages d) (suit_reports d)) Token_ID.
Defined.

#[export] Instance rel_challenges : Relation Challenge.
Proof.
  rel challenges (λ t d, mkDB (entities d) (manifest_signing_keys d) (suit_manifests d) (devices d)
    (agents d) (agent_holding_suit_manifests d) (tokens d) t (sent_query_request_messages d)
    (sent_update_messages d) (sent_manifests_in_update_messages d) (suit_reports d)) Challenge_ID.
Defined.

#[export] Instance rel_sent_queries : Relation SentQueryRequestMessage.
Proof.
  rel sent_query_request_messages (λ t d, mkDB (entities d) (manifest_signing_keys d)
    (suit_manifests d) (devices d) (agents d) (agent_holding_suit_manifests d) (tokens d)
    (challenges d) t (sent_update_messages d) (sent_manifests_in_update_messages d)
    (suit_reports d)) SentQueryRequest_ID.
Defined.

#[export] Instance rel_sent_updates : Relation SentUpdateMessage.
Proof.
  rel sent_update_messages (λ t d, mkDB (entities d) (manifest_signing_keys d)
    (suit_manifests d) (devices d) (agents d) (agent_holding_suit_manifests d) (tokens d)
    (challenges d) (sent_query_request_messages d) t (sent_manifests_in_update_messages d)
    (suit_reports d)) SentUpdate_ID.
Defined.

#[export] Instance rel_sent_manifests : Relation SentManifest.
Proof.
  rel sent_manifests_in_update_messages (λ t d, mkDB (entities d) (manifest_signing_keys d)
    (suit_manifests d) (devices d) (agents d) (agent_holding_suit_manifests d) (tokens d)
    (challenges d) (sent_query_request_messages d) (sent_update_messages d) t
    (suit_reports d)) SentManifest_ID.
Defined.

#[export] Instance rel_reports : Relation SuitReport.
Proof.
  rel suit_reports (λ t d, mkDB (entities d) (manifest_signing_keys d) (suit_manifests d)
    (devices d) (agents d) (agent_holding_suit_manifests d) (tokens d) (challenges d)
    (sent_query_request_messages d) (sent_update_messages d)
    (sent_manifests_in_update_messages d) t) SuitReport_ID.
Defined.
End relations.

(** ** Statements *)

Section statements.
Context `{Platform}.

(** [time.Now()]. *)
Definition time_now : M Z :=
  atomically (λ w, (Ok (clock (w_reads w)), tick_clock w)).

(** [rand.Read(buf)] into a fresh buffer of [size] bytes. *)
Definition rand_read (size : nat) : M bytes :=
  atomically (λ w,
    (res_map (λ f, map f (List.seq 0 size)) (res_of_option ErrLib (entropy (w_draws w))),
     tick_draw w)).

(** One database call: it fails without effect or runs [f]. *)
Definition sql {A} (f : DB → res error A * DB) : M A :=
  atomically (λ w,
    if db_fault (w_calls w) then (Err ErrDriver, tick_call w)
    else ((f (w_db w)).1, with_db (f (w_db w)).2 (tick_call w))).

(** [QueryContext]: read all matching rows. *)
Definition query {A} (f : DB → A) : M A := sql (λ d, (Ok (f d), d)).

Definition matching {R} `{Relation R} (p : R → bool) (d : DB) : list R :=
  filter (λ r, p r = true) (rows (rel_get d)).

(** [SELECT ... WHERE p LIMIT 1] then [Scan]. *)
Definition select_one {R} `{Relation R} (p : R → bool) : M R :=
  sql (λ d, (res_of_option ErrNoRows (head (matching p d)), d)).

(** The repositories' common treatment of the result: [sql.ErrNoRows] becomes a
    nil pointer without an error, any other error is wrapped. *)
Definition nil_if_no_rows {A} (wrap : error → error) (m : M A) : M (option A) :=
  r ← try m;
  match r with
  | inl x => mret (Some x)
  | inr e => if bool_decide (e = ErrNoRows) then mret None else throw (wrap e)
  end.

Definition select_opt {R} `{Relation R} (wrap : error → error) (p : R → bool) : M (option R) :=
  nil_if_no_rows wrap (select_one p).

(** [SELECT ... WHERE p ORDER BY le LIMIT 1] then [Scan]. *)
Definition select_first {R} `{Relation R} (le : R → R → bool) (p : R → bool) : M R :=
  sql (λ d, (res_of_option ErrNoRows (head (sql_order le (matching p d))), d)).

(** [INSERT]: [ok] is the conjunction of the table's constraints; the new row
    gets the id after the largest ever used.  NOT NULL is in it where a nil slice can reach the
    statement, which is in [SetEnvelope]; the other callers insert values that are not nil
    (drawn, encoded, decoded from a non-empty report, or of a checked length). *)
Definition insert_row {R} `{Relation R} (ok : DB → bool) (mk : Z → R) (d : DB) : res error Z * DB :=
  let t := rel_get d in
  let id := (seq t + 1)%Z in
  if ok d && bool_decide (id ≤ max_int64)%Z
  then (Ok id, rel_set (mkTable (rows t ++ [mk id]) id) d)
  else (Err ErrDriver, d).

Definition insert {R} `{Relation R} (ok : DB → bool) (mk : Z → R) : M Z :=
  sql (insert_row ok mk).

(** [UPDATE ... SET f WHERE p]; the result is the number of rows affected. *)
Definition update_rows {R} `{Relation R} (p : R → bool) (f : R → R) (d : DB) : DB :=
  let t := rel_get d in
  rel_set (mkTable (map (λ r, if p r then f r else r) (rows t)) (seq t)) d.

Definition update {R} `{Relation R} (p : R → bool) (f : R → R) : M Z :=
  sql (λ d, (Ok (Z.of_nat (length (matching p d))), update_rows p f d)).

(** SQLite's [CURRENT_TIMESTAMP]: whole seconds. *)
Definition current_timestamp : M Z :=
  now ← time_now; mret (now / second * second)%Z.

(** [BeginTx] .. [Commit] with a deferred [Rollback]: no other writer runs in
    between, and the changes are dropped unless the body and the commit succeed.
    [begin_err] and [commit_err] wrap the errors of [BeginTx] and [Commit]. *)
Definition transaction {A} (begin_err commit_err : error → error) (m : M A) : M A :=
  atomically (λ w,
    if db_fault (w_calls w) then (Err (begin_err ErrDriver), tick_call w)
    else let '(r, w') := run m (tick_call w) in
         match r with
         | Ok a => if db_fault (w_calls w')
                   then (Err (commit_err ErrDriver), with_db (w_db w) (tick_call w'))
                   else (Ok a, tick_call w')
         | r => (r, with_db (w_db w) (tick_call w'))
         end).

(** A foreign key: the referenced row exists, where the check is on. *)
Definition references {R} `{Relation R} (id : Z) (d : DB) : bool :=
  implb foreign_keys (existsb (λ r, Z.eqb (rel_id r) id) (rows (rel_get d))).

Definition references_opt {R} `{Relation R} (id : option Z) (d : DB) : bool :=
  match id with None => true | Some id => references (R:=R) id d end.

(** A [UNIQUE] column. *)
Definition unique {R} `{Relation R} (p : R → bool) (d : DB) : bool :=
  negb (existsb p (rows (rel_get d))).
End statements.

(** ** Files *)

Section files.
Context `{Platform}.

(** One operation on the files: it fails without effect or runs [f]. *)
Definition file_op {A} (f : gmap string bytes → res error A * gmap string bytes) : M A :=
  atomically (λ w,
    if file_fault (w_fops w) then (Err ErrIO, with_files (w_files w) w)
    else ((f (w_files w)).1, with_files (f (w_files w)).2 w)).

(** [os.ReadFile]. *)
Definition ReadFile (path : string) : M bytes :=
  file_op (λ fs, (res_of_option ErrNotExist (fs !! path), fs)).

(** [os.Remove]. *)
Definition Remove (path : string) : M unit :=
  file_op (λ fs, match fs !! path with
                 | Some _ => (Ok tt, delete path fs)
                 | None => (Err ErrNotExist, fs)
                 end).

(** [os.CreateTemp(dir, ".collateral-*.tmp")]: at most 10000 names are tried. *)
Definition temp_name (dir random : string) : string :=
  (if HasSuffix dir "/" then dir else dir +++ "/") +++ ".collateral-" +++ random +++ ".tmp".

Fixpoint new_temp (dir : string) (op tries : nat) (fs : gmap string bytes) : option string :=
  match tries with
  | O => None
  | S tries =>
      let name := temp_name dir (temp_random op tries) in
      if bool_decide (fs !! name = None) then Some name else new_temp dir op tries fs
  end.

Definition CreateTemp (dir : string) : M string :=
  atomically (λ w,
    if file_fault (w_fops w) then (Err ErrIO, with_files (w_files w) w)
    else match new_temp dir (w_fops w) (Z.to_nat 10000) (w_files w) with
         | Some name => (Ok name, with_files (<[name := []]> (w_files w)) w)
         | None => (Err ErrIO, with_files (w_files w) w)
         end).

(** [File.Write] to a file just created; a failed write may have written a part.  What
    is written to a file that has been removed is lost. *)
Definition Write_temp (name : string) (data : bytes) : M unit :=
  atomically (λ w,
    let put b := with_files (alter (λ _, b) name (w_files w)) w in
    if file_fault (w_fops w) then (Err ErrIO, put (take (short_write (w_fops w)) data))
    else (Ok tt, put data)).

(** [File.Chmod] and [File.Close]. *)
Definition Touch_file : M unit := file_op (λ fs, (Ok tt, fs)).

(** [os.Rename]. *)
Definition Rename (from to : string) : M unit :=
  file_op (λ fs, match fs !! from with
                 | Some b => (Ok tt, <[to := b]> (delete from fs))
                 | None => (Err ErrNotExist, fs)
                 end).
End files.

Definition eqb_bytes (x y : bytes) : bool := bool_decide (x = y).

Lemma eqb_bytes_eq (x y : bytes) : eqb_bytes x y = true ↔ x = y.
Proof. apply bool_decide_eq_true. Qed.

(** ** Facts *)

(** A relation between worlds that looks at the database only. *)
Definition on_db (R : DB → DB → Prop) (w w' : World) : Prop := R (w_db w) (w_db w').

#[export] Instance on_db_preorder R `{!PreOrder R} : PreOrder (on_db R).
Proof. split; unfold on_db; [intros w; reflexivity|intros w1 w2 w3 H1 H2; by etrans]. Qed.

(** The frame condition: a table is left alone. *)
Definition same_table (R : Type) `{Relation R} (d d' : DB) : Prop :=
  rel_get (R:=R) d' = rel_get d.

#[export] Instance same_table_preorder R `{Relation R} : PreOrder (same_table R).
Proof. split; unfold same_table; [done|]. intros ??? H1 H2. congruence. Qed.

(** Rows are only ever appended (and rewritten in place by [Q]). *)
Definition grows (R : Type) `{Relation R} (Q : R → R → Prop) (d d' : DB) : Prop :=
  ∃ olds news, rows (rel_get d') = olds ++ news ∧ Forall2 Q (rows (rel_get (R:=R) d)) olds.

#[export] Instance grows_preorder R `{Relation R} Q `{!PreOrder Q} : PreOrder (grows R Q).
Proof.
  split.
  - intros d. exists (rows (rel_get d)), []. split; [by rewrite app_nil_r|].
    induction (rows (rel_get d)); by constructor.
  - intros d1 d2 d3 (o1 & n1 & E1 & F1) (o2 & n2 & E2 & F2).
    rewrite E1 in F2. apply Forall2_app_inv_l in F2 as (o2a & o2b & Fa & Fb & ->).
    exists o2a, (o2b ++ n2). split; [by rewrite E2, app_assoc|].
    revert F1 Fa. generalize (rows (rel_get d1)) as l1. clear -PreOrder0.
    intros l1 F1. revert o2a. induction F1 as [|x y l1' l2' Hxy _ IH]; intros o2a Fa.
    + inversion Fa; constructor.
    + inversion Fa; subst. constructor; [by etrans|by apply IH].
Qed.

Lemma grows_same_table R `{Relation R} Q `{!PreOrder Q} d d' :
  same_table R d d' → grows R Q d d'.
Proof.
  intros Hs. exists (rows (rel_get d)), []. rewrite Hs, app_nil_r. split; [done|].
  induction (rows (rel_get d)); by constructor.
Qed.

Lemma grows_elem R `{Relation R} Q d d' r :
  grows R Q d d' → r ∈ rows (rel_get d) → ∃ r', r' ∈ rows (rel_get d') ∧ Q r r'.
Proof.
  intros (os & ns & E & F) [i Hi]%list_elem_of_lookup.
  destruct (Forall2_lookup_l _ _ _ _ _ F Hi) as (r' & Hr' & HQ).
  exists r'. split; [|done]. rewrite E. apply elem_of_app. left.
  by eapply list_elem_of_lookup_2.
Qed.

(** An insertion or update leaves every other table alone: decided by computation. *)
Lemma same_table_insert (R : Type) `{Relation R} {T} `{Relation T} ok (mk : Z → T) d :
  (∀ t, rel_get (R:=R) (rel_set t d) = rel_get d) → same_table R d (insert_row ok mk d).2.
Proof. intros Hf. unfold same_table, insert_row. case_match; simpl; [apply Hf|done]. Qed.

Lemma same_table_update (R : Type) `{Relation R} {T} `{Relation T} p (f : T → T) d :
  (∀ t, rel_get (R:=R) (rel_set t d) = rel_get d) → same_table R d (update_rows p f d).
Proof. intros Hf. unfold same_table, update_rows. apply Hf. Qed.

#[export] Hint Extern 5 (same_table _ _ (insert_row _ _ _).2) =>
  apply same_table_insert; intros; reflexivity : attestam.
#[export] Hint Extern 5 (same_table _ _ (update_rows _ _ _)) =>
  apply same_table_update; intros; reflexivity : attestam.
#[export] Hint Extern 6 (on_db _ _ _) => unfold on_db : attestam.

Lemma grows_insert R `{Relation R} Q `{!PreOrder Q} ok (mk : Z → R) d :
  grows R Q d (insert_row ok mk d).2.
Proof.
  unfold insert_row. case_match; simpl; [|reflexivity].
  exists (rows (rel_get d)), [mk (seq (rel_get d) + 1)%Z]. rewrite rel_get_set. split; [done|].
  induction (rows (rel_get d)); by constructor.
Qed.

Lemma grows_update R `{Relation R} Q `{!PreOrder Q} p (f : R → R) d :
  (∀ r, p r = true → Q r (f r)) → grows R Q d (update_rows p f d).
Proof.
  intros Hf. unfold update_rows.
  exists (map (λ r, if p r then f r else r) (rows (rel_get d))), [].
  rewrite rel_get_set, app_nil_r. split; [done|]. simpl.
  induction (rows (rel_get d)) as [|r l IH]; simpl; constructor; [|done].
  destruct (p r) eqn:E; [by apply Hf|reflexivity].
Qed.

(** *** Runs of single statements *)

Section statement_runs.
Context `{Platform}.

Lemma run_sql {A} (f : DB → res error A * DB) w :
  run (sql f) w =
    if db_fault (w_calls w) then (Err ErrDriver, tick_call w)
    else ((f (w_db w)).1, with_db (f (w_db w)).2 (tick_call w)).
Proof. unfold sql. rewrite run_atomically. by destruct (db_fault _). Qed.

Lemma run_insert {T} `{Relation T} ok (mk : Z → T) w :
  run (insert ok mk) w =
    if db_fault (w_calls w) then (Err ErrDriver, tick_call w)
    else ((insert_row ok mk (w_db w)).1, with_db (insert_row ok mk (w_db w)).2 (tick_call w)).
Proof. apply run_sql. Qed.

Lemma run_select_one_Ok {T} `{Relation T} (p : T → bool) w r w' :
  run (select_one p) w = (Ok r, w') →
  r ∈ rows (rel_get (w_db w)) ∧ p r = true ∧ head (matching p (w_db w)) = Some r ∧ w_db w' = w_db w.
Proof.
  unfold select_one. rewrite run_sql. destruct (db_fault _); [done|]. simpl.
  intros [= Hh <-]. apply res_of_option_Ok in Hh. unfold matching in *.
  assert (r ∈ filter (λ r, p r = true) (rows (rel_get (w_db w)))) as Hin.
  { apply head_Some_elem_of in Hh. done. }
  apply list_elem_of_filter in Hin as [Hp Hin]. done.
Qed.

Lemma run_select_one_db {T} `{Relation T} (p : T → bool) w :
  w_db (run (select_one p) w).2 = w_db w.
Proof. unfold select_one. rewrite run_sql. by destruct (db_fault _). Qed.

Lemma run_insert_Ok {T} `{Relation T} ok (mk : Z → T) w id w' :
  run (insert ok mk) w = (Ok id, w') →
  ok (w_db w) = true ∧ id = (seq (rel_get (w_db w)) + 1)%Z ∧
  w_db w' = rel_set (mkTable (rows (rel_get (w_db w)) ++ [mk id]) id) (w_db w).
Proof.
  unfold insert. rewrite run_sql. destruct (db_fault _); [done|]. unfold insert_row.
  destruct (ok _ && _) eqn:Hok; simpl; [|done]. apply andb_true_iff in Hok as [Hok _].
  intros Hr. by simplify_eq/=.
Qed.

Lemma run_update_Ok {T} `{Relation T} p (f : T → T) w n w' :
  run (update p f) w = (Ok n, w') →
  n = Z.of_nat (length (matching p (w_db w))) ∧ w_db w' = update_rows p f (w_db w).
Proof. unfold update. rewrite run_sql. destruct (db_fault _); [done|]. simpl. by intros [= <- <-]. Qed.
End statement_runs.

(** The first row of an [ORDER BY] is a greatest one. *)
Lemma head_sql_order `{Platform} {T} (le : T → T → bool) l r :
  (∀ x y, le x y = true ∨ le y x = true) →
  (∀ x y z, le x y = true → le y z = true → le x z = true) →
  head (sql_order le l) = Some r → r ∈ l ∧ ∀ r', r' ∈ l → le r r' = true.
Proof.
  intros Htot Htrans Hh. pose proof (sql_order_sorted le l Htot Htrans) as Hs.
  pose proof (sql_order_perm le l) as Hp.
  destruct (sql_order le l) as [|x l']; simplify_eq/=. split; [rewrite <- Hp; left|].
  intros r'. rewrite <- Hp. apply StronglySorted_inv in Hs as [_ Hall].
  intros [->|Hin]%elem_of_cons; [by destruct (Htot r r)|].
  rewrite Forall_forall in Hall. by apply Hall.
Qed.

Lemma head_sql_order_None `{Platform} {T} (le : T → T → bool) l :
  head (sql_order le l) = None ↔ l = [].
Proof.
  pose proof (sql_order_perm le l) as Hp. destruct (sql_order le l) as [|x l'].
  - apply Permutation_nil_l in Hp. by subst.
  - split; [done|]. intros ->. by apply Permutation_nil_r in Hp.
Qed.

(** A database that never reports a driver error. *)
Class Reliable `{Platform} : Prop := no_fault : ∀ n, db_fault n = false.

Lemma run_sql_reliable `{Reliable} {A} (f : DB → res error A * DB) w :
  run (sql f) w = ((f (w_db w)).1, with_db (f (w_db w)).2 (tick_call w)).
Proof. rewrite run_sql. by rewrite no_fault. Qed.

Lemma run_select_opt_reliable `{Reliable} {T} `{Relation T} wrap (p : T → bool) w :
  run (select_opt wrap p) w = (Ok (head (matching p (w_db w))), with_db (w_db w) (tick_call w)).
Proof.
  unfold select_opt, nil_if_no_rows, select_one. rewrite run_bind, run_try, run_sql_reliable. simpl.
  by destruct (head _).
Qed.

Lemma run_select_first_reliable `{Reliable} {T} `{Relation T} le (p : T → bool) w :
  run (select_first le p) w =
    (res_of_option ErrNoRows (head (sql_order le (matching p (w_db w)))),
     with_db (w_db w) (tick_call w)).
Proof. unfold select_first. by rewrite run_sql_reliable. Qed.

Lemma run_insert_reliable `{Reliable} {T} `{Relation T} ok (mk : Z → T) w :
  run (insert ok mk) w =
    ((insert_row ok mk (w_db w)).1, with_db (insert_row ok mk (w_db w)).2 (tick_call w)).
Proof. apply run_sql_reliable. Qed.

Lemma insert_row_ok {T} `{Relation T} ok (mk : Z → T) d :
  ok d = true → (seq (rel_get (R:=T) d) < max_int64)%Z →
  insert_row ok mk d = (Ok (seq (rel_get (R:=T) d) + 1)%Z,
    rel_set (mkTable (rows (rel_get d) ++ [mk (seq (rel_get (R:=T) d) + 1)%Z])
                     (seq (rel_get (R:=T) d) + 1)) d).
Proof.
  intros Hok Hlt. unfold insert_row. rewrite Hok, bool_decide_true by lia. done.
Qed.

Lemma insert_row_inv {T} `{Relation T} ok (mk : Z → T) d id d' :
  insert_row ok mk d = (Ok id, d') →
  ok d = true ∧ (seq (rel_get (R:=T) d) < max_int64)%Z ∧ id = (seq (rel_get (R:=T) d) + 1)%Z ∧
  d' = rel_set (mkTable (rows (rel_get d) ++ [mk id]) id) d.
Proof.
  unfold insert_row. destruct (ok d); [|done]. case_bool_decide; [|done]. simpl.
  intros [= <- <-]. split_and!; [done|lia|done|done].
Qed.

(** ** A concrete platform

    A clock that advances one second a reading, entropy and faults given as
    functions; [ORDER BY] by merge sort. *)

Section concrete.
Context {R : Type} (le : R → R → bool).

Definition le_true (x y : R) : Prop := le x y = true.
#[local] Instance le_true_dec x y : Decision (le_true x y).
Proof. unfold le_true. apply _. Defined.

Definition sort_by : list R → list R := merge_sort le_true.

Lemma sort_by_perm l : sort_by l ≡ₚ l.
Proof. apply merge_sort_Permutation. Qed.

Lemma sort_by_sorted l :
  (∀ x y, le x y = true ∨ le y x = true) →
  (∀ x y z, le x y = true → le y z = true → le x z = true) →
  StronglySorted (λ x y, le x y = true) (sort_by l).
Proof.
  intros Htot Htrans. unfold sort_by.
  assert (Transitive le_true) by (intros x y z; apply Htrans).
  assert (Total le_true) by (intros x y; apply Htot).
  apply (StronglySorted_merge_sort le_true).
Qed.
End concrete.

Definition test_platform (faults : nat → bool) (rand : nat → option (nat → Byte.byte)) : Platform :=
  {| clock := λ n, (Z.of_nat n * second)%Z;
     entropy := rand;
     db_fault := faults;
     file_fault := λ _, false;
     short_write := λ _, 0;
     temp_random := λ op _, pretty op;
     foreign_keys := true;
     loop_fuel := 10;
     sql_order := @sort_by;
     sql_order_perm := @sort_by_perm;
     sql_order_sorted := @sort_by_sorted |}.

(** No fault, and every draw a different byte repeated. *)
Definition calm : Platform :=
  test_platform (λ _, false) (λ n, Some (λ _, byte_of_Z (Z.of_nat n + 1))).

Lemma calm_reliable : @Reliable calm.
Proof. by intros n. Qed.
