(* ===== verification/Evolve.v ===== *)
(** What no part of the program ever undoes: [evolves d d'] relates the database
    before and after any statement or transaction the program makes.  Rows are
    never removed; a row is only rewritten along its table's [step] (a token or
    challenge gets consumed, an agent revoked, a holding deleted, everything else
    is immutable); and the well-formedness invariant [wf] is kept. *)

From S2P Require Import Prelude Model Db.

(** ** How one row may change *)

Class Tracked (R : Type) `{Relation R} := {
  step : R → R → Prop;
  step_preorder :: PreOrder step;
  step_id r r' : step r r' → rel_id r' = rel_id r;
}.

Definition token_step (t t' : Token) : Prop :=
  Token_ID t' = Token_ID t ∧ Token_Token t' = Token_Token t ∧
  (Token_Consumed t = true → Token_Consumed t' = true).

Definition challenge_step (c c' : Challenge) : Prop :=
  Challenge_ID c' = Challenge_ID c ∧ Challenge_Challenge c' = Challenge_Challenge c ∧
  (Challenge_Consumed c = true → Challenge_Consumed c' = true).

Definition agent_step (a a' : Agent) : Prop :=
  Agent_ID a' = Agent_ID a ∧ Agent_KID a' = Agent_KID a ∧
  Agent_PublicKey a' = Agent_PublicKey a ∧ Agent_DeviceID a' = Agent_DeviceID a ∧
  Agent_ExpiredAt a' = Agent_ExpiredAt a ∧
  (∀ t, Agent_RevokedAt a = Some t → Agent_RevokedAt a' = Some t).

Definition holding_step (h h' : Holding) : Prop :=
  Holding_ID h' = Holding_ID h ∧ Holding_AgentID h' = Holding_AgentID h ∧
  Holding_SuitManifestID h' = Holding_SuitManifestID h ∧
  (Holding_Deleted h = true → Holding_Deleted h' = true).

Section tracked.
Local Ltac preorder := split; [intros ?|intros ???]; unfold token_step, challenge_step,
  agent_step, holding_step; naive_solver congruence.

#[export] Instance token_step_preorder : PreOrder token_step.
Proof. preorder. Qed.
#[export] Instance challenge_step_preorder : PreOrder challenge_step.
Proof. preorder. Qed.
#[export] Instance agent_step_preorder : PreOrder agent_step.
Proof. preorder. Qed.
#[export] Instance holding_step_preorder : PreOrder holding_step.
Proof. preorder. Qed.
End tracked.

Section tracked_instances.
Local Ltac fixed := refine (Build_Tracked _ _ eq _ _); congruence.
Local Ltac moving s := refine (Build_Tracked _ _ s _ _); by intros ?? [].

#[export] Instance tracked_entity : Tracked Entity.            Proof. fixed. Defined.
#[export] Instance tracked_key : Tracked ManifestSigningKey.   Proof. fixed. Defined.
#[export] Instance tracked_manifest : Tracked SuitManifest.    Proof. fixed. Defined.
#[export] Instance tracked_device : Tracked Device.            Proof. fixed. Defined.
#[export] Instance tracked_agent : Tracked Agent.              Proof. moving agent_step. Defined.
#[export] Instance tracked_holding : Tracked Holding.          Proof. moving holding_step. Defined.
#[export] Instance tracked_token : Tracked Token.              Proof. moving token_step. Defined.
#[export] Instance tracked_challenge : Tracked Challenge.      Proof. moving challenge_step. Defined.
#[export] Instance tracked_query : Tracked SentQueryRequestMessage. Proof. fixed. Defined.
#[export] Instance tracked_update : Tracked SentUpdateMessage. Proof. fixed. Defined.
#[export] Instance tracked_sent : Tracked SentManifest.        Proof. fixed. Defined.
#[export] Instance tracked_report : Tracked SuitReport.        Proof. fixed. Defined.
End tracked_instances.

(** ** Well-formed databases *)

(** Row ids are distinct and below the table's counter. *)
Definition ids_ok (R : Type) `{Relation R} (d : DB) : Prop :=
  NoDup (rel_id <$> rows (rel_get (R:=R) d)) ∧
  Forall (λ r, (rel_id r ≤ seq (rel_get (R:=R) d))%Z) (rows (rel_get (R:=R) d)).

(** A holding of manifest [m] by its agent, not logically deleted. *)
Definition holds (d : DB) (h : Holding) (m : SuitManifest) : Prop :=
  h ∈ rows (agent_holding_suit_manifests d) ∧ m ∈ rows (suit_manifests d) ∧
  Holding_SuitManifestID h = SuitManifest_ID m ∧ Holding_Deleted h = false.

(** An agent holds at most one manifest of each trusted component. *)
Definition one_holding (d : DB) : Prop :=
  ∀ h m h' m', holds d h m → holds d h' m' →
    Holding_AgentID h = Holding_AgentID h' →
    SuitManifest_TrustedComponentID m = SuitManifest_TrustedComponentID m' → h = h'.

Record wf (d : DB) : Prop := {
  wf_agents : ids_ok Agent d;
  wf_manifests : ids_ok SuitManifest d;
  wf_tokens : ids_ok Token d;
  wf_challenges : ids_ok Challenge d;
  wf_holdings : ids_ok Holding d;
  wf_updates : ids_ok SentUpdateMessage d;
  wf_kid : NoDup (Agent_KID <$> rows (agents d));
  wf_token : NoDup (Token_Token <$> rows (tokens d));
  wf_challenge : NoDup (Challenge_Challenge <$> rows (challenges d));
  wf_refs : Forall (λ h, (Holding_SuitManifestID h ≤ seq (suit_manifests d))%Z)
              (rows (agent_holding_suit_manifests d));
  wf_one : one_holding d;
}.

(** ** The relation *)

Definition keeps (R : Type) `{Tracked R} : DB → DB → Prop := grows R step.

Definition keeps_all (d d' : DB) : Prop :=
  keeps Entity d d' ∧ keeps ManifestSigningKey d d' ∧ keeps SuitManifest d d' ∧
  keeps Device d d' ∧ keeps Agent d d' ∧ keeps Holding d d' ∧ keeps Token d d' ∧
  keeps Challenge d d' ∧ keeps SentQueryRequestMessage d d' ∧ keeps SentUpdateMessage d d' ∧
  keeps SentManifest d d' ∧ keeps SuitReport d d'.

Definition evolves (d d' : DB) : Prop := wf d → keeps_all d d' ∧ wf d'.

#[export] Instance keeps_preorder R `{Tracked R} : PreOrder (keeps R).
Proof. unfold keeps. apply _. Qed.

#[export] Instance evolves_preorder : PreOrder evolves.
Proof.
  split.
  - intros d. unfold evolves, keeps_all. intros. split_and!; done.
  - intros d1 d2 d3 H1 H2 Hwf. destruct (H1 Hwf) as [K1 W2]. destruct (H2 W2) as [K2 W3].
    split; [|done]. unfold keeps_all in *. destruct_and!. split_and!; by etrans.
Qed.

(** ** Which statements evolve the database *)

Section wf_facts.
Context {R : Type} `{Relation R}.

Lemma ids_ok_insert ok (mk : Z → R) d :
  (∀ id, rel_id (mk id) = id) → ids_ok R d → ids_ok R (insert_row ok mk d).2.
Proof.
  intros Hmk [Hnd Hle]. unfold insert_row. case_match; simpl; [|done].
  unfold ids_ok. rewrite !rel_get_set. simpl. split.
  - rewrite fmap_app. apply NoDup_app. split_and!; [done| |apply NoDup_singleton].
    intros id Hin Hid%list_elem_of_singleton. rewrite Hmk in Hid. subst id.
    apply list_elem_of_fmap in Hin as (r & Hr & Hin).
    rewrite Forall_forall in Hle. apply Hle in Hin. lia.
  - apply Forall_app. rewrite Forall_singleton, Hmk. split; [|lia].
    eapply Forall_impl; [exact Hle|]. simpl. lia.
Qed.

Lemma update_rows_fmap {B} (g : R → B) p f d :
  (∀ r, g (f r) = g r) →
  g <$> rows (rel_get (update_rows (R:=R) p f d)) = g <$> rows (rel_get (R:=R) d).
Proof.
  intros Hf. unfold update_rows. rewrite rel_get_set. simpl.
  induction (rows (rel_get d)) as [|r l IH]; [done|]. rewrite !fmap_cons. simpl. f_equal; [|done].
  by destruct (p r).
Qed.

Lemma update_rows_fmap_NoDup {B} (g : R → B) p f d :
  (∀ r, g (f r) = g r) → NoDup (g <$> rows (rel_get (R:=R) d)) →
  NoDup (g <$> rows (rel_get (update_rows (R:=R) p f d))).
Proof. intros Hf Hnd. by rewrite update_rows_fmap. Qed.

Lemma ids_ok_update p (f : R → R) d :
  (∀ r, rel_id (f r) = rel_id r) → ids_ok R d → ids_ok R (update_rows p f d).
Proof.
  intros Hf [Hnd Hle]. split; [by rewrite update_rows_fmap|].
  unfold update_rows. rewrite rel_get_set. simpl. apply Forall_map.
  eapply Forall_impl; [exact Hle|]. simpl. intros r. destruct (p r); by rewrite ?Hf.
Qed.

Lemma insert_row_fmap_NoDup {B} (g : R → B) ok (mk : Z → R) d :
  (∀ id, ok d = true → g (mk id) ∉ g <$> rows (rel_get (R:=R) d)) →
  NoDup (g <$> rows (rel_get (R:=R) d)) →
  NoDup (g <$> rows (rel_get (R:=R) (insert_row ok mk d).2)).
Proof.
  intros Hfresh Hnd. unfold insert_row. case_match eqn:Hok; simpl; [|done].
  apply andb_true_iff in Hok as [Hok _]. rewrite rel_get_set. simpl.
  rewrite fmap_app. apply NoDup_app. split_and!; [done| |apply NoDup_singleton].
  intros b Hin Hb%list_elem_of_singleton. subst b. by eapply Hfresh.
Qed.

(** Rows with the same id are the same row. *)
Lemma ids_ok_inj d r r' :
  ids_ok R d → r ∈ rows (rel_get d) → r' ∈ rows (rel_get d) → rel_id r = rel_id r' → r = r'.
Proof.
  intros [Hnd _]. by apply fmap_NoDup_inj.
Qed.
End wf_facts.

Lemma unique_fresh {R} `{Relation R} (g : R → bytes) v d :
  unique (λ r, eqb_bytes (g r) v) d = true → v ∉ g <$> rows (rel_get (R:=R) d).
Proof.
  unfold unique. rewrite negb_true_iff. intros Hex (r & -> & Hr)%list_elem_of_fmap.
  apply not_true_iff_false in Hex. apply Hex, existsb_exists. exists r.
  split; [by apply list_elem_of_In|]. by apply eqb_bytes_eq.
Qed.

Lemma keeps_frame R `{Tracked R} d d' : same_table R d d' → keeps R d d'.
Proof. apply grows_same_table. apply _. Qed.

Lemma keeps_insert R `{Tracked R} ok (mk : Z → R) d : keeps R d (insert_row ok mk d).2.
Proof. apply grows_insert. apply _. Qed.

Lemma keeps_update R `{Tracked R} p (f : R → R) d :
  (∀ r, p r = true → step r (f r)) → keeps R d (update_rows p f d).
Proof. apply grows_update. apply _. Qed.

Ltac keeps_solve :=
  unfold keeps_all; split_and!;
  first [apply keeps_insert | apply keeps_update; intros ? _; by repeat split
        | apply keeps_frame; auto with attestam].

(** Tables [wf] does not look at. *)
Ltac evolves_frame :=
  intros Hwf; split; [keeps_solve|];
  unfold insert_row; case_match; simpl; [destruct Hwf; by constructor|done].

Section evolves_facts.
Implicit Types d : DB.

Lemma evolves_insert_entity ok (mk : Z → Entity) d : evolves d (insert_row ok mk d).2.
Proof. evolves_frame. Qed.
Lemma evolves_insert_key ok (mk : Z → ManifestSigningKey) d : evolves d (insert_row ok mk d).2.
Proof. evolves_frame. Qed.
Lemma evolves_insert_device ok (mk : Z → Device) d : evolves d (insert_row ok mk d).2.
Proof. evolves_frame. Qed.
Lemma evolves_insert_query ok (mk : Z → SentQueryRequestMessage) d :
  evolves d (insert_row ok mk d).2.
Proof. evolves_frame. Qed.
Lemma evolves_insert_sent ok (mk : Z → SentManifest) d : evolves d (insert_row ok mk d).2.
Proof. evolves_frame. Qed.
Lemma evolves_insert_report ok (mk : Z → SuitReport) d : evolves d (insert_row ok mk d).2.
Proof. evolves_frame. Qed.

Lemma evolves_insert_update ok (mk : Z → SentUpdateMessage) d :
  (∀ id, SentUpdate_ID (mk id) = id) → evolves d (insert_row ok mk d).2.
Proof.
  intros Hid Hwf. split; [keeps_solve|].
  pose proof (ids_ok_insert ok mk d Hid (wf_updates _ Hwf)) as Hids. revert Hids.
  unfold insert_row. case_match; simpl; [|done]. destruct Hwf; by constructor.
Qed.

Lemma evolves_insert_token ok (mk : Z → Token) d :
  (∀ id, Token_ID (mk id) = id) →
  (∀ id, ok d = true → Token_Token (mk id) ∉ Token_Token <$> rows (tokens d)) →
  evolves d (insert_row ok mk d).2.
Proof.
  intros Hid Hnew Hwf. split; [keeps_solve|].
  pose proof (ids_ok_insert ok mk d Hid (wf_tokens _ Hwf)) as Hids.
  pose proof (insert_row_fmap_NoDup Token_Token ok mk d Hnew (wf_token _ Hwf)) as Hnd.
  revert Hids Hnd. unfold insert_row. case_match; simpl; [|done]. destruct Hwf; by constructor.
Qed.

Lemma evolves_insert_challenge ok (mk : Z → Challenge) d :
  (∀ id, Challenge_ID (mk id) = id) →
  (∀ id, ok d = true → Challenge_Challenge (mk id) ∉ Challenge_Challenge <$> rows (challenges d)) →
  evolves d (insert_row ok mk d).2.
Proof.
  intros Hid Hnew Hwf. split; [keeps_solve|].
  pose proof (ids_ok_insert ok mk d Hid (wf_challenges _ Hwf)) as Hids.
  pose proof (insert_row_fmap_NoDup Challenge_Challenge ok mk d Hnew (wf_challenge _ Hwf)) as Hnd.
  revert Hids Hnd. unfold insert_row. case_match; simpl; [|done]. destruct Hwf; by constructor.
Qed.

Lemma evolves_insert_agent ok (mk : Z → Agent) d :
  (∀ id, Agent_ID (mk id) = id) →
  (∀ id, ok d = true → Agent_KID (mk id) ∉ Agent_KID <$> rows (agents d)) →
  evolves d (insert_row ok mk d).2.
Proof.
  intros Hid Hnew Hwf. split; [keeps_solve|].
  pose proof (ids_ok_insert ok mk d Hid (wf_agents _ Hwf)) as Hids.
  pose proof (insert_row_fmap_NoDup Agent_KID ok mk d Hnew (wf_kid _ Hwf)) as Hnd.
  revert Hids Hnd. unfold insert_row. case_match; simpl; [|done]. destruct Hwf; by constructor.
Qed.

(** A new manifest has an id no holding refers to. *)
Lemma evolves_insert_manifest ok (mk : Z → SuitManifest) d :
  (∀ id, SuitManifest_ID (mk id) = id) → evolves d (insert_row ok mk d).2.
Proof.
  intros Hid Hwf. split; [keeps_solve|].
  pose proof (ids_ok_insert ok mk d Hid (wf_manifests _ Hwf)) as Hids. revert Hids.
  unfold insert_row. case_match; simpl; [|done]. intros Hids.
  destruct Hwf as [? ? ? ? ? ? ? ? ? Hrefs Hone].
  assert (∀ h m, h ∈ rows (agent_holding_suit_manifests d) →
    Holding_SuitManifestID h = SuitManifest_ID m →
    m ∈ rows (suit_manifests d) ++ [mk (seq (suit_manifests d) + 1)%Z] →
    m ∈ rows (suit_manifests d)) as Hold.
  { intros h m Hh Hm [?| ->%list_elem_of_singleton]%elem_of_app; [done|].
    rewrite Forall_forall in Hrefs. apply Hrefs in Hh. rewrite Hid in Hm. lia. }
  constructor; try done; simpl.
  - eapply Forall_impl; [exact Hrefs|]. simpl. lia.
  - intros h m h' m' (? & ? & ? & ?) (? & ? & ? & ?); simpl in *.
    apply Hone; split_and!; eauto.
Qed.

Lemma evolves_consume_token p d :
  evolves d (update_rows p (λ t, mkToken (Token_ID t) (Token_Token t) (Token_CreatedAt t)
                                    (Token_ExpiredAt t) true) d).
Proof.
  intros Hwf. split; [keeps_solve|]. destruct Hwf. constructor; try done.
  - by apply ids_ok_update.
  - by refine (update_rows_fmap_NoDup (R:=Token) Token_Token p _ d _ _).
Qed.

Lemma evolves_consume_challenge p d :
  evolves d (update_rows p (λ c, mkChallenge (Challenge_ID c) (Challenge_Challenge c)
                                    (Challenge_CreatedAt c) (Challenge_ExpiredAt c) true) d).
Proof.
  intros Hwf. split; [keeps_solve|]. destruct Hwf. constructor; try done.
  - by apply ids_ok_update.
  - by refine (update_rows_fmap_NoDup (R:=Challenge) Challenge_Challenge p _ d _ _).
Qed.

(** Only a row that is not revoked gets a revocation time. *)
Lemma evolves_revoke_agent p t d :
  (∀ a, p a = true → Agent_RevokedAt a = None) →
  evolves d (update_rows p (λ a, mkAgent (Agent_ID a) (Agent_KID a) (Agent_DeviceID a)
               (Agent_CreatedAt a) (Agent_ExpiredAt a) (Some t) (Agent_PublicKey a)) d).
Proof.
  intros Hp Hwf. split.
  - unfold keeps_all. split_and!; try solve [apply keeps_frame; auto with attestam].
    apply keeps_update. intros a Ha%Hp. repeat split. simpl. congruence.
  - destruct Hwf. constructor; try done.
    + by apply ids_ok_update.
    + by refine (update_rows_fmap_NoDup (R:=Agent) Agent_KID p _ d _ _).
Qed.
End evolves_facts.

#[export] Hint Resolve evolves_insert_entity evolves_insert_key evolves_insert_device
  evolves_insert_query evolves_insert_sent evolves_insert_report evolves_insert_update
  evolves_insert_token evolves_insert_challenge evolves_insert_agent evolves_insert_manifest
  evolves_consume_token evolves_consume_challenge evolves_revoke_agent : attestam.

(** ** Rows seen earlier *)

Class Kept (R : Type) `{Tracked R} : Prop := kept d d' : keeps_all d d' → keeps R d d'.

Ltac kept_solve := intros d d' K; by unfold keeps_all in K; destruct_and!.

#[export] Instance kept_entity : Kept Entity. Proof. kept_solve. Qed.
#[export] Instance kept_key : Kept ManifestSigningKey. Proof. kept_solve. Qed.
#[export] Instance kept_manifest : Kept SuitManifest. Proof. kept_solve. Qed.
#[export] Instance kept_device : Kept Device. Proof. kept_solve. Qed.
#[export] Instance kept_agent : Kept Agent. Proof. kept_solve. Qed.
#[export] Instance kept_holding : Kept Holding. Proof. kept_solve. Qed.
#[export] Instance kept_token : Kept Token. Proof. kept_solve. Qed.
#[export] Instance kept_challenge : Kept Challenge. Proof. kept_solve. Qed.
#[export] Instance kept_query : Kept SentQueryRequestMessage. Proof. kept_solve. Qed.
#[export] Instance kept_update : Kept SentUpdateMessage. Proof. kept_solve. Qed.
#[export] Instance kept_sent : Kept SentManifest. Proof. kept_solve. Qed.
#[export] Instance kept_report : Kept SuitReport. Proof. kept_solve. Qed.

(** A row read earlier is still there, at most further along. *)
Definition seen {R} `{Tracked R} (r : R) (d : DB) : Prop :=
  ∃ r', r' ∈ rows (rel_get d) ∧ step r r'.

Lemma seen_in {R} `{Tracked R} (r : R) d : r ∈ rows (rel_get d) → seen r d.
Proof. intros Hr. exists r. split; [done|]. reflexivity. Qed.

Lemma seen_evolves {R} `{Kept R} (r : R) d d' : wf d → evolves d d' → seen r d → seen r d'.
Proof.
  intros Hwf He (r1 & Hr1 & Hs). destruct (He Hwf) as [K _]. apply (kept (R:=R)) in K.
  destruct (grows_elem _ _ _ _ _ K Hr1) as (r' & ? & ?). exists r'. split; [done|]. by etrans.
Qed.

Lemma evolves_wf d d' : evolves d d' → wf d → wf d'.
Proof. intros He Hwf. by destruct (He Hwf). Qed.

#[export] Hint Resolve evolves_wf : attestam.

(** ** Rely-guarantee rules for statements *)

Section statement_rules.
Context `{Platform}.
Implicit Types w : World.

(** [safe Q p w]: from world [w], among goroutines that only ever evolve the
    database, [p] only evolves it, and when it returns [a], [Q a] holds for good. *)
Definition safe {A} (Q : A → DB → Prop) (p : M A) (w : World) : Prop :=
  rg (on_db evolves) (λ a w', Q a (w_db w')) p w.

Lemma safe_ret {A} (Q : A → DB → Prop) a w :
  (∀ d, evolves (w_db w) d → Q a d) → safe Q (mret a) w.
Proof. intros HQ. apply (rg_ret (on_db evolves)). intros w'. apply HQ. Qed.

Lemma safe_bind {A B} (Q : A → DB → Prop) (Q' : B → DB → Prop) (p : M A) (f : A → M B) w :
  safe Q p w →
  (∀ a w', on_db evolves w w' → (∀ d, evolves (w_db w') d → Q a d) → safe Q' (f a) w') →
  safe Q' (p ≫= f) w.
Proof.
  intros Hp Hf. eapply rg_bind; [apply _|exact Hp|]. intros a w' Hw HQ. apply Hf; [done|].
  intros d Hd. by apply (HQ (with_db d w')). 
Qed.

Lemma safe_try {A} (Q : A → DB → Prop) (p : M A) w :
  safe Q p w → safe (λ r d, match r with inl a => Q a d | inr _ => True end) (try p) w.
Proof. exact (rg_try (on_db evolves) (λ a w', Q a (w_db w')) p w). Qed.

Lemma safe_map_err {A} (Q : A → DB → Prop) g (p : M A) w : safe Q p w → safe Q (map_err g p) w.
Proof. exact (rg_map_err (on_db evolves) _ g p w). Qed.

Lemma safe_weaken {A} (Q Q' : A → DB → Prop) (p : M A) w :
  safe Q p w → (∀ a d, evolves (w_db w) d → Q a d → Q' a d) → safe Q' p w.
Proof.
  intros Hp HQ. refine (rg_weaken (on_db evolves) _ _ p w Hp _). intros a w' Hw. by apply HQ.
Qed.

Lemma safe_mono {A} (Q : A → DB → Prop) (p : M A) w w' :
  on_db evolves w w' → safe Q p w → safe Q p w'.
Proof. exact (rg_mono (on_db evolves) _ p w w'). Qed.

Lemma safe_sql {A} (Q : A → DB → Prop) (f : DB → res error A * DB) w :
  (∀ d, evolves (w_db w) d → evolves d (f d).2) →
  (∀ d a d', evolves (w_db w) d → (f d).1 = Ok a → evolves (f d).2 d' → Q a d') →
  safe Q (sql f) w.
Proof.
  intros HR HQ. apply (rg_atomically (on_db evolves)); unfold on_db.
  - intros w' Hw. destruct (db_fault _); simpl; [reflexivity|by apply HR].
  - intros w' a w2 Hw. destruct (db_fault _); simpl; [done|]. intros Ha. by apply HQ.
Qed.

Lemma safe_pure_step {A} (f : World → res error A * World) w :
  (∀ w', w_db (f w').2 = w_db w') → safe (λ _ _, True) (atomically f) w.
Proof. intros Hf. apply (rg_atomically (on_db evolves)); [|done]. intros w' _. unfold on_db. by rewrite Hf. Qed.

Lemma safe_time_now w : safe (λ _ _, True) time_now w.
Proof. by apply safe_pure_step. Qed.

Lemma safe_rand_read n w : safe (λ _ _, True) (rand_read n) w.
Proof. by apply safe_pure_step. Qed.

Lemma safe_query {A} (Q : A → DB → Prop) (f : DB → A) w :
  (∀ d d', evolves (w_db w) d → evolves d d' → Q (f d) d') → safe Q (query f) w.
Proof. intros HQ. apply safe_sql; [done|]. simpl. intros d a d' ? [= <-]. eauto. Qed.

Lemma safe_select_one {T} `{Relation T} (Q : T → DB → Prop) (p : T → bool) w :
  (∀ r d d', evolves (w_db w) d → evolves d d' → r ∈ rows (rel_get d) → p r = true → Q r d') →
  safe Q (select_one p) w.
Proof.
  intros HQ. apply safe_sql; [done|]. simpl. intros d a d' HR Ha HR'.
  apply res_of_option_Ok in Ha. apply head_Some_elem_of in Ha.
  apply list_elem_of_filter in Ha as [Hp Hin]. eauto.
Qed.

Lemma safe_nil_if_no_rows {A} (Q : option A → DB → Prop) wrap (m : M A) w :
  safe (λ a, Q (Some a)) m w → (∀ d, evolves (w_db w) d → Q None d) →
  safe Q (nil_if_no_rows wrap m) w.
Proof.
  intros HQ HN. unfold nil_if_no_rows. eapply safe_bind; [by apply safe_try|].
  intros [r|e] w' Hw HQ'; simpl in *; [by apply safe_ret|].
  case_bool_decide; [|apply (rg_throw (on_db evolves))]. apply safe_ret. intros d Hd.
  apply HN. by etrans.
Qed.

Lemma safe_select_opt {T} `{Relation T} (Q : option T → DB → Prop) wrap (p : T → bool) w :
  (∀ r d d', evolves (w_db w) d → evolves d d' → r ∈ rows (rel_get d) → p r = true → Q (Some r) d') →
  (∀ d, evolves (w_db w) d → Q None d) →
  safe Q (select_opt wrap p) w.
Proof. intros HQ HN. apply safe_nil_if_no_rows; [by apply safe_select_one|done]. Qed.

Lemma safe_select_first {T} `{Relation T} (Q : T → DB → Prop) le (p : T → bool) w :
  (∀ r d d', evolves (w_db w) d → evolves d d' → r ∈ rows (rel_get d) → p r = true → Q r d') →
  safe Q (select_first le p) w.
Proof.
  intros HQ. apply safe_sql; [done|]. simpl. intros d a d' HR Ha HR'.
  apply res_of_option_Ok in Ha. apply head_Some_elem_of in Ha.
  rewrite sql_order_perm in Ha. apply list_elem_of_filter in Ha as [Hp Hin]. eauto.
Qed.

Lemma safe_insert {T} `{Relation T} (Q : Z → DB → Prop) ok (mk : Z → T) w :
  (∀ d, evolves (w_db w) d → ok d = true → evolves d (insert_row ok mk d).2) →
  (∀ d id d', evolves (w_db w) d → ok d = true → (insert_row ok mk d).1 = Ok id →
     evolves (insert_row ok mk d).2 d' → Q id d') →
  safe Q (insert ok mk) w.
Proof.
  intros HR HQ. apply safe_sql.
  - intros d Hd. destruct (ok d) eqn:Hok; [by apply HR|]. unfold insert_row. by rewrite Hok.
  - intros d id d' Hd Hid Hd'. destruct (ok d) eqn:Hok; [by eapply HQ|].
    unfold insert_row in Hid. by rewrite Hok in Hid.
Qed.

Lemma safe_update {T} `{Relation T} (Q : Z → DB → Prop) p (f : T → T) w :
  (∀ d, evolves (w_db w) d → evolves d (update_rows p f d)) →
  (∀ d d', evolves (w_db w) d → evolves (update_rows p f d) d' →
     Q (Z.of_nat (length (matching p d))) d') →
  safe Q (update p f) w.
Proof. intros HR HQ. apply safe_sql; [done|]. simpl. intros d a d' ? [= <-]. eauto. Qed.

(** A transaction moves the state along [evolves] as a whole. *)
Lemma safe_transaction {A} (Q : A → DB → Prop) b c (m : M A) w :
  (∀ w' a w2, evolves (w_db w) (w_db w') → run m w' = (Ok a, w2) →
     evolves (w_db w') (w_db w2) ∧ ∀ d, evolves (w_db w2) d → Q a d) →
  safe Q (transaction b c m) w.
Proof.
  intros Hm. apply (rg_atomically (on_db evolves)); unfold on_db.
  - intros w' Hw. destruct (db_fault _); [simpl; reflexivity|].
    destruct (run m (tick_call w')) as [r w2] eqn:Hr.
    destruct r; simpl; try reflexivity. destruct (db_fault _); simpl; [reflexivity|].
    by apply (Hm (tick_call w')) in Hr as [? _].
  - intros w' a w3 Hw. destruct (db_fault _); [done|].
    destruct (run m (tick_call w')) as [r w2] eqn:Hr.
    destruct r; simpl; try done. destruct (db_fault _); simpl; [done|].
    intros [= <-] HR. apply (Hm (tick_call w')) in Hr as [_ HQ]; [|done]. by apply HQ.
Qed.

Lemma safe_run {A} (Q : A → DB → Prop) (p : M A) w :
  safe Q p w → evolves (w_db w) (w_db (run p w).2) ∧
    ∀ a, (run p w).1 = Ok a → Q a (w_db (run p w).2).
Proof. exact (rg_run (on_db evolves) _ p w). Qed.
End statement_rules.


Lemma wf_empty : wf empty_DB.
Proof.
  assert (∀ R (H : Relation R), rel_get empty_DB = empty_table → ids_ok R empty_DB) as Hids.
  { intros R HR He. unfold ids_ok. rewrite He. split; constructor. }
  constructor; try (by apply Hids); try constructor.
  intros h m h' m' (Hh & _). by apply not_elem_of_nil in Hh.
Qed.

(** Programs of which only the guarantee matters. *)
Abbreviation harmless p := (safe (λ _ _, True) p).

Lemma safe_true `{Platform} {A} (Q : A → DB → Prop) (p : M A) w : safe Q p w → harmless p w.
Proof. intros Hp. by eapply safe_weaken. Qed.

(** What runs after [p] only takes the database further. *)
Lemma bind_evolves `{Platform} {A B} (p : M A) (f : A → M B) w :
  (∀ a w1, wf (w_db w1) → harmless (f a) w1) → wf (w_db (run p w).2) →
  evolves (w_db (run p w).2) (w_db (run (p ≫= f) w).2).
Proof.
  intros Hf. rewrite run_bind. destruct (run p w) as [[a|e| |] w1]; simpl; [|reflexivity..].
  intros Hwf. by apply (safe_run _ _ _ (Hf a w1 Hwf)).
Qed.

Lemma safe_throw `{Platform} {A} (Q : A → DB → Prop) e w : safe Q (throw (A:=A) e) w.
Proof. apply (rg_throw (on_db evolves)). Qed.

Lemma safe_panic `{Platform} {A} (Q : A → DB → Prop) w : safe Q (panic (A:=A)) w.
Proof. apply (rg_panic (on_db evolves)). Qed.

Lemma safe_done `{Platform} {A} (a : A) w : harmless (mret a) w.
Proof. by apply safe_ret. Qed.

Lemma harmless_bind `{Platform} {A B} (Q : B → DB → Prop) (p : M A) (f : A → M B) w :
  harmless p w → (∀ a w', on_db evolves w w' → safe Q (f a) w') → safe Q (p ≫= f) w.
Proof. intros Hp Hf. eapply safe_bind; [exact Hp|]. intros a w' Hw _. by apply Hf. Qed.

Lemma harmless_try `{Platform} {A} (p : M A) w : harmless p w → harmless (try p) w.
Proof. intros Hp. eapply safe_true. by apply safe_try. Qed.

Lemma harmless_select_one `{Platform} {T} `{Relation T} (p : T → bool) w :
  harmless (select_one p) w.
Proof. by apply safe_select_one. Qed.

Lemma harmless_select_opt `{Platform} {T} `{Relation T} f (p : T → bool) w :
  harmless (select_opt f p) w.
Proof. by apply safe_select_opt. Qed.

Lemma harmless_select_first `{Platform} {T} `{Relation T} le (p : T → bool) w :
  harmless (select_first le p) w.
Proof. by apply safe_select_first. Qed.

Lemma harmless_nil_if_no_rows `{Platform} {A} f (m : M A) w :
  harmless m w → harmless (nil_if_no_rows f m) w.
Proof. intros Hm. by apply safe_nil_if_no_rows. Qed.

Lemma harmless_query `{Platform} {A} (f : DB → A) w : harmless (query f) w.
Proof. by apply safe_query. Qed.

Lemma harmless_insert `{Platform} {T} `{Relation T} ok (mk : Z → T) w :
  (∀ d, ok d = true → evolves d (insert_row ok mk d).2) → harmless (insert ok mk) w.
Proof. intros He. apply safe_insert; [intros d _; apply He|done]. Qed.

Lemma harmless_update `{Platform} {T} `{Relation T} p (f : T → T) w :
  (∀ d, evolves d (update_rows p f d)) → harmless (update p f) w.
Proof. intros He. apply safe_update; [intros d _; apply He|done]. Qed.

Lemma harmless_file_op `{Platform} {A} (f : gmap string bytes → res error A * gmap string bytes) w :
  harmless (file_op f) w.
Proof. apply safe_pure_step. intros w'. by destruct (file_fault _). Qed.

Lemma harmless_CreateTemp `{Platform} dir w : harmless (CreateTemp dir) w.
Proof. apply safe_pure_step. intros w'. destruct (file_fault _); [done|]. by case_match. Qed.

Lemma harmless_Write_temp `{Platform} name data w : harmless (Write_temp name data) w.
Proof. apply safe_pure_step. intros w'. by destruct (file_fault _). Qed.

#[export] Hint Resolve harmless_file_op harmless_CreateTemp harmless_Write_temp : attestam.
#[export] Hint Extern 3 (safe _ (ReadFile _) _) => apply harmless_file_op : attestam.
#[export] Hint Extern 3 (safe _ (Remove _) _) => apply harmless_file_op : attestam.
#[export] Hint Extern 3 (safe _ Touch_file _) => apply harmless_file_op : attestam.
#[export] Hint Extern 3 (safe _ (Rename _ _) _) => apply harmless_file_op : attestam.

#[export] Hint Resolve safe_throw safe_panic safe_done safe_time_now safe_rand_read
  harmless_try harmless_select_one harmless_select_opt harmless_select_first
  harmless_nil_if_no_rows harmless_query harmless_insert
  harmless_update safe_map_err : attestam.

(** Walk through a program, closing each call with the hint database. *)
Ltac harmless_step :=
  match goal with
  | |- safe _ (_ ≫= _) _ => apply harmless_bind; [|intros]
  | |- safe _ (map_err _ _) _ => apply safe_map_err
  | |- safe _ (try _) _ => apply harmless_try
  | |- safe _ (match ?x with _ => _ end) _ => destruct x
  | |- safe _ _ _ => solve [eauto with attestam]
  end.
Ltac harmless_auto := repeat (intros; harmless_step).
