(* ===== verification/OneTime.v ===== *)
(** Tokens and challenges: [internal/infra/sqlite/token_repo.go] and
    [challenge_repo.go].

    The two repositories are the same code over two tables, so they are written
    once, against the interface [OneTime], and instantiated twice. *)

From S2P Require Import Prelude Model Db Evolve.

Class OneTime (R : Type) `{Kept R} := {
  value : R → bytes;
  consumed : R → bool;
  make : bytes → Z → Z → bool → Z → R;
  consume : R → R;
  label : string;
  (* laws of the record *)
  make_id v c e b id : rel_id (make v c e b id) = id;
  make_value v c e b id : value (make v c e b id) = v;
  make_consumed v c e b id : consumed (make v c e b id) = b;
  consume_value r : value (consume r) = value r;
  consume_consumed r : consumed (consume r) = true;
  step_value r r' : step r r' → value r' = value r;
  step_consumed r r' : step r r' → consumed r = true → consumed r' = true;
  (* laws of the table *)
  one_time_nodup d : wf d → NoDup (value <$> rows (rel_get d));
  one_time_ids d : wf d → ids_ok R d;
  one_time_insert v c e b d :
    evolves d (insert_row (unique (λ r, eqb_bytes (value r) v)) (make v c e b) d).2;
  one_time_consume p d : evolves d (update_rows p consume d);
}.

#[export] Instance one_time_token : OneTime Token.
Proof.
  refine (Build_OneTime Token _ _ _ Token_Token Token_Consumed
    (λ v c e b id, mkToken id v c e b)
    (λ t, mkToken (Token_ID t) (Token_Token t) (Token_CreatedAt t) (Token_ExpiredAt t) true)
    "token" _ _ _ _ _ _ _ _ _ _ _); try done.
  - by intros ?? (?&?&?).
  - by intros ?? (?&?&?).
  - intros d Hwf. apply Hwf.
  - intros d Hwf. apply Hwf.
  - intros v c e b d. apply evolves_insert_token; [done|]. intros id Hok. simpl.
    exact (unique_fresh (R:=Token) Token_Token v d Hok).
  - intros p d. apply evolves_consume_token.
Defined.

#[export] Instance one_time_challenge : OneTime Challenge.
Proof.
  refine (Build_OneTime Challenge _ _ _ Challenge_Challenge Challenge_Consumed
    (λ v c e b id, mkChallenge id v c e b)
    (λ c, mkChallenge (Challenge_ID c) (Challenge_Challenge c) (Challenge_CreatedAt c)
            (Challenge_ExpiredAt c) true)
    "challenge" _ _ _ _ _ _ _ _ _ _ _); try done.
  - by intros ?? (?&?&?).
  - by intros ?? (?&?&?).
  - intros d Hwf. apply Hwf.
  - intros d Hwf. apply Hwf.
  - intros v c e b d. apply evolves_insert_challenge; [done|]. intros id Hok. simpl.
    exact (unique_fresh (R:=Challenge) Challenge_Challenge v d Hok).
  - intros p d. apply evolves_consume_challenge.
Defined.

(** ** Operations *)

Section operations.
Context `{Platform} (R : Type) `{OneTime R}.

Definition OneTime_Create (v : bytes) (created expired : Z) (used : bool) : M Z :=
  map_err (Wrapped (String.append "insert " label))
    (insert (unique (λ r : R, eqb_bytes (value r) v)) (make v created expired used)).

Definition OneTime_FindByValue (v : bytes) : M (option R) :=
  select_opt (Wrapped (String.append "scan " label)) (λ r : R, eqb_bytes (value r) v).

Definition OneTime_FindByID (id : Z) : M (option R) :=
  select_opt (Wrapped (String.append "scan " label)) (λ r : R, Z.eqb (rel_id r) id).

Definition OneTime_MarkConsumed (v : bytes) : M unit :=
  rowsAffected ← map_err (Wrapped (String.append "update " label))
    (update (λ r : R, eqb_bytes (value r) v && negb (consumed r)) consume);
  if Z.eqb rowsAffected 0
  then throw (ErrorString (String.append label " already consumed or not found"))
  else mret tt.

(** The [for] loop, one unit of fuel a turn. *)
Fixpoint OneTime_GenerateUnique (fuel : nat) : M bytes :=
  match fuel with
  | O => Done OutOfFuel
  | S fuel =>
      v ← map_err (Wrapped (String.append "generate random " label)) (rand_read 32);
      existing ← map_err (Wrapped (String.append "check " (String.append label " uniqueness")))
        (OneTime_FindByValue v);
      match existing with
      | None =>
          _ ← map_err (Wrapped (String.append "insert new " label))
            (OneTime_Create v zero_time zero_time false);
          mret v
      | Some _ => OneTime_GenerateUnique fuel
      end
  end.
End operations.

Section repositories.
Context `{Platform}.

Definition TokenRepository_Create : bytes → Z → Z → bool → M Z := OneTime_Create Token.
Definition TokenRepository_FindByToken : bytes → M (option Token) := OneTime_FindByValue Token.
Definition TokenRepository_MarkConsumed : bytes → M unit := OneTime_MarkConsumed Token.
Definition TokenRepository_FindByID : Z → M (option Token) := OneTime_FindByID Token.
Definition TokenRepository_GenerateUniqueToken : M bytes := OneTime_GenerateUnique Token loop_fuel.

Definition ChallengeRepository_Create : bytes → Z → Z → bool → M Z := OneTime_Create Challenge.
Definition ChallengeRepository_FindByChallenge : bytes → M (option Challenge) :=
  OneTime_FindByValue Challenge.
Definition ChallengeRepository_MarkConsumed : bytes → M unit := OneTime_MarkConsumed Challenge.
Definition ChallengeRepository_FindByID : Z → M (option Challenge) := OneTime_FindByID Challenge.
Definition ChallengeRepository_GenerateUniqueChallenge : M bytes :=
  OneTime_GenerateUnique Challenge loop_fuel.
End repositories.

(** ** Facts *)

Section facts.
Context `{Platform} {R : Type} `{OneTime R}.
Implicit Types d : DB.

(** The value was issued and has been used up. *)
Definition spent (v : bytes) (d : DB) : Prop :=
  ∃ r : R, r ∈ rows (rel_get d) ∧ value r = v ∧ consumed r = true.

Lemma spent_evolves v d d' : wf d → evolves d d' → spent v d → spent v d'.
Proof.
  intros Hwf He (r & Hr & Hv & Hc).
  destruct (seen_evolves r d d') as (r' & Hr' & Hs); [done..|by apply seen_in|].
  exists r'. split_and!; [done| |by eapply step_consumed].
  by rewrite (step_value _ _ Hs).
Qed.

Lemma value_inj d (r r' : R) :
  wf d → r ∈ rows (rel_get d) → r' ∈ rows (rel_get d) → value r = value r' → r = r'.
Proof.
  intros Hwf. apply fmap_NoDup_inj. exact (one_time_nodup _ Hwf).
Qed.

(** What a used-up value matches: nothing. *)
Lemma spent_no_match v d :
  wf d → spent v d →
  matching (λ r : R, eqb_bytes (value r) v && negb (consumed r)) d = [].
Proof.
  intros Hwf (r & Hr & Hv & Hc). unfold matching.
  apply elem_of_nil_inv. intros r' [Hp Hin]%list_elem_of_filter.
  apply andb_true_iff in Hp as [Hp%eqb_bytes_eq Hn].
  assert (r' = r) as -> by (eapply value_inj; [done..|congruence]).
  by rewrite Hc in Hn.
Qed.
End facts.

Section specs.
Context `{Platform} {R : Type} `{OneTime R}.
Implicit Types w : World.

Definition issued (v : bytes) (d : DB) : Prop := ∃ r : R, r ∈ rows (rel_get d) ∧ value r = v.

Lemma seen_value (r : R) d : seen r d → issued (value r) d.
Proof. intros (r' & Hr' & Hs). exists r'. split; [done|]. by apply step_value. Qed.

Lemma seen_keeps (r : R) d d' : wf d → evolves d d' → r ∈ rows (rel_get d) → seen r d'.
Proof.
  intros Hwf He Hr. by eapply seen_evolves, seen_in.
Qed.

Lemma OneTime_Create_safe v c e b w :
  wf (w_db w) → safe (λ _, issued v) (OneTime_Create R v c e b) w.
Proof.
  intros Hwf. apply safe_map_err, safe_insert; [intros; apply one_time_insert|].
  intros d id d' Hd Hok Hid Hd'. destruct (Hd Hwf) as [_ Hwfd].
  pose proof (one_time_insert (R:=R) v c e b d Hwfd) as [_ Hwf1].
  destruct (seen_keeps (make v c e b id) _ _ Hwf1 Hd') as (r' & Hr' & Hs).
  - unfold insert_row in *. destruct (_ && _); simplify_eq/=. rewrite rel_get_set. simpl.
    apply elem_of_app. right. by apply list_elem_of_singleton.
  - exists r'. split; [done|]. by rewrite (step_value _ _ Hs), make_value.
Qed.

Lemma OneTime_FindByValue_safe v w :
  wf (w_db w) →
  safe (λ o d, match o with Some r => value r = v ∧ seen r d | None => True end)
    (OneTime_FindByValue R v) w.
Proof.
  intros Hwf. apply safe_select_opt; [|done].
  intros r d d' Hd Hd' Hr Hv%eqb_bytes_eq. split; [done|].
  destruct (Hd Hwf). by eapply seen_keeps.
Qed.

Lemma OneTime_MarkConsumed_safe v w :
  wf (w_db w) → safe (λ _, spent (R:=R) v) (OneTime_MarkConsumed R v) w.
Proof.
  intros Hwf. unfold OneTime_MarkConsumed. eapply safe_bind.
  - apply safe_map_err, (safe_update (λ n d, n ≠ 0%Z → spent (R:=R) v d)).
    { intros; apply one_time_consume. }
    intros d d' Hd Hd' Hn. destruct (Hd Hwf) as [_ Hwfd].
    destruct (matching _ d) as [|r l] eqn:Hm; [done|].
    assert (r ∈ matching (λ r : R, eqb_bytes (value r) v && negb (consumed r)) d) as Hr
      by (rewrite Hm; left).
    apply list_elem_of_filter in Hr as [Hp Hr].
    eapply spent_evolves; [by apply one_time_consume|exact Hd'|].
    exists (consume r). rewrite consume_value, consume_consumed. split_and!; [|
      apply andb_true_iff in Hp as [Hp _]; by apply eqb_bytes_eq|done].
    unfold update_rows. rewrite rel_get_set. simpl. apply list_elem_of_In, in_map_iff.
    exists r. rewrite Hp. split; [done|]. by apply list_elem_of_In.
  - intros n w' Hw HQ. case_match eqn:Hn; [apply (rg_throw (on_db evolves))|].
    apply safe_ret. intros d Hd. apply HQ; [done|]. by apply Z.eqb_neq.
Qed.

Lemma OneTime_GenerateUnique_safe fuel w :
  wf (w_db w) → safe (λ v d, length v = 32 ∧ issued v d) (OneTime_GenerateUnique R fuel) w.
Proof.
  revert w. induction fuel as [|fuel IH]; intros w Hwf; cbn [OneTime_GenerateUnique].
  { by apply (rg_fail (on_db evolves)). }
  eapply safe_bind with (Q := λ v _, length v = 32).
  { apply safe_map_err, (rg_atomically (on_db evolves)); [done|].
    intros w' v w2 _ Hv _. simpl in Hv. destruct (entropy _); by simplify_eq/=. }
  intros v w1 Hw1 Hv. destruct (Hw1 Hwf) as [_ Hwf1].
  eapply safe_bind; [by apply safe_map_err, OneTime_FindByValue_safe|].
  intros [r|] w2 Hw2 _; [apply IH, Hw2, Hwf1|]. destruct (Hw2 Hwf1) as [_ Hwf2].
  eapply safe_bind; [by apply safe_map_err, OneTime_Create_safe|].
  intros id w3 Hw3 HQ. apply safe_ret. intros d Hd.
  split; [by apply (Hv (w_db w1))|by apply HQ].
Qed.
End specs.

(** What a successful [MarkConsumed] did, alone. *)
Section marked.
Context `{Platform} {R : Type} `{OneTime R}.
Implicit Types w : World.

Lemma MarkConsumed_Ok v w w' :
  run (OneTime_MarkConsumed R v) w = (Ok tt, w') →
  (∃ r : R, r ∈ rows (rel_get (w_db w)) ∧ value r = v ∧ consumed r = false) ∧
  spent (R:=R) v (w_db w') ∧
  w_db w' = update_rows (λ r : R, eqb_bytes (value r) v && negb (consumed r)) consume (w_db w).
Proof.
  unfold OneTime_MarkConsumed. intros Hr. run_inv Hr. apply run_map_err_Ok, run_update_Ok in Hrun as [-> Hdb]. case_match eqn:Hn; simplify_eq/=.
  destruct (matching _ (w_db w)) as [|r l] eqn:Hm; [done|].
  assert (r ∈ matching (λ r : R, eqb_bytes (value r) v && negb (consumed r)) (w_db w)) as Hin
    by (rewrite Hm; left).
  apply list_elem_of_filter in Hin as [Hp Hin].
  pose proof Hp as [Hv%eqb_bytes_eq Hc%negb_true_iff]%andb_true_iff.
  split_and!; [by exists r| |done].
  exists (consume r). rewrite consume_value, consume_consumed. split_and!; [|done|done].
  rewrite Hdb. unfold update_rows. rewrite rel_get_set. simpl. apply list_elem_of_In, in_map_iff.
  exists r. rewrite Hp. split; [done|]. by apply list_elem_of_In.
Qed.
End marked.

(** ** Consuming under interleaving *)

Section once.
Context `{Platform} {R : Type} `{OneTime R}.
Implicit Types w : World.

(** A goroutine that returned without an error. *)
Definition succeeded {A} (p : M A) : bool := match p with Done (Ok _) => true | _ => false end.
Definition successes {A} (ps : list (M A)) : nat := length (List.filter succeeded ps).

(** [MarkConsumed] is one statement: it wins only if the value was not spent. *)
Lemma MarkConsumed_step (v : bytes) :
  ∃ upd k, OneTime_MarkConsumed R v = Step upd k ∧
    ∀ w, wf (w_db w) →
      evolves (w_db w) (w_db (upd w)) ∧
      ∃ r, k w = Done r ∧
        (succeeded (Done (A:=unit) r) = true →
           ¬ spent (R:=R) v (w_db w) ∧ spent (R:=R) v (w_db (upd w))).
Proof.
  eexists _, _. split; [reflexivity|]. intros w Hwf.
  destruct (db_fault (w_calls w)) eqn:Hf.
  { simpl. rewrite Hf. split; [reflexivity|]. by eexists. }
  simpl. rewrite Hf. split; [apply one_time_consume|].
  destruct (matching (λ r : R, eqb_bytes (value r) v && negb (consumed r)) (w_db w)) as [|r l] eqn:Hm;
    simpl; (eexists; split; [reflexivity|]); [done|]. intros _. split.
  - intros Hs. by rewrite spent_no_match in Hm.
  - assert (r ∈ matching (λ r : R, eqb_bytes (value r) v && negb (consumed r)) (w_db w)) as Hr
      by (rewrite Hm; left).
    apply list_elem_of_filter in Hr as [Hp Hr].
    exists (consume r). rewrite consume_value, consume_consumed.
    split_and!; [|apply andb_true_iff in Hp as [Hp _]; by apply eqb_bytes_eq|done].
    unfold update_rows. rewrite rel_get_set. simpl. apply list_elem_of_In, in_map_iff.
    exists r. rewrite Hp. split; [done|]. by apply list_elem_of_In.
Qed.

(** The state of the race: [ms] call [MarkConsumed v], [os] do anything else. *)
Definition racing (v : bytes) (ms os : list (M unit)) (w : World) : Prop :=
  wf (w_db w) ∧
  Forall (λ p, p = OneTime_MarkConsumed R v ∨ ∃ r, p = Done r) ms ∧
  Forall (λ p, safe (λ _ _, True) p w) os ∧
  successes ms ≤ 1 ∧ (successes ms = 1 → spent (R:=R) v (w_db w)).

Lemma successes_app {A} (ps qs : list (M A)) : successes (ps ++ qs) = successes ps + successes qs.
Proof. unfold successes. by rewrite List.filter_app, length_app. Qed.

Lemma successes_cons {A} (p : M A) ps :
  successes (p :: ps) = (if succeeded p then 1 else 0) + successes ps.
Proof. unfold successes. simpl. by destruct (succeeded p). Qed.

Lemma racing_other v ms o1 upd k o2 w :
  racing v ms (o1 ++ Step upd k :: o2) w → racing v ms (o1 ++ k w :: o2) (upd w).
Proof.
  intros (Hwf & Hms & [Ho1 [Hp Ho2]%Forall_cons]%Forall_app & Hle & Hsp).
  destruct (rg_step_inv _ _ _ _ _ Hp w) as [HG Hk]; [done|]. destruct (HG Hwf) as [_ Hwf'].
  split_and!; try done.
  - apply Forall_app; split; [|constructor; [done|]];
      (eapply Forall_impl; [eassumption|]); intros q; by apply safe_mono.
  - intros Heq1. by eapply spent_evolves, Hsp.
Qed.

Lemma racing_racer v m1 upd k m2 os w :
  racing v (m1 ++ Step upd k :: m2) os w → racing v (m1 ++ k w :: m2) os (upd w).
Proof.
  intros (Hwf & [Hm1 [[Hp|[r ?]] Hm2]%Forall_cons]%Forall_app & Hos & Hle & Hsp); [|done].
  destruct (MarkConsumed_step v) as (upd' & k' & Heq & Hk). rewrite Heq in Hp. simplify_eq.
  destruct (Hk w Hwf) as [HG (r & Hr & Hwin)]. destruct (HG Hwf) as [_ Hwf'].
  rewrite successes_app, successes_cons in Hle, Hsp. simpl in Hle, Hsp.
  split_and!; try done.
  - apply Forall_app. split; [done|]. constructor; [right; by exists r|done].
  - eapply Forall_impl; [exact Hos|]. intros q. by apply safe_mono.
  - rewrite successes_app, successes_cons, Hr. destruct (succeeded (Done r)) eqn:Hsr; [|lia].
    destruct Hwin as [Hns _]; [done|].
    destruct (decide (successes m1 + successes m2 = 1)); [by destruct Hns; apply Hsp|lia].
  - rewrite successes_app, successes_cons, Hr. destruct (succeeded (Done r)) eqn:Hsr.
    + intros _. by apply Hwin.
    + intros Heq1. by eapply spent_evolves, Hsp.
Qed.

Lemma racing_steps v c c' :
  rtc sched c c' → ∀ ms os, c.1 = ms ++ os → racing v ms os c.2 →
  ∃ ms' os', c'.1 = ms' ++ os' ∧ length ms' = length ms ∧ racing v ms' os' c'.2.
Proof.
  induction 1 as [c|c c2 c' Hs _ IH]; intros ms os Hc Hr; [by exists ms, os|].
  inversion Hs as [ps1 upd k ps2 w]; subst; simpl in *.
  apply app_eq_app in Hc as [l [[-> ->]|[-> Hl]]].
  - destruct (IH ms (l ++ k w :: ps2)) as (ms' & os' & ? & ? & ?);
      [by rewrite <- app_assoc|by apply racing_other|]. by exists ms', os'.
  - destruct l as [|p l]; simplify_eq/=.
    + rewrite app_nil_r in Hr. destruct (IH ps1 (k w :: ps2)) as (ms' & os' & ? & Hlen & ?);
        [done|by apply (racing_other v ps1 [])|].
      exists ms', os'. by rewrite app_nil_r.
    + destruct (IH (ps1 ++ k w :: l) os) as (ms' & os' & ? & Hlen & ?);
        [by rewrite <- app_assoc|by eapply racing_racer|].
      exists ms', os'. by rewrite Hlen, !length_app.
Qed.

Lemma racing_init v n os w :
  wf (w_db w) → Forall (λ p, safe (λ _ _, True) p w) os →
  racing v (replicate n (OneTime_MarkConsumed R v)) os w.
Proof.
  intros Hwf Hos. assert (successes (replicate n (OneTime_MarkConsumed R v)) = 0) as Hz.
  { induction n as [|n IH]; [done|]. cbn [replicate]. by rewrite successes_cons, IH. }
  split_and!; try done; rewrite ?Hz; [|lia|done].
  apply Forall_replicate. by left.
Qed.
End once.

(** ** Termination of the retry loop *)

Section terminates.
Context `{Reliable} {R : Type} `{OneTime R}.
Implicit Types w : World.

(** The [n]-th 32 bytes of entropy. *)
Definition draw (n : nat) : bytes :=
  match entropy n with Some f => map f (List.seq 0 32) | None => [] end.

Definition values (d : DB) : list bytes := value <$> rows (rel_get (R:=R) d).

Lemma head_matching_value v d :
  head (matching (λ r : R, eqb_bytes (value r) v) d) = None ↔ v ∉ values d.
Proof.
  unfold values, matching. induction (rows (rel_get d)) as [|r l IH].
  { split; [intros _; apply not_elem_of_nil|done]. }
  rewrite fmap_cons, not_elem_of_cons, <- IH, filter_cons.
  destruct (decide (eqb_bytes (value r) v = true)) as [He|He]; simpl.
  - apply eqb_bytes_eq in He as <-. split; [done|]. intros [? _]. done.
  - split; [|by intros [_ ?]]. intros ->. split; [|done]. intros ->. by apply He, eqb_bytes_eq.
Qed.

Lemma GenerateUnique_run fuel w :
  (∀ n, entropy n ≠ None) →
  (seq (rel_get (R:=R) (w_db w)) < max_int64)%Z →
  (∃ i, i < fuel ∧ draw (w_draws w + i) ∉ values (w_db w)) →
  ∃ v w', run (OneTime_GenerateUnique R fuel) w = (Ok v, w') ∧
    length v = 32 ∧ v ∉ values (w_db w) ∧
    w_db w' = rel_set (mkTable (rows (rel_get (w_db w)) ++
                  [make v zero_time zero_time false (seq (rel_get (R:=R) (w_db w)) + 1)%Z])
                (seq (rel_get (R:=R) (w_db w)) + 1)) (w_db w).
Proof.
  intros Hent. revert w. induction fuel as [|fuel IH]; intros w Hseq (i & Hi & Hfresh); [lia|].
  cbn [OneTime_GenerateUnique]. rewrite run_bind, run_map_err.
  assert (run (rand_read 32) w = (Ok (draw (w_draws w)), tick_draw w)) as ->.
  { unfold rand_read, draw. rewrite run_atomically. destruct (entropy (w_draws w)) eqn:He; [done|].
    by destruct (Hent (w_draws w)). }
  cbn [fst snd res_map_err run_then]. rewrite run_bind, run_map_err.
  unfold OneTime_FindByValue. rewrite run_select_opt_reliable. cbn [fst snd res_map_err run_then].
  destruct (head _) as [r|] eqn:Hh.
  - destruct i as [|i].
    { rewrite Nat.add_0_r in Hfresh. apply head_matching_value in Hfresh. simpl in *. congruence. }
    apply (IH (with_db (w_db (tick_draw w)) (tick_call (tick_draw w)))); [done|].
    exists i. split; [lia|]. simpl. by rewrite Nat.add_succ_r in Hfresh.
  - apply head_matching_value in Hh. simpl in Hh.
    rewrite run_bind, run_map_err. unfold OneTime_Create.
    rewrite run_map_err, run_insert_reliable, insert_row_ok; [..|done].
    { cbn [fst snd res_map_err run_then]. rewrite run_ret. eexists _, _.
      split_and!; try done. unfold draw. destruct (entropy _) eqn:He; [done|].
      by destruct (Hent (w_draws w)). }
    simpl. unfold unique. apply negb_true_iff, not_true_iff_false. intros Hex.
    apply existsb_exists in Hex as (r & Hr & Hv%eqb_bytes_eq). apply Hh.
    apply list_elem_of_fmap. exists r. split; [done|]. by apply list_elem_of_In.
Qed.

(** More distinct draws than rows: one of them is fresh. *)
Lemma fresh_draw fuel w :
  NoDup (draw <$> List.seq (w_draws w) fuel) →
  length (rows (rel_get (R:=R) (w_db w))) < fuel →
  ∃ i, i < fuel ∧ draw (w_draws w + i) ∉ values (w_db w).
Proof.
  intros Hnd Hlt.
  destruct (decide (Exists (λ n, draw n ∉ values (w_db w)) (List.seq (w_draws w) fuel))) as [He|He].
  - apply Exists_exists in He as (n & Hn & Hf). apply list_elem_of_In, in_seq in Hn.
    exists (n - w_draws w). split; [lia|]. by replace (_ + _) with n by lia.
  - apply not_Exists_Forall in He; [|apply _]. exfalso.
    assert (length (draw <$> List.seq (w_draws w) fuel) ≤ length (values (w_db w))) as Hle.
    { apply submseteq_length, NoDup_submseteq; [done|].
      intros v (n & -> & Hn)%list_elem_of_fmap. rewrite Forall_forall in He.
      specialize (He n Hn). simpl in He. by apply dec_stable. }
    unfold values in Hle. rewrite !length_fmap, length_seq in Hle. lia.
Qed.
End terminates.

(** ** Properties *)

Section properties.
Context `{Platform}.

(** C9: however the requests interleave, and whatever else the server does meanwhile,
    at most one call of [MarkConsumed] on the same token ever succeeds. *)
Theorem token_consumed_at_most_once (v : bytes) (n : nat) (os ps os' : list (M unit)) (w w' : World) :
  wf (w_db w) → Forall (λ p, safe (λ _ _, True) p w) os →
  rtc sched (replicate n (TokenRepository_MarkConsumed v) ++ os, w) (ps ++ os', w') →
  length ps = n →
  successes ps ≤ 1.
Proof.
  intros Hwf Hos Hs Hlen.
  destruct (racing_steps (R:=Token) v _ _ Hs _ os eq_refl) as (ms & os2 & Heq & Hms & Hr);
    [by apply racing_init|].
  apply app_inj_1 in Heq as [-> _]; [apply Hr|]. by rewrite Hms, length_replicate.
Qed.

(** The retry loop of [GenerateUniqueToken] ends with a fresh 32-byte token, stored
    unconsumed in a new row, whenever the random source yields more distinct
    values than there are tokens. *)
Theorem GenerateUniqueToken_total `{!Reliable} (w : World) :
  (∀ n, entropy n ≠ None) →
  NoDup (draw <$> List.seq (w_draws w) loop_fuel) →
  length (rows (tokens (w_db w))) < loop_fuel →
  (seq (tokens (w_db w)) < max_int64)%Z →
  ∃ v w', run TokenRepository_GenerateUniqueToken w = (Ok v, w') ∧
    length v = 32 ∧ v ∉ Token_Token <$> rows (tokens (w_db w)) ∧
    rows (tokens (w_db w')) =
      rows (tokens (w_db w)) ++ [mkToken (seq (tokens (w_db w)) + 1) v zero_time zero_time false].
Proof.
  intros Hent Hnd Hlt Hseq.
  destruct (GenerateUnique_run (R:=Token) loop_fuel w Hent) as (v & w' & Hrun & Hlen & Hv & Hdb);
    [done|by apply fresh_draw|].
  exists v, w'. split_and!; [done..|by rewrite Hdb].
Qed.
End properties.

(** Witnesses. *)

Definition example_token : bytes := bs [1; 2; 3]%Z.

Definition example_world : World :=
  with_db (rel_set (mkTable [mkToken 1 example_token zero_time zero_time false] 1) empty_DB)
    initial_world.

Lemma example_world_wf : wf (w_db example_world).
Proof.
  apply (evolves_insert_token (λ _, true) (λ id, mkToken id example_token zero_time zero_time false) empty_DB).
  - done.
  - intros id _. apply not_elem_of_nil.
  - apply wf_empty.
Qed.

Lemma token_consumed_at_most_once_witness :
  successes [Done (Ok tt); Done (Err (ErrorString "token already consumed or not found"))] ≤ 1.
Proof.
  eapply (@token_consumed_at_most_once calm example_token 2 [] _ [] example_world _).
  - apply example_world_wf.
  - constructor.
  - rewrite !app_nil_r. eapply rtc_l; [apply (sched_step [])|].
    eapply rtc_l; [refine (sched_step [_] _ _ [] _)|].
    apply rtc_refl.
  - reflexivity.
Defined.

Lemma GenerateUniqueToken_total_witness :
  ∃ v w', @run _ _ _ (@TokenRepository_GenerateUniqueToken calm) example_world = (Ok v, w') ∧
    length v = 32 ∧ v ∉ [example_token] ∧
    rows (tokens (w_db w')) =
      [mkToken 1 example_token zero_time zero_time false; mkToken 2 v zero_time zero_time false].
Proof.
  apply (@GenerateUniqueToken_total calm calm_reliable example_world).
  - done.
  - apply (bool_decide_unpack _). by vm_compute.
  - vm_compute. lia.
  - by vm_compute.
Defined.
