(* ===== verification/AgentRepo.v ===== *)
(** Agents, devices, entities and manifest signing keys:
    [internal/infra/sqlite/agent_repo.go], [device_repo.go], [entity_repo.go] and
    [manifest_signing_key_repo.go]. *)

From S2P Require Import Prelude Model Db Evolve.

Section agents.
Context `{Platform}.

(** The columns the lookups select: not [device_id]. *)
Definition fetched (a : Agent) : Agent :=
  mkAgent (Agent_ID a) (Agent_KID a) None (Agent_CreatedAt a) (Agent_ExpiredAt a)
    (Agent_RevokedAt a) (Agent_PublicKey a).

Definition AgentRepository_GetAll : M (list Agent) :=
  query (λ d, map fetched (rows (agents d))).

Definition AgentRepository_FindByKID (kid : bytes) : M Agent :=
  r ← try (select_one (λ a : Agent, eqb_bytes (Agent_KID a) kid));
  match r with
  | inr err => throw (if errors_Is err ErrNoRows then ErrNotFound else err)
  | inl a =>
      if bool_decide (Agent_RevokedAt a ≠ None) then throw ErrRevoked
      else
        now ← time_now;
        if bool_decide (Agent_ExpiredAt a < now)%Z then throw ErrExpired
        else mret (fetched a)
  end.

Definition AgentRepository_FindByKIDIgnoreRevoked (kid : bytes) : M (option Agent) :=
  r ← try (select_one (λ a : Agent, eqb_bytes (Agent_KID a) kid));
  match r with
  | inr err => if errors_Is err ErrNoRows then mret None else throw err
  | inl a =>
      now ← time_now;
      if bool_decide (Agent_ExpiredAt a < now)%Z then throw ErrExpired
      else mret (Some (fetched a))
  end.

Definition AgentRepository_Create (a : Agent) : M Z :=
  insert (λ d, unique (λ a', eqb_bytes (Agent_KID a') (Agent_KID a)) d &&
               references_opt (R:=Device) (Agent_DeviceID a) d)
    (λ id, mkAgent id (Agent_KID a) (Agent_DeviceID a) (Agent_CreatedAt a) (Agent_ExpiredAt a)
             (Agent_RevokedAt a) (Agent_PublicKey a)).

(** [revoked_at] holds Unix seconds. *)
Definition AgentRepository_RevokeByKID (kid : bytes) : M unit :=
  now ← time_now;
  rowsAffected ← update
    (λ a : Agent, eqb_bytes (Agent_KID a) kid && bool_decide (Agent_RevokedAt a = None))
    (λ a, mkAgent (Agent_ID a) (Agent_KID a) (Agent_DeviceID a) (Agent_CreatedAt a)
            (Agent_ExpiredAt a) (Some (now / second)%Z) (Agent_PublicKey a));
  if Z.eqb rowsAffected 0 then throw ErrNotFound else mret tt.

Definition DeviceRepository_FindByUEID (ueid : bytes) : M Device :=
  r ← try (select_one (λ x : Device, eqb_bytes (Device_UEID x) ueid));
  match r with
  | inr err => throw (if errors_Is err ErrNoRows then ErrNotFound else err)
  | inl x => mret x
  end.

Definition DeviceRepository_Create (x : Device) : M Z :=
  insert (λ d, unique (λ x', eqb_bytes (Device_UEID x') (Device_UEID x)) d &&
               references (R:=Entity) (Device_AdminID x) d)
    (λ id, mkDevice id (Device_UEID x) (Device_AdminID x) (Device_CreatedAt x)).

Definition EntityRepository_Create (e : Entity) : M Z :=
  map_err (Wrapped "insert tc_developer")
    (insert (λ _, true)
      (λ id, mkEntity id (Entity_Name e) (IsTAMAdmin e) (IsTCDeveloper e) (IsDeviceAdmin e)
               (Entity_CreatedAt e))).

Definition EntityRepository_FindByID (id : Z) : M (option Entity) :=
  select_opt (Wrapped "scan entity") (λ e : Entity, Z.eqb (Entity_ID e) id).

Definition EntityRepository_FindByName (name : string) : M (option Entity) :=
  select_opt (Wrapped "scan entity") (λ e : Entity, bool_decide (Entity_Name e = name)).

Definition ManifestSigningKeyRepository_Create (k : ManifestSigningKey) : M Z :=
  map_err (Wrapped "insert manifest_signing_key")
    (insert (λ d, unique (λ k', eqb_bytes (ManifestSigningKey_KID k') (ManifestSigningKey_KID k)) d &&
                  references (R:=Entity) (ManifestSigningKey_EntityID k) d)
      (λ id, mkManifestSigningKey id (ManifestSigningKey_KID k) (ManifestSigningKey_EntityID k)
               (ManifestSigningKey_PublicKey k) (ManifestSigningKey_CreatedAt k)
               (ManifestSigningKey_ExpiredAt k))).

Definition ManifestSigningKeyRepository_FindByKID (kid : bytes) : M (option ManifestSigningKey) :=
  select_opt (Wrapped "scan manifest_signing_key")
    (λ k : ManifestSigningKey, eqb_bytes (ManifestSigningKey_KID k) kid).

(** *** Guarantees *)

Lemma AgentRepository_FindByKID_safe kid w :
  wf (w_db w) →
  safe (λ a d, Agent_KID a = kid ∧ ∃ r, seen r d ∧ a = fetched r ∧ Agent_RevokedAt r = None)
    (AgentRepository_FindByKID kid) w.
Proof.
  intros Hwf. unfold AgentRepository_FindByKID. eapply safe_bind.
  - apply safe_try, (safe_select_one (λ (a : Agent) d, Agent_KID a = kid ∧ seen a d)).
    intros r d d' Hd Hd' Hr Hk%eqb_bytes_eq. split; [done|].
    eapply seen_evolves; [exact (evolves_wf _ _ Hd Hwf)|done|by apply seen_in].
  - intros [a|e] w1 Hw1 Ha; [|apply safe_throw].
    case_bool_decide as Hrev; [apply safe_throw|].
    apply harmless_bind; [apply safe_time_now|]. intros now w2 Hw2.
    case_bool_decide; [apply safe_throw|]. apply safe_ret. intros d Hd.
    destruct (Ha d) as [Hk Hs]; [by etrans|]. split; [done|]. by exists a.
Qed.

Lemma AgentRepository_FindByKIDIgnoreRevoked_harmless kid w :
  harmless (AgentRepository_FindByKIDIgnoreRevoked kid) w.
Proof. unfold AgentRepository_FindByKIDIgnoreRevoked. harmless_auto. Qed.

Lemma AgentRepository_Create_harmless a w : harmless (AgentRepository_Create a) w.
Proof.
  apply harmless_insert. intros d [Hu _]%andb_true_iff. apply evolves_insert_agent; [done|].
  intros id _. exact (unique_fresh (R:=Agent) Agent_KID _ d Hu).
Qed.

Lemma AgentRepository_RevokeByKID_harmless kid w : harmless (AgentRepository_RevokeByKID kid) w.
Proof.
  unfold AgentRepository_RevokeByKID. apply harmless_bind; [apply safe_time_now|]. intros now w' _.
  apply harmless_bind; [|intros; harmless_auto].
  apply harmless_update. intros d. apply evolves_revoke_agent.
  intros a [_ Hn]%andb_true_iff. by apply bool_decide_eq_true in Hn.
Qed.

Lemma DeviceRepository_FindByUEID_harmless u w : harmless (DeviceRepository_FindByUEID u) w.
Proof. unfold DeviceRepository_FindByUEID. harmless_auto. Qed.

Lemma DeviceRepository_Create_harmless x w : harmless (DeviceRepository_Create x) w.
Proof. unfold DeviceRepository_Create. harmless_auto. Qed.

Lemma EntityRepository_Create_harmless x w : harmless (EntityRepository_Create x) w.
Proof. unfold EntityRepository_Create. harmless_auto. Qed.

Lemma ManifestSigningKeyRepository_Create_harmless x w :
  harmless (ManifestSigningKeyRepository_Create x) w.
Proof. unfold ManifestSigningKeyRepository_Create. harmless_auto. Qed.
End agents.

#[export] Hint Resolve AgentRepository_FindByKIDIgnoreRevoked_harmless AgentRepository_Create_harmless
  AgentRepository_RevokeByKID_harmless DeviceRepository_FindByUEID_harmless
  DeviceRepository_Create_harmless EntityRepository_Create_harmless
  ManifestSigningKeyRepository_Create_harmless : attestam.

(** ** Revoked agents *)

Section properties.
Context `{Platform}.

(** A row of the agent, with a revocation time. *)
Definition revoked (kid : bytes) (d : DB) : Prop :=
  ∃ a t, a ∈ rows (agents d) ∧ Agent_KID a = kid ∧ Agent_RevokedAt a = Some t.

Lemma RevokeByKID_revokes kid w w' :
  run (AgentRepository_RevokeByKID kid) w = (Ok tt, w') →
  revoked kid (w_db w').
Proof.
  unfold AgentRepository_RevokeByKID. intros H0. run_inv H0. run_inv Hk.
  unfold time_now in Hrun. rewrite run_atomically in Hrun. simplify_eq.
  apply run_update_Ok in Hrun0 as [-> Hdb]. simpl in *.
  destruct (matching _ _) as [|r l] eqn:Hm; [done|]. simpl in Hk0. simplify_eq.
  assert (r ∈ r :: l) as Hr by left. rewrite <- Hm in Hr.
  apply list_elem_of_filter in Hr as [Hp Hr].
  eexists (mkAgent (Agent_ID r) _ _ _ _ (Some _) _), _. split_and!; [..|done].
  - rewrite Hdb. unfold update_rows. simpl. apply list_elem_of_In, in_map_iff. exists r.
    rewrite Hp. split; [done|]. by apply list_elem_of_In.
  - simpl. apply andb_true_iff in Hp as [Hp _]. by apply eqb_bytes_eq.
Qed.

Lemma revoked_evolves kid d d' : wf d → evolves d d' → revoked kid d → revoked kid d'.
Proof.
  intros Hwf Hev (a & t & Ha & Hk & Ht).
  assert (seen a d) as Hs by by apply seen_in.
  destruct (seen_evolves a d d' Hwf Hev Hs) as (a' & Ha' & (_ & Hk' & _ & _ & _ & Hr)).
  exists a', t. split_and!; [done|congruence|by apply Hr].
Qed.

(** Key ids are unique, so the revoked row is the only one. *)
Lemma revoked_only kid d a : wf d → revoked kid d → a ∈ rows (agents d) → Agent_KID a = kid →
  Agent_RevokedAt a ≠ None.
Proof.
  intros Hwf (a' & t & Ha' & Hk & Ht) Ha Hka.
  assert (a = a') as -> by (eapply fmap_NoDup_inj; [exact (wf_kid _ Hwf)|done|done|congruence]).
  by rewrite Ht.
Qed.

Lemma FindByKID_reports_revoked `{!Reliable} kid w :
  wf (w_db w) → revoked kid (w_db w) → (run (AgentRepository_FindByKID kid) w).1 = Err ErrRevoked.
Proof.
  intros Hwf Hrev. unfold AgentRepository_FindByKID, select_one.
  rewrite run_bind, run_try, run_sql_reliable. cbn [fst snd]. destruct (head _) as [a|] eqn:Hh.
  - cbn [res_of_option run_then fst snd].
    apply head_Some_elem_of, list_elem_of_filter in Hh as [Hk%eqb_bytes_eq Ha].
    by rewrite bool_decide_true by (by eapply revoked_only).
  - exfalso. destruct Hrev as (a & t & Ha & Hk & _).
    unfold matching in Hh. destruct (filter _ _) as [|x l] eqn:Hf; [|done].
    apply (not_elem_of_nil a). rewrite <- Hf. apply list_elem_of_filter.
    split; [by apply eqb_bytes_eq|done].
Qed.
End properties.
