(* ===== verification/ManifestRepo.v ===== *)
(** SUIT manifests: [internal/infra/sqlite/suit_manifest_repo.go]. *)

From S2P Require Import Prelude Model Db Evolve.

(** The columns the single-row lookups select: not [digest]. *)
Definition without_digest (m : SuitManifest) : SuitManifest :=
  mkSuitManifest (SuitManifest_ID m) (SuitManifest_Manifest m) [] (SuitManifest_SigningKeyID m)
    (SuitManifest_TrustedComponentID m) (SuitManifest_SequenceNumber m) (SuitManifest_CreatedAt m).

Definition is_component (tcid : bytes) (m : SuitManifest) : bool :=
  eqb_bytes (SuitManifest_TrustedComponentID m) tcid.

(** [ORDER BY sequence_number DESC]. *)
Definition sequence_desc (a b : SuitManifest) : bool :=
  Z.leb (SuitManifest_SequenceNumber b) (SuitManifest_SequenceNumber a).

(** SQLite compares blobs byte by byte ([memcmp]), a prefix first. *)
Fixpoint blob_le (x y : bytes) : bool :=
  match x, y with
  | [], _ => true
  | _, [] => false
  | a :: x', b :: y' =>
      N.ltb (Byte.to_N a) (Byte.to_N b) || (N.eqb (Byte.to_N a) (Byte.to_N b) && blob_le x' y')
  end.

(** The manifests that carry the largest sequence number of their component. *)
Definition max_sequence_number (tcid : bytes) (l : list SuitManifest) : option Z :=
  match map SuitManifest_SequenceNumber (filter (λ m, is_component tcid m = true) l) with
  | [] => None
  | n :: ns => Some (foldr Z.max n ns)
  end.

Definition is_max (l : list SuitManifest) (m : SuitManifest) : bool :=
  bool_decide (max_sequence_number (SuitManifest_TrustedComponentID m) l
               = Some (SuitManifest_SequenceNumber m)).

Section manifests.
Context `{Platform}.

Definition SuitManifestRepository_FindByID (id : Z) : M (option SuitManifest) :=
  r ← nil_if_no_rows (Wrapped "suit manifest scan")
        (select_first sequence_desc (λ m, Z.eqb (SuitManifest_ID m) id));
  mret (fmap (M:=option) without_digest r).

Definition SuitManifestRepository_FindLatestByTrustedComponentID (trustedComponentID : bytes) :
    M (option SuitManifest) :=
  r ← nil_if_no_rows (Wrapped "suit manifest scan")
        (select_first sequence_desc (is_component trustedComponentID));
  mret (fmap (M:=option) without_digest r).

Definition SuitManifestRepository_FindLatestAll : M (list SuitManifest) :=
  map_err (Wrapped "query latest suit manifests")
    (query (λ d,
      sql_order (λ a b, blob_le (SuitManifest_TrustedComponentID a) (SuitManifest_TrustedComponentID b))
        (filter (λ m, is_max (rows (suit_manifests d)) m = true) (rows (suit_manifests d))))).

Definition SuitManifestRepository_Create (m : SuitManifest) : M Z :=
  if Z.leb max_int64 (SuitManifest_SequenceNumber m)
  then throw (ErrorString "sequence-number exceeds the limit")
  else
    insert (λ d, references (R:=ManifestSigningKey) (SuitManifest_SigningKeyID m) d)
      (λ id, mkSuitManifest id (SuitManifest_Manifest m) (SuitManifest_Digest m)
               (SuitManifest_SigningKeyID m) (SuitManifest_TrustedComponentID m)
               (SuitManifest_SequenceNumber m) (SuitManifest_CreatedAt m)).

(** *** Guarantees *)

Lemma SuitManifestRepository_FindByID_safe id w :
  wf (w_db w) →
  safe (λ o d, ∀ m, o = Some m → ∃ r, seen r d ∧ m = without_digest r ∧ SuitManifest_ID r = id)
    (SuitManifestRepository_FindByID id) w.
Proof.
  intros Hwf. unfold SuitManifestRepository_FindByID. eapply safe_bind.
  - apply (safe_nil_if_no_rows (λ o d, ∀ r : SuitManifest, o = Some r → seen r d ∧ SuitManifest_ID r = id));
      [|done].
    apply safe_select_first. intros r d d' Hd Hd' Hr Hp r' [= <-]. split; [|by apply Z.eqb_eq].
    eapply seen_evolves; [exact (evolves_wf _ _ Hd Hwf)|done|by apply seen_in].
  - intros o w' Hw HQ. apply safe_ret. intros d Hd m Hm. apply fmap_Some in Hm as (r & -> & ->).
    destruct (HQ d Hd r) as [? ?]; [done|]. by exists r.
Qed.

Lemma FindLatest_safe tcid w :
  wf (w_db w) →
  safe (λ o d, ∀ m, o = Some m →
          ∃ r, seen r d ∧ m = without_digest r ∧ SuitManifest_TrustedComponentID r = tcid)
    (SuitManifestRepository_FindLatestByTrustedComponentID tcid) w.
Proof.
  intros Hwf. unfold SuitManifestRepository_FindLatestByTrustedComponentID. eapply safe_bind.
  - apply (safe_nil_if_no_rows (λ o d, ∀ r : SuitManifest, o = Some r →
             seen r d ∧ SuitManifest_TrustedComponentID r = tcid)); [|done].
    apply safe_select_first. intros r d d' Hd Hd' Hr Hp r' [= <-]. split; [|by apply eqb_bytes_eq].
    eapply seen_evolves; [exact (evolves_wf _ _ Hd Hwf)|done|by apply seen_in].
  - intros o w' Hw HQ. apply safe_ret. intros d Hd m Hm. apply fmap_Some in Hm as (r & -> & ->).
    destruct (HQ d Hd r) as [? ?]; [done|]. by exists r.
Qed.

Lemma SuitManifestRepository_Create_harmless m w : harmless (SuitManifestRepository_Create m) w.
Proof.
  unfold SuitManifestRepository_Create. case_match; [apply safe_throw|].
  apply harmless_insert. intros d _. by apply evolves_insert_manifest.
Qed.

Lemma SuitManifestRepository_FindLatestAll_harmless w :
  harmless SuitManifestRepository_FindLatestAll w.
Proof. unfold SuitManifestRepository_FindLatestAll. harmless_auto. Qed.
End manifests.

#[export] Hint Resolve SuitManifestRepository_Create_harmless
  SuitManifestRepository_FindLatestAll_harmless : attestam.
