(* ===== verification/SentRepo.v ===== *)
(** Messages the TAM has sent:
    [internal/infra/sqlite/sent_query_request_message_repo.go] and
    [sent_update_message_repo.go]. *)

From S2P Require Import Prelude Model Db Evolve OneTime AgentRepo ManifestRepo.

(** [JOIN r ON p]: the matching rows; [LEFT JOIN] keeps a row without a match. *)
Definition join {R} `{Relation R} (p : R → bool) (d : DB) : list R := matching p d.

Definition left_join {R} `{Relation R} (p : R → bool) (d : DB) : list (option R) :=
  match matching p d with [] => [None] | l => map Some l end.

Definition eqb_id (o : option Z) (id : Z) : bool := bool_decide (o = Some id).

Record SentQueryRequestMessageWithToken := mkSentQueryRequestMessageWithToken {
  WithToken_Message : SentQueryRequestMessage;
  WithToken_Token : Token;
}.

Record SentQueryRequestMessageWithChallenge := mkSentQueryRequestMessageWithChallenge {
  WithChallenge_Message : SentQueryRequestMessage;
  WithChallenge_Challenge : Challenge;
}.

Section sent_queries.
Context `{Platform}.

Definition SentQueryRequestMessageRepository_Create (msg : SentQueryRequestMessage) : M Z :=
  map_err (Wrapped "insert sent query request message")
    (insert (λ d, references_opt (R:=Agent) (SentQueryRequest_AgentID msg) d &&
                  references_opt (R:=Token) (SentQueryRequest_TokenID msg) d &&
                  references_opt (R:=Challenge) (SentQueryRequest_ChallengeID msg) d)
      (λ id, mkSentQueryRequestMessage id (SentQueryRequest_AgentID msg)
               (AttestationRequested_sent msg) (TCListRequested_sent msg)
               (SentQueryRequest_TokenID msg) (SentQueryRequest_ChallengeID msg)
               (SentQueryRequest_CreatedAt msg))).

Definition SentQueryRequestMessageRepository_CreateWithToken (token : bytes)
    (msg : SentQueryRequestMessage) : M Z :=
  tok ← map_err (Wrapped "find token") (TokenRepository_FindByToken token);
  match tok with
  | None => throw (ErrorString "token not found")
  | Some tok =>
      if Token_Consumed tok then throw (ErrorString "token consumed")
      else
        SentQueryRequestMessageRepository_Create
          (mkSentQueryRequestMessage (SentQueryRequest_ID msg) (SentQueryRequest_AgentID msg)
             (AttestationRequested_sent msg) (TCListRequested_sent msg) (Some (Token_ID tok))
             (SentQueryRequest_ChallengeID msg) (SentQueryRequest_CreatedAt msg))
  end.

Definition SentQueryRequestMessageRepository_CreateWithChallenge (challenge : bytes)
    (msg : SentQueryRequestMessage) : M Z :=
  chal ← map_err (Wrapped "find challenge") (ChallengeRepository_FindByChallenge challenge);
  match chal with
  | None => throw (ErrorString "challenge not found")
  | Some chal =>
      if Challenge_Consumed chal then throw (ErrorString "challenge consumed")
      else
        SentQueryRequestMessageRepository_Create
          (mkSentQueryRequestMessage (SentQueryRequest_ID msg) (SentQueryRequest_AgentID msg)
             (AttestationRequested_sent msg) (TCListRequested_sent msg)
             (SentQueryRequest_TokenID msg) (Some (Challenge_ID chal))
             (SentQueryRequest_CreatedAt msg))
  end.

Definition SentQueryRequestMessageRepository_FindByToken (token : bytes) :
    M (option SentQueryRequestMessageWithToken) :=
  nil_if_no_rows (Wrapped "scan sent query request message with token")
    (sql (λ d,
      (res_of_option ErrNoRows (head
        (t ← matching (λ t : Token, eqb_bytes (Token_Token t) token) d;
         sqrm ← join (λ m, eqb_id (SentQueryRequest_TokenID m) (Token_ID t)) d;
         [mkSentQueryRequestMessageWithToken sqrm t])), d))).

Definition SentQueryRequestMessageRepository_FindByChallenge (challenge : bytes) :
    M (option SentQueryRequestMessageWithChallenge) :=
  nil_if_no_rows (Wrapped "scan sent query request message with challenge")
    (sql (λ d,
      (res_of_option ErrNoRows (head
        (c ← matching (λ c : Challenge, eqb_bytes (Challenge_Challenge c) challenge) d;
         sqrm ← join (λ m, eqb_id (SentQueryRequest_ChallengeID m) (Challenge_ID c)) d;
         [mkSentQueryRequestMessageWithChallenge sqrm c])), d))).

Definition SentQueryRequestMessageRepository_FindByID (id : Z) : M (option SentQueryRequestMessage) :=
  select_opt (Wrapped "scan sent query request message")
    (λ m : SentQueryRequestMessage, Z.eqb (SentQueryRequest_ID m) id).
End sent_queries.

Section sent_updates.
Context `{Platform}.

Definition SentUpdateMessageRepository_Create (msg : SentUpdateMessage) : M Z :=
  map_err (Wrapped "insert sent update message")
    (insert (λ d, references (R:=Agent) (SentUpdate_AgentID msg) d &&
                  references (R:=Token) (SentUpdate_TokenID msg) d)
      (λ id, mkSentUpdateMessage id (SentUpdate_AgentID msg) (SentUpdate_TokenID msg)
               (SentUpdate_CreatedAt msg))).

(** The body of the [for] loop over [msg.Manifests]: a manifest that is no longer
    in the table is a nil pointer the code dereferences. *)
Definition link_manifest (updID : Z) (manifest : SuitManifest) : M unit :=
  man ← map_err (Wrapped "search suit manifest")
          (SuitManifestRepository_FindByID (SuitManifest_ID manifest));
  match man with
  | None => panic
  | Some man =>
      _ ← map_err (Wrapped "insert into sent_manifests_in_update_messages")
            (insert (λ d, references (R:=SentUpdateMessage) updID d &&
                          references (R:=SuitManifest) (SuitManifest_ID man) d)
               (λ id, mkSentManifest id updID (SuitManifest_ID man)));
      mret tt
  end.

Fixpoint link_manifests (updID : Z) (manifests : list SuitManifest) : M unit :=
  match manifests with
  | [] => mret tt
  | manifest :: rest =>
      _ ← link_manifest updID manifest;
      link_manifests updID rest
  end.

(** Each statement is its own transaction. *)
Definition SentUpdateMessageRepository_CreateWithToken (agentKID token : bytes)
    (createdAt : Z) (manifests : list SuitManifest) : M Z :=
  agt ← map_err (Wrapped "find agent") (AgentRepository_FindByKID agentKID);
  tok ← map_err (Wrapped "find token") (TokenRepository_FindByToken token);
  match tok with
  | None => throw (ErrorString "token not found")
  | Some tok =>
      if Token_Consumed tok then throw (ErrorString "token consumed")
      else
        updID ← map_err (Wrapped "insert update")
          (SentUpdateMessageRepository_Create
             (mkSentUpdateMessage 0 (Agent_ID agt) (Token_ID tok) createdAt));
        _ ← link_manifests updID manifests;
        mret updID
  end.

Definition SentUpdateMessageRepository_FindByTokenID (tokenID : Z) : M (option SentUpdateMessage) :=
  select_opt (Wrapped "scan sent update message")
    (λ m : SentUpdateMessage, Z.eqb (SentUpdate_TokenID m) tokenID).

Definition SentUpdateMessageRepository_FindByID (id : Z) : M (option SentUpdateMessage) :=
  select_opt (Wrapped "scan sent update message")
    (λ m : SentUpdateMessage, Z.eqb (SentUpdate_ID m) id).

(** The rows of the four-table join. *)
Definition update_rows_of (token : bytes) (d : DB) : list (Token * SentUpdateMessage * option SuitManifest) :=
  t ← matching (λ t : Token, eqb_bytes (Token_Token t) token) d;
  sum ← join (λ m : SentUpdateMessage, Z.eqb (SentUpdate_TokenID m) (Token_ID t)) d;
  smium ← left_join (λ l : SentManifest, Z.eqb (SentManifest_SentUpdateID l) (SentUpdate_ID sum)) d;
  sm ← match smium with
       | None => [None]
       | Some l => left_join (λ m : SuitManifest, Z.eqb (SuitManifest_ID m) (SentManifest_SuitManifestID l)) d
       end;
  [(t, sum, sm)].

(** The [for rows.Next()] loop: the header comes from the first row, the manifests
    from every row. *)
Definition scan_update_row (result : option SentUpdateMessageWithManifests)
    (row : Token * SentUpdateMessage * option SuitManifest) : option SentUpdateMessageWithManifests :=
  let '(tok, msg, sm) := row in
  let result := match result with
                | None => mkSentUpdateMessageWithManifests msg tok []
                | Some r => r
                end in
  Some (mkSentUpdateMessageWithManifests (With_SentUpdateMessage result) (With_Token result)
          (With_Manifests result ++
           match sm with Some m => [without_digest m] | None => [] end)).

Definition SentUpdateMessageRepository_FindWithManifestsByToken (token : bytes) :
    M (option SentUpdateMessageWithManifests) :=
  rows ← map_err (Wrapped "query sent update message with manifests") (query (update_rows_of token));
  mret (fold_left scan_update_row rows None).
End sent_updates.

(** ** Guarantees *)

Section guarantees.
Context `{Platform}.
Implicit Types w : World.

Lemma TokenRepository_FindByToken_harmless v w : harmless (TokenRepository_FindByToken v) w.
Proof. by apply safe_select_opt. Qed.

Lemma ChallengeRepository_FindByChallenge_harmless v w :
  harmless (ChallengeRepository_FindByChallenge v) w.
Proof. by apply safe_select_opt. Qed.

Lemma SentQueryRequestMessageRepository_Create_harmless msg w :
  harmless (SentQueryRequestMessageRepository_Create msg) w.
Proof. unfold SentQueryRequestMessageRepository_Create. harmless_auto. Qed.

Lemma SentQuery_CreateWithToken_harmless v msg w :
  harmless (SentQueryRequestMessageRepository_CreateWithToken v msg) w.
Proof.
  unfold SentQueryRequestMessageRepository_CreateWithToken.
  apply harmless_bind; [apply safe_map_err, TokenRepository_FindByToken_harmless|intros].
  case_match; [|apply safe_throw]. case_match; [apply safe_throw|].
  apply SentQueryRequestMessageRepository_Create_harmless.
Qed.

Lemma SentQuery_CreateWithChallenge_harmless v msg w :
  harmless (SentQueryRequestMessageRepository_CreateWithChallenge v msg) w.
Proof.
  unfold SentQueryRequestMessageRepository_CreateWithChallenge.
  apply harmless_bind; [apply safe_map_err, ChallengeRepository_FindByChallenge_harmless|intros].
  case_match; [|apply safe_throw]. case_match; [apply safe_throw|].
  apply SentQueryRequestMessageRepository_Create_harmless.
Qed.

(** The message a challenge or token belongs to is one the TAM recorded. *)
Lemma SentQuery_FindByToken_safe v w :
  wf (w_db w) →
  safe (λ o d, ∀ r, o = Some r →
          seen (WithToken_Message r) d ∧ seen (WithToken_Token r) d ∧
          Token_Token (WithToken_Token r) = v ∧
          SentQueryRequest_TokenID (WithToken_Message r) = Some (Token_ID (WithToken_Token r)))
    (SentQueryRequestMessageRepository_FindByToken v) w.
Proof.
  intros Hwf. apply safe_nil_if_no_rows; [|done]. apply safe_sql; [done|]. cbn [fst snd].
  intros d a d' Hd Ha Hd' r [= <-]. apply res_of_option_Ok, head_Some_elem_of in Ha.
  apply list_elem_of_bind in Ha as (t & Ha & Ht). apply list_elem_of_bind in Ha as (m & Ha & Hm).
  apply list_elem_of_singleton in Ha as ->. simpl.
  apply list_elem_of_filter in Ht as [Hv%eqb_bytes_eq Ht].
  apply list_elem_of_filter in Hm as [Hp%bool_decide_eq_true Hm].
  pose proof (evolves_wf _ _ Hd Hwf).
  split_and!; [by eapply seen_evolves, seen_in..|done|done].
Qed.

Lemma SentQuery_FindByChallenge_safe v w :
  wf (w_db w) →
  safe (λ o d, ∀ r, o = Some r →
          seen (WithChallenge_Message r) d ∧ seen (WithChallenge_Challenge r) d ∧
          Challenge_Challenge (WithChallenge_Challenge r) = v ∧
          SentQueryRequest_ChallengeID (WithChallenge_Message r)
            = Some (Challenge_ID (WithChallenge_Challenge r)))
    (SentQueryRequestMessageRepository_FindByChallenge v) w.
Proof.
  intros Hwf. apply safe_nil_if_no_rows; [|done]. apply safe_sql; [done|]. cbn [fst snd].
  intros d a d' Hd Ha Hd' r [= <-]. apply res_of_option_Ok, head_Some_elem_of in Ha.
  apply list_elem_of_bind in Ha as (t & Ha & Ht). apply list_elem_of_bind in Ha as (m & Ha & Hm).
  apply list_elem_of_singleton in Ha as ->. simpl.
  apply list_elem_of_filter in Ht as [Hv%eqb_bytes_eq Ht].
  apply list_elem_of_filter in Hm as [Hp%bool_decide_eq_true Hm].
  pose proof (evolves_wf _ _ Hd Hwf).
  split_and!; [by eapply seen_evolves, seen_in..|done|done].
Qed.

(** The record of an update: addressed to the agent with key id [kid], holding the
    token, linked to each of the manifests [ids]. *)
Definition update_recorded (kid token : bytes) (ids : list Z) (updID : Z) (d : DB) : Prop :=
  ∃ u a t, seen u d ∧ seen a d ∧ seen t d ∧
    SentUpdate_ID u = updID ∧
    Agent_KID a = kid ∧ SentUpdate_AgentID u = Agent_ID a ∧
    Token_Token t = token ∧ SentUpdate_TokenID u = Token_ID t ∧
    Forall (λ id, ∃ l, seen l d ∧ SentManifest_SentUpdateID l = updID ∧
                       SentManifest_SuitManifestID l = id) ids.

Lemma safe_insert_seen {T} `{Kept T} ok (mk : Z → T) w :
  wf (w_db w) →
  (∀ d, ok d = true → evolves d (insert_row ok mk d).2) →
  safe (λ id d, seen (mk id) d) (insert ok mk) w.
Proof.
  intros Hwf He. apply safe_insert; [intros d _; apply He|].
  intros d id d' Hd Hok Hid Hd'. pose proof (evolves_wf _ _ Hd Hwf) as Hwfd.
  eapply seen_evolves; [exact (evolves_wf _ _ (He d Hok) Hwfd)|done|].
  apply seen_in. unfold insert_row in *. destruct (_ && _); simplify_eq/=.
  rewrite rel_get_set. simpl. apply elem_of_app. right. by apply list_elem_of_singleton.
Qed.

Lemma link_manifests_safe updID ms w :
  wf (w_db w) →
  safe (λ _ d, Forall (λ id, ∃ l, seen l d ∧ SentManifest_SentUpdateID l = updID ∧
                  SentManifest_SuitManifestID l = id) (map SuitManifest_ID ms))
    (link_manifests updID ms) w.
Proof.
  revert w. induction ms as [|m ms IH]; intros w Hwf; cbn [link_manifests]; [by apply safe_ret|].
  eapply safe_bind with (Q := λ _ d, ∃ l, seen l d ∧ SentManifest_SentUpdateID l = updID ∧
                                    SentManifest_SuitManifestID l = SuitManifest_ID m).
  - unfold link_manifest. eapply safe_bind; [by apply safe_map_err, SuitManifestRepository_FindByID_safe|].
    intros [man|] w1 Hw1 Hm; [|apply safe_panic].
    destruct (Hm (w_db w1)) with (m := man) as (r & _ & -> & Hid); [done..|].
    eapply safe_bind; [apply safe_map_err, safe_insert_seen; [exact (evolves_wf _ _ Hw1 Hwf)|auto with attestam]|].
    intros id w2 Hw2 Hs. apply safe_ret. intros d Hd. eexists. split; [by apply Hs|]. by simpl.
  - intros _ w1 Hw1 Hl. eapply safe_weaken; [apply IH; exact (evolves_wf _ _ Hw1 Hwf)|].
    intros [] d Hd Hall. simpl. constructor; [|done]. by apply Hl.
Qed.

Lemma CreateWithToken_safe kid token createdAt ms w :
  wf (w_db w) →
  safe (λ updID d, update_recorded kid token (map SuitManifest_ID ms) updID d)
    (SentUpdateMessageRepository_CreateWithToken kid token createdAt ms) w.
Proof.
  intros Hwf. unfold SentUpdateMessageRepository_CreateWithToken.
  eapply safe_bind; [by apply safe_map_err, AgentRepository_FindByKID_safe|].
  intros agt w1 Hw1 Hagt. pose proof (evolves_wf _ _ Hw1 Hwf) as Hwf1.
  eapply safe_bind; [by apply safe_map_err, (OneTime_FindByValue_safe (R:=Token))|].
  intros [tok|] w2 Hw2 Htok; [|apply safe_throw]. pose proof (evolves_wf _ _ Hw2 Hwf1) as Hwf2.
  destruct (Token_Consumed tok); [apply safe_throw|].
  eapply safe_bind; [apply safe_map_err, safe_map_err, safe_insert_seen; [done|auto with attestam]|].
  intros updID w3 Hw3 Hu. pose proof (evolves_wf _ _ Hw3 Hwf2) as Hwf3.
  eapply safe_bind; [by apply link_manifests_safe|].
  intros [] w4 Hw4 Hl. apply safe_ret. intros d Hd.
  destruct (Hagt d) as (Hk & a & Ha & -> & _); [by (etrans; [exact Hw2|]; etrans; [exact Hw3|]; etrans)|].
  destruct (Htok d) as [Hv Ht]; [by (etrans; [exact Hw3|]; etrans)|].
  eexists _, a, tok. split_and!; [apply Hu; by etrans|done|done|done|done|done|done|done|by apply Hl].
Qed.
End guarantees.

#[export] Hint Resolve TokenRepository_FindByToken_harmless ChallengeRepository_FindByChallenge_harmless
  SentQuery_CreateWithToken_harmless SentQuery_CreateWithChallenge_harmless : attestam.
