(* ===== verification/StatusRepo.v ===== *)
(** Which manifests an agent holds: [internal/infra/sqlite/agent_status_repo.go]. *)

From S2P Require Import Prelude Model Db Evolve AgentRepo ManifestRepo SentRepo.

(** [id IN (SELECT id FROM suit_manifests WHERE trusted_component_id = ?)]. *)
Definition is_manifest_of (tcid : bytes) (d : DB) (id : Z) : bool :=
  existsb (λ m, Z.eqb (SuitManifest_ID m) id && is_component tcid m) (rows (suit_manifests d)).

(** [sm.digest = ?]: a nil parameter is NULL and matches no row. *)
Definition digest_is (dg : option bytes) (m : SuitManifest) : bool :=
  bool_decide (Some (SuitManifest_Digest m) = dg).

Definition delete_holding (h : Holding) : Holding :=
  mkHolding (Holding_ID h) (Holding_AgentID h) (Holding_SuitManifestID h) (Holding_CreatedAt h) true.

Definition active_holding_of (agentID : Z) (tcid : bytes) (d : DB) (h : Holding) : bool :=
  Z.eqb (Holding_AgentID h) agentID && negb (Holding_Deleted h) &&
  is_manifest_of tcid d (Holding_SuitManifestID h).

(** The constraints of [agent_holding_suit_manifests], with the partial unique index
    on the rows that are not deleted. *)
Definition holding_ok `{Platform} (agentID manifestID : Z) (d : DB) : bool :=
  references (R:=Agent) agentID d && references (R:=SuitManifest) manifestID d &&
  unique (λ h, Z.eqb (Holding_AgentID h) agentID && Z.eqb (Holding_SuitManifestID h) manifestID
               && negb (Holding_Deleted h)) d.

(** One row of the join [GetAgentStatus] reads. *)
Record StatusRow := mkStatusRow {
  Row_Agent : Agent;
  Row_UEID : option bytes;
  Row_Manifest : option SuitManifest;
}.

Section status.
Context `{Platform}.

Definition report_ok (agentID manifestID : option Z) (d : DB) : bool :=
  references_opt (R:=Agent) agentID d && references_opt (R:=SuitManifest) manifestID d.

(** The body of the transaction. *)
Definition replace_holding (agentID manifestID : Z) (tcid reportBytes : bytes) : M unit :=
  _ ← map_err (Wrapped "mark deleted")
        (sql (λ d, (Ok tt, update_rows (active_holding_of agentID tcid d) delete_holding d)));
  created ← current_timestamp;
  _ ← map_err (Wrapped "insert holding")
        (insert (holding_ok agentID manifestID)
           (λ id, mkHolding id agentID manifestID created false));
  reported ← current_timestamp;
  _ ← map_err (Wrapped "insert report")
        (insert (report_ok (Some agentID) (Some manifestID))
           (λ id, mkSuitReport id (Some agentID) (Some manifestID) reportBytes reported true));
  mret tt.

Definition AgentStatusRepository_ReflectManifestSuccess (agentKID : bytes)
    (manifestDigest : option bytes) (reportBytes : bytes) : M unit :=
  r ← try (sql (λ d,
        (res_of_option ErrNoRows (head
          (a ← matching (λ a : Agent, eqb_bytes (Agent_KID a) agentKID) d;
           sm ← matching (digest_is manifestDigest) d;
           [(Agent_ID a, SuitManifest_ID sm, SuitManifest_TrustedComponentID sm)])), d)));
  match r with
  | inr err => throw (if bool_decide (err = ErrNoRows)
                      then ErrorString "agent or manifest not found"
                      else Wrapped "lookup agent and manifest" err)
  | inl (agentID, manifestID, trustedComponentID) =>
      transaction (Wrapped "begin tx") (Wrapped "commit")
        (replace_holding agentID manifestID trustedComponentID reportBytes)
  end.

Definition AgentStatusRepository_RecordManifestProcessingFailure
    (agentKID : bytes) (manifestDigest : option bytes) (reportBytes : bytes) : M unit :=
  r ← try (sql (λ d,
        (res_of_option ErrNoRows (head
          (a ← matching (λ a : Agent, eqb_bytes (Agent_KID a) agentKID) d;
           sm ← left_join (digest_is manifestDigest) d;
           [(Agent_ID a, fmap (M:=option) SuitManifest_ID sm)])), d)));
  match r with
  | inr err => throw (if bool_decide (err = ErrNoRows) then ErrorString "agent not found"
                      else Wrapped "lookup agent and manifest" err)
  | inl (agentID, manifestID) =>
      created ← current_timestamp;
      _ ← map_err (Wrapped "insert failure report")
            (insert (report_ok (Some agentID) manifestID)
               (λ id, mkSuitReport id (Some agentID) manifestID reportBytes created false));
      mret tt
  end.

(** [ORDER BY created_at DESC] and an order the query leaves open. *)
Definition created_desc (a b : Holding) : bool := Z.leb (Holding_CreatedAt b) (Holding_CreatedAt a).
Definition any_order {A} : list A → list A := sql_order (λ _ _, true).

(** [PARTITION BY sm.trusted_component_id]: NULL is a partition of its own. *)
Definition component_of (d : DB) (h : Holding) : option bytes :=
  SuitManifest_TrustedComponentID <$>
    head (matching (λ m : SuitManifest, Z.eqb (SuitManifest_ID m) (Holding_SuitManifestID h)) d).

Definition partition (d : DB) (c : option bytes) : list Holding :=
  filter (λ h, Holding_Deleted h = false ∧ component_of d h = c) (rows (agent_holding_suit_manifests d)).

(** The rows with [rn = 1]: the first of each partition, whoever the agent is. *)
Definition first_of_partition (d : DB) (h : Holding) : bool :=
  negb (Holding_Deleted h) &&
  bool_decide (Holding_ID <$> head (sql_order created_desc (partition d (component_of d h)))
               = Some (Holding_ID h)).

Definition status_rows (agentKID : bytes) (d : DB) : list StatusRow :=
  a ← matching (λ a : Agent, eqb_bytes (Agent_KID a) agentKID) d;
  dev ← match Agent_DeviceID a with
        | None => [None]
        | Some id => left_join (λ x : Device, Z.eqb (Device_ID x) id) d
        end;
  latest ← left_join (λ h : Holding, Z.eqb (Holding_AgentID h) (Agent_ID a) && first_of_partition d h) d;
  sm ← match latest with
       | None => [None]
       | Some h => left_join (λ m : SuitManifest, Z.eqb (SuitManifest_ID m) (Holding_SuitManifestID h)) d
       end;
  [mkStatusRow a (fmap (M:=option) Device_UEID dev) sm].

Definition overview_of (m : SuitManifest) : SuitManifestOverview :=
  mkSuitManifestOverview (SuitManifest_TrustedComponentID m) (SuitManifest_SequenceNumber m).

(** The scan loop: identity from the first row, one overview per row with a manifest. *)
Definition scan_status (rows : list StatusRow) : option AgentStatus :=
  match rows with
  | [] => None
  | row :: _ =>
      Some (mkAgentStatus (Agent_KID (Row_Agent row)) (Row_UEID row)
              (map overview_of (omap Row_Manifest rows)) (Agent_CreatedAt (Row_Agent row)))
  end.

Definition AgentStatusRepository_GetAgentStatus (agentKID : bytes) : M (option AgentStatus) :=
  rows ← map_err (Wrapped "query agent and holdings")
           (query (λ d, any_order (status_rows agentKID d)));
  mret (scan_status rows).

(** The table has no [updated_at] column: the statement does not prepare. *)
Definition AgentStatusRepository_UpdateAgentUpdatedAt (agentKID : bytes) : M unit :=
  _ ← time_now;
  map_err (Wrapped "update agent updated_at") (sql (λ d, (Err ErrDriver, d))).
End status.

(** ** Replacing a holding *)

Section replace_facts.
Context `{Platform}.
Implicit Types d : DB.

(** The database after the first two statements of the transaction, and after all. *)
Definition swapped (aid mid : Z) (tc : bytes) (t1 : Z) (d : DB) : DB :=
  (insert_row (holding_ok aid mid) (λ id, mkHolding id aid mid t1 false)
     (update_rows (active_holding_of aid tc d) delete_holding d)).2.

Definition replaced (aid mid : Z) (tc rep : bytes) (t1 t2 : Z) (d : DB) : DB :=
  (insert_row (report_ok (Some aid) (Some mid))
     (λ id, mkSuitReport id (Some aid) (Some mid) rep t2 true) (swapped aid mid tc t1 d)).2.

Lemma run_current_timestamp w : ∃ t, run current_timestamp w = (Ok t, tick_clock w).
Proof. by eexists. Qed.

Lemma replace_holding_Ok aid mid tc rep w w' :
  run (replace_holding aid mid tc rep) w = (Ok tt, w') →
  ∃ t1 t2, holding_ok aid mid (update_rows (active_holding_of aid tc (w_db w)) delete_holding (w_db w)) = true ∧
    (seq (agent_holding_suit_manifests (w_db w)) < max_int64)%Z ∧
    (seq (suit_reports (w_db w)) < max_int64)%Z ∧
    report_ok (Some aid) (Some mid) (w_db w) = true ∧
    w_db w' = replaced aid mid tc rep t1 t2 (w_db w).
Proof.
  unfold replace_holding. rewrite run_bind, run_map_err, run_sql.
  destruct (db_fault _); [done|]. cbn [fst snd res_map_err run_then].
  rewrite run_bind. destruct (run_current_timestamp (with_db (update_rows (active_holding_of aid tc (w_db w)) delete_holding (w_db w)) (tick_call w))) as [t1 ->].
  cbn [fst snd res_map_err run_then]. rewrite run_bind, run_map_err, run_insert.
  destruct (db_fault _); [done|]. cbn [fst snd w_db with_db tick_clock].
  destruct (insert_row (holding_ok aid mid) _ _) as [[id| | |] d2] eqn:Hi; cbn [fst snd res_map_err run_then]; try done.
  rewrite run_bind.
  destruct (run_current_timestamp (with_db d2 (tick_call (tick_clock (with_db (update_rows (active_holding_of aid tc (w_db w)) delete_holding (w_db w)) (tick_call w)))))) as [t2 ->].
  cbn [fst snd res_map_err run_then]. rewrite run_bind, run_map_err, run_insert.
  destruct (db_fault _); [done|]. cbn [fst snd w_db with_db tick_clock].
  destruct (insert_row (report_ok _ _) _ _) as [[rid| | |] d3] eqn:Hr; cbn [fst snd res_map_err run_then]; try done.
  rewrite run_ret. intros [= <-]. exists t1, t2. cbn [w_db with_db].
  unfold replaced, swapped. rewrite Hi. cbn [snd]. rewrite Hr. cbn [snd].
  apply insert_row_inv in Hi as (Hok & Hle & _ & ->).
  apply insert_row_inv in Hr as (Hrok & Hle2 & _ & _).
  by split_and!.
Qed.

Lemma is_manifest_of_spec tc d id :
  is_manifest_of tc d id = true ↔
  ∃ m, m ∈ rows (suit_manifests d) ∧ SuitManifest_ID m = id ∧ SuitManifest_TrustedComponentID m = tc.
Proof.
  unfold is_manifest_of. rewrite existsb_exists. split.
  - intros (m & Hm & [Hid%Z.eqb_eq Ht%eqb_bytes_eq]%andb_true_iff).
    exists m. split_and!; [by apply list_elem_of_In|done..].
  - intros (m & Hm & <- & <-). exists m. split; [by apply list_elem_of_In|].
    rewrite Z.eqb_refl. by apply eqb_bytes_eq.
Qed.

(** Who holds what afterwards. *)
Lemma swapped_holds aid mid tc t1 d :
  holding_ok aid mid (update_rows (active_holding_of aid tc d) delete_holding d) = true →
  (seq (agent_holding_suit_manifests d) < max_int64)%Z →
  ∀ h m, holds (swapped aid mid tc t1 d) h m ↔
    (h = mkHolding (seq (agent_holding_suit_manifests d) + 1) aid mid t1 false ∧
       m ∈ rows (suit_manifests d) ∧ SuitManifest_ID m = mid) ∨
    (holds d h m ∧ ¬ (Holding_AgentID h = aid ∧ is_manifest_of tc d (Holding_SuitManifestID h) = true)).
Proof.
  intros Hok Hseq h m.
  assert (suit_manifests (swapped aid mid tc t1 d) = suit_manifests d ∧
    rows (agent_holding_suit_manifests (swapped aid mid tc t1 d)) =
      map (λ r, if active_holding_of aid tc d r then delete_holding r else r)
        (rows (agent_holding_suit_manifests d)) ++
      [mkHolding (seq (agent_holding_suit_manifests d) + 1) aid mid t1 false]) as [Hm Hh].
  { unfold swapped. by rewrite (insert_row_ok (holding_ok aid mid)). }
  unfold holds. rewrite Hm, Hh, elem_of_app, list_elem_of_singleton. split.
  - intros ([(h0 & Heq & Hin)%list_elem_of_In%in_map_iff| ->] & Hin' & Hid & Hdel).
    + right. unfold active_holding_of in Heq. subst h.
      destruct (Z.eqb_spec (Holding_AgentID h0) aid); simpl in *;
        destruct (Holding_Deleted h0) eqn:Hd0; simpl in *; try congruence.
      * destruct (is_manifest_of tc d (Holding_SuitManifestID h0)) eqn:Hc; [done|].
        split; [|by intros [_ ?]; congruence]. by split_and!; [apply list_elem_of_In| | |].
      * split; [|by intros [? _]]. by split_and!; [apply list_elem_of_In| | |].
    + left. by rewrite <- Hid.
  - intros [(-> & Hin & Hid)|((Hin & Hin' & Hid & Hdel) & Hn)].
    + split_and!; [by right|done..].
    + split_and!; [left|done..]. apply list_elem_of_In, in_map_iff. exists h.
      split; [|by apply list_elem_of_In]. unfold active_holding_of. rewrite Hdel.
      destruct (Z.eqb_spec (Holding_AgentID h) aid); [|done].
      destruct (is_manifest_of _ _ _) eqn:Hc; [|done]. by destruct Hn.
Qed.

Lemma replaced_holds aid mid tc rep t1 t2 d h m :
  holds (replaced aid mid tc rep t1 t2 d) h m ↔ holds (swapped aid mid tc t1 d) h m.
Proof. unfold replaced, insert_row. by destruct (_ && _). Qed.

Lemma swapped_one_holding aid mid tc t1 d :
  wf d → is_manifest_of tc d mid = true →
  holding_ok aid mid (update_rows (active_holding_of aid tc d) delete_holding d) = true →
  (seq (agent_holding_suit_manifests d) < max_int64)%Z →
  one_holding (swapped aid mid tc t1 d).
Proof.
  intros Hwf (m0 & Hm0 & Hid0 & Ht0)%is_manifest_of_spec Hok Hseq h m h' m'.
  rewrite !swapped_holds by done.
  assert (∀ m, m ∈ rows (suit_manifests d) → SuitManifest_ID m = mid → m = m0) as Hm0'.
  { intros m1 Hm1 Hid1. apply (ids_ok_inj d m1 m0 (wf_manifests _ Hwf)); [done..|]. simpl. congruence. }
  intros [(-> & Hm & Hi)|[Hh Hn]] [(-> & Hm' & Hi')|[Hh' Hn']] Ha Ht; simpl in *.
  - done.
  - rewrite (Hm0' m Hm Hi) in Ht. destruct Hn'. split; [done|].
    destruct Hh' as (_ & Hin & Hid & _). apply is_manifest_of_spec. exists m'. by split_and!; congruence.
  - rewrite (Hm0' m' Hm' Hi') in Ht. destruct Hn. split; [done|].
    destruct Hh as (_ & Hin & Hid & _). apply is_manifest_of_spec. exists m. by split_and!; congruence.
  - by eapply (wf_one _ Hwf).
Qed.

Lemma swapped_evolves aid mid tc t1 d :
  is_manifest_of tc d mid = true →
  holding_ok aid mid (update_rows (active_holding_of aid tc d) delete_holding d) = true →
  (seq (agent_holding_suit_manifests d) < max_int64)%Z →
  evolves d (swapped aid mid tc t1 d).
Proof.
  intros Hm Hok Hseq Hwf.
  pose proof (swapped_one_holding aid mid tc t1 d Hwf Hm Hok Hseq) as Hone.
  assert (keeps_all d (update_rows (active_holding_of aid tc d) delete_holding d)) as K1 by keeps_solve.
  assert (ids_ok Holding (swapped aid mid tc t1 d)) as Hids.
  { apply ids_ok_insert; [done|]. apply ids_ok_update; [done|apply Hwf]. }
  split.
  - assert (keeps_all (update_rows (active_holding_of aid tc d) delete_holding d)
              (swapped aid mid tc t1 d)) as K2 by (unfold swapped; keeps_solve).
    unfold keeps_all in *. destruct_and!. split_and!; by etrans.
  - revert Hone Hids. unfold swapped. rewrite insert_row_ok by done. cbn [fst snd].
    intros Hone Hids. destruct Hwf as [? ? ? ? ? ? ? ? ? Hrefs ?]. constructor; try done. simpl.
    apply Forall_app. split.
    + apply Forall_map. eapply Forall_impl; [exact Hrefs|]. intros h. by destruct (active_holding_of _ _ _ _).
    + apply Forall_singleton. simpl. apply is_manifest_of_spec in Hm as (m & Hin & <- & _).
      destruct wf_manifests as [_ Hle]. rewrite Forall_forall in Hle. by apply Hle.
Qed.

Lemma replaced_evolves aid mid tc rep t1 t2 d :
  is_manifest_of tc d mid = true →
  holding_ok aid mid (update_rows (active_holding_of aid tc d) delete_holding d) = true →
  (seq (agent_holding_suit_manifests d) < max_int64)%Z →
  evolves d (replaced aid mid tc rep t1 t2 d).
Proof. intros. etrans; [by apply swapped_evolves|]. apply evolves_insert_report. Qed.

(** The same, by the component of the manifest. *)
Lemma replaced_exact aid m rep t1 t2 d (tc := SuitManifest_TrustedComponentID m) :
  wf d → m ∈ rows (suit_manifests d) →
  holding_ok aid (SuitManifest_ID m) (update_rows (active_holding_of aid tc d) delete_holding d) = true →
  (seq (agent_holding_suit_manifests d) < max_int64)%Z →
  ∀ h m', holds (replaced aid (SuitManifest_ID m) tc rep t1 t2 d) h m' ↔
    (m' = m ∧ h = mkHolding (seq (agent_holding_suit_manifests d) + 1) aid (SuitManifest_ID m) t1 false) ∨
    (holds d h m' ∧ ¬ (Holding_AgentID h = aid ∧ SuitManifest_TrustedComponentID m' = tc)).
Proof.
  intros Hwf Hm Hok Hs1 h m'. rewrite replaced_holds, swapped_holds by done.
  assert (m' ∈ rows (suit_manifests d) → SuitManifest_ID m' = SuitManifest_ID m → m' = m) as Hinj.
  { intros. by apply (ids_ok_inj d m' m (wf_manifests _ Hwf)). }
  split.
  - intros [(-> & ? & ?)|[Hh Hn]]; [left; split; [by apply Hinj|done]|right].
    split; [done|]. intros [? Ht]. destruct Hn. split; [done|]. apply is_manifest_of_spec.
    destruct Hh as (_ & ? & ? & _). exists m'. by split_and!.
  - intros [[-> ->]|[Hh Hn]]; [by left|right]. split; [done|]. intros [? Ht]. destruct Hn.
    split; [done|]. apply is_manifest_of_spec in Ht as (m2 & ? & ? & <-).
    destruct Hh as (_ & ? & ? & _). f_equal.
    apply (ids_ok_inj d m' m2 (wf_manifests _ Hwf)); [done..|]. simpl. congruence.
Qed.
End replace_facts.

Section status_guarantees.
Context `{Platform}.
Implicit Types w : World.

Lemma is_manifest_of_seen (m : SuitManifest) d :
  seen m d → is_manifest_of (SuitManifest_TrustedComponentID m) d (SuitManifest_ID m) = true.
Proof. intros (m' & Hm' & ->). apply is_manifest_of_spec. by exists m'. Qed.

Lemma seen_manifest_in (m : SuitManifest) d : seen m d → m ∈ rows (suit_manifests d).
Proof. intros (m' & Hm' & Hs). by rewrite <- (Hs : m = m') in Hm'. Qed.

Lemma ReflectManifestSuccess_safe kid dg rep w :
  wf (w_db w) →
  safe (λ _ d, ∃ a m h, seen a d ∧ seen m d ∧ seen h d ∧ Agent_KID a = kid ∧
          Some (SuitManifest_Digest m) = dg ∧ Holding_AgentID h = Agent_ID a ∧
          Holding_SuitManifestID h = SuitManifest_ID m)
    (AgentStatusRepository_ReflectManifestSuccess kid dg rep) w.
Proof.
  intros Hwf. unfold AgentStatusRepository_ReflectManifestSuccess. eapply safe_bind.
  - apply safe_try, (safe_sql (λ '(aid, mid, tc) d, ∃ a m, seen a d ∧ seen m d ∧ Agent_KID a = kid ∧
      Some (SuitManifest_Digest m) = dg ∧ aid = Agent_ID a ∧ mid = SuitManifest_ID m ∧
      tc = SuitManifest_TrustedComponentID m)); [done|].
    cbn [fst snd]. intros d [[aid mid] tc] d' Hd Ha Hd'. apply res_of_option_Ok, head_Some_elem_of in Ha.
    apply list_elem_of_bind in Ha as (a & Ha & Hina). apply list_elem_of_bind in Ha as (m & Ha & Hinm).
    apply list_elem_of_singleton in Ha. simplify_eq.
    apply list_elem_of_filter in Hina as [Hk%eqb_bytes_eq Hina].
    apply list_elem_of_filter in Hinm as [Hg%bool_decide_eq_true Hinm].
    pose proof (evolves_wf _ _ Hd Hwf).
    exists a, m. split_and!; [by eapply seen_evolves, seen_in..|done|done|done|done|done].
  - intros [[[aid mid] tc]|e] w1 Hw1 Hl; [|apply safe_throw].
    apply safe_transaction. intros w2 [] w3 Hw2 Hrun.
    apply replace_holding_Ok in Hrun as (t1 & t2 & Hok & Hs1 & Hs2 & Hr & ->).
    destruct (Hl (w_db w2) Hw2) as (a & m & Ha & Hm & Hk & Hg & -> & -> & ->).
    pose proof (replaced_evolves (Agent_ID a) (SuitManifest_ID m) _ rep t1 t2 (w_db w2)
                  (is_manifest_of_seen m _ Hm) Hok Hs1) as Hev.
    split; [done|]. intros d Hd.
    assert (wf (w_db w2)) as Hwf2 by (eapply evolves_wf; [exact Hw2|]; by eapply evolves_wf).
    exists a, m, (mkHolding (seq (agent_holding_suit_manifests (w_db w2)) + 1) (Agent_ID a)
                    (SuitManifest_ID m) t1 false).
    split_and!; [..|done|done|done|done].
    + by eapply seen_evolves; [| |exact Ha]; [done|etrans].
    + by eapply seen_evolves; [| |exact Hm]; [done|etrans].
    + eapply seen_evolves; [exact (evolves_wf _ _ Hev Hwf2)|exact Hd|]. apply seen_in.
      pose proof (seen_manifest_in m _ Hm) as Hm'.
      set (h := mkHolding _ _ _ _ _).
      pose proof (proj2 (swapped_holds _ _ _ t1 _ Hok Hs1 h m)
                    (or_introl (conj eq_refl (conj Hm' eq_refl)))) as Hh.
      by apply (replaced_holds _ _ _ rep t1 t2) in Hh as [Hin _].
Qed.

Lemma RecordManifestProcessingFailure_harmless kid dg rep w :
  harmless (AgentStatusRepository_RecordManifestProcessingFailure kid dg rep) w.
Proof.
  unfold AgentStatusRepository_RecordManifestProcessingFailure, current_timestamp.
  apply harmless_bind; [by apply harmless_try, safe_sql|]. intros [[aid mid]|e] w' _; [|apply safe_throw].
  harmless_auto.
Qed.

Lemma GetAgentStatus_harmless kid w : harmless (AgentStatusRepository_GetAgentStatus kid) w.
Proof. unfold AgentStatusRepository_GetAgentStatus. harmless_auto. Qed.

(** A run of [ReflectManifestSuccess] either commits everything or nothing. *)
Lemma ReflectManifestSuccess_run kid dg rep w r w' :
  run (AgentStatusRepository_ReflectManifestSuccess kid dg rep) w = (r, w') →
  (r = Ok tt ∧ ∃ a m t1 t2, a ∈ rows (agents (w_db w)) ∧ Agent_KID a = kid ∧
     m ∈ rows (suit_manifests (w_db w)) ∧ Some (SuitManifest_Digest m) = dg ∧
     let tc := SuitManifest_TrustedComponentID m in
     holding_ok (Agent_ID a) (SuitManifest_ID m)
       (update_rows (active_holding_of (Agent_ID a) tc (w_db w)) delete_holding (w_db w)) = true ∧
     (seq (agent_holding_suit_manifests (w_db w)) < max_int64)%Z ∧
     (seq (suit_reports (w_db w)) < max_int64)%Z ∧
     report_ok (Some (Agent_ID a)) (Some (SuitManifest_ID m)) (w_db w) = true ∧
     w_db w' = replaced (Agent_ID a) (SuitManifest_ID m) tc rep t1 t2 (w_db w)) ∨
  (r ≠ Ok tt ∧ w_db w' = w_db w).
Proof.
  unfold AgentStatusRepository_ReflectManifestSuccess. rewrite run_bind, run_try, run_sql.
  destruct (db_fault (w_calls w)).
  { intros [= <- <-]. by right. }
  cbn [fst snd]. destruct (head _) as [[[aid mid] tc]|] eqn:Hl; cbn [res_of_option run_then fst snd].
  2:{ intros [= <- <-]. by right. }
  apply head_Some_elem_of in Hl.
  apply list_elem_of_bind in Hl as (a & Hl & Hina). apply list_elem_of_bind in Hl as (m & Hl & Hinm).
  apply list_elem_of_singleton in Hl. simplify_eq.
  apply list_elem_of_filter in Hina as [Hk%eqb_bytes_eq Hina].
  apply list_elem_of_filter in Hinm as [Hg%bool_decide_eq_true Hinm].
  unfold transaction. rewrite run_atomically. cbn [w_db w_calls with_db tick_call].
  destruct (db_fault _).
  { intros [= <- <-]. by right. }
  destruct (run (replace_holding _ _ _ _) _) as [r1 w1] eqn:Hrun.
  destruct r1 as [[]|e| |].
  - destruct (db_fault _); intros [= <- <-]; [by right|].
    apply replace_holding_Ok in Hrun as (t1 & t2 & Hok & Hs1 & Hs2 & Hr & Hdb). left.
    split; [done|]. exists a, m, t1, t2. by split_and!.
  - intros [= <- <-]. by right.
  - intros [= <- <-]. by right.
  - intros [= <- <-]. by right.
Qed.
End status_guarantees.

(** ** What [GetAgentStatus] reports *)

Section reports.
Context `{Platform}.
Implicit Types d : DB.

Lemma left_join_not_nil {R} `{Relation R} (p : R → bool) d : ∃ o, o ∈ left_join p d.
Proof. unfold left_join. destruct (matching p d); eexists; left. Qed.

Lemma left_join_Some {R} `{Relation R} (p : R → bool) d r :
  Some r ∈ left_join p d ↔ r ∈ rows (rel_get d) ∧ p r = true.
Proof.
  assert (Some r ∈ left_join p d ↔ r ∈ matching p d) as ->.
  { unfold left_join. destruct (matching p d) as [|x l].
    - rewrite list_elem_of_singleton. split; [done|]. intros []%not_elem_of_nil.
    - rewrite list_elem_of_In, in_map_iff, list_elem_of_In. naive_solver. }
  unfold matching. rewrite list_elem_of_filter. naive_solver.
Qed.

Lemma component_of_holds d h m :
  wf d → holds d h m → component_of d h = Some (SuitManifest_TrustedComponentID m).
Proof.
  intros Hwf (_ & Hm & Hid & _). unfold component_of.
  destruct (head _) as [m1|] eqn:Hh.
  - apply head_Some_elem_of, list_elem_of_filter in Hh as [Hp%Z.eqb_eq Hm1]. simpl. do 2 f_equal.
    apply (ids_ok_inj d m1 m (wf_manifests _ Hwf)); [done..|]. simpl. congruence.
  - exfalso. unfold matching in Hh. destruct (filter _ _) as [|x l] eqn:Hf; [|done].
    apply (not_elem_of_nil m). rewrite <- Hf. apply list_elem_of_filter.
    split; [by apply Z.eqb_eq|done].
Qed.

Lemma created_desc_total x y : created_desc x y = true ∨ created_desc y x = true.
Proof. unfold created_desc. rewrite !Z.leb_le. lia. Qed.

Lemma created_desc_trans x y z :
  created_desc x y = true → created_desc y z = true → created_desc x z = true.
Proof. unfold created_desc. rewrite !Z.leb_le. lia. Qed.

(** A first row of a partition is one of the newest. *)
Lemma first_of_partition_newest d h h' :
  wf d → h ∈ rows (agent_holding_suit_manifests d) →
  first_of_partition d h = true → h' ∈ partition d (component_of d h) →
  (Holding_CreatedAt h' ≤ Holding_CreatedAt h)%Z.
Proof.
  intros Hwf Hh [_ Hf%bool_decide_eq_true]%andb_true_iff Hh'.
  apply fmap_Some in Hf as (h0 & Hh0 & Hid).
  apply head_sql_order in Hh0 as [Hin Hmax]; [|apply created_desc_total|apply created_desc_trans].
  apply list_elem_of_filter in Hin as [_ Hin].
  assert (h0 = h) as -> by by apply (ids_ok_inj d h0 h (wf_holdings _ Hwf)).
  specialize (Hmax h' Hh'). by apply Z.leb_le in Hmax.
Qed.

(** A row that carries a manifest comes from an active holding of this agent. *)
Lemma status_rows_manifest kid d row m :
  row ∈ status_rows kid d → Row_Manifest row = Some m →
  ∃ a h, a ∈ rows (agents d) ∧ Agent_KID a = kid ∧ Holding_AgentID h = Agent_ID a ∧
    holds d h m ∧ first_of_partition d h = true.
Proof.
  unfold status_rows. intros Hrow Hm.
  apply list_elem_of_bind in Hrow as (a & Hrow & Ha). apply list_elem_of_bind in Hrow as (dev & Hrow & _).
  apply list_elem_of_bind in Hrow as (latest & Hrow & Hl). apply list_elem_of_bind in Hrow as (sm & Hrow & Hsm).
  apply list_elem_of_singleton in Hrow as ->. simpl in Hm. subst sm.
  apply list_elem_of_filter in Ha as [Hk%eqb_bytes_eq Ha].
  destruct latest as [h|]; [|by apply list_elem_of_singleton in Hsm].
  apply left_join_Some in Hl as [Hh [Hag%Z.eqb_eq Hf]%andb_true_iff].
  apply left_join_Some in Hsm as [Hm Hid%Z.eqb_eq].
  exists a, h. split_and!; [done..| |done].
  pose proof Hf as [Hdel _]%andb_true_iff. apply negb_true_iff in Hdel.
  by split_and!.
Qed.

Lemma status_rows_not_nil kid d a :
  a ∈ rows (agents d) → Agent_KID a = kid → status_rows kid d ≠ [].
Proof.
  intros Ha Hk Hn.
  assert (∃ row, row ∈ status_rows kid d) as [row Hrow]; [|by rewrite Hn in Hrow; apply not_elem_of_nil in Hrow].
  assert (∃ o, o ∈ match Agent_DeviceID a with None => [None]
     | Some id => left_join (λ x : Device, Z.eqb (Device_ID x) id) d end) as [dev Hdev].
  { destruct (Agent_DeviceID a); [apply left_join_not_nil|eexists; by apply list_elem_of_singleton]. }
  destruct (left_join_not_nil (λ h, Z.eqb (Holding_AgentID h) (Agent_ID a) && first_of_partition d h) d)
    as [latest Hl].
  assert (∃ o, o ∈ match latest with None => [None]
     | Some h => left_join (λ m : SuitManifest, Z.eqb (SuitManifest_ID m) (Holding_SuitManifestID h)) d end)
    as [sm Hsm].
  { destruct latest; [apply left_join_not_nil|eexists; by apply list_elem_of_singleton]. }
  eexists. unfold status_rows. repeat (apply list_elem_of_bind; eexists; split; [|eassumption || 
    (apply list_elem_of_filter; split; [by apply eqb_bytes_eq|done])]).
  by apply list_elem_of_singleton.
Qed.

Lemma GetAgentStatus_run `{!Reliable} kid w :
  run (AgentStatusRepository_GetAgentStatus kid) w =
    (Ok (scan_status (any_order (status_rows kid (w_db w)))), with_db (w_db w) (tick_call w)).
Proof.
  unfold AgentStatusRepository_GetAgentStatus, query.
  by rewrite run_bind, run_map_err, run_sql_reliable.
Qed.

Lemma scan_status_manifests rows st o :
  scan_status rows = Some st → o ∈ AgentStatus_SuitManifests st →
  ∃ row m, row ∈ rows ∧ Row_Manifest row = Some m ∧ o = overview_of m.
Proof.
  destruct rows as [|r rows]; [done|]. intros [= <-] Ho. simpl in Ho.
  change (o ∈ overview_of <$> omap Row_Manifest (r :: rows)) in Ho.
  apply list_elem_of_fmap in Ho as (m & -> & Hm). apply list_elem_of_omap in Hm as (row & ? & ?).
  by exists row, m.
Qed.
End reports.

(** ** Properties *)

Section properties.
Context `{Platform}.
Implicit Types w : World.

(** [ReflectManifestSuccess] is all or nothing: whatever database call fails, if it
    returns an error then no holding, deletion or report of it remains. *)
Theorem ReflectManifestSuccess_atomic (kid : bytes) (dg : option bytes) (rep : bytes) w :
  (run (AgentStatusRepository_ReflectManifestSuccess kid dg rep) w).1 = Ok tt ∨
  w_db (run (AgentStatusRepository_ReflectManifestSuccess kid dg rep) w).2 = w_db w.
Proof.
  destruct (run _ w) as [r w'] eqn:Hrun.
  destruct (ReflectManifestSuccess_run _ _ _ _ _ _ Hrun) as [[-> _]|[_ ?]]; auto.
Qed.

(** C24: when [ReflectManifestSuccess] returns without an error, the agent holds the reported
    manifest and no other manifest of that trusted component; every other active
    holding, of this agent or another, is as before; and the report is recorded as
    resolved. *)
Theorem ReflectManifestSuccess_exact (kid : bytes) (dg : option bytes) (rep : bytes) w w' :
  wf (w_db w) →
  run (AgentStatusRepository_ReflectManifestSuccess kid dg rep) w = (Ok tt, w') →
  ∃ a m created reported,
    a ∈ rows (agents (w_db w)) ∧ Agent_KID a = kid ∧
    m ∈ rows (suit_manifests (w_db w)) ∧ Some (SuitManifest_Digest m) = dg ∧
    (∀ h m', holds (w_db w') h m' ↔
       (m' = m ∧ h = mkHolding (seq (agent_holding_suit_manifests (w_db w)) + 1) (Agent_ID a)
                       (SuitManifest_ID m) created false) ∨
       (holds (w_db w) h m' ∧
        ¬ (Holding_AgentID h = Agent_ID a ∧
           SuitManifest_TrustedComponentID m' = SuitManifest_TrustedComponentID m))) ∧
    rows (suit_reports (w_db w')) = rows (suit_reports (w_db w)) ++
      [mkSuitReport (seq (suit_reports (w_db w)) + 1) (Some (Agent_ID a)) (Some (SuitManifest_ID m))
         rep reported true].
Proof.
  intros Hwf [(_ & a & m & t1 & t2 & Ha & Hk & Hm & Hg & Hok & Hs1 & Hs2 & Hr & Hdb)|[? _]]%ReflectManifestSuccess_run;
    [|done].
  exists a, m, t1, t2. split_and!; [done..| |].
  - intros h m'. rewrite Hdb. by apply replaced_exact.
  - rewrite Hdb. unfold replaced, swapped.
    rewrite (insert_row_ok (holding_ok _ _)) by done. cbn [fst snd]. by rewrite insert_row_ok.
Qed.

(** What [GetAgentStatus] reports is true: every overview it returns is of a manifest
    that an agent with that key id actively holds. *)
Theorem GetAgentStatus_sound `{!Reliable} (kid : bytes) w st w' :
  run (AgentStatusRepository_GetAgentStatus kid) w = (Ok (Some st), w') →
  ∀ o, o ∈ AgentStatus_SuitManifests st →
    ∃ a h m, a ∈ rows (agents (w_db w)) ∧ Agent_KID a = kid ∧ Holding_AgentID h = Agent_ID a ∧
      holds (w_db w) h m ∧ o = overview_of m.
Proof.
  rewrite GetAgentStatus_run. intros [= Hst _] o Ho.
  destruct (scan_status_manifests _ _ _ Hst Ho) as (row & m & Hrow & Hm & ->).
  unfold any_order in Hrow. rewrite sql_order_perm in Hrow.
  destruct (status_rows_manifest _ _ _ _ Hrow Hm) as (a & h & ? & ? & ? & ? & _).
  by exists a, h, m.
Qed.

(** [GetAgentStatus] is not complete: the window that picks the newest holding ranges over
    all agents, so a holding of this agent is left out whenever any other agent holds
    the same trusted component and has reported it later. *)
Theorem GetAgentStatus_hides_holding `{!Reliable} (kid : bytes) w a h m h' m' :
  wf (w_db w) → a ∈ rows (agents (w_db w)) → Agent_KID a = kid →
  holds (w_db w) h m → Holding_AgentID h = Agent_ID a →
  holds (w_db w) h' m' → Holding_AgentID h' ≠ Agent_ID a →
  SuitManifest_TrustedComponentID m' = SuitManifest_TrustedComponentID m →
  (Holding_CreatedAt h < Holding_CreatedAt h')%Z →
  ∃ st w', run (AgentStatusRepository_GetAgentStatus kid) w = (Ok (Some st), w') ∧
    ∀ n, mkSuitManifestOverview (SuitManifest_TrustedComponentID m) n ∉ AgentStatus_SuitManifests st.
Proof.
  intros Hwf Ha Hk Hh Hag Hh' Hag' Ht Hlt. rewrite GetAgentStatus_run.
  destruct (scan_status _) as [st|] eqn:Hst.
  2:{ exfalso. apply (status_rows_not_nil kid (w_db w) a Ha Hk).
      pose proof (sql_order_perm (λ _ _, true) (status_rows kid (w_db w))) as Hp. unfold any_order in Hst.
      destruct (sql_order _ _); [by apply Permutation_nil_l in Hp|done]. }
  eexists _, _. split; [done|]. intros n Ho.
  destruct (scan_status_manifests _ _ _ Hst Ho) as (row & m2 & Hrow & Hm2 & [= Ht2 ->]).
  unfold any_order in Hrow. rewrite sql_order_perm in Hrow.
  destruct (status_rows_manifest _ _ _ _ Hrow Hm2) as (a2 & h2 & Ha2 & Hk2 & Hag2 & Hh2 & Hf).
  assert (a2 = a) as -> by (eapply fmap_NoDup_inj; [exact (wf_kid _ Hwf)|done|done|congruence]).
  assert (h2 = h) as -> by (eapply (wf_one _ Hwf); [exact Hh2|exact Hh|congruence|congruence]).
  assert (h' ∈ partition (w_db w) (component_of (w_db w) h)) as Hin.
  { apply list_elem_of_filter. rewrite (component_of_holds _ h m), (component_of_holds _ h' m') by done.
    destruct Hh' as (? & _ & _ & ?). split; [|done]. split; [done|by f_equal]. }
  pose proof (first_of_partition_newest _ _ _ Hwf (proj1 Hh) Hf Hin). lia.
Qed.
End properties.

(** ** Witnesses

    A fixture run through the repositories themselves: one developer and signing
    key, one manifest, two agents that report it installed one after the other. *)

Section fixture.
Context `{Platform}.

Definition kid_a : bytes := bs [0xA]%Z.
Definition kid_b : bytes := bs [0xB]%Z.
Definition some_component : bytes := bs [0xC]%Z.
Definition some_digest : bytes := bs [0xD]%Z.

Definition add_agent (kid : bytes) : M Z :=
  AgentRepository_Create (mkAgent 0 kid None 0 (1000000 * second) None (bs [1]%Z)).

Definition fixture : M unit :=
  eid ← EntityRepository_Create (mkEntity 0 "dev" false true false 0);
  key ← ManifestSigningKeyRepository_Create (mkManifestSigningKey 0 (bs [7]%Z) eid (bs [8]%Z) 0 0);
  _ ← SuitManifestRepository_Create (mkSuitManifest 0 (bs [9]%Z) some_digest key some_component 3 0);
  _ ← add_agent kid_a;
  _ ← add_agent kid_b;
  mret tt.

Definition both_report : M unit :=
  _ ← fixture;
  _ ← AgentStatusRepository_ReflectManifestSuccess kid_a (Some some_digest) [];
  _ ← AgentStatusRepository_ReflectManifestSuccess kid_b (Some some_digest) [];
  mret tt.

Lemma fixture_harmless w : harmless fixture w.
Proof. unfold fixture, add_agent. harmless_auto. Qed.

Lemma both_report_harmless w : wf (w_db w) → harmless both_report w.
Proof.
  intros Hwf. unfold both_report. apply harmless_bind; [apply fixture_harmless|]. intros _ w1 Hw1.
  pose proof (evolves_wf _ _ Hw1 Hwf) as Hwf1.
  apply harmless_bind; [by eapply safe_true, ReflectManifestSuccess_safe|]. intros _ w2 Hw2.
  pose proof (evolves_wf _ _ Hw2 Hwf1) as Hwf2.
  apply harmless_bind; [by eapply safe_true, ReflectManifestSuccess_safe|]. intros. apply safe_done.
Qed.
End fixture.

Definition fixture_world : World := (run (@fixture calm) initial_world).2.
Definition both_world : World := (run (@both_report calm) initial_world).2.

Lemma fixture_wf : wf (w_db fixture_world).
Proof. exact (evolves_wf _ _ (proj1 (safe_run _ _ _ (@fixture_harmless calm initial_world))) wf_empty). Qed.

Lemma both_wf : wf (w_db both_world).
Proof.
  exact (evolves_wf _ _ (proj1 (safe_run _ _ _ (@both_report_harmless calm initial_world wf_empty))) wf_empty).
Qed.

Lemma ReflectManifestSuccess_exact_witness :
  ∃ h m', holds (w_db (run (@AgentStatusRepository_ReflectManifestSuccess calm kid_a (Some some_digest) []) fixture_world).2) h m'.
Proof.
  destruct (@ReflectManifestSuccess_exact calm kid_a (Some some_digest) [] fixture_world
    (run (@AgentStatusRepository_ReflectManifestSuccess calm kid_a (Some some_digest) []) fixture_world).2)
    as (a & m & t1 & t2 & _ & _ & _ & _ & Hh & _).
  - apply fixture_wf.
  - by vm_compute.
  - eexists _, m. apply Hh. by left.
Defined.

Lemma GetAgentStatus_sound_witness :
  ∃ a h m, a ∈ rows (agents (w_db both_world)) ∧ Agent_KID a = kid_b ∧ Holding_AgentID h = Agent_ID a ∧
      holds (w_db both_world) h m ∧ mkSuitManifestOverview some_component 3 = overview_of m.
Proof.
  eapply (@GetAgentStatus_sound calm calm_reliable kid_b both_world); [vm_compute; reflexivity|].
  vm_compute. left.
Defined.

Lemma GetAgentStatus_hides_holding_witness :
  ∃ st w', run (@AgentStatusRepository_GetAgentStatus calm kid_a) both_world = (Ok (Some st), w') ∧
    ∀ n, mkSuitManifestOverview some_component n ∉ AgentStatus_SuitManifests st.
Proof.
  eapply (@GetAgentStatus_hides_holding calm calm_reliable kid_a both_world
    (mkAgent 1 kid_a None 0 (1000000 * second) None (bs [1]%Z))
    (mkHolding 1 1 1 0 false) (mkSuitManifest 1 (bs [9]%Z) some_digest 1 some_component 3 0)
    (mkHolding 2 2 1 (2 * second) false) (mkSuitManifest 1 (bs [9]%Z) some_digest 1 some_component 3 0)).
  - apply both_wf.
  - vm_compute. left.
  - done.
  - split_and!; [vm_compute; left|vm_compute; left|done|done].
  - done.
  - split_and!; [vm_compute; right; left|vm_compute; left|done|done].
  - done.
  - done.
  - done.
Defined.
