(* ===== verification/Repositories.v ===== *)
(** The interfaces of [internal/domain/service/repositories.go], as records of operations,
    and the repositories that implement them.  Three of the eight do: the entities, the
    signing keys and the manifests.  The others have another signature in
    [internal/infra/sqlite] ([MarkConsumed] takes the value, not the id; [Create] of an agent
    returns an id; sent messages are looked up by the value, not by the id of its row) or
    lack a method ([UnrevokeByKID], [ListActiveByAgent]).  Nothing in the program goes
    through these interfaces. *)

From S2P Require Import Prelude Model Db Evolve AgentRepo ManifestRepo.

Section interfaces.
Context `{Platform}.

Record AgentRepository := mkAgentRepository {
  Agents_FindByKID : bytes → M (option Agent);
  Agents_FindByKIDIgnoreRevoked : bytes → M (option Agent);
  Agents_Create : Agent → M unit;
  Agents_RevokeByKID : bytes → M unit;
  Agents_UnrevokeByKID : bytes → M unit;
}.

Record SuitManifestRepository := mkSuitManifestRepository {
  Manifests_FindLatestByTrustedComponentID : bytes → M (option SuitManifest);
  Manifests_FindLatestAll : M (list SuitManifest);
  Manifests_Create : SuitManifest → M Z;
}.

Record AgentHoldingSuitManifestRepository := mkAgentHoldingSuitManifestRepository {
  Holdings_ReflectManifestSuccess : Z → Z → M unit;
  Holdings_ListActiveByAgent : Z → M (list AgentStatus);
}.

Record EntityRepository := mkEntityRepository {
  Entities_Create : Entity → M Z;
  Entities_FindByID : Z → M (option Entity);
  Entities_FindByName : string → M (option Entity);
}.

Record ManifestSigningKeyRepository := mkManifestSigningKeyRepository {
  SigningKeys_Create : ManifestSigningKey → M Z;
  SigningKeys_FindByKID : bytes → M (option ManifestSigningKey);
}.

Record TokenRepository := mkTokenRepository {
  Tokens_Create : Token → M Z;
  Tokens_FindByToken : bytes → M (option Token);
  Tokens_FindByID : Z → M (option Token);
  Tokens_MarkConsumed : Z → M unit;
}.

Record ChallengeRepository := mkChallengeRepository {
  Challenges_Create : Challenge → M Z;
  Challenges_FindByChallenge : bytes → M (option Challenge);
  Challenges_FindByID : Z → M (option Challenge);
  Challenges_MarkConsumed : Z → M unit;
}.

Record SentQueryRequestMessageRepository := mkSentQueryRequestMessageRepository {
  SentQueries_Create : SentQueryRequestMessage → M Z;
  SentQueries_FindByTokenID : Z → M (option SentQueryRequestMessage);
  SentQueries_FindByChallengeID : Z → M (option SentQueryRequestMessage);
  SentQueries_FindByID : Z → M (option SentQueryRequestMessage);
}.

Definition sqlite_SuitManifestRepository : SuitManifestRepository :=
  mkSuitManifestRepository SuitManifestRepository_FindLatestByTrustedComponentID
    SuitManifestRepository_FindLatestAll SuitManifestRepository_Create.

Definition sqlite_EntityRepository : EntityRepository :=
  mkEntityRepository EntityRepository_Create EntityRepository_FindByID EntityRepository_FindByName.

Definition sqlite_ManifestSigningKeyRepository : ManifestSigningKeyRepository :=
  mkManifestSigningKeyRepository ManifestSigningKeyRepository_Create ManifestSigningKeyRepository_FindByKID.
End interfaces.
