(* ===== verification/Wire.v ===== *)
(** The values the program exchanges: TEEP messages ([internal/tam/teep_message.go]),
    SUIT envelopes and reports ([internal/suit]), attestation results
    ([internal/infra/rats]), and the dynamically typed values of the JSON and CBOR
    decoders.

    A Go slice whose nil-ness is visible (tested against nil, or encoded) is an
    [option]; [slice] reads it as a list.  Machine integers are [Z]. *)

From S2P Require Import Prelude Model.

(** ** Dynamically typed values *)

(** What [encoding/json] decodes into [any]. *)
Inductive json : Type :=
  | JNull
  | JBool (b : bool)
  | JNumber (n : string)
  | JString (s : string)
  | JArray (l : list json)
  | JObject (m : list (string * json)).

(** What [cbor.Unmarshal] decodes into [any]; [CScalar] is any other value, shown as
    [fmt.Sprint] shows it. *)
Inductive cbor_any : Type :=
  | CString (s : string)
  | CBytes (b : bytes)
  | CArray (l : list cbor_any)
  | CMapString (m : list (string * cbor_any))
  | CMapAny (m : list (cbor_any * cbor_any))
  | CTag (n : Z) (c : cbor_any)
  | CScalar (s : string).

(** A COSE header value, as far as the code looks at it, and the header map. *)
Inductive header_value := HBytes (b : bytes) | HOther.
Abbreviation headers := (list (Z * header_value)).

Definition header (h : headers) (label : Z) : option header_value :=
  snd <$> List.find (λ e, Z.eqb e.1 label) h.

(** [cose.Sign1Message]: [Sign1_Raw] is what the signature check needs besides the
    payload (the raw headers and the signature). *)
Record Sign1Message := mkSign1Message {
  Sign1_Protected : headers;
  Sign1_Unprotected : headers;
  Sign1_Payload : option bytes;
  Sign1_Raw : bytes;
}.

(** ** SUIT *)

Abbreviation ComponentID := (option (list (option bytes))).

Record Digest := mkDigest { DigestAlg : Z; DigestBytes : option bytes }.

Record COSEProfile := mkCOSEProfile {
  Profile_DigestAlg : Z;
  Profile_AuthAlg : Z;
  Profile_KeyExchangeAlg : Z;
  Profile_EncryptionAlg : Z;
}.

Record SystemPropertyClaims := mkSystemPropertyClaims {
  SystemComponentID : ComponentID;
  ImageDigest : option bytes;
  ImageSize : Z;
}.

Record Reference := mkReference { ManifestUri : string; Reference_Digest : Digest }.

(** [RecordProperties] is decoded but never read: its entries stay [cbor_any]. *)
Record Record_ := mkRecord {
  Record_ManifestID : list Z;
  Record_ManifestSection : Z;
  Record_SectionOffset : Z;
  Record_ComponentIndex : Z;
  Record_Properties : list (Z * cbor_any);
}.

Record RecordOrClaims := mkRecordOrClaims {
  RC_Record : option Record_;
  RC_SystemClaims : option SystemPropertyClaims;
}.

Record DetailedResult := mkDetailedResult {
  ResultCode : Z;
  ResultRecord : Record_;
  ResultReason : Z;
}.

Record TrueOrDetailedResult := mkTrueOrDetailedResult {
  TDR_True : option bool;
  TDR_DetailedResult : option DetailedResult;
}.

Record Report := mkReport {
  Report_Reference : Reference;
  Report_Nonce : option bytes;
  Report_Records : list RecordOrClaims;
  Report_Result : TrueOrDetailedResult;
}.

(** A manifest: [Common] is what its bstr-wrapped field holds. *)
Record Common := mkCommon { Components : list ComponentID; SharedSequence : option bytes }.
Record Manifest := mkManifest {
  ManifestVersion : Z;
  ManifestSequenceNumber : Z;
  Manifest_Common : Common;
}.

Record AuthenticationBlock := mkAuthenticationBlock {
  Block_KID : bytes;
  authenticationBlockBstr : bytes;
}.

(** [AuthenticationBlocks] is an array of length one. *)
Record AuthenticationWrapper := mkAuthenticationWrapper {
  DigestBstr : option bytes;
  AuthenticationBlock0 : AuthenticationBlock;
}.

Record Envelope := mkEnvelope {
  Envelope_Tagged : bool;
  Envelope_AuthenticationWrapper : AuthenticationWrapper;
  ManifestBstr : bytes;
}.

(** ** TEEP *)

Record TEEPCipherSuite := mkTEEPCipherSuite { Suite_Type : Z; Suite_Algorithm : Z }.

Record RequestedTCInfo := mkRequestedTCInfo {
  Requested_ComponentID : ComponentID;
  TCManifestSequenceNumber : option Z;
  HaveBinary : option bool;
}.

Record TEEPOptions := mkTEEPOptions {
  Opt_SupportedTEEPCipherSuites : option (list (list TEEPCipherSuite));
  Opt_Challenge : option bytes;
  Opt_Versions : option (list Z);
  Opt_SupportedSUITCOSEProfiles : option (list COSEProfile);
  Opt_SelectedVersion : option Z;
  Opt_AttestationPayload : option bytes;
  Opt_TCList : option (list SystemPropertyClaims);
  Opt_ExtList : option (list Z);
  Opt_ManifestList : option (list bytes);
  Opt_Msg : option string;
  Opt_ErrMsg : option string;
  Opt_AttestationPayloadFormat : option string;
  Opt_RequestedTCList : option (list RequestedTCInfo);
  Opt_UnneededManifestList : option (list bytes);
  Opt_SUITReports : option (list bytes);
  Opt_Token : option bytes;
  Opt_SupportedFreshnessMechanisms : option (list Z);
  Opt_ErrLang : option string;
  Opt_ErrCode : option Z;
}.

Record TEEPMessage := mkTEEPMessage {
  TEEP_Type : Z;
  TEEP_Options : TEEPOptions;
  TEEP_SupportedTEEPCipherSuites : option (list (list TEEPCipherSuite));
  TEEP_SupportedSUITCOSEProfiles : option (list COSEProfile);
  TEEP_DataItemRequested : Z;
  TEEP_ErrCode : Z;
}.

(** Zero values. *)
Definition zero_options : TEEPOptions :=
  mkTEEPOptions None None None None None None None None None None None None None None None
    None None None None.

Definition zero_message : TEEPMessage := mkTEEPMessage 0 zero_options None None 0 0.

(** ** Attestation *)

(** The claims of an EAT the code reads. *)
Record Eat (key : Type) := mkEat {
  Eat_Nonce : option (list bytes);
  Eat_Cnf : option (option key);
  Eat_UEID : option bytes;
}.
Arguments mkEat {key}.
Arguments Eat_Nonce {key} e.
Arguments Eat_Cnf {key} e.
Arguments Eat_UEID {key} e.

Record AttestationResponse := mkAttestationResponse {
  Response_Status : string;
  Response_Nonce : string;
  Response_Expiry : string;
  Response_Accept : list string;
  Evidence_Type : string;
  Evidence_Value : string;
  Response_Result : string;
}.

Record ProcessedAttestation (key : Type) := mkProcessedAttestation {
  PA_Response : option AttestationResponse;
  EvidencePretty : string;
  JWTHeaderPretty : string;
  JWTPayloadPretty : string;
  PA_Backend : string;
  EarStatus : string;
  SendUpdate : bool;
  AttestationNonce : option bytes;
  AttestationUEID : option bytes;
  AttestationKey : option key;
  updateArtifactPath : string;
  updateSelectionErr : option error;
}.
Arguments mkProcessedAttestation {key}.
Arguments PA_Response {key} p.
Arguments EvidencePretty {key} p.
Arguments JWTHeaderPretty {key} p.
Arguments JWTPayloadPretty {key} p.
Arguments PA_Backend {key} p.
Arguments EarStatus {key} p.
Arguments SendUpdate {key} p.
Arguments AttestationNonce {key} p.
Arguments AttestationUEID {key} p.
Arguments AttestationKey {key} p.
Arguments updateArtifactPath {key} p.
Arguments updateSelectionErr {key} p.

Record sgxQuote3TEEPBundle := mkBundle { Bundle_Quote : bytes; Bundle_RawReportData : bytes }.

(** [intelQVLQuoteCollateral]. *)
Record QuoteCollateral := mkQuoteCollateral {
  MajorVersion : Z;
  MinorVersion : Z;
  TEEType : Z;
  PCKCRLIssuerChain : bytes;
  RootCACRL : bytes;
  PCKCRL : bytes;
  TCBInfoIssuerChain : bytes;
  TCBInfo : bytes;
  QEIdentityIssuerChain : bytes;
  QEIdentity : bytes;
}.

(** [intelQVLCollateralCacheEntry]: a zero [ExpiresAt] is [zero_time]. *)
Record intelQVLCollateralCacheEntry := mkCacheEntry {
  ExpiresAt : Z;
  Collateral : option QuoteCollateral;
}.

#[export] Instance QuoteCollateral_eq_dec : EqDecision QuoteCollateral.
Proof. solve_decision. Defined.
#[export] Instance CacheEntry_eq_dec : EqDecision intelQVLCollateralCacheEntry.
Proof. solve_decision. Defined.
