(* ===== verification/Lib.v ===== *)
(** The code outside the repository that the program calls: [go-cose], [fxamacker/cbor],
    [veraison/eat], the hash functions, JSON, base64, PEM and X.509 decoding, what an
    HTTP exchange with a service yields, and Intel's native library.

    Each is a field of a class, so every definition that uses one is a function of it;
    nothing is assumed of them here.  What a theorem relies on is a hypothesis of that
    theorem; [Stub.v] instantiates them by concrete functions. *)

From S2P Require Import Prelude GoUrl Model Db Wire.

(** Constants of [go-cose]. *)
Definition AlgorithmESP256 : Z := -9.
Definition CurveP256 : Z := 1.

(** One element of the array [TEEPMessage.MarshalCBOR] hands to the encoder. *)
Inductive element :=
  | EType (t : Z)
  | EOptions (o : TEEPOptions)
  | ECipherSuites (l : option (list (list TEEPCipherSuite)))
  | ECOSEProfiles (l : option (list COSEProfile))
  | EDataItem (v : Z)
  | EErrCode (e : Z).

(** A key of [map[any]cbor.RawMessage]. *)
Inductive map_key := KUint (n : Z) | KOther.

(** [suit.Report] before its custom-decoded fields are decoded. *)
Record RawReport := mkRawReport {
  Raw_Reference : Reference;
  Raw_Nonce : option bytes;
  Raw_Records : list bytes;
  Raw_Result : option bytes;
}.

(** [suit.Manifest] and [suit.Common] likewise: [Common] is a [Nested] field. *)
Record RawManifest := mkRawManifest {
  Raw_ManifestVersion : Z;
  Raw_ManifestSequenceNumber : Z;
  Raw_Common : option bytes;
}.

(** A pointer to a block of memory, or NULL, and the size that goes with it. *)
Record CBuffer := mkCBuffer {
  C_ptr : option bytes;
  C_size : Z;
}.

(** [sgx_ql_qve_collateral_t]: what the program fills in of it. *)
Record sgx_ql_qve_collateral_t := mkQveCollateral {
  major_version : Z;
  minor_version : Z;
  tee_type : Z;
  pck_crl_issuer_chain : CBuffer;
  root_ca_crl : CBuffer;
  pck_crl : CBuffer;
  tcb_info_issuer_chain : CBuffer;
  tcb_info : CBuffer;
  qe_identity_issuer_chain : CBuffer;
  qe_identity : CBuffer;
}.

(** The native result of Intel's quote verification library. *)
Record intelQVLNativeResult := mkNativeResult {
  collateralExpirationStatus : Z;
  verificationResult : Z;
  supplementalDataSize : Z;
  dcapStatus : Z;
}.

(** [x509.Certificate]: what the program reads of it. *)
Record Certificate := mkCertificate {
  CRLDistributionPoints : list string;
  Subject_CommonName : string;
}.

Class Lib := {
  (** *** github.com/veraison/go-cose *)
  cose_key : Type;
  public_key : Type;
  verifier : Type;
  signer : Type;
  sign_message : Type;
  key_Algorithm : cose_key → Z;
  key_AlgorithmOrDefault : cose_key → option Z;
  key_PublicKey : cose_key → option public_key;
  key_Thumbprint : cose_key → option bytes;
  key_Signer : cose_key → option signer;
  key_Verifier : cose_key → option verifier;
  NewVerifier : Z → public_key → option verifier;
  NewKeyEC2 : Z → bytes → bytes → option cose_key;
  (** the struct literal of an EC2 key: algorithm, curve, x and y *)
  cose_Key_EC2 : Z → Z → bytes → bytes → cose_key;
  Sign1_UnmarshalCBOR : bytes → option Sign1Message;
  Sign1_Verify : verifier → Sign1Message → bool;
  Sign_UnmarshalCBOR : bytes → option sign_message;
  Sign_Verify : verifier → sign_message → bool;
  (** algorithm, kid, payload and the randomness of the draw *)
  Sign1 : signer → Z → bytes → bytes → option (nat → Byte.byte) → option bytes;

  (** *** github.com/fxamacker/cbor *)
  (** the check the decoder makes before it calls an [UnmarshalCBOR] method *)
  cbor_wellformed : bytes → bool;
  (** bytes that lie behind a decoded slice, within its capacity *)
  spare_capacity : bytes → bytes;
  cbor_array : bytes → option (list bytes);
  cbor_map : bytes → option (list (map_key * bytes));
  cbor_bytes : bytes → option (option bytes);
  cbor_bytes_list : bytes → option (list bytes);
  cbor_int : bytes → option Z;
  cbor_uint : bytes → option Z;
  cbor_uint8 : bytes → option Z;
  cbor_bool : bytes → option bool;
  cbor_decode_any : bytes → option cbor_any;
  cbor_options : bytes → option TEEPOptions;
  cbor_cipher_suites : bytes → option (option (list (list TEEPCipherSuite)));
  cbor_cose_profiles : bytes → option (option (list COSEProfile));
  cbor_digest : bytes → option Digest;
  cbor_raw_report : bytes → option RawReport;
  cbor_record : bytes → option Record_;
  cbor_claims : bytes → option SystemPropertyClaims;
  cbor_detailed_result : bytes → option DetailedResult;
  cbor_raw_manifest : bytes → option RawManifest;
  cbor_common : bytes → option Common;
  cbor_bundle : bytes → option (option bytes * option bytes);
  cbor_key : bytes → option cose_key;
  Marshal_elements : list element → option bytes;
  Marshal_component_id : ComponentID → option bytes;
  Marshal_digest : Digest → option bytes;
  Marshal_key : cose_key → option bytes;
  Marshal_overviews : option (list SuitManifestOverview) → option bytes;
  Marshal_status_keys : list (bytes * Z) → option bytes;
  Marshal_status_records :
    option (list (bytes * (option bytes * option (list SuitManifestOverview)))) → option bytes;

  (** *** github.com/veraison/eat *)
  Eat_FromCBOR : bytes → option (Eat cose_key);
  Nonce_Validate : list bytes → bool;
  UEID_Validate : bytes → bool;

  (** *** crypto *)
  sha256 : bytes → bytes;
  sha384 : bytes → bytes;

  (** *** encoding/json and encoding/base64 *)
  json_attestation_response : bytes → option AttestationResponse;
  json_decode : string → option json;
  json_indent : json → option string;
  json_indent_cbor : cbor_any → option string;
  fmt_Sprint : cbor_any → string;
  base64_decoders : list (string → option bytes);
  base64_raw_url : string → option bytes;

  (** *** services *)
  (** one request and its response on a connection, given the calls of [Do] made before and
      what this call has sent already; [None] is an error of the transport, a timeout
      among them *)
  http_RoundTrip :
    list (HttpClient * HttpRequest) → list HttpRequest → HttpClient → HttpRequest → option HttpResponse;
  (** the header of a request a client makes up to follow a redirect, given what it sent
      before and the URL it is led to *)
  http_redirect_header : list HttpRequest → string → list (string * string);
  (** a host that starts with a bracket, after its check *)
  url_bracketed_host : string → option string;

  (** *** encoding/pem, crypto/x509 and the documents of Intel's services *)
  (** type, content and what follows the first block *)
  pem_Decode : bytes → option (string * bytes * bytes);
  x509_ParseCertificate : bytes → option Certificate;
  x509_ParseCertificates : bytes → option (list Certificate);
  (** the [NextUpdate] of a revocation list *)
  x509_ParseRevocationList : bytes → option Z;
  (** the [nextUpdate] of a JSON document *)
  json_nextUpdate : bytes → option string;
  time_Parse_RFC3339 : string → option Z;
  (** nanoseconds *)
  time_ParseDuration : string → option Z;
  (** [strconv.ParseInt(s, 0, 64)] *)
  strconv_ParseInt : string → option Z;
  json_collateral : bytes → option QuoteCollateral;
  Marshal_collateral : QuoteCollateral → option bytes;
  json_cache_entry : bytes → option intelQVLCollateralCacheEntry;
  Marshal_cache_entry : intelQVLCollateralCacheEntry → option bytes;

  (** *** Intel's quote verification library *)
  (** the build has the [intel_qvl] tag, and cgo *)
  intel_qvl_build : bool;
  (** the status, and what is written to the six bytes of the result *)
  tee_get_fmspc_from_quote : bytes → Z * (nat → Byte.byte);
  (** the status ([TEE_SUCCESS] is 0), and the size of the supplemental data *)
  tee_get_supplemental_data_version_and_size : CBuffer → Z * Z;
  (** a quote, its collateral, a time in seconds and the supplemental data, NULL or a
      zeroed block of that size: the status, and what is written to the expiration status
      and to the result, where anything is *)
  tee_verify_quote : CBuffer → sgx_ql_qve_collateral_t → Z → option Z → Z * option Z * option Z;
  (** [calloc] returns NULL for a block of that size *)
  calloc_fails : Z → bool;
  TEE_QV_RESULT_UNSPECIFIED : Z;
  TEE_ERROR_INVALID_PARAMETER : Z;
}.

Section unmarshal.
Context `{Lib}.

(** [cbor.Unmarshal(data, &x)] where [x] has an [UnmarshalCBOR] method [f]. *)
Definition Unmarshal_with {A} (f : bytes → res error A) (data : bytes) : res error A :=
  if cbor_wellformed data then f data else Err ErrLib.

Definition decoded {A} (o : option A) : res error A := res_of_option ErrLib o.

(** [Nested[T].UnmarshalCBOR]: a byte string wrapped around the encoding of a [T];
    a nil byte string is an empty input to the inner decoder. *)
Definition Nested_UnmarshalCBOR {A} (f : bytes → res error A) (data : bytes) : res error A :=
  raw ← decoded (cbor_bytes data);
  f (slice raw).
End unmarshal.

(** ** HTTP *)

Section http.
Context `{Lib}.

Definition url_Parse (rawURL : string) : option URL := Parse url_bracketed_host rawURL.

(** [http.NewRequest] fails on a URL that does not parse. *)
Definition NewRequest (method url : string) (header : list (string * string)) (body : bytes) :
    res error HttpRequest :=
  match url_Parse url with
  | Some _ => Ok (mkHttpRequest method url header body)
  | None => Err ErrLib
  end.

(** *** Redirects

    A client without a [CheckRedirect] of its own, as all of them are, follows redirects:
    a request may lead to ten on the wire. *)

(** [redirectBehavior]: the method of the next request, and whether the body goes along. *)
Definition redirectBehavior (method : string) (code : Z) : option (string * bool) :=
  if Z.eqb code 301 || Z.eqb code 302 || Z.eqb code 303 then
    Some (if String.eqb method "GET" || String.eqb method "HEAD" then method else "GET", false)
  else if Z.eqb code 307 || Z.eqb code 308 then Some (method, true)
  else None.

(** Where a response leads; a redirect without a Location is a response like any other. *)
Definition location (req : HttpRequest) (resp : HttpResponse) : option URL :=
  base ← url_Parse (Http_URL req);
  URL_Parse url_bracketed_host base (Header_Get (Http_ResponseHeader resp) "Location").

(** [Client.do]: [via] has been sent, [req] is next; once a redirect drops the body it stays
    dropped.  What is returned is everything sent, and the outcome. *)
Fixpoint follow (turns : nat) (before : list (HttpClient * HttpRequest)) (client : HttpClient)
    (body : bytes) (via : list HttpRequest) (req : HttpRequest) : list HttpRequest * option HttpResponse :=
  let sent := via ++ [req] in
  match http_RoundTrip before via client req with
  | None => (sent, None)
  | Some resp =>
      match redirectBehavior (Http_Method req) (Http_StatusCode resp) with
      | None => (sent, Some resp)
      | Some (method, includeBody) =>
          if String.eqb (Header_Get (Http_ResponseHeader resp) "Location") "" then (sent, Some resp)
          else
            match location req resp, turns with
            | Some u, S turns =>
                let body := if includeBody then body else [] in
                follow turns before client body sent
                  (mkHttpRequest method (URL_String u) (http_redirect_header sent (URL_String u)) body)
            | _, _ => (sent, None)
            end
      end
  end.

(** [defaultCheckRedirect] stops after ten requests. *)
Definition max_redirects : nat := 9.

Definition http_exchange (before : list (HttpClient * HttpRequest)) (client : HttpClient) (req : HttpRequest) :
    list HttpRequest * option HttpResponse :=
  follow max_redirects before client (Http_Body req) [] req.

(** What a call of [Do] sends, and what it gives the program. *)
Definition http_wire before client req : list HttpRequest := (http_exchange before client req).1.
Definition http_Do before client req : option HttpResponse := (http_exchange before client req).2.

(** [client.Do(req)]; [w_sent] lists the calls. *)
Definition Do (client : HttpClient) (req : HttpRequest) : M HttpResponse :=
  atomically (λ w, (res_of_option ErrLib (http_Do (w_sent w) client req), add_sent (client, req) w)).
End http.
