(* ===== verification/Stub.v ===== *)
(** A concrete instance of the libraries ([Lib]) for the witnesses: decoders that look
    their input up in a [Script], and toy cryptography in which a key is its own
    public half and a signature carries the key that made it. *)

From S2P Require Import Prelude GoUrl Model Db Wire Lib.

Definition pad (n : nat) (b : bytes) : bytes := take n (b ++ replicate n Byte.x00).

Lemma pad_length n b : length (pad n b) = n.
Proof. unfold pad. rewrite length_take, length_app, length_replicate. lia. Qed.

Definition find_input {A} (table : list (bytes * A)) (b : bytes) : option A :=
  snd <$> List.find (λ e, bool_decide (e.1 = b)) table.

(** ** Encodings that can be read back *)

Fixpoint bytes_of_positive (p : positive) : bytes :=
  match p with
  | xH => []
  | xO p => Byte.x00 :: bytes_of_positive p
  | xI p => Byte.x01 :: bytes_of_positive p
  end.

Fixpoint positive_of_bytes (b : bytes) : positive :=
  match b with
  | [] => xH
  | Byte.x00 :: b => xO (positive_of_bytes b)
  | _ :: b => xI (positive_of_bytes b)
  end.

Lemma positive_of_bytes_of p : positive_of_bytes (bytes_of_positive p) = p.
Proof. induction p as [p IH|p IH|]; simpl; by rewrite ?IH. Qed.

(** With a first byte that keeps them from being empty. *)
Definition pack {A} `{Countable A} (a : A) : bytes := bs [0x80]%Z ++ bytes_of_positive (encode a).
Definition unpack {A} `{Countable A} (b : bytes) : option A := decode (positive_of_bytes (tail b)).

Lemma unpack_pack {A} `{Countable A} (a : A) : unpack (pack a) = Some a.
Proof. unfold unpack, pack. cbn [tail app bs map]. by rewrite positive_of_bytes_of, decode_encode. Qed.

(** Byte strings, each byte and each end marked. *)
Definition pack_strings (l : list bytes) : bytes :=
  flat_map (λ b, flat_map (λ x, [Byte.x01; x]) b ++ [Byte.x00]) l.

Fixpoint unpack_strings (b current : bytes) : option (list bytes) :=
  match b with
  | [] => Some []
  | Byte.x00 :: b => cons (rev current) <$> unpack_strings b []
  | _ :: x :: b => unpack_strings b (x :: current)
  | _ => None
  end.

Lemma unpack_strings_pack l current s :
  unpack_strings (flat_map (λ x, [Byte.x01; x]) s ++ [Byte.x00] ++ pack_strings l) current
    = cons (rev current ++ s) <$> unpack_strings (pack_strings l) [].
Proof.
  revert current. induction s as [|x s IH]; intros current; cbn [flat_map app].
  - by rewrite app_nil_r.
  - cbn [unpack_strings]. rewrite IH. cbn [rev]. by rewrite <- app_assoc.
Qed.

Lemma unpack_pack_strings l : unpack_strings (pack_strings l) [] = Some l.
Proof.
  induction l as [|s l IH]; [done|]. unfold pack_strings at 1. cbn [flat_map]. rewrite <- app_assoc.
  rewrite unpack_strings_pack, IH. done.
Qed.

Definition overview_fields (m : SuitManifestOverview) : bytes * Z :=
  (Overview_TrustedComponentID m, Overview_SequenceNumber m).
Definition overview_of_fields (f : bytes * Z) : SuitManifestOverview := mkSuitManifestOverview f.1 f.2.

Lemma overviews_of_fields l : map overview_of_fields (map overview_fields l) = l.
Proof. rewrite map_map. induction l as [|[] l IH]; simpl; by rewrite ?IH. Qed.

Definition record_fields (r : bytes * (option bytes * option (list SuitManifestOverview))) :
    bytes * option bytes * option (list (bytes * Z)) :=
  (r.1, r.2.1, map overview_fields <$> r.2.2).
Definition record_of_fields (f : bytes * option bytes * option (list (bytes * Z))) :
    bytes * (option bytes * option (list SuitManifestOverview)) :=
  (f.1.1, (f.1.2, map overview_of_fields <$> f.2)).

Lemma records_of_fields l : map record_of_fields (map record_fields l) = l.
Proof.
  rewrite map_map. induction l as [|(k & u & ms) l IH]; [done|]. simpl. rewrite IH. f_equal.
  unfold record_of_fields, record_fields. simpl. destruct ms as [ms|]; [|done]. simpl. by rewrite overviews_of_fields.
Qed.

(** What each decoder knows. *)
Record Script := mkScript {
  s_sign1 : list (bytes * Sign1Message);
  s_array : list (bytes * list bytes);
  s_map : list (bytes * list (map_key * bytes));
  s_bytes : list (bytes * option bytes);
  s_int : list (bytes * Z);
  s_options : list (bytes * TEEPOptions);
  s_digest : list (bytes * Digest);
  s_report : list (bytes * RawReport);
  s_bool : list (bytes * bool);
  s_detailed : list (bytes * DetailedResult);
  s_manifest : list (bytes * RawManifest);
  s_common : list (bytes * Common);
  s_bundle : list (bytes * (option bytes * option bytes));
  s_eat : list (bytes * Eat bytes);
  s_http : list (HttpClient * HttpRequest) → HttpClient → HttpRequest → option HttpResponse;
  s_certificate : list (bytes * Certificate);
  s_certificates : list (bytes * list Certificate);
  s_cache : list (bytes * intelQVLCollateralCacheEntry);
}.

Definition empty_script : Script := mkScript [] [] [] [] [] [] [] [] [] [] [] [] [] [] (λ _ _ _, None) [] [] [].

Definition encode_component (c : ComponentID) : bytes := concat (map slice (slice c)).

Definition stub (s : Script) : Lib := {|
  cose_key := bytes;
  public_key := bytes;
  verifier := bytes;
  signer := bytes;
  sign_message := unit;
  key_Algorithm := λ _, (-9)%Z;
  key_AlgorithmOrDefault := λ _, Some (-9)%Z;
  key_PublicKey := Some;
  key_Thumbprint := λ k, Some (pad 32 k);
  key_Signer := Some;
  key_Verifier := Some;
  NewVerifier := λ _ pk, Some pk;
  NewKeyEC2 := λ _ x y, Some (x ++ y);
  cose_Key_EC2 := λ _ _ x y, x ++ y;
  Sign1_UnmarshalCBOR := find_input (s_sign1 s);
  Sign1_Verify := λ v m, bool_decide (v = Sign1_Raw m);
  Sign_UnmarshalCBOR := λ _, None;
  Sign_Verify := λ _ _, false;
  Sign1 := λ k _ _ payload _, Some (k ++ payload);
  cbor_wellformed := λ _, true;
  spare_capacity := λ _, [];
  cbor_array := find_input (s_array s);
  cbor_map := find_input (s_map s);
  cbor_bytes := find_input (s_bytes s);
  cbor_bytes_list := λ b, unpack_strings b [];
  cbor_int := find_input (s_int s);
  cbor_uint := find_input (s_int s);
  cbor_uint8 := find_input (s_int s);
  cbor_bool := find_input (s_bool s);
  cbor_decode_any := λ b, Some (CBytes b);
  cbor_options := find_input (s_options s);
  cbor_cipher_suites := λ _, None;
  cbor_cose_profiles := λ _, None;
  cbor_digest := find_input (s_digest s);
  cbor_raw_report := find_input (s_report s);
  cbor_record := λ _, None;
  cbor_claims := λ _, None;
  cbor_detailed_result := find_input (s_detailed s);
  cbor_raw_manifest := find_input (s_manifest s);
  cbor_common := find_input (s_common s);
  cbor_bundle := find_input (s_bundle s);
  cbor_key := Some;
  Marshal_elements := λ _, Some (bs [0x82]%Z);
  Marshal_component_id := λ c, Some (encode_component c);
  Marshal_digest := DigestBytes;
  Marshal_key := Some;
  Marshal_overviews := λ o, Some (match o with None => bs [0xF6]%Z | Some l => pack (map overview_fields l) end);
  Marshal_status_keys := λ l, Some (pack l);
  Marshal_status_records := λ o, Some (match o with None => bs [0xF6]%Z | Some l => pack (map record_fields l) end);
  Eat_FromCBOR := find_input (s_eat s);
  Nonce_Validate := λ _, true;
  UEID_Validate := λ _, true;
  sha256 := pad 32;
  sha384 := pad 48;
  json_attestation_response := λ _, None;
  json_decode := λ _, None;
  json_indent := λ _, None;
  json_indent_cbor := λ _, None;
  fmt_Sprint := λ _, "";
  base64_decoders := [];
  base64_raw_url := λ _, None;
  http_RoundTrip := λ before _ client req, s_http s before client req;
  http_redirect_header := λ _ _, [];
  url_bracketed_host := λ _, None;
  pem_Decode := λ b, match b with [] => None | _ => Some ("CERTIFICATE", b, []) end;
  x509_ParseCertificate := find_input (s_certificate s);
  x509_ParseCertificates := λ b, find_input (s_certificates s) b;
  x509_ParseRevocationList := λ _, Some zero_time;
  json_nextUpdate := λ _, Some "";
  time_Parse_RFC3339 := λ _, None;
  time_ParseDuration := λ _, None;
  strconv_ParseInt := λ _, None;
  json_collateral := λ _, None;
  Marshal_collateral := λ c, Some (RootCACRL c);
  json_cache_entry := find_input (s_cache s);
  Marshal_cache_entry := λ e, fst <$> List.find (λ p, bool_decide (p.2 = e)) (s_cache s);
  intel_qvl_build := true;
  tee_get_fmspc_from_quote := λ q, (0%Z, λ i, nth i q Byte.x00);
  tee_get_supplemental_data_version_and_size := λ _, (0%Z, 0%Z);
  tee_verify_quote := λ _ _ _ _, (0%Z, Some 0%Z, Some 0%Z);
  calloc_fails := λ _, false;
  TEE_QV_RESULT_UNSPECIFIED := 0xa006;
  TEE_ERROR_INVALID_PARAMETER := 0xe001;
|}.
