(* ===== verification/Suit.v ===== *)
(** SUIT envelopes and reports: [internal/suit/manifest.go] and [report.go]. *)

From S2P Require Import Prelude Model Db Wire Lib.

Definition AlgorithmSHA256 : Z := -16.
Definition HeaderLabelKeyID : Z := 4.

Definition envelopeTagBytesLen : nat := 2.
Definition envelopeTagBytes : bytes := bs [0xD8; 0x6B]%Z.

(** [t[uint64(n)]] of a [map[any]cbor.RawMessage]; a missing key is a nil slice. *)
Definition uint_key (n : Z) (t : list (map_key * bytes)) : option bytes :=
  snd <$> List.find (λ e, match e.1 with KUint m => Z.eqb m n | KOther => false end) t.

Section manifest.
Context `{Lib}.

(** [data[:2]] may reach into the spare capacity behind [data]; [data[2:]] may not. *)
Definition SkipTag (data spare : bytes) : res error (bool * bytes) :=
  front ← go_slice (data ++ spare) 0 (Z.of_nat envelopeTagBytesLen);
  if bool_decide (front = envelopeTagBytes)
  then rest ← go_slice data (Z.of_nat envelopeTagBytesLen) (Z.of_nat (length data));
       Ok (true, rest)
  else Ok (false, data).

Definition extractKID (sign1 : Sign1Message) : option bytes :=
  match header (Sign1_Protected sign1) HeaderLabelKeyID with
  | Some (HBytes kid) => Some kid
  | Some HOther => None
  | None =>
      match header (Sign1_Unprotected sign1) HeaderLabelKeyID with
      | Some (HBytes kid) => Some kid
      | Some HOther => None
      | None => None
      end
  end.

(** [cbor.Unmarshal] into a [cose.Sign1Message], which has its own method. *)
Definition Unmarshal_Sign1 : bytes → res error Sign1Message :=
  Unmarshal_with (λ data, decoded (Sign1_UnmarshalCBOR data)).

Definition AuthenticationWrapper_UnmarshalCBOR (data : bytes) : res error AuthenticationWrapper :=
  elements ← res_of_option ErrSUITManifestInvalidFormat (cbor_array data);
  match elements with
  | [e0; e1] =>
      digest ← res_of_option ErrSUITManifestInvalidFormat (cbor_bytes e0);
      sign1 ← res_map_err (λ _, ErrSUITManifestInvalidFormat)
                (Unmarshal_with (Nested_UnmarshalCBOR Unmarshal_Sign1) e1);
      match extractKID sign1 with
      | None => Err ErrSUITManifestMissingKID
      | Some kid => Ok (mkAuthenticationWrapper digest (mkAuthenticationBlock kid e1))
      end
  | _ => Err ErrSUITManifestInvalidFormat
  end.

Definition Envelope_UnmarshalCBOR (data0 : bytes) : res error Envelope :=
  skipped ← SkipTag data0 (spare_capacity data0);
  let '(tagged, data) := skipped in
  t ← res_of_option ErrSUITManifestInvalidFormat (cbor_map data);
  authenticationWrapperRaw ← res_of_option ErrSUITManifestInvalidFormat (uint_key 2 t);
  wrapper ← Unmarshal_with
              (Nested_UnmarshalCBOR (Unmarshal_with AuthenticationWrapper_UnmarshalCBOR))
              authenticationWrapperRaw;
  manifest ← res_of_option ErrSUITManifestInvalidFormat (uint_key 3 t);
  Ok (mkEnvelope tagged wrapper manifest).

Definition with_payload (p : option bytes) (m : Sign1Message) : Sign1Message :=
  mkSign1Message (Sign1_Protected m) (Sign1_Unprotected m) p (Sign1_Raw m).

(** One turn of the loop over the authentication blocks. *)
Definition verify_block (v : verifier) (digestBstr : option bytes) (block : AuthenticationBlock) :
    res error bool :=
  sign1 ← res_map_err (λ _, ErrSUITManifestNotAuthenticated)
            (Unmarshal_with (Nested_UnmarshalCBOR Unmarshal_Sign1) (authenticationBlockBstr block));
  match Sign1_Payload sign1 with
  | Some _ => Err ErrSUITManifestInvalidFormat
  | None => Ok (Sign1_Verify v (with_payload digestBstr sign1))
  end.

Fixpoint verify_blocks (v : verifier) (digestBstr : option bytes) (blocks : list AuthenticationBlock) :
    res error unit :=
  match blocks with
  | [] => Err ErrSUITManifestNotAuthenticated
  | block :: rest =>
      ok ← verify_block v digestBstr block;
      if (ok : bool) then Ok tt else verify_blocks v digestBstr rest
  end.

Definition Envelope_Verify (e : Envelope) (key : cose_key) : res error unit :=
  let wrapper := Envelope_AuthenticationWrapper e in
  digest ← res_of_option ErrSUITManifestNotAuthenticated (cbor_digest (slice (DigestBstr wrapper)));
  if negb (Z.eqb (DigestAlg digest) AlgorithmSHA256) then Err ErrSUITManifestNotAuthenticated
  else if negb (eqb_bytes (slice (DigestBytes digest)) (sha256 (ManifestBstr e)))
  then Err ErrSUITManifestNotAuthenticated
  else
    publicKey ← res_of_option ErrSUITFatal (key_PublicKey key);
    v ← res_of_option ErrSUITFatal (NewVerifier (key_Algorithm key) publicKey);
    verify_blocks v (DigestBstr wrapper) [AuthenticationBlock0 wrapper].

(** [cbor.Unmarshal] into [Nested[Manifest]]: both levels are bstr-wrapped.  A manifest
    without the common field leaves it at its zero value. *)
Definition Unmarshal_Common (data : bytes) : res error Common := decoded (cbor_common data).

Definition Unmarshal_Manifest (data : bytes) : res error Manifest :=
  raw ← decoded (cbor_raw_manifest data);
  common ← match Raw_Common raw with
           | None => Ok (mkCommon [] None)
           | Some c => Nested_UnmarshalCBOR Unmarshal_Common c
           end;
  Ok (mkManifest (Raw_ManifestVersion raw) (Raw_ManifestSequenceNumber raw) common).

Definition Unmarshal_NestedManifest : bytes → res error Manifest :=
  Unmarshal_with (Nested_UnmarshalCBOR Unmarshal_Manifest).

(** ** Reports *)

Definition RecordOrClaims_UnmarshalCBOR (data : bytes) : res error RecordOrClaims :=
  match cbor_record data with
  | Some r => Ok (mkRecordOrClaims (Some r) None)
  | None =>
      match cbor_claims data with
      | Some c => Ok (mkRecordOrClaims None (Some c))
      | None => Err (ErrorString "unknown type for RecordOrClaims: []uint8")
      end
  end.

Definition TrueOrDetailedResult_UnmarshalCBOR (data : bytes) : res error TrueOrDetailedResult :=
  match cbor_bool data with
  | Some b =>
      if negb b then Err (ErrorString "simple value must be true")
      else Ok (mkTrueOrDetailedResult (Some b) None)
  | None =>
      match cbor_detailed_result data with
      | Some dr => Ok (mkTrueOrDetailedResult None (Some dr))
      | None => Err (ErrorString "unknown type for TrueOrDetailedResult: []uint8")
      end
  end.

Fixpoint unmarshal_records (l : list bytes) : res error (list RecordOrClaims) :=
  match l with
  | [] => Ok []
  | d :: rest =>
      r ← RecordOrClaims_UnmarshalCBOR d;
      rs ← unmarshal_records rest;
      Ok (r :: rs)
  end.

(** [cbor.Unmarshal(data, &report)]. *)
Definition Unmarshal_Report (data : bytes) : res error Report :=
  raw ← decoded (cbor_raw_report data);
  records ← unmarshal_records (Raw_Records raw);
  result ← match Raw_Result raw with
           | None => Ok (mkTrueOrDetailedResult None None)
           | Some r => TrueOrDetailedResult_UnmarshalCBOR r
           end;
  Ok (mkReport (Raw_Reference raw) (Raw_Nonce raw) records result).
End manifest.

Definition ReportReasonOK : Z := 0.

Definition ReportReasons_String (r : Z) : string :=
  match r with
  | 0 => "report-reason-ok"
  | 1 => "report-reason-cbor-parse"
  | 2 => "report-reason-cose-unsupported"
  | 3 => "report-reason-alg-unsupported"
  | 4 => "report-reason-unauthorised"
  | 5 => "report-reason-command-unsupported"
  | 6 => "report-reason-component-unsupported"
  | 7 => "report-reason-component-unauthorised"
  | 8 => "report-reason-parameter-unsupported"
  | 9 => "report-reason-severing-unsupported"
  | 10 => "report-reason-condition-failed"
  | 11 => "report-reason-operation-failed"
  | 12 => "report-reason-invoke-pending"
  | _ => "report-reason-unknown"
  end%Z.

(** The test the TAM makes on a report: it is for a SHA-256 digest of the right size. *)
Definition report_digest_ok (r : Report) : bool :=
  Z.eqb (DigestAlg (Reference_Digest (Report_Reference r))) AlgorithmSHA256 &&
  Nat.eqb (length (slice (DigestBytes (Reference_Digest (Report_Reference r))))) 32.

(** ... and that it reports success. *)
Definition report_succeeded (r : Report) : bool :=
  bool_decide (TDR_True (Report_Result r) = Some true) ||
  match TDR_DetailedResult (Report_Result r) with
  | Some dr => Z.eqb (ResultReason dr) ReportReasonOK
  | None => false
  end.
