(* ===== verification/Teep.v ===== *)
(** TEEP messages: [internal/tam/teep_message.go]. *)

From stdpp Require Import pretty.
From S2P Require Import Prelude Model Db Wire Lib Suit.

Definition TEEPTypeUnknown : Z := 0.
Definition TEEPTypeQueryRequest : Z := 1.
Definition TEEPTypeQueryResponse : Z := 2.
Definition TEEPTypeUpdate : Z := 3.
Definition TEEPTypeSuccess : Z := 4.
Definition TEEPTypeError : Z := 5.

(** ** [DataItemRequested], a Go [uint] (64 bits) *)

Definition attestationMask : Z := 1.
Definition tcListMask : Z := 2.
Definition extensionsMask : Z := 4.
Definition suitReportsMask : Z := 8.

Definition RequestDataItem (attestation tcList extensions suitReports : bool) : Z :=
  let v := 0%Z in
  let v := if attestation then Z.lor v attestationMask else v in
  let v := if tcList then Z.lor v tcListMask else v in
  let v := if extensions then Z.lor v extensionsMask else v in
  let v := if suitReports then ((v + suitReportsMask) mod 2 ^ 64)%Z else v in
  v.

Definition AttestationRequested (v : Z) : bool := negb (Z.eqb (Z.land v attestationMask) 0).
Definition TCListRequested (v : Z) : bool := negb (Z.eqb (Z.land v tcListMask) 0).
Definition ExtensionsRequested (v : Z) : bool := negb (Z.eqb (Z.land v extensionsMask) 0).
Definition SUITReportsRequested (v : Z) : bool := negb (Z.eqb (Z.land v suitReportsMask) 0).

Section message.
Context `{Platform} `{Lib}.

Definition TEEPMessage_MarshalCBOR (m : TEEPMessage) : res error bytes :=
  let marshal l := decoded (Marshal_elements l) in
  if Z.eqb (TEEP_Type m) TEEPTypeQueryRequest then
    marshal [EType (TEEP_Type m); EOptions (TEEP_Options m);
             ECipherSuites (TEEP_SupportedTEEPCipherSuites m);
             ECOSEProfiles (TEEP_SupportedSUITCOSEProfiles m); EDataItem (TEEP_DataItemRequested m)]
  else if Z.eqb (TEEP_Type m) TEEPTypeQueryResponse then
    marshal [EType (TEEP_Type m); EOptions (TEEP_Options m)]
  else if Z.eqb (TEEP_Type m) TEEPTypeUpdate then
    marshal [EType (TEEP_Type m); EOptions (TEEP_Options m)]
  else if Z.eqb (TEEP_Type m) TEEPTypeSuccess then
    marshal [EType (TEEP_Type m); EOptions (TEEP_Options m)]
  else if Z.eqb (TEEP_Type m) TEEPTypeError then
    marshal [EType (TEEP_Type m); EOptions (TEEP_Options m); EErrCode (TEEP_ErrCode m)]
  else Err ErrNotSupported.

(** Into a zero [TEEPMessage], as every caller does. *)
Definition TEEPMessage_UnmarshalCBOR (data : bytes) : res error TEEPMessage :=
  a ← decoded (cbor_array data);
  match a with
  | a0 :: a1 :: rest =>
      ty ← decoded (cbor_int a0);
      if Z.eqb ty TEEPTypeQueryRequest then
        match rest with
        | [a2; a3; a4] =>
            options ← decoded (cbor_options a1);
            suites ← decoded (cbor_cipher_suites a2);
            profiles ← decoded (cbor_cose_profiles a3);
            items ← decoded (cbor_uint a4);
            Ok (mkTEEPMessage ty options suites profiles items 0)
        | _ => Err ErrInvalidValue
        end
      else if Z.eqb ty TEEPTypeQueryResponse || Z.eqb ty TEEPTypeUpdate || Z.eqb ty TEEPTypeSuccess then
        match rest with
        | [] =>
            options ← decoded (cbor_options a1);
            Ok (mkTEEPMessage ty options None None 0 0)
        | _ => Err ErrInvalidValue
        end
      else if Z.eqb ty TEEPTypeError then
        match rest with
        | [a2] =>
            options ← decoded (cbor_options a1);
            code ← decoded (cbor_uint8 a2);
            Ok (mkTEEPMessage ty options None None 0 code)
        | _ => Err ErrInvalidValue
        end
      else Err ErrNotSupported
  | _ => Err ErrNotTEEPMessage
  end.

(** [cbor.Unmarshal(data, &teepMessage)]. *)
Definition Unmarshal_TEEPMessage : bytes → res error TEEPMessage :=
  Unmarshal_with TEEPMessage_UnmarshalCBOR.

(** [cose.Sign1(rand.Reader, ...)]: signing draws randomness. *)
Definition cose_Sign1 (s : signer) (alg : Z) (kid payload : bytes) : M bytes :=
  atomically (λ w,
    (res_of_option ErrLib (Sign1 s alg kid payload (entropy (w_draws w))), tick_draw w)).

Definition TEEPMessage_COSESign1Sign (m : TEEPMessage) (key : cose_key) : M bytes :=
  s ← lift (decoded (key_Signer key));
  alg ← lift (decoded (key_AlgorithmOrDefault key));
  kid ← lift (decoded (key_Thumbprint key));
  tbsMessage ← lift (TEEPMessage_MarshalCBOR m);
  cose_Sign1 s alg kid tbsMessage.

Definition TEEPMessage_COSESign1Verify (key : cose_key) (sig : bytes) : res error TEEPMessage :=
  v ← decoded (key_Verifier key);
  msg ← decoded (Sign1_UnmarshalCBOR sig);
  if negb (Sign1_Verify v msg) then Err ErrLib
  else Unmarshal_TEEPMessage (slice (Sign1_Payload msg)).
End message.

Definition unknown_code (n : Z) : string :=
  String.append "unknown(" (String.append (pretty n) ")").

Definition TEEPMessageType_String (t : Z) : string :=
  match t with
  | 1 => "QueryRequest"
  | 2 => "QueryResponse"
  | 3 => "Update"
  | 4 => "Success"
  | 5 => "Error"
  | _ => unknown_code t
  end%Z.
