(* ===== verification/Rats.v ===== *)
(** Remote attestation, the part that is the same for every verifier: the backend names,
    attested claims and the decoding of a verifier's response ([backend.go],
    [attested_claims.go], [attest_response.go] of [internal/infra/rats]), and
    [RenderCBORPretty] of [internal/util/cbor.go]. *)

From stdpp Require Import pretty.
From S2P Require Import Prelude GoText GoUrl Model Db Wire Lib Suit.

(** [config.RAConfig], without its logger. *)
Record RAConfig := mkRAConfig {
  RA_Backend : string;
  BaseURL : string;
  ContentType : string;
  InsecureTLS : bool;
  RA_Timeout : Z;
  IntelCollateralCacheDir : string;
  IntelCollateralServiceURL : string;
  IntelCollateralInsecureTLS : bool;
  IntelCollateralSubscriptionKey : string;
}.

Definition VerifierBackendVeraison : string := "veraison".
Definition VerifierBackendIntelQVL : string := "intel-qvl".
Definition AttestationPayloadFormatSGXQuote3TEEP : string := "application/sgx-quote3-teep-bundle".

(** ** backend.go *)

Definition VerifierBackendForAttestationPayloadFormat (format : string) : string :=
  if EqualFold (TrimSpace format) AttestationPayloadFormatSGXQuote3TEEP
  then VerifierBackendIntelQVL else VerifierBackendVeraison.

Definition verifierBackendFromPayloadFormat (format : string) : string :=
  let trimmed := TrimSpace format in
  if String.eqb trimmed "" then VerifierBackendVeraison
  else
    let lower := ToLower trimmed in
    if String.eqb lower VerifierBackendVeraison || String.eqb lower VerifierBackendIntelQVL
    then lower
    else VerifierBackendForAttestationPayloadFormat trimmed.

Section rats.
Context `{Platform} `{Lib}.

Abbreviation PA := (ProcessedAttestation cose_key).

(** ** attested_claims.go *)

(** The claims are copied into [result] only at the end. *)
Definition attachAttestedClaims (result : PA) (evidence : Eat cose_key) : res error PA :=
  match Eat_Nonce evidence with
  | None => Err (ErrorString "EAT nonce missing")
  | Some nonce =>
      if negb (Nonce_Validate nonce) then Err (Wrapped "validate EAT nonce" ErrLib)
      else match nonce with
      | [challenge] =>
          match Eat_Cnf evidence with
          | Some (Some key) =>
              let ueid := match Eat_UEID evidence with
                          | Some u => if UEID_Validate u then Some u else AttestationUEID result
                          | None => AttestationUEID result
                          end in
              Ok (mkProcessedAttestation (PA_Response result) (EvidencePretty result)
                    (JWTHeaderPretty result) (JWTPayloadPretty result) (PA_Backend result)
                    (EarStatus result) (SendUpdate result) (Some challenge) ueid (Some key)
                    (updateArtifactPath result) (updateSelectionErr result))
          | _ => Err (ErrorString "EAT cnf key missing")
          end
      | _ => Err (ErrorString "EAT nonce must contain exactly one challenge")
      end
  end.

Definition PopulateAttestedClaimsFromEAT (result : PA) (raw : bytes) : res error PA :=
  evidence ← res_of_option (Wrapped "decode EAT claims" ErrLib) (Eat_FromCBOR raw);
  attachAttestedClaims result evidence.

Definition PopulateAttestedClaimsFromSign1 (result : PA) (payload : bytes) : res error PA :=
  sign1 ← res_of_option (Wrapped "decode attestation Sign1" ErrLib) (Sign1_UnmarshalCBOR payload);
  PopulateAttestedClaimsFromEAT result (slice (Sign1_Payload sign1)).

(** ** attest_response.go *)

Definition ShouldSendUpdate (r : AttestationResponse) : bool := EqualFold (Response_Status r) "complete".

Definition hex_string (b : bytes) : string := "h'" +++ EncodeToString b +++ "'".

Definition stringifyCBORKey (k : cbor_any) : string :=
  match k with
  | CString s => s
  | CBytes b => hex_string b
  | CScalar s => s
  | k => fmt_Sprint k
  end.

(** A [map[string]any] is encoded in key order whatever order it is built in. *)
Fixpoint normaliseCBORForJSON (v : cbor_any) : cbor_any :=
  match v with
  | CArray l => CArray (map normaliseCBORForJSON l)
  | CMapString m => CMapString (map (λ '(k, e), (k, normaliseCBORForJSON e)) m)
  | CMapAny m => CMapString (map (λ '(k, e), (stringifyCBORKey k, normaliseCBORForJSON e)) m)
  | CBytes b => CString (hex_string b)
  | CTag n c => CMapString [("_cborTag", CScalar (pretty n)); ("content", normaliseCBORForJSON c)]
  | CString s => CString s
  | CScalar s => CScalar s
  end.

Definition RenderCBORPretty (v : cbor_any) : res error string :=
  decoded (json_indent_cbor (normaliseCBORForJSON v)).

(** The first decoder that accepts the trimmed string. *)
Definition decodeBase64String (value : string) : res error bytes :=
  let stripped := TrimSpace value in
  if String.eqb stripped "" then Err (ErrorString "base64 string empty")
  else
    res_of_option (Wrapped "decode base64 string" ErrLib)
      (head (omap (λ enc : string → option bytes, enc stripped) base64_decoders)).

Definition PrettyEvidence (r : AttestationResponse) : res error string :=
  rawCBOR ← res_map_err (Wrapped "decode evidence") (decodeBase64String (Evidence_Value r));
  match rawCBOR with
  | [] => Err (ErrorString "evidence CBOR payload empty")
  | _ =>
      v ← res_of_option (Wrapped "unmarshal evidence CBOR" ErrLib) (cbor_decode_any rawCBOR);
      res_map_err (Wrapped "render evidence CBOR") (RenderCBORPretty v)
  end.

Definition decodeJWTSection (segment : string) : res error string :=
  data ← res_of_option (Wrapped "base64 decode" ErrLib) (base64_raw_url segment);
  parsed ← res_of_option (Wrapped "parse JSON" ErrLib) (json_decode (string_of_bytes data));
  res_of_option (Wrapped "format JSON" ErrLib) (json_indent parsed).

Definition PrettyResultJWT (r : AttestationResponse) : res error (string * string) :=
  if String.eqb (Response_Result r) "" then Err (ErrorString "result field empty")
  else
    match Split 46 (Response_Result r) with
    | p0 :: p1 :: _ =>
        headerPretty ← res_map_err (Wrapped "decode JWT header") (decodeJWTSection p0);
        payloadPretty ← res_map_err (Wrapped "decode JWT payload") (decodeJWTSection p1);
        Ok (headerPretty, payloadPretty)
    | _ => Err (ErrorString "result field does not contain valid JWT segments")
    end.

(** [m[key]] of a decoded object (whose keys are distinct). *)
Definition object_key (key : string) (m : list (string * json)) : option json :=
  snd <$> List.find (λ e, String.eqb e.1 key) m.

(** The first candidate that names an object. *)
Fixpoint find_submod (m : list (string * json)) (keys : list string) : option (list (string * json)) :=
  match keys with
  | [] => None
  | key :: rest =>
      match object_key key m with
      | Some (JObject submod) => Some submod
      | _ => find_submod m rest
      end
  end.

Definition extractEarStatus (payload : list (string * json)) : res error string :=
  match payload with
  | [] => Err (ErrorString "JWT payload empty")
  | _ =>
      submodsVal ← res_of_option (ErrorString "JWT payload missing submods") (object_key "submods" payload);
      match submodsVal with
      | JObject submods =>
          match find_submod submods ["PSA_IOT"; "GENERIC_EAT"] with
          | None => Err (ErrorString "no key candidate [PSA_IOT GENERIC_EAT] found in submods[]")
          | Some submod =>
              statusVal ← res_of_option (ErrorString "JWT payload missing submods[][ear.status]")
                            (object_key "ear.status" submod);
              match statusVal with
              | JString status => Ok (TrimSpace status)
              | _ => Err (ErrorString "JWT payload submods[][ear.status] is not a string")
              end
          end
      | _ => Err (ErrorString "JWT payload submods is not an object")
      end
  end.

Definition updateArtifactAffirmingPath : string := "resources/update.tam.esp256.cose".
Definition updateArtifactErrorPath : string := "resources/update.tam.esp256.error.cose".

Definition selectUpdateArtifact (resp : AttestationResponse) (payload : list (string * json)) :
    string * string * option error :=
  if negb (ShouldSendUpdate resp) then ("", "", None)
  else match extractEarStatus payload with
       | Ok status =>
           if EqualFold status "affirming" then (updateArtifactAffirmingPath, status, None)
           else (updateArtifactErrorPath, status, None)
       | Err err => (updateArtifactErrorPath, "", Some err)
       | _ => ("", "", None)
       end.

Definition DecodeAttestationResponse (payload : bytes) : res error PA :=
  match payload with
  | [] => Err (ErrorString "attestation response payload empty")
  | _ =>
      resp ← res_of_option (Wrapped "decode attestation response JSON" ErrLib)
               (json_attestation_response payload);
      evidencePretty ← res_map_err (Wrapped "pretty print evidence") (PrettyEvidence resp);
      jwt ← res_map_err (Wrapped "pretty print result JWT") (PrettyResultJWT resp);
      let '(headerPretty, payloadPretty) := jwt in
      payloadObj ← (if String.eqb payloadPretty "" then Ok []
                    else match json_decode payloadPretty with
                         | Some (JObject m) => Ok m
                         | Some JNull => Ok []
                         | _ => Err (Wrapped "parse JWT payload JSON" ErrLib)
                         end);
      let '(updatePath, earStatus, selectionErr) := selectUpdateArtifact resp payloadObj in
      Ok (mkProcessedAttestation (Some resp) evidencePretty headerPretty payloadPretty
            VerifierBackendVeraison earStatus (ShouldSendUpdate resp) None None None
            updatePath selectionErr)
  end.
End rats.
