(* ===== verification/Qvl.v ===== *)
(** Intel's quote verification, the pure part: the classification of results
    ([intel_qvl_common.go]), the parsing of quotes ([intel_qvl_quote.go] and, for the
    certificates in a quote, [intel_qvl_pcs.go]), and how long collateral may be cached
    ([intel_qvl_collateral.go]). *)

From S2P Require Import Prelude GoText GoUrl Model Db Wire Lib Suit.

(** ** intel_qvl_common.go *)

Definition intelQVLNonAffirming : string := "non-affirming".

Definition intelQVLResultOK : Z := 0.
Definition intelQVLResultConfigNeeded : Z := 0xa001.
Definition intelQVLResultOutOfDate : Z := 0xa002.
Definition intelQVLResultOutOfDateConfigNeeded : Z := 0xa003.
Definition intelQVLResultInvalidSignature : Z := 0xa004.
Definition intelQVLResultRevoked : Z := 0xa005.
Definition intelQVLResultUnspecified : Z := 0xa006.
Definition intelQVLResultSWHardeningNeeded : Z := 0xa007.
Definition intelQVLResultConfigAndSWHardeningNeeded : Z := 0xa008.
Definition intelQVLResultTDRelaunchAdvised : Z := 0xa009.
Definition intelQVLResultTDRelaunchAdvisedConfigNeeded : Z := 0xa00a.

Definition resultToEarStatus (ok : bool) : string :=
  if ok then "affirming" else intelQVLNonAffirming.

Definition intelQVLWarnings : list Z :=
  [intelQVLResultConfigNeeded; intelQVLResultOutOfDate; intelQVLResultOutOfDateConfigNeeded;
   intelQVLResultSWHardeningNeeded; intelQVLResultConfigAndSWHardeningNeeded;
   intelQVLResultTDRelaunchAdvised; intelQVLResultTDRelaunchAdvisedConfigNeeded].

Definition classifyIntelQVLResult (result expiration : Z) : string :=
  if negb (Z.eqb expiration 0) then "failure"
  else if Z.eqb result intelQVLResultOK then "ok"
  else if existsb (Z.eqb result) intelQVLWarnings then "ok-with-warnings"
  else "failure".

Definition isIntelQVLResultAffirmingValue (result expiration : Z) : bool :=
  let classification := classifyIntelQVLResult result expiration in
  String.eqb classification "ok" || String.eqb classification "ok-with-warnings".

Definition isIntelQVLResultAffirming (verificationResult collateralExpirationStatus : Z) : bool :=
  isIntelQVLResultAffirmingValue verificationResult collateralExpirationStatus.

(** ** intel_qvl_quote.go *)

Definition quoteVersion3 : Z := 3.
Definition quoteVersion4 : Z := 4.
Definition quoteVersion5 : Z := 5.
Definition quoteHeaderVersionSize : Z := 2.
Definition quoteReportDataSize : Z := 64.
Definition sgxReportBodySize : Z := 384.
Definition sgxQuote3Size : Z := 436.
Definition sgxQuote4Size : Z := 436.
Definition sgxQuote5HeaderSize : Z := 48.
Definition sgxQuote5TypeOffset : Z := 4.
Definition sgxQuote5BodyLenOff : Z := 44.
Definition sgxReportDataOffsetInBody : Z := 320.
Definition sgxReportDataOffsetInQuote : Z := 368.

Definition len (b : bytes) : Z := Z.of_nat (length b).

(** [copyQuoteReportData] copies: a value is its own copy here. *)
Definition extractQuoteReportData (quote : bytes) : res error bytes :=
  if Z.ltb (len quote) quoteHeaderVersionSize then Err (ErrorString "quote is too short")
  else
    v ← go_slice quote 0 quoteHeaderVersionSize;
    let version := le_uint v in
    if Z.eqb version quoteVersion3 then
      if Z.ltb (len quote) sgxQuote3Size then Err (ErrorString "quote v3 is too short")
      else go_slice quote sgxReportDataOffsetInQuote (sgxReportDataOffsetInQuote + quoteReportDataSize)
    else if Z.eqb version quoteVersion4 then
      if Z.ltb (len quote) sgxQuote4Size then Err (ErrorString "quote v4 is too short")
      else go_slice quote sgxReportDataOffsetInQuote (sgxReportDataOffsetInQuote + quoteReportDataSize)
    else if Z.eqb version quoteVersion5 then
      if Z.ltb (len quote) sgxQuote5HeaderSize then Err (ErrorString "quote v5 is too short")
      else
        ty ← go_slice quote sgxQuote5TypeOffset (sgxQuote5TypeOffset + 2);
        sz ← go_slice quote sgxQuote5BodyLenOff (sgxQuote5BodyLenOff + 4);
        let bodyType := le_uint ty in
        let bodySize := le_uint sz in
        if Z.ltb (len quote) (sgxQuote5HeaderSize + bodySize)
        then Err (ErrorString "quote v5 body is truncated")
        else if existsb (Z.eqb bodyType) [1; 2; 3; 4]%Z then
          if Z.ltb bodySize sgxReportBodySize
          then Err (ErrorString "quote v5 body type is too short for report_data")
          else
            let offset := (sgxQuote5HeaderSize + sgxReportDataOffsetInBody)%Z in
            go_slice quote offset (offset + quoteReportDataSize)
        else Err (ErrorString "unsupported quote v5 body type")
    else Err (ErrorString "unsupported quote version").

Definition verifyQuoteReportData (quote expected : bytes) : res error unit :=
  actual ← extractQuoteReportData quote;
  if eqb_bytes actual expected then Ok tt else Err (ErrorString "quote report_data mismatch").

Definition intelQVLFMSPCSize : nat := 6.

Definition intelQVLFMSPCQueryValue (fmspc : bytes) : res error string :=
  if negb (Nat.eqb (length fmspc) intelQVLFMSPCSize)
  then Err (ErrorString "unexpected Intel QVL FMSPC size")
  else Ok (ToUpper_ascii (EncodeToString fmspc)).

Definition intelQVLFMSPCCacheKeyValue (fmspc : bytes) : res error string :=
  if negb (Nat.eqb (length fmspc) intelQVLFMSPCSize)
  then Err (ErrorString "unexpected Intel QVL FMSPC size")
  else Ok (ToLower (EncodeToString fmspc)).

(** [extractIntelQVLQuotePCKCertChain] of [intel_qvl_pcs.go]; [append([]byte(nil), x...)]
    copies.  [int] has 64 bits, so no sum here overflows. *)
Definition fixedECDSASigDataSize : Z := 64 + 64 + sgxReportBodySize + 64.

Definition extractIntelQVLQuotePCKCertChain (quote : bytes) : res error bytes :=
  if Z.ltb (len quote) sgxQuote3Size then Err (ErrorString "quote is too short")
  else
    v ← go_slice quote 0 quoteHeaderVersionSize;
    let version := le_uint v in
    if negb (Z.eqb version quoteVersion3) && negb (Z.eqb version quoteVersion4)
    then Err (ErrorString "unsupported quote version for PCK chain extraction")
    else
      sl ← go_slice quote 432 436;
      let signatureDataLen := le_uint sl in
      if Z.ltb (len quote) (sgxQuote3Size + signatureDataLen)
      then Err (ErrorString "quote signature data is truncated")
      else if Z.ltb signatureDataLen (fixedECDSASigDataSize + 2 + 6)
      then Err (ErrorString "quote signature data is too short")
      else
        let offset := (sgxQuote3Size + fixedECDSASigDataSize)%Z in
        ads ← go_slice quote offset (offset + 2);
        let authDataSize := le_uint ads in
        let offset := (offset + (2 + authDataSize))%Z in
        if Z.ltb (len quote) (offset + 6)
        then Err (ErrorString "quote certification data is truncated")
        else
          kt ← go_slice quote offset (offset + 2);
          cs ← go_slice quote (offset + 2) (offset + 6);
          let certKeyType := le_uint kt in
          let certDataSize := le_uint cs in
          let offset := (offset + 6)%Z in
          if Z.ltb (len quote) (offset + certDataSize)
          then Err (ErrorString "quote certification data payload is truncated")
          else if negb (Z.eqb certKeyType 5)
          then Err (ErrorString "unsupported quote certification data type")
          else go_slice quote offset (offset + certDataSize).

(** ** intel_qvl_collateral.go: how long collateral may be cached *)

Definition intelQVLCollateralCacheTTL : Z := 7 * 24 * hour.

Definition ValidAt (e : option intelQVLCollateralCacheEntry) (now : Z) : bool :=
  match e with
  | None => false
  | Some e =>
      bool_decide (Collateral e ≠ None) && negb (Z.eqb (ExpiresAt e) zero_time) &&
      Z.ltb now (ExpiresAt e)
  end.

(** The earliest [nextUpdate] of the collateral's four parts.  [ParseRevocationList] gives
    the [NextUpdate] of a CRL, [nextUpdate_field] the [nextUpdate] of a JSON document and
    [time_Parse] is [time.Parse(time.RFC3339, _)]. *)
Section next_update.
Context (ParseRevocationList : bytes → option Z) (nextUpdate_field : bytes → option string).
Context (time_Parse : string → option Z).

Definition intelQVLParseCRLNextUpdate (raw : bytes) : res error (option Z) :=
  match raw with
  | [] => Ok None
  | _ =>
      t ← res_of_option (Wrapped "parse CRL nextUpdate" ErrLib) (ParseRevocationList raw);
      if Z.eqb t zero_time then Ok None else Ok (Some t)
  end.

Definition intelQVLParseJSONNextUpdate (raw : bytes) : res error (option Z) :=
  match raw with
  | [] => Ok None
  | _ =>
      f ← res_of_option (Wrapped "parse JSON nextUpdate" ErrLib) (nextUpdate_field raw);
      if String.eqb (TrimSpace f) "" then Ok None
      else
        t ← res_of_option (Wrapped "parse nextUpdate timestamp" ErrLib) (time_Parse f);
        Ok (Some t)
  end.

(** One turn of the loops over the parts. *)
Definition nearer (nearest : Z) (r : option Z) : Z :=
  match r with
  | Some t => if Z.eqb nearest zero_time || Z.ltb t nearest then t else nearest
  | None => nearest
  end.

Fixpoint nearest_of (parse : bytes → res error (option Z)) (nearest : Z) (parts : list bytes) : res error Z :=
  match parts with
  | [] => Ok nearest
  | raw :: rest =>
      r ← parse raw;
      nearest_of parse (nearer nearest r) rest
  end.

Definition intelQVLQuoteCollateralNextUpdate (c : option QuoteCollateral) : res error (option Z) :=
  match c with
  | None => Err (ErrorString "Intel QVL collateral is nil")
  | Some c =>
      n1 ← nearest_of intelQVLParseCRLNextUpdate zero_time [RootCACRL c; PCKCRL c];
      n2 ← nearest_of intelQVLParseJSONNextUpdate n1 [TCBInfo c; QEIdentity c];
      if Z.eqb n2 zero_time then Ok None else Ok (Some n2)
  end.

Definition intelQVLQuoteCollateralExpiry (c : option QuoteCollateral) (now : Z) : res error Z :=
  let candidate := (now + intelQVLCollateralCacheTTL)%Z in
  r ← intelQVLQuoteCollateralNextUpdate c;
  match r with
  | Some nextUpdate => Ok (if Z.ltb nextUpdate candidate then nextUpdate else candidate)
  | None => Ok candidate
  end.

Definition newIntelQVLCollateralCacheEntry (c : option QuoteCollateral) (now : Z) :
    res error intelQVLCollateralCacheEntry :=
  match c with
  | None => Err (ErrorString "Intel QVL collateral is nil")
  | Some _ =>
      expiresAt ← intelQVLQuoteCollateralExpiry c now;
      Ok (mkCacheEntry expiresAt c)
  end.
End next_update.

(** ** Certificates, FMSPC and the key of the cache *)

Section quote_keys.
Context `{Lib}.

(** The loops of [lastCertificateFromPEM] and [parseIntelQVLQuoteCertificates]: every
    CERTIFICATE block, up to the first that does not decode.  A block is at least one
    byte, so a turn per byte is enough. *)
Fixpoint pem_certificates (fuel : nat) (rest : bytes) (certs : list Certificate) :
    res error (list Certificate) :=
  match rest with
  | [] => Ok certs
  | _ =>
      match pem_Decode rest with
      | None => Ok certs
      | Some (ty, content, remaining) =>
          match fuel with
          | O => OutOfFuel
          | S fuel =>
              if negb (String.eqb ty "CERTIFICATE") then pem_certificates fuel remaining certs
              else
                cert ← res_of_option ErrLib (x509_ParseCertificate content);
                pem_certificates fuel remaining (certs ++ [cert])
          end
      end
  end.

Definition lastCertificateFromPEM (chain : bytes) : res error Certificate :=
  certs ← pem_certificates (length chain) chain [];
  res_of_option (ErrorString "no certificate found in PEM chain") (last certs).

Definition parseIntelQVLQuoteCertificates (certChain : bytes) : res error (list Certificate) :=
  match x509_ParseCertificates certChain with
  | Some (c :: certs) => Ok (c :: certs)
  | _ =>
      certs ← pem_certificates (length certChain) certChain [];
      match certs with
      | [] => Err (ErrorString "no certificates found")
      | _ => Ok certs
      end
  end.

Definition extractIntelQVLQuotePCKCA (quote : bytes) : res error string :=
  certChain ← extractIntelQVLQuotePCKCertChain quote;
  certs ← res_map_err (Wrapped "parse PCK certificate chain") (parseIntelQVLQuoteCertificates certChain);
  match certs with
  | _ :: issuer :: _ =>
      let issuerCN := ToLower (Subject_CommonName issuer) in
      if Contains issuerCN "processor ca" then Ok "processor"
      else if Contains issuerCN "platform ca" then Ok "platform"
      else Err (ErrorString "unsupported PCK CA")
  | _ => Err (ErrorString "PCK certificate chain is incomplete")
  end.

(** The buffer of [intelQVLFMSPCSize] bytes that the native library fills. *)
Definition extractIntelQVLFMSPCNative (quote : bytes) : res error bytes :=
  let '(status, fmspc) := tee_get_fmspc_from_quote quote in
  if negb (Z.eqb status 0) then Err (ErrorString "tee_get_fmspc_from_quote failed")
  else Ok (map fmspc (List.seq 0 intelQVLFMSPCSize)).

Definition extractIntelQVLFMSPC (quote : bytes) : res error bytes :=
  match quote with
  | [] => Err (ErrorString "Intel QVL quote is empty")
  | _ =>
      fmspc ← extractIntelQVLFMSPCNative quote;
      if negb (Nat.eqb (length fmspc) intelQVLFMSPCSize)
      then Err (ErrorString "unexpected Intel QVL FMSPC size")
      else Ok fmspc
  end.

Definition intelQVLCollateralCacheKey (quote : bytes) : res error string :=
  match quote with
  | [] => Err (ErrorString "Intel QVL quote is empty")
  | _ =>
      fmspc ← res_map_err (Wrapped "extract FMSPC for Intel QVL collateral cache key")
                (extractIntelQVLFMSPC quote);
      fmspcKeyValue ← res_map_err (Wrapped "format FMSPC for Intel QVL collateral cache key")
                        (intelQVLFMSPCCacheKeyValue fmspc);
      pckCA ← res_map_err (Wrapped "extract PCK CA for Intel QVL collateral cache key")
                (extractIntelQVLQuotePCKCA quote);
      Ok ("fmspc-" +++ fmspcKeyValue +++ "-pckca-" +++ pckCA)
  end.
End quote_keys.

(** ** The names of results in the log ([intel_qvl_common.go]) *)

(** [%x] of an unsigned number of at most [fuel] hexadecimal digits. *)
Fixpoint format_x (fuel : nat) (n : Z) : string :=
  match fuel with
  | O => ""
  | S fuel =>
      let digit := String (hex_digit (Z.to_N (n mod 16))) EmptyString in
      if Z.eqb (n / 16) 0 then digit else format_x fuel (n / 16) +++ digit
  end.

Definition intelQVLVerificationResultName (verificationResult : Z) : string :=
  if Z.eqb verificationResult intelQVLResultOK then "TEE_QV_RESULT_OK"
  else if Z.eqb verificationResult intelQVLResultConfigNeeded then "TEE_QV_RESULT_CONFIG_NEEDED"
  else if Z.eqb verificationResult intelQVLResultOutOfDate then "TEE_QV_RESULT_OUT_OF_DATE"
  else if Z.eqb verificationResult intelQVLResultOutOfDateConfigNeeded then "TEE_QV_RESULT_OUT_OF_DATE_CONFIG_NEEDED"
  else if Z.eqb verificationResult intelQVLResultInvalidSignature then "TEE_QV_RESULT_INVALID_SIGNATURE"
  else if Z.eqb verificationResult intelQVLResultRevoked then "TEE_QV_RESULT_REVOKED"
  else if Z.eqb verificationResult intelQVLResultUnspecified then "TEE_QV_RESULT_UNSPECIFIED"
  else if Z.eqb verificationResult intelQVLResultSWHardeningNeeded then "TEE_QV_RESULT_SW_HARDENING_NEEDED"
  else if Z.eqb verificationResult intelQVLResultConfigAndSWHardeningNeeded
  then "TEE_QV_RESULT_CONFIG_AND_SW_HARDENING_NEEDED"
  else if Z.eqb verificationResult intelQVLResultTDRelaunchAdvised then "TEE_QV_RESULT_TD_RELAUNCH_ADVISED"
  else if Z.eqb verificationResult intelQVLResultTDRelaunchAdvisedConfigNeeded
  then "TEE_QV_RESULT_TD_RELAUNCH_ADVISED_CONFIG_NEEDED"
  else "TEE_QV_RESULT_UNKNOWN(0x" +++ format_x 8 verificationResult +++ ")".
