(* ===== verification/Collateral.v ===== *)
(** Where the QVL verifier gets collateral from: the client of Intel's Provisioning
    Certification Service ([intel_qvl_pcs.go]), the cache of files
    ([intel_qvl_collateral.go]), and the two together ([IntelQVLVerifier.quoteCollateral]
    of [intel_qvl_verifier.go]). *)

From S2P Require Import Prelude GoText GoUrl Model Db Wire Lib Rats Qvl.

Definition intelQVLDefaultCollateralServiceURL : string :=
  "https://api.trustedservices.intel.com/sgx/certification/v4".
Definition intelQVLPCSHeaderAPIKey : string := "Ocp-Apim-Subscription-Key".
Definition intelQVLPCSHeaderPCKCRL : string := "SGX-PCK-CRL-Issuer-Chain".
Definition intelQVLPCSHeaderTCBInfo : string := "TCB-Info-Issuer-Chain".
Definition intelQVLPCSHeaderQEIDChain : string := "SGX-Enclave-Identity-Issuer-Chain".
Definition intelQVLPCSAPIVersionMajor : Z := 3.
Definition intelQVLPCSCRLVersionMinor : Z := 1.
Definition intelQVLPCSDefaultTimeout : Z := 60 * second.

(** ** The client *)

Record intelQVLPCSClient := mkPCSClient {
  PCS_baseURL : URL;
  PCS_httpClient : HttpClient;
  PCS_subscriptionKey : string;
}.

Definition isIntelQVLIntelPCSURL (u : URL) : bool :=
  let host := ToLower (Hostname u) in
  String.eqb host "trustedservices.intel.com" || HasSuffix host ".trustedservices.intel.com".

Section pcs.
Context `{Platform} `{Lib}.

Definition newIntelQVLPCSClient (cfg : RAConfig) : res error intelQVLPCSClient :=
  let trimmed := TrimSpace (IntelCollateralServiceURL cfg) in
  let baseURL := if String.eqb trimmed "" then intelQVLDefaultCollateralServiceURL else trimmed in
  parsed ← res_of_option (Wrapped "parse Intel PCS URL" ErrLib) (url_Parse baseURL);
  let insecure := String.eqb (URL_Scheme parsed) "https" && IntelCollateralInsecureTLS cfg in
  let timeout := if Z.eqb (RA_Timeout cfg) 0 then intelQVLPCSDefaultTimeout else RA_Timeout cfg in
  Ok (mkPCSClient parsed (mkHttpClient timeout insecure)
        (TrimSpace (IntelCollateralSubscriptionKey cfg))).

Definition pcs_header (c : intelQVLPCSClient) : list (string * string) :=
  if String.eqb (PCS_subscriptionKey c) "" then []
  else [(intelQVLPCSHeaderAPIKey, PCS_subscriptionKey c)].

Definition getAbsolute (c : intelQVLPCSClient) (rawURL : string) : M (bytes * list (string * string)) :=
  req ← lift (NewRequest "GET" rawURL (pcs_header c) []);
  resp ← Do (PCS_httpClient c) req;
  body ← lift (res_of_option ErrLib (Http_ResponseBody resp));
  if negb (Z.eqb (Http_StatusCode resp) 200) then throw (ErrorString "GET returned an unexpected status")
  else mret (body, Http_ResponseHeader resp).

Definition pcs_url (c : intelQVLPCSClient) (endpoint : string) (query : Values) : string :=
  URL_String (with_path_query (Join [URL_Path (PCS_baseURL c); endpoint]) (Values_Encode query)
                (PCS_baseURL c)).

Definition pcs_get (c : intelQVLPCSClient) (endpoint : string) (query : Values) :
    M (bytes * list (string * string)) :=
  getAbsolute c (pcs_url c endpoint query).

Definition decodeIntelPCSHeader (value : string) : res error bytes :=
  if String.eqb (TrimSpace value) "" then Err (ErrorString "required Intel PCS header missing")
  else res_map bytes_of_string (res_of_option ErrLib (QueryUnescape value)).

Definition fetchPCKCRL (c : intelQVLPCSClient) (ca : string) : M (bytes * bytes) :=
  r ← map_err (Wrapped "fetch PCK CRL") (pcs_get c "pckcrl" [("ca", [ca]); ("encoding", ["der"])]);
  issuerChain ← map_err (Wrapped "decode PCK CRL issuer chain")
                  (lift (decodeIntelPCSHeader (Header_Get r.2 intelQVLPCSHeaderPCKCRL)));
  mret (r.1, issuerChain).

Definition fetchTCBInfo (c : intelQVLPCSClient) (fmspc : bytes) : M (bytes * bytes) :=
  fmspcQueryValue ← lift (intelQVLFMSPCQueryValue fmspc);
  r ← map_err (Wrapped "fetch TCB Info") (pcs_get c "tcb" [("fmspc", [fmspcQueryValue])]);
  issuerChain ← map_err (Wrapped "decode TCB Info issuer chain")
                  (lift (decodeIntelPCSHeader (Header_Get r.2 intelQVLPCSHeaderTCBInfo)));
  mret (r.1, issuerChain).

Definition fetchQEIdentity (c : intelQVLPCSClient) : M (bytes * bytes) :=
  r ← map_err (Wrapped "fetch QE Identity") (pcs_get c "qe/identity" []);
  issuerChain ← map_err (Wrapped "decode QE Identity issuer chain")
                  (lift (decodeIntelPCSHeader (Header_Get r.2 intelQVLPCSHeaderQEIDChain)));
  mret (r.1, issuerChain).

Definition rootCACRLURL (c : intelQVLPCSClient) (cdpURL : string) : string :=
  if isIntelQVLIntelPCSURL (PCS_baseURL c) then cdpURL
  else pcs_url c "crl" [("uri", [cdpURL])].

Definition fetchRootCACRL (c : intelQVLPCSClient) (issuerChain : bytes) : M bytes :=
  rootCert ← map_err (Wrapped "parse root CA certificate") (lift (lastCertificateFromPEM issuerChain));
  match CRLDistributionPoints rootCert with
  | [] => throw (ErrorString "root CA certificate CRL distribution point missing")
  | cdp :: _ =>
      r ← map_err (Wrapped "fetch root CA CRL") (getAbsolute c (rootCACRLURL c cdp));
      mret (match pem_Decode r.1 with Some (_, content, _) => content | None => r.1 end)
  end.

Definition Fetch (c : intelQVLPCSClient) (quote : bytes) : M QuoteCollateral :=
  fmspc ← lift (extractIntelQVLFMSPC quote);
  pckCA ← lift (extractIntelQVLQuotePCKCA quote);
  pckCRL ← fetchPCKCRL c pckCA;
  rootCACRL ← fetchRootCACRL c pckCRL.2;
  tcbInfo ← fetchTCBInfo c fmspc;
  qeIdentity ← fetchQEIdentity c;
  mret (mkQuoteCollateral intelQVLPCSAPIVersionMajor intelQVLPCSCRLVersionMinor 0
          pckCRL.2 rootCACRL pckCRL.1 tcbInfo.2 tcbInfo.1 qeIdentity.2 qeIdentity.1).

Definition getIntelQVLQuoteCollateral (pcsClient : option intelQVLPCSClient) (quote : bytes) :
    M (option QuoteCollateral) :=
  match pcsClient with
  | None => throw (ErrorString "Intel PCS client is not configured")
  | Some c => collateral ← Fetch c quote; mret (Some collateral)
  end.

(** ** The cache *)

(** [intelQVLCollateralCache]: its directory; [os.MkdirAll] is the argument [MkdirAll]. *)
Definition newIntelQVLCollateralCache (MkdirAll : string → res error unit) (dir : string) :
    res error (option string) :=
  if String.eqb dir "" then Ok None
  else
    _ ← res_map_err (Wrapped "create Intel QVL collateral cache directory") (MkdirAll dir);
    Ok (Some dir).

Definition marshalIntelQVLQuoteCollateral (collateral : option QuoteCollateral) : res error bytes :=
  match collateral with
  | None => Err (ErrorString "Intel QVL collateral is nil")
  | Some collateral => res_of_option ErrLib (Marshal_collateral collateral)
  end.

Definition unmarshalIntelQVLQuoteCollateral (data : bytes) : res error QuoteCollateral :=
  match data with
  | [] => Err (ErrorString "Intel QVL collateral is empty")
  | _ => res_of_option (Wrapped "decode Intel QVL collateral" ErrLib) (json_collateral data)
  end.

Definition marshalIntelQVLCollateralCacheEntry (entry : option intelQVLCollateralCacheEntry) :
    res error bytes :=
  match entry with
  | None => Err (ErrorString "Intel QVL collateral cache entry is nil")
  | Some entry => res_of_option ErrLib (Marshal_cache_entry entry)
  end.

Definition unmarshalIntelQVLCollateralCacheEntry (data : bytes) : res error intelQVLCollateralCacheEntry :=
  match data with
  | [] => Err (ErrorString "Intel QVL collateral cache entry is empty")
  | _ => res_of_option (Wrapped "decode Intel QVL collateral cache entry" ErrLib) (json_cache_entry data)
  end.

Definition cache_path (dir key : string) : string := Join [dir; key +++ ".bin"].

Definition pathForQuote (dir : string) (quote : bytes) : res error (string * string) :=
  key ← intelQVLCollateralCacheKey quote;
  Ok (cache_path dir key, key).

(** The errors of [os.ReadFile] that are not [os.ErrNotExist] are wrapped. *)
Definition Cache_Get (c : option string) (quote : bytes) : M (option QuoteCollateral) :=
  match c with
  | None => mret None
  | Some dir =>
      pk ← lift (pathForQuote dir quote);
      r ← try (ReadFile pk.1);
      match r with
      | inl [] => throw (ErrorString "Intel QVL collateral cache file is empty")
      | inl collateral =>
          decoded ← map_err (Wrapped "decode Intel QVL collateral cache file")
                      (lift (unmarshalIntelQVLCollateralCacheEntry collateral));
          now ← time_now;
          if negb (ValidAt (Some decoded) now) then
            _ ← try (Remove pk.1);
            mret None
          else mret (Collateral decoded)
      | inr err =>
          if bool_decide (err = ErrNotExist) then mret None
          else throw (Wrapped "read Intel QVL collateral cache file" err)
      end
  end.

Definition new_cache_entry (collateral : option QuoteCollateral) (now : Z) :
    res error intelQVLCollateralCacheEntry :=
  newIntelQVLCollateralCacheEntry x509_ParseRevocationList json_nextUpdate time_Parse_RFC3339 collateral now.

(** From the creation of the temporary file on, [os.Remove(tmpName)] is deferred. *)
Definition Cache_Put (c : option string) (quote : bytes) (collateral : option QuoteCollateral) : M string :=
  match c with
  | None => mret ""
  | Some dir =>
      now ← time_now;
      entry ← lift (new_cache_entry collateral now);
      encoded ← lift (marshalIntelQVLCollateralCacheEntry (Some entry));
      pk ← lift (pathForQuote dir quote);
      tmpName ← map_err (Wrapped "create Intel QVL collateral cache temp file") (CreateTemp dir);
      r ← try (
        _ ← map_err (Wrapped "write Intel QVL collateral cache temp file") (Write_temp tmpName encoded);
        _ ← map_err (Wrapped "chmod Intel QVL collateral cache temp file") Touch_file;
        _ ← map_err (Wrapped "close Intel QVL collateral cache temp file") Touch_file;
        map_err (Wrapped "commit Intel QVL collateral cache file") (Rename tmpName pk.1));
      _ ← try (Remove tmpName);
      match r with
      | inl _ => mret pk.2
      | inr err => throw err
      end
  end.

(** ** The verifier's collateral *)

Record IntelQVLVerifier := mkIntelQVLVerifier {
  collateralCache : option string;
  pcsClient : option intelQVLPCSClient;
}.

(** A failure to store is only logged. *)
Definition quoteCollateral (v : IntelQVLVerifier) (quote : bytes) : M (option QuoteCollateral) :=
  match collateralCache v with
  | Some dir =>
      cached ← Cache_Get (Some dir) quote;
      match cached with
      | Some collateral => mret (Some collateral)
      | None =>
          collateral ← getIntelQVLQuoteCollateral (pcsClient v) quote;
          match collateral with
          | Some _ =>
              _ ← try (Cache_Put (Some dir) quote collateral);
              mret collateral
          | None => mret collateral
          end
      end
  | None => getIntelQVLQuoteCollateral (pcsClient v) quote
  end.
End pcs.
