(* ===== verification/Verifiers.v ===== *)
(** The verifiers and their choice: the Veraison client ([verifier_client.go]), the Intel
    QVL verifier ([intel_qvl_verifier.go]), the interface they implement
    ([iraverifier.go]) and [NewVerifierForBackend] ([backend.go]). *)

From S2P Require Import Prelude GoText GoUrl Model Db Wire Lib Suit Rats Qvl Collateral.

(** ** verifier_client.go *)

Definition challengeNonce : string := "QUp8F0FBs9DpodKK8xUg8NQimf6sQAfe2J1ormzZLxk=".
Definition defaultChallengeTimeout : Z := 60 * second.
Definition defaultChallengeUserAgent : string := "tam4wasm-mock/cha-client".
Definition quoted (s : string) : string :=
  let q := String (Ascii.ascii_of_nat 34) EmptyString in q +++ s +++ q.
Definition defaultChallengeContentType : string :=
  "application/eat+cwt; eat_profile=" +++ quoted "urn:ietf:rfc:rfc9711".
Definition newSessionPath : string := "/challenge-response/v1/newSession".

(** [VerifierClient], without its logger; the timeout is the one of its HTTP client, too. *)
Record VerifierClient := mkVerifierClient {
  Client_baseURL : URL;
  Client_httpClient : HttpClient;
  Client_contentType : string;
}.

Section client.
Context `{Platform} `{Lib}.
Abbreviation PA := (ProcessedAttestation cose_key).

Definition NewVerifierClient (cfg : RAConfig) : res error (option VerifierClient) :=
  if String.eqb (BaseURL cfg) "" then Ok None
  else
    base ← res_of_option (Wrapped "parse challenge server URL" ErrLib) (url_Parse (BaseURL cfg));
    let timeout := if Z.eqb (RA_Timeout cfg) 0 then defaultChallengeTimeout else RA_Timeout cfg in
    let insecure := String.eqb (URL_Scheme base) "https" && InsecureTLS cfg in
    Ok (Some (mkVerifierClient base (mkHttpClient timeout insecure) (ContentType cfg))).

(** The URL of the request that opens a session. *)
Definition new_session_url (v : VerifierClient) : option URL :=
  u ← URL_Parse url_bracketed_host (Client_baseURL v) newSessionPath;
  Some (with_path_query (URL_Path u)
          (Values_Encode (Values_Set "nonce" challengeNonce (ParseQuery (URL_RawQuery u)))) u).

Definition session_header : list (string * string) :=
  [("Accept", "*/*"); ("User-Agent", defaultChallengeUserAgent)].

Definition createSession (v : VerifierClient) : M URL :=
  newSessionURL ← lift (res_of_option (Wrapped "build new session URL" ErrLib) (new_session_url v));
  req ← map_err (Wrapped "create request")
          (lift (NewRequest "POST" (URL_String newSessionURL) session_header []));
  resp ← map_err (Wrapped "perform request") (Do (Client_httpClient v) req);
  if negb (Z.eqb (Http_StatusCode resp) 201) then throw (ErrorString "unexpected session status")
  else
    let location := Header_Get (Http_ResponseHeader resp) "Location" in
    if String.eqb location "" then throw (ErrorString "session response missing Location header")
    else lift (res_of_option (Wrapped "parse session location" ErrLib)
                 (URL_Parse url_bracketed_host newSessionURL location)).

Definition payload_header (v : VerifierClient) : list (string * string) :=
  ("Content-Type", if String.eqb (Client_contentType v) "" then defaultChallengeContentType
                   else Client_contentType v) :: session_header.

Definition submitPayload (v : VerifierClient) (sessionURL : URL) (payload : bytes) : M bytes :=
  req ← map_err (Wrapped "create payload request")
          (lift (NewRequest "POST" (URL_String sessionURL) (payload_header v) payload));
  resp ← map_err (Wrapped "perform payload request") (Do (Client_httpClient v) req);
  if Z.ltb (Http_StatusCode resp) 200 || Z.leb 300 (Http_StatusCode resp)
  then throw (ErrorString "unexpected evidence status")
  else lift (res_of_option (Wrapped "read response body" ErrLib) (Http_ResponseBody resp)).

(** [v.timeout] of a nil [*VerifierClient] is a nil dereference. *)
Definition VerifierClient_Process (v : option VerifierClient) (payload : bytes) : M PA :=
  match payload with
  | [] => throw (ErrorString "refusing to submit empty payload")
  | _ =>
      match v with
      | None => panic
      | Some v =>
          sessionURL ← map_err (Wrapped "create challenge session") (createSession v);
          responseBody ← map_err (Wrapped "submit evidence") (submitPayload v sessionURL payload);
          lift (res_map_err (Wrapped "decode attestation response") (DecodeAttestationResponse responseBody))
      end
  end.

Definition extractSessionID (u : option URL) : string :=
  match u with
  | None => ""
  | Some u =>
      if String.eqb (URL_Path u) "" then ""
      else default "" (last (Split 47 (Trim 47 (URL_Path u))))
  end.
End client.

(** ** intel_qvl_verifier.go *)

Section process.
Context `{Platform} `{Lib}.
Abbreviation PA := (ProcessedAttestation cose_key).

(** [os.MkdirAll] is the argument [MkdirAll]. *)
Definition NewIntelQVLVerifier (MkdirAll : string → res error unit) (cfg : RAConfig) :
    res error IntelQVLVerifier :=
  if intel_qvl_build then
    cache ← newIntelQVLCollateralCache MkdirAll (IntelCollateralCacheDir cfg);
    client ← newIntelQVLPCSClient cfg;
    Ok (mkIntelQVLVerifier cache (Some client))
  else Err (ErrorString "intel-qvl verifier backend requires build tag `intel_qvl` with cgo enabled").

Definition bytesWithTerminatingNUL (data : bytes) : bytes :=
  match data with
  | [] => []
  | _ => if bool_decide (last data = Some Byte.x00) then data else data ++ [Byte.x00]
  end.

Definition intelQVLCRLBytesForNative (majorVersion minorVersion : Z) (data : bytes) : bytes :=
  if Z.eqb majorVersion 3 && Z.eqb minorVersion 1 then data else bytesWithTerminatingNUL data.

(** The C functions of the file.  A result struct is what the caller's is left with. *)
Record attestam_qvl_result_t := mkQvlResult {
  collateral_expiration_status : Z;
  verification_result : Z;
  supplemental_data_size : Z;
  dcap_status : Z;
}.

(** The supplemental data that [attestam_qvl_verify_quote] offers: NULL, or a block. *)
Definition supplemental_data (quote : CBuffer) : option Z :=
  let '(status, data_size) := tee_get_supplemental_data_version_and_size quote in
  if Z.eqb status 0 && Z.ltb 0 data_size then
    if calloc_fails data_size then None else Some data_size
  else None.

Definition attestam_qvl_verify_quote (quote : CBuffer) (quote_collateral : sgx_ql_qve_collateral_t)
    (current_time : Z) : Z * attestam_qvl_result_t :=
  let supp_data := supplemental_data quote in
  let '(status, expiration, verification) :=
    tee_verify_quote quote quote_collateral current_time supp_data in
  (status, mkQvlResult (default 1%Z expiration) (default TEE_QV_RESULT_UNSPECIFIED verification)
             (default 0%Z supp_data) status).

Definition attestam_qvl_verify_quote_with_collateral_fields (quote : CBuffer)
    (collateral_major_version collateral_minor_version collateral_tee_type : Z)
    (pck_crl_issuer_chain root_ca_crl pck_crl tcb_info_issuer_chain tcb_info
     qe_identity_issuer_chain qe_identity : CBuffer) (current_time : Z) : Z * attestam_qvl_result_t :=
  attestam_qvl_verify_quote quote
    (mkQveCollateral collateral_major_version collateral_minor_version collateral_tee_type
       pck_crl_issuer_chain root_ca_crl pck_crl tcb_info_issuer_chain tcb_info
       qe_identity_issuer_chain qe_identity) current_time.

Definition cBytesOrNil (data : bytes) : option bytes :=
  match data with [] => None | _ => Some data end.

(** [cBytesOrNil(data)] with [C.uint32_t(len(data))], as they are passed together. *)
Definition native_buffer (data : bytes) : CBuffer :=
  mkCBuffer (cBytesOrNil data) (len data `mod` 2 ^ 32)%Z.

(** [C.CBytes(payload)] with [C.uint32_t(quoteSize)]. *)
Definition native_quote (quote : bytes) : CBuffer :=
  mkCBuffer (Some quote) (len quote `mod` 2 ^ 32)%Z.

(** What [verifyIntelQVLQuote] does with collateral, at a time in seconds. *)
Definition native_verdict (quote : bytes) (c : QuoteCollateral) (now : Z) : Z * intelQVLNativeResult :=
  let pckCRLIssuerChain := bytesWithTerminatingNUL (PCKCRLIssuerChain c) in
  let rootCACRL := intelQVLCRLBytesForNative (MajorVersion c) (MinorVersion c) (RootCACRL c) in
  let pckCRL := intelQVLCRLBytesForNative (MajorVersion c) (MinorVersion c) (PCKCRL c) in
  let tcbInfoIssuerChain := bytesWithTerminatingNUL (TCBInfoIssuerChain c) in
  let tcbInfo := bytesWithTerminatingNUL (TCBInfo c) in
  let qeIdentityIssuerChain := bytesWithTerminatingNUL (QEIdentityIssuerChain c) in
  let qeIdentity := bytesWithTerminatingNUL (QEIdentity c) in
  let '(status, nativeResult) :=
    attestam_qvl_verify_quote_with_collateral_fields (native_quote quote)
      (MajorVersion c) (MinorVersion c) (TEEType c)
      (native_buffer pckCRLIssuerChain) (native_buffer rootCACRL) (native_buffer pckCRL)
      (native_buffer tcbInfoIssuerChain) (native_buffer tcbInfo)
      (native_buffer qeIdentityIssuerChain) (native_buffer qeIdentity) now in
  (status, mkNativeResult (collateral_expiration_status nativeResult) (verification_result nativeResult)
             (supplemental_data_size nativeResult) (dcap_status nativeResult)).

Definition verifyIntelQVLQuote (quote : bytes) (c : option QuoteCollateral) :
    M (Z * intelQVLNativeResult) :=
  match c with
  | None => mret (TEE_ERROR_INVALID_PARAMETER,
                  mkNativeResult 0 0 0 TEE_ERROR_INVALID_PARAMETER)
  | Some c =>
      now ← time_now;
      mret (native_verdict quote c (now / second)%Z)
  end.

Definition IntelQVLVerifier_Process (v : IntelQVLVerifier) (payload : bytes) : M PA :=
  match payload with
  | [] => throw (ErrorString "intel-qvl quote is empty")
  | _ =>
      collateral ← quoteCollateral v payload;
      r ← verifyIntelQVLQuote payload collateral;
      let '(status, nativeResult) := r in
      if negb (Z.eqb status 0) then throw (ErrorString "tee_verify_quote failed")
      else
        let ok := isIntelQVLResultAffirmingValue (verificationResult nativeResult)
                    (collateralExpirationStatus nativeResult) in
        mret (mkProcessedAttestation None "" "" "" VerifierBackendIntelQVL (resultToEarStatus ok)
                false None None None "" None)
  end.

(** ** The interface *)

(** A value of the interface type [IRAVerifier].  A nil [*VerifierClient] stored in the
    interface is [Client None], which is not the nil interface.  [Supplied] is an
    implementation the caller of [NewTAM] provides. *)
Inductive IRAVerifier :=
  | NilVerifier
  | Client (c : option VerifierClient)
  | IntelQVL (v : IntelQVLVerifier)
  | Supplied (process : bytes → nat → res error PA).

Definition is_nil_interface (v : IRAVerifier) : bool :=
  match v with NilVerifier => true | _ => false end.

(** [return NewVerifierClient(cfg)] converts the pointer to the interface. *)
Definition NewVerifierForBackend (MkdirAll : string → res error unit) (backend : string) (cfg : RAConfig) :
    res error IRAVerifier :=
  let lower := ToLower backend in
  if String.eqb lower VerifierBackendVeraison then
    client ← NewVerifierClient cfg;
    Ok (Client client)
  else if String.eqb lower VerifierBackendIntelQVL then
    v ← NewIntelQVLVerifier MkdirAll cfg;
    Ok (IntelQVL v)
  else Err (ErrorString "unsupported verifier backend").

Definition NewVerifier_ (MkdirAll : string → res error unit) (cfg : RAConfig) : res error IRAVerifier :=
  NewVerifierForBackend MkdirAll (verifierBackendFromPayloadFormat (RA_Backend cfg)) cfg.

(** The dynamic dispatch of [verifier.Process(payload)]. *)
Definition IRAVerifier_Process (v : IRAVerifier) (payload : bytes) : M PA :=
  match v with
  | NilVerifier => panic
  | Client c => VerifierClient_Process c payload
  | IntelQVL v => IntelQVLVerifier_Process v payload
  | Supplied process => atomically (λ w, (process payload (w_net w), tick_net w))
  end.
End process.
