(* ===== verification/Demo.v ===== *)
(** The demo data: [internal/demo/demo.go] and [keys.go].  In insecure demo mode the server
    seeds its database with them every time it starts. *)

From S2P Require Import Prelude GoText Model Db Evolve AgentRepo ManifestRepo StatusRepo Lib.

(** ** keys.go *)

Definition DemoTAMPrivateKeyCBOR : bytes :=
  bs [0xa6; 0x01; 0x02; 0x03; 0x28; 0x20; 0x01; 0x21; 0x58; 0x20; 0x0e; 0x90; 0x8a; 0xa8;
    0xf0; 0x66; 0xdb; 0x1f; 0x08; 0x4e; 0x0c; 0x36; 0x52; 0xc6; 0x39; 0x52; 0xbd; 0x99;
    0xf2; 0xa5; 0xbd; 0xb2; 0x2f; 0x9e; 0x01; 0x36; 0x7a; 0xad; 0x03; 0xab; 0xa6; 0x8b;
    0x22; 0x58; 0x20; 0x77; 0xda; 0x1b; 0xd8; 0xac; 0x4f; 0x0c; 0xb4; 0x90; 0xba; 0x21;
    0x06; 0x48; 0xbf; 0x79; 0xab; 0x16; 0x4d; 0x49; 0xad; 0x35; 0x51; 0xd7; 0x1d; 0x31;
    0x4b; 0x27; 0x49; 0xee; 0x42; 0xd2; 0x9a; 0x23; 0x58; 0x20; 0x84; 0x1a; 0xeb; 0xb7;
    0xb9; 0xea; 0x6f; 0x02; 0x60; 0xbe; 0x73; 0x55; 0xa2; 0x45; 0x88; 0xb9; 0x77; 0xd2;
    0x3d; 0x2a; 0xc5; 0xbf; 0x2b; 0x6b; 0x2d; 0x83; 0x79; 0x43; 0x2a; 0x1f; 0xea; 0x98]%Z.

(** ** demo.go *)

Definition DefaultTAMAdminName : string := "admin@example.com".
Definition DefaultDeveloperName : string := "developer1@example.com".
Definition DefaultDeviceAdminName : string := "dev-admin1@example.com".

Definition TrustedComponentHelloText : bytes :=
  bs [0x81; 0x49; 0x68; 0x65; 0x6c; 0x6c; 0x6f; 0x2e; 0x74; 0x78; 0x74]%Z.

Definition DefaultDeviceUEID : bytes := bs [0x01]%Z ++ bytes_of_string "building-dev-123".

Definition DefaultAgentKID : bytes :=
  bs [0x76; 0xe9; 0xa6; 0xcb; 0xeb; 0x5e; 0x7a; 0x9f; 0x9a; 0x81; 0xe9; 0xed; 0xfa; 0x48;
    0x9d; 0xfa; 0x87; 0xfe; 0x6e; 0xe8; 0xa5; 0x76; 0x29; 0xe0; 0xf9; 0xd7; 0xaf; 0xfb;
    0x5d; 0xb7; 0xfb; 0x4d]%Z.

Definition DefaultTrustedAgentKey : bytes :=
  bs [0xa6; 0x01; 0x02; 0x03; 0x28; 0x20; 0x01; 0x21; 0x58; 0x20; 0xbe; 0x7c; 0x56; 0x99;
    0x3f; 0x71; 0x11; 0x45; 0x34; 0xc2; 0xf4; 0xa4; 0xf4; 0xe4; 0x60; 0x67; 0x84; 0xfa;
    0x9d; 0x96; 0x35; 0xe1; 0x22; 0xbc; 0x8a; 0x49; 0x0b; 0x2e; 0x11; 0xfe; 0xb9; 0x32;
    0x22; 0x58; 0x20; 0x81; 0x69; 0x6b; 0x42; 0xc3; 0xbe; 0x1b; 0x24; 0x4c; 0xc0; 0x3b;
    0xca; 0x97; 0xf0; 0xce; 0x75; 0xe2; 0xd9; 0x3a; 0xda; 0x1c; 0xe5; 0x56; 0x62; 0x92;
    0x27; 0xf1; 0x0a; 0x8c; 0x2c; 0x5b; 0x29; 0x23; 0x58; 0x20; 0xa1; 0x3d; 0x1c; 0x9f;
    0x42; 0x78; 0x04; 0x70; 0x82; 0xc4; 0xa4; 0x06; 0xef; 0x33; 0xa9; 0xae; 0xd2; 0xda;
    0x01; 0x05; 0x87; 0xa3; 0x75; 0x1e; 0xab; 0xaa; 0x0b; 0x6b; 0xa0; 0x12; 0x63; 0xe3]%Z.

Definition HelloTextManifestV0 : bytes :=
  bs [0xd8; 0x6b; 0xa3; 0x02; 0x58; 0x96; 0x82; 0x58; 0x24; 0x82; 0x2f; 0x58; 0x20; 0x43;
    0x13; 0x16; 0x04; 0x84; 0x18; 0x2f; 0x04; 0x11; 0x97; 0xf6; 0x95; 0xa4; 0x12; 0xb7;
    0xc5; 0x91; 0xcb; 0x11; 0x2c; 0xca; 0xaa; 0x5d; 0x60; 0xc0; 0x32; 0x85; 0xef; 0x7e;
    0x20; 0xfc; 0xb0; 0x58; 0x6d; 0xd2; 0x84; 0x43; 0xa1; 0x01; 0x28; 0xa1; 0x04; 0x58;
    0x20; 0xca; 0x9e; 0x35; 0xf2; 0x3b; 0x2b; 0x52; 0x5f; 0xb4; 0xfc; 0x83; 0xf5; 0x12;
    0xb0; 0xdc; 0xac; 0x4a; 0xc2; 0x9e; 0x45; 0x7e; 0x87; 0x3a; 0x5d; 0x6a; 0x73; 0x13;
    0xf7; 0x16; 0x90; 0xb3; 0x3c; 0xf6; 0x58; 0x40; 0x10; 0xab; 0x19; 0x47; 0x96; 0x8d;
    0x60; 0x6e; 0x98; 0xb3; 0xd2; 0x26; 0x75; 0xe5; 0x9c; 0x71; 0x62; 0x44; 0x27; 0x27;
    0x5f; 0xcd; 0x98; 0xcc; 0xa1; 0x54; 0x14; 0x4d; 0x0f; 0x51; 0xff; 0x52; 0xfb; 0xd9;
    0x58; 0xbe; 0xbc; 0xc3; 0x30; 0xd0; 0xcf; 0xb2; 0xb6; 0x05; 0x31; 0xfa; 0x7a; 0x46;
    0x2b; 0x57; 0x76; 0xda; 0x1e; 0xc1; 0xde; 0x94; 0xf9; 0xe1; 0x38; 0x31; 0x5d; 0xd2;
    0x54; 0x19; 0x03; 0x58; 0x99; 0xa5; 0x01; 0x01; 0x02; 0x00; 0x03; 0x58; 0x65; 0xa2;
    0x02; 0x81; 0x81; 0x49; 0x68; 0x65; 0x6c; 0x6c; 0x6f; 0x2e; 0x74; 0x78; 0x74; 0x04;
    0x58; 0x54; 0x86; 0x14; 0xa4; 0x01; 0x50; 0xfa; 0x6b; 0x4a; 0x53; 0xd5; 0xad; 0x5f;
    0xdf; 0xbe; 0x9d; 0xe6; 0x63; 0xe4; 0xd4; 0x1f; 0xfe; 0x02; 0x50; 0x14; 0x92; 0xaf;
    0x14; 0x25; 0x69; 0x5e; 0x48; 0xbf; 0x42; 0x9b; 0x2d; 0x51; 0xf2; 0xab; 0x45; 0x03;
    0x58; 0x24; 0x82; 0x2f; 0x58; 0x20; 0xdf; 0xfd; 0x60; 0x21; 0xbb; 0x2b; 0xd5; 0xb0;
    0xaf; 0x67; 0x62; 0x90; 0x80; 0x9e; 0xc3; 0xa5; 0x31; 0x91; 0xdd; 0x81; 0xc7; 0xf7;
    0x0a; 0x4b; 0x28; 0x68; 0x8a; 0x36; 0x21; 0x82; 0x98; 0x6f; 0x0e; 0x0d; 0x01; 0x0f;
    0x02; 0x0f; 0x05; 0x81; 0x54; 0x6d; 0x61; 0x6e; 0x69; 0x66; 0x65; 0x73; 0x74; 0x2e;
    0x74; 0x65; 0x78; 0x74; 0x2e; 0x30; 0x2e; 0x73; 0x75; 0x69; 0x74; 0x10; 0x53; 0x86;
    0x14; 0xa1; 0x15; 0x6a; 0x23; 0x68; 0x65; 0x6c; 0x6c; 0x6f; 0x2e; 0x74; 0x78; 0x74;
    0x15; 0x02; 0x03; 0x0f; 0x6a; 0x23; 0x68; 0x65; 0x6c; 0x6c; 0x6f; 0x2e; 0x74; 0x78;
    0x74; 0x4d; 0x48; 0x65; 0x6c; 0x6c; 0x6f; 0x2c; 0x20; 0x57; 0x6f; 0x72; 0x6c; 0x64; 0x21]%Z.

Definition HelloTextManifestDigest : bytes :=
  bs [0x82; 0x2f; 0x58; 0x20; 0x43; 0x13; 0x16; 0x04; 0x84; 0x18; 0x2f; 0x04; 0x11; 0x97;
    0xf6; 0x95; 0xa4; 0x12; 0xb7; 0xc5; 0x91; 0xcb; 0x11; 0x2c; 0xca; 0xaa; 0x5d; 0x60;
    0xc0; 0x32; 0x85; 0xef; 0x7e; 0x20; 0xfc; 0xb0]%Z.

Record SeedRefs := mkSeedRefs {
  AdminID : Z;
  DeveloperID : Z;
  DeveloperSigningKeyID : Z;
  DeviceAdminID : Z;
}.

Section demo.
Context `{Platform} `{Lib}.

(** [TrustedAgentKeyKID] *)
Definition TrustedAgentKeyKID : res error bytes :=
  key ← res_of_option (Wrapped "decode demo trusted agent key" ErrLib) (cbor_key DefaultTrustedAgentKey);
  res_of_option (Wrapped "derive demo trusted agent key kid" ErrLib) (key_Thumbprint key).

(** [ensureEntity] *)
Definition ensureEntity (entity : Entity) : M Z :=
  existing ← EntityRepository_FindByName (Entity_Name entity);
  match existing with
  | Some e => mret (Entity_ID e)
  | None => EntityRepository_Create entity
  end.

Definition ensureManifestSigningKey (key : ManifestSigningKey) : M Z :=
  existing ← ManifestSigningKeyRepository_FindByKID (ManifestSigningKey_KID key);
  match existing with
  | Some k => mret (ManifestSigningKey_ID k)
  | None => ManifestSigningKeyRepository_Create key
  end.

(** The public key of the demo's TC Developer. *)
Definition developer_key_x : bytes :=
  bs [0x84; 0x96; 0x81; 0x1a; 0xae; 0x0b; 0xaa; 0xab; 0xd2; 0x61; 0x57; 0x18; 0x9e; 0xec;
    0xda; 0x26; 0xbe; 0xaa; 0x8b; 0xf1; 0x1b; 0x6f; 0x3f; 0xe6; 0xe2; 0xb5; 0x65; 0x9c;
    0x85; 0xdb; 0xc0; 0xad]%Z.
Definition developer_key_y : bytes :=
  bs [0x3b; 0x1f; 0x2a; 0x4b; 0x6c; 0x09; 0x81; 0x31; 0xc0; 0xa3; 0x6d; 0xac; 0xd1; 0xd7;
    0x8b; 0xd3; 0x81; 0xdc; 0xdf; 0xb0; 0x9c; 0x05; 0x2d; 0xb3; 0x39; 0x91; 0xdb; 0x73;
    0x38; 0xb4; 0xa8; 0x96]%Z.

Definition defaultDeveloperManifestKey : res error ManifestSigningKey :=
  let developerKey := cose_Key_EC2 AlgorithmESP256 CurveP256 developer_key_x developer_key_y in
  kid ← res_of_option (Wrapped "derive demo developer key kid" ErrLib) (key_Thumbprint developerKey);
  encodedKey ← res_of_option (Wrapped "encode demo developer key" ErrLib) (Marshal_key developerKey);
  Ok (mkManifestSigningKey 0 kid 0 encodedKey zero_time zero_time).

Definition SeedEntities : M SeedRefs :=
  created ← time_now;
  adminID ← map_err (Wrapped "seed demo tam admin")
              (ensureEntity (mkEntity 0 DefaultTAMAdminName true false false created));
  _ ← map_err (Wrapped "seed demo tam admin key")
        (ensureManifestSigningKey
           (mkManifestSigningKey 0 (bytes_of_string "key-1") adminID (bytes_of_string "pub-key-1")
              zero_time zero_time));
  created ← time_now;
  developerID ← map_err (Wrapped "seed demo developer")
                  (ensureEntity (mkEntity 0 DefaultDeveloperName false true false created));
  developerKey ← lift defaultDeveloperManifestKey;
  developerSigningKeyID ← map_err (Wrapped "seed demo developer key")
    (ensureManifestSigningKey
       (mkManifestSigningKey 0 (ManifestSigningKey_KID developerKey) developerID
          (ManifestSigningKey_PublicKey developerKey) zero_time zero_time));
  created ← time_now;
  deviceAdminID ← map_err (Wrapped "seed demo device admin")
                    (ensureEntity (mkEntity 0 DefaultDeviceAdminName false false true created));
  mret (mkSeedRefs adminID developerID developerSigningKeyID deviceAdminID).

Definition SeedHelloTextManifest (signingKeyID : Z) : M unit :=
  m ← map_err (Wrapped "find demo hello.txt manifest")
        (SuitManifestRepository_FindLatestByTrustedComponentID TrustedComponentHelloText);
  if bool_decide (fmap (M:=option) SuitManifest_SequenceNumber m = Some 0%Z) then mret tt
  else
    _ ← map_err (Wrapped "create demo hello.txt manifest")
          (SuitManifestRepository_Create
             (mkSuitManifest 0 HelloTextManifestV0 HelloTextManifestDigest signingKeyID
                TrustedComponentHelloText 0 zero_time));
    mret tt.

(** A lookup whose [domain.ErrNotFound] is a nil pointer to the caller. *)
Definition nil_if_not_found {A} (wrap : error → error) (m : M A) : M (option A) :=
  r ← try m;
  match r with
  | inl x => mret (Some x)
  | inr err => if errors_Is err ErrNotFound then mret None else throw (wrap err)
  end.

Definition SeedAgentScenario (deviceAdminID : Z) (withStatus : bool) : M unit :=
  t ← time_now;
  let now := (t / second * second)%Z in
  device ← nil_if_not_found (Wrapped "find demo device") (DeviceRepository_FindByUEID DefaultDeviceUEID);
  deviceID ← match device with
             | Some device => mret (Device_ID device)
             | None => map_err (Wrapped "create demo device")
                         (DeviceRepository_Create (mkDevice 0 DefaultDeviceUEID deviceAdminID now))
             end;
  agent ← nil_if_not_found (Wrapped "find demo agent") (AgentRepository_FindByKID DefaultAgentKID);
  _ ← match agent with
      | Some _ => mret 0%Z
      | None => map_err (Wrapped "create demo agent")
                  (AgentRepository_Create
                     (mkAgent 0 DefaultAgentKID (Some deviceID) now (now + 30 * 365 * 24 * hour)%Z None
                        (bytes_of_string "pk")))
      end;
  if negb withStatus then mret tt
  else
    agentStatus ← map_err (Wrapped "find demo agent status")
                    (AgentStatusRepository_GetAgentStatus DefaultAgentKID);
    match agentStatus with
    | Some (mkAgentStatus _ _ (_ :: _) _) => mret tt
    | _ => map_err (Wrapped "create demo agent status")
             (AgentStatusRepository_ReflectManifestSuccess DefaultAgentKID
                (Some HelloTextManifestDigest) (bytes_of_string "report1"))
    end.
End demo.
