(* ===== verification/Tam.v ===== *)
(** The TAM: [internal/tam/tam.go], [keyring.go], [agent_status.go],
    [manifest_repository_flow.go] and [sgx_quote_bundle.go]. *)

From S2P Require Import Prelude GoText Model Db Evolve OneTime AgentRepo ManifestRepo SentRepo.
From S2P Require Import StatusRepo Wire Lib Suit Teep Rats Qvl Collateral Verifiers Demo.

(** ** sgx_quote_bundle.go *)

Definition sgxRawReportDataEC2XOffset : Z := 0.
Definition sgxRawReportDataEC2YOffset : Z := 32.
Definition sgxRawReportDataEC2Size : Z := 64.

Section sgx.
Context `{Lib}.
Abbreviation PA := (ProcessedAttestation cose_key).

Definition decodeSGXQuote3TEEPBundle (payload : bytes) : res error sgxQuote3TEEPBundle :=
  match payload with
  | [] => Err (ErrorString "attestation payload is empty")
  | _ =>
      d ← res_of_option (Wrapped "decode SGX Quote3 TEEP bundle" ErrLib) (cbor_bundle payload);
      let '(quote, raw) := d in
      match slice quote with
      | [] => Err (ErrorString "SGX Quote3 TEEP bundle missing quote")
      | quote =>
          match slice raw with
          | [] => Err (ErrorString "SGX Quote3 TEEP bundle missing raw-report-data")
          | raw => Ok (mkBundle quote raw)
          end
      end
  end.

(** The expected report data: the SHA-384 sum, padded to 64 bytes with zeros. *)
Definition expected_report_data (rawReportData : bytes) : bytes :=
  let sum := sha384 rawReportData in
  take 64 sum ++ replicate (64 - length sum) Byte.x00.

Definition verifySGXQuoteReportDataBinding (quote rawReportData : bytes) : res error unit :=
  match rawReportData with
  | [] => Err (ErrorString "raw-report-data is empty")
  | _ =>
      actual ← extractQuoteReportData quote;
      if eqb_bytes actual (expected_report_data rawReportData) then Ok tt
      else Err (ErrorString "quote report_data SHA-384 binding mismatch")
  end.

Definition populateAttestedKeyFromSGXRawReportData (result : PA) (raw : bytes) : res error PA :=
  if Z.ltb (len raw) sgxRawReportDataEC2Size
  then Err (ErrorString "raw-report-data too short for EC2 key")
  else
    x ← go_slice raw sgxRawReportDataEC2XOffset sgxRawReportDataEC2YOffset;
    y ← go_slice raw sgxRawReportDataEC2YOffset sgxRawReportDataEC2Size;
    key ← res_of_option (Wrapped "build attested EC2 key" ErrLib) (NewKeyEC2 AlgorithmESP256 x y);
    nonce ← (if Z.ltb sgxRawReportDataEC2Size (len raw)
             then n ← go_slice raw sgxRawReportDataEC2Size (len raw); Ok (Some n)
             else Ok (AttestationNonce result));
    Ok (mkProcessedAttestation (PA_Response result) (EvidencePretty result) (JWTHeaderPretty result)
          (JWTPayloadPretty result) (PA_Backend result) (EarStatus result) (SendUpdate result)
          nonce (AttestationUEID result) (Some key) (updateArtifactPath result)
          (updateSelectionErr result)).

Definition populateAttestedClaimsFromSGXRawReportData (result : PA) (raw : bytes) : res error PA :=
  match raw with
  | [] => Err (ErrorString "raw-report-data is required for SGX attestation")
  | _ => res_map_err (Wrapped "extract attested claims from raw-report-data")
           (populateAttestedKeyFromSGXRawReportData result raw)
  end.
End sgx.

(** ** The TAM *)

Section tam.
Context `{Platform} `{Lib}.
Abbreviation PA := (ProcessedAttestation cose_key).

(** [resolveVerifier] is the closure of [newVerifierResolver] over this configuration. *)
Record TAM := mkTAM {
  TAM_verifier : IRAVerifier;
  TAM_resolveVerifier : option RAConfig;
  tamKey : cose_key;
}.

Definition newTAMFromKeyBytes (keyBytes : bytes) (v : IRAVerifier) (resolver : option RAConfig) :
    res error TAM :=
  key ← res_of_option (ErrorString "failed to load TAM's private key") (cbor_key keyBytes);
  Ok (mkTAM v resolver key).

Definition NewTAMFromKeyBytes (keyBytes : bytes) (v : IRAVerifier) : res error TAM :=
  newTAMFromKeyBytes keyBytes v None.

Definition NewTAMFromKeyBytesWithRAConfig (keyBytes : bytes) (raCfg : RAConfig) : res error TAM :=
  newTAMFromKeyBytes keyBytes NilVerifier (Some raCfg).

Definition NewTAM (path : string) (v : IRAVerifier) : M TAM :=
  if String.eqb path "" then throw (ErrorString "tam private key path is required")
  else
    keyBytes ← map_err (Wrapped "failed to read TAM private key") (ReadFile path);
    lift (NewTAMFromKeyBytes keyBytes v).

Definition NewTAMWithRAConfig (path : string) (raCfg : RAConfig) : M TAM :=
  if String.eqb path "" then throw (ErrorString "tam private key path is required")
  else
    keyBytes ← map_err (Wrapped "failed to read TAM private key") (ReadFile path);
    lift (NewTAMFromKeyBytesWithRAConfig keyBytes raCfg).

Definition NewDemoTAM (v : IRAVerifier) : res error TAM :=
  NewTAMFromKeyBytes DemoTAMPrivateKeyCBOR v.

Definition NewDemoTAMWithRAConfig (raCfg : RAConfig) : res error TAM :=
  NewTAMFromKeyBytesWithRAConfig DemoTAMPrivateKeyCBOR raCfg.

(** *** keyring.go *)

Definition setTEEPAgentKey (key : option cose_key) (ueid : option bytes) : M unit :=
  match key with
  | None => throw (ErrorString "public key is nil")
  | Some key =>
      match key_Thumbprint key with
      | Some kid =>
          if negb (Nat.eqb (length kid) 32) then mret tt
          else
            pubKeyBytes ← lift (decoded (Marshal_key key));
            existing ← AgentRepository_FindByKIDIgnoreRevoked kid;
            match existing with
            | Some _ => mret tt
            | None =>
                deviceID ← match ueid with
                           | None => mret None
                           | Some u =>
                               r ← try (DeviceRepository_FindByUEID u);
                               match r with
                               | inl device => mret (Some (Device_ID device))
                               | inr _ => mret None
                               end
                           end;
                t ← time_now;
                let now := (t / second * second)%Z in
                _ ← AgentRepository_Create
                      (mkAgent 0 kid deviceID now (now + 365 * 24 * hour)%Z None pubKeyBytes);
                mret tt
            end
      | None => mret tt
      end
  end.

Definition getTEEPAgentKey (kid : bytes) : M cose_key :=
  if negb (Nat.eqb (length kid) 32)
  then throw (ErrorString "invalid key length (expected: 32)")
  else
    key ← AgentRepository_FindByKID kid;
    lift (decoded (cbor_key (Agent_PublicKey key))).

Definition revokeTEEPAgentKey (kid : bytes) : M unit :=
  if negb (Nat.eqb (length kid) 32)
  then throw (ErrorString "invalid key length (expected: 32)")
  else AgentRepository_RevokeByKID kid.

Definition GetEntityKey (kid : bytes) : M (option cose_key) :=
  if negb (Nat.eqb (length kid) 32)
  then throw (ErrorString "invalid key length (expected: 32)")
  else
    key ← ManifestSigningKeyRepository_FindByKID kid;
    match key with
    | None => mret None
    | Some key =>
        k ← lift (decoded (cbor_key (ManifestSigningKey_PublicKey key)));
        mret (Some k)
    end.

(** *** Tokens and challenges *)

Definition generateToken : M (option bytes) :=
  r ← try TokenRepository_GenerateUniqueToken;
  match r with inl token => mret (Some token) | inr _ => mret None end.

Definition generateChallenge : M (option bytes) :=
  r ← try ChallengeRepository_GenerateUniqueChallenge;
  match r with inl challenge => mret (Some challenge) | inr _ => mret None end.

(** What is rebuilt of a message the TAM sent. *)
Definition sent_query_request (token challenge : option bytes) (m : SentQueryRequestMessage) : TEEPMessage :=
  mkTEEPMessage TEEPTypeQueryRequest
    (mkTEEPOptions None challenge None None None None None None None None None None None None None
       token None None None)
    None None
    (RequestDataItem (AttestationRequested_sent m) (TCListRequested_sent m) false false) 0.

Definition sent_update (token : bytes) (manifests : list SuitManifest) : TEEPMessage :=
  mkTEEPMessage TEEPTypeUpdate
    (mkTEEPOptions None None None None None None None None
       (match manifests with [] => None | _ => Some (map SuitManifest_Manifest manifests) end)
       None None None None None None (Some token) None None None)
    None None 0 0.

Definition searchSentMessageWithChallenge (challenge : option bytes) : M (option TEEPMessage) :=
  match challenge with
  | None => mret None
  | Some challenge =>
      r ← try (ChallengeRepository_MarkConsumed challenge);
      match r with
      | inr _ => mret None
      | inl _ =>
          r ← try (SentQueryRequestMessageRepository_FindByChallenge challenge);
          match r with
          | inl (Some q) => mret (Some (sent_query_request None (Some challenge) (WithChallenge_Message q)))
          | _ => mret None
          end
      end
  end.

Definition searchSentMessageWithToken (token : option bytes) : M (option TEEPMessage) :=
  match token with
  | None => mret None
  | Some token =>
      r ← try (TokenRepository_MarkConsumed token);
      match r with
      | inr _ => mret None
      | inl _ =>
          r ← try (SentQueryRequestMessageRepository_FindByToken token);
          match r with
          | inr _ => mret None
          | inl (Some q) => mret (Some (sent_query_request (Some token) None (WithToken_Message q)))
          | inl None =>
              r ← try (SentUpdateMessageRepository_FindWithManifestsByToken token);
              match r with
              | inl (Some u) => mret (Some (sent_update token (With_Manifests u)))
              | _ => mret None
              end
          end
      end
  end.

Definition saveSentQueryRequest (sending : TEEPMessage) : M unit :=
  if negb (Z.eqb (TEEP_Type sending) TEEPTypeQueryRequest) then throw ErrFatal
  else
    let q := mkSentQueryRequestMessage 0 None
               (AttestationRequested (TEEP_DataItemRequested sending))
               (TCListRequested (TEEP_DataItemRequested sending)) None None zero_time in
    match Opt_Token (TEEP_Options sending) with
    | Some token =>
        _ ← map_err (λ _, ErrFatal) (SentQueryRequestMessageRepository_CreateWithToken token q);
        mret tt
    | None =>
        match Opt_Challenge (TEEP_Options sending) with
        | Some challenge =>
            _ ← map_err (λ _, ErrFatal)
                  (SentQueryRequestMessageRepository_CreateWithChallenge challenge q);
            mret tt
        | None => throw ErrFatal
        end
    end.

(** The token of an update is never nil here ([generateToken] returned it). *)
Definition saveSentUpdate (sending : TEEPMessage) (agentKID : bytes) (manifests : list SuitManifest) : M unit :=
  if negb (Z.eqb (TEEP_Type sending) TEEPTypeUpdate) then throw ErrFatal
  else
    _ ← map_err (λ _, ErrFatal)
          (SentUpdateMessageRepository_CreateWithToken agentKID
             (slice (Opt_Token (TEEP_Options sending))) zero_time manifests);
    mret tt.

(** *** QueryRequest *)

Definition supported_cipher_suites : option (list (list TEEPCipherSuite)) :=
  Some [[mkTEEPCipherSuite 18 AlgorithmESP256]].

Definition supported_cose_profiles : option (list COSEProfile) :=
  Some [mkCOSEProfile AlgorithmSHA256 AlgorithmESP256 (-29) (-65534)].

Definition query_request (token challenge : option bytes) (items : Z) : TEEPMessage :=
  mkTEEPMessage TEEPTypeQueryRequest
    (mkTEEPOptions None challenge None None None None None None None None None None None None None
       token None None None)
    supported_cipher_suites supported_cose_profiles items 0.

Definition generateQueryRequest (t : TAM) : M bytes :=
  token ← generateToken;
  match token with
  | None => throw ErrFatal
  | Some token =>
      let sendingQueryRequest := query_request (Some token) None (RequestDataItem false true false false) in
      response ← map_err (λ _, ErrFatal) (TEEPMessage_COSESign1Sign sendingQueryRequest (tamKey t));
      _ ← map_err (λ _, ErrFatal) (saveSentQueryRequest sendingQueryRequest);
      mret response
  end.

Definition generateQueryRequestWithAttestation (t : TAM) : M bytes :=
  challenge ← generateChallenge;
  match challenge with
  | None => throw ErrFatal
  | Some challenge =>
      let sendingQueryRequest := query_request None (Some challenge) (RequestDataItem true false false false) in
      response ← map_err (λ _, ErrFatal) (TEEPMessage_COSESign1Sign sendingQueryRequest (tamKey t));
      _ ← map_err (λ _, ErrFatal) (saveSentQueryRequest sendingQueryRequest);
      mret response
  end.
End tam.

Section resolve.
Context `{Platform} `{Lib}.
Abbreviation PA := (ProcessedAttestation cose_key).

(** *** Authentication *)

Definition getKid (u : headers) : option bytes :=
  match header u HeaderLabelKeyID with
  | Some (HBytes (b :: kid)) => Some (b :: kid)
  | _ => None
  end.

(** [(message, kid, err)]: the message comes back even with an error. *)
Definition checkSignatureWithKID (msg : Sign1Message) :
    M (option TEEPMessage * option bytes * option error) :=
  decoded_message ← try (lift (Unmarshal_TEEPMessage (slice (Sign1_Payload msg))));
  match decoded_message with
  | inr _ => mret (None, None, Some ErrNotTEEPMessage)
  | inl teepMessage =>
      match getKid (Sign1_Unprotected msg) with
      | None => mret (Some teepMessage, None, Some ErrKidIsMissing)
      | Some kid =>
          r ← try (getTEEPAgentKey kid);
          match r with
          | inr _ => mret (Some teepMessage, None, Some ErrNotAuthenticated)
          | inl key =>
              match key_PublicKey key with
              | None => mret (Some teepMessage, None, Some ErrFatal)
              | Some publicKey =>
                  match key_AlgorithmOrDefault key with
                  | None => mret (Some teepMessage, None, Some ErrFatal)
                  | Some alg =>
                      match NewVerifier alg publicKey with
                      | None => mret (Some teepMessage, None, Some ErrFatal)
                      | Some v =>
                          if Sign1_Verify v msg then mret (Some teepMessage, Some kid, None)
                          else mret (Some teepMessage, None, Some ErrNotAuthenticated)
                      end
                  end
              end
          end
      end
  end.

Definition tryAuthenticateTeepMessage (raw : bytes) :
    M (option TEEPMessage * option bytes * option error) :=
  match Sign1_UnmarshalCBOR raw with
  | None => mret (None, None, Some ErrLib)
  | Some sign1 =>
      r ← checkSignatureWithKID sign1;
      let '(message, kid, err) := r in
      match err with
      | Some err => mret (message, None, Some err)
      | None => mret (message, kid, None)
      end
  end.

(** A COSE_Sign1 first, a COSE_Sign if it does not parse as one. *)
Definition verifyCOSESignature (raw : bytes) (pubKey : cose_key) : res error unit :=
  alg ← res_of_option (Wrapped "verifyCOSESignature: detect algorithm id" ErrLib)
          (key_AlgorithmOrDefault pubKey);
  pub ← res_of_option (Wrapped "verifyCOSESignature: creating crypto.PublicKey" ErrLib)
          (key_PublicKey pubKey);
  v ← res_of_option (Wrapped "verifyCOSESignature: init verifier" ErrLib) (NewVerifier alg pub);
  match Sign1_UnmarshalCBOR raw with
  | Some sign1 =>
      if Sign1_Verify v sign1 then Ok tt else Err (Wrapped "sign1 verification" ErrLib)
  | None =>
      match Sign_UnmarshalCBOR raw with
      | Some sign => if Sign_Verify v sign then Ok tt else Err (Wrapped "sign verification" ErrLib)
      | None => Err (ErrorString "verifyCOSESignature: unsupported COSE structure")
      end
  end.

(** *** Attestation *)

Definition requiresAttestedAgentKey (format : string) : bool :=
  HasPrefix (ToLower (TrimSpace format)) "application/eat".

Definition with_backend (backend : string) (cfg : RAConfig) : RAConfig :=
  mkRAConfig backend (BaseURL cfg) (ContentType cfg) (InsecureTLS cfg) (RA_Timeout cfg)
    (IntelCollateralCacheDir cfg) (IntelCollateralServiceURL cfg) (IntelCollateralInsecureTLS cfg)
    (IntelCollateralSubscriptionKey cfg).

(** The closure of [newVerifierResolver], under its mutex.  What a constructor returns
    depends on its configuration and on whether [os.MkdirAll] succeeds, so a cached
    verifier is the one that is built when it does. *)
Definition resolveVerifier (raCfg : RAConfig) (format : string) : M IRAVerifier :=
  let backend := VerifierBackendForAttestationPayloadFormat format in
  let build MkdirAll := NewVerifierForBackend MkdirAll backend (with_backend backend raCfg) in
  atomically (λ w,
    if bool_decide (backend ∈ w_backends w) then (build (λ _, Ok tt), w)
    else
      let w' := with_files (w_files w) w in
      match build (λ _, if file_fault (w_fops w) then Err ErrIO else Ok tt) with
      | Ok v => (Ok v, add_backend backend w')
      | r => (r, w')
      end).

Definition selectVerifier (t : TAM) (attestationPayloadFormat : option string) : M (IRAVerifier * string) :=
  let format := default "" attestationPayloadFormat in
  let backend := VerifierBackendForAttestationPayloadFormat format in
  match TAM_resolveVerifier t with
  | Some raCfg =>
      v ← resolveVerifier raCfg format;
      mret (v, backend)
  | None => mret (TAM_verifier t, backend)
  end.

Definition submitAttestationPayload (t : TAM) (attestationPayloadFormat : option string) (data : bytes) :
    M (PA * string) :=
  sel ← selectVerifier t attestationPayloadFormat;
  let '(v, backend) := sel in
  if is_nil_interface v then throw ErrVerifierNotConfigured
  else
    verifierPayload ←
      (if String.eqb backend VerifierBackendIntelQVL
       then bundle ← map_err (λ _, ErrAttestationFailed) (lift (decodeSGXQuote3TEEPBundle data));
            mret (Bundle_Quote bundle)
       else mret data);
    att ← map_err (λ _, ErrAttestationFailed) (IRAVerifier_Process v verifierPayload);
    mret (att, backend).

(** The claims of the evidence itself, once a verifier has affirmed it. *)
Definition populateClaims (backend format : string) (result : PA) (payload : bytes) : res error PA :=
  if String.eqb backend VerifierBackendIntelQVL then
    bundle ← res_map_err (λ _, ErrAttestationFailed) (decodeSGXQuote3TEEPBundle payload);
    _ ← res_map_err (λ _, ErrAttestationFailed)
          (verifySGXQuoteReportDataBinding (Bundle_Quote bundle) (Bundle_RawReportData bundle));
    res_map_err (λ _, ErrAttestationFailed)
      (populateAttestedClaimsFromSGXRawReportData result (Bundle_RawReportData bundle))
  else if requiresAttestedAgentKey format then
    res_map_err (λ _, ErrNotAuthenticated) (PopulateAttestedClaimsFromSign1 result payload)
  else Ok result.

Definition verifyAttestationPayload (t : TAM) (body : bytes) (incoming : TEEPMessage)
    (agentKID : option bytes) : M (PA * option bytes * option TEEPMessage) :=
  match Opt_AttestationPayload (TEEP_Options incoming) with
  | None => throw ErrAttestationPayloadNotFound
  | Some payload =>
      let format := default "" (Opt_AttestationPayloadFormat (TEEP_Options incoming)) in
      submitted ← submitAttestationPayload t (Opt_AttestationPayloadFormat (TEEP_Options incoming)) payload;
      let '(result, backend) := submitted in
      if negb (EqualFold (EarStatus result) "affirming") then mret (result, None, None)
      else
        result ← lift (populateClaims backend format result payload);
        sentMessage ← searchSentMessageWithChallenge (AttestationNonce result);
        match sentMessage with
        | None => throw ErrNotAuthenticated
        | Some sentMessage =>
            match agentKID with
            | Some kid => mret (result, Some kid, Some sentMessage)
            | None =>
                if negb (requiresAttestedAgentKey format) && negb (String.eqb backend VerifierBackendIntelQVL)
                then throw ErrNotAuthenticated
                else match AttestationKey result with
                | None => throw ErrNotAuthenticated
                | Some key =>
                    _ ← map_err (λ _, ErrNotAuthenticated) (lift (verifyCOSESignature body key));
                    _ ← map_err (λ _, ErrFatal) (setTEEPAgentKey (Some key) (AttestationUEID result));
                    mret (result, key_Thumbprint key, Some sentMessage)
                end
            end
        end
  end.

(** *** Update *)

(** Append a component unless it is there already. *)
Definition add_component (set : list bytes) (c : bytes) : list bytes :=
  if existsb (λ x, eqb_bytes x c) set then set else set ++ [c].

Fixpoint encode_components (l : list ComponentID) (set : list bytes) : res error (list bytes) :=
  match l with
  | [] => Ok set
  | c :: rest =>
      encodedComponentID ← res_of_option ErrFatal (Marshal_component_id c);
      encode_components rest (add_component set encodedComponentID)
  end.

(** The latest manifest of each known component, in order. *)
Fixpoint collect_manifests (componentSet : list bytes) : M (list SuitManifest) :=
  match componentSet with
  | [] => mret []
  | c :: rest =>
      manifest ← map_err (λ _, ErrFatal) (SuitManifestRepository_FindLatestByTrustedComponentID c);
      ms ← collect_manifests rest;
      mret (match manifest with Some m => m :: ms | None => ms end)
  end.

Definition update_message (token : bytes) (manifests : list SuitManifest) : TEEPMessage :=
  mkTEEPMessage TEEPTypeUpdate
    (mkTEEPOptions None None None None None None None None
       (Some (map SuitManifest_Manifest manifests))
       None None None None None None (Some token) None None None)
    None None 0 0.

(** The manifests are recorded by id only. *)
Definition by_id (m : SuitManifest) : SuitManifest := mkSuitManifest (SuitManifest_ID m) [] [] 0 [] 0 zero_time.

Definition processQueryResponse (t : TAM) (incoming : TEEPMessage) (agentKID : bytes)
    (sentMessage : TEEPMessage) : M (option bytes) :=
  if negb (eqb_bytes (slice (Opt_Token (TEEP_Options incoming))) (slice (Opt_Token (TEEP_Options sentMessage))))
  then throw ErrFatal
  else
    token ← generateToken;
    match token with
    | None => throw ErrFatal
    | Some token =>
        set1 ← lift (encode_components
                  (map Requested_ComponentID (slice (Opt_RequestedTCList (TEEP_Options incoming)))) []);
        componentSet ← lift (encode_components
                  (map SystemComponentID (slice (Opt_TCList (TEEP_Options incoming)))) set1);
        match componentSet with
        | [] => mret None
        | _ =>
            manifests ← collect_manifests componentSet;
            match manifests with
            | [] => mret None
            | _ =>
                let sendingUpdate := update_message token manifests in
                response ← map_err (λ _, ErrFatal) (TEEPMessage_COSESign1Sign sendingUpdate (tamKey t));
                _ ← map_err (λ _, ErrFatal) (saveSentUpdate sendingUpdate agentKID (map by_id manifests));
                mret (Some response)
            end
        end
    end.

(** *** Success and Error *)

Definition updateAgentStatusOnManifestSuccess (agentKID : bytes) (digest : option bytes) (report : bytes) : M unit :=
  _ ← try (AgentStatusRepository_ReflectManifestSuccess agentKID digest report);
  mret tt.

Definition updateAgentStatusOnManifestError (agentKID : bytes) (digest : option bytes) (report : bytes) : M unit :=
  _ ← try (AgentStatusRepository_RecordManifestProcessingFailure agentKID digest report);
  mret tt.

(** The two loops over [SUITReports] differ in what they call, and only in that: the
    condition is the same. *)
Fixpoint handle_reports (record : option bytes → bytes → M unit) (reports : list bytes) : M unit :=
  match reports with
  | [] => mret tt
  | raw :: rest =>
      r ← try (lift (Unmarshal_with Unmarshal_Report raw));
      match r with
      | inr _ => handle_reports record rest
      | inl report =>
          if negb (report_digest_ok report) then handle_reports record rest
          else
            let manifestDigest := Marshal_digest (Reference_Digest (Report_Reference report)) in
            _ ← (if report_succeeded report then record manifestDigest raw else mret tt);
            handle_reports record rest
      end
  end.

(** *** The dispatcher *)

Definition is_nil {A} (o : option A) : bool := match o with None => true | Some _ => false end.

Definition handleQueryResponse (t : TAM) (body : bytes) (incoming : TEEPMessage)
    (agentKID : option bytes) (sentMessage : option TEEPMessage) : M (option bytes) :=
  match sentMessage, agentKID with
  | Some _, None =>
      r ← generateQueryRequestWithAttestation t;
      mret (Some r)
  | _, _ =>
      ids ← match sentMessage with
            | Some _ => mret (agentKID, sentMessage)
            | None =>
                v ← verifyAttestationPayload t body incoming agentKID;
                let '(attestationResults, verifiedAgentKID, verifiedSentMessage) := v in
                if negb (EqualFold (EarStatus attestationResults) "affirming") then throw ErrAttestationFailed
                else mret (if is_nil verifiedAgentKID then agentKID else verifiedAgentKID,
                           if is_nil verifiedSentMessage then sentMessage else verifiedSentMessage)
            end;
      match ids with
      | (Some kid, Some sent) => processQueryResponse t incoming kid sent
      | _ => throw ErrNotAuthenticated
      end
  end.

Definition handleReports (record : bytes → option bytes → bytes → M unit) (incoming : TEEPMessage)
    (agentKID : option bytes) (sentMessage : option TEEPMessage) : M (option bytes) :=
  match agentKID with
  | None => throw ErrNotAuthenticated
  | Some kid =>
      match sentMessage with
      | None => throw ErrNotAResponse
      | Some _ =>
          _ ← handle_reports (record kid) (slice (Opt_SUITReports (TEEP_Options incoming)));
          mret None
      end
  end.

Definition ResolveTEEPMessage (t : TAM) (body : bytes) : M (option bytes) :=
  match body with
  | [] => r ← generateQueryRequest t; mret (Some r)
  | _ =>
      auth ← tryAuthenticateTeepMessage body;
      let '(message, agentKID, err) := auth in
      match message, bool_decide (err = None ∨ err = Some ErrNotAuthenticated) with
      | Some incoming, true =>
          sentMessage ← searchSentMessageWithToken (Opt_Token (TEEP_Options incoming));
          if Z.eqb (TEEP_Type incoming) TEEPTypeQueryResponse then
            handleQueryResponse t body incoming agentKID sentMessage
          else if Z.eqb (TEEP_Type incoming) TEEPTypeSuccess then
            handleReports updateAgentStatusOnManifestSuccess incoming agentKID sentMessage
          else if Z.eqb (TEEP_Type incoming) TEEPTypeError then
            handleReports updateAgentStatusOnManifestError incoming agentKID sentMessage
          else throw ErrNotSupported
      | _, _ => match err with Some e => throw e | None => mret None end
      end
  end.

(** ** manifest_repository_flow.go *)

Definition GetManifest (componentID : bytes) : M (option SuitManifest) :=
  SuitManifestRepository_FindLatestByTrustedComponentID componentID.

Definition GetManifests : M (list SuitManifest) := SuitManifestRepository_FindLatestAll.

(** Check, then insert: two statements, not one transaction.  A nil digest violates
    [NOT NULL]. *)
Definition SetEnvelope (envelopeBytes digest : option bytes) (kid componentID : bytes)
    (sequenceNumber : Z) : M unit :=
  match envelopeBytes with
  | None => throw (ErrorString "manifest is nil")
  | Some envelopeBytes =>
      r ← try (ManifestSigningKeyRepository_FindByKID kid);
      match r with
      | inl (Some key) =>
          existingManifest ← map_err (λ _, ErrFatal) (GetManifest componentID);
          let insert_manifest :=
            match digest with
            | None => throw ErrDriver
            | Some digest =>
                _ ← SuitManifestRepository_Create
                      (mkSuitManifest 0 envelopeBytes digest (ManifestSigningKey_ID key) componentID
                         sequenceNumber zero_time);
                mret tt
            end in
          match existingManifest with
          | Some m =>
              if Z.leb sequenceNumber (SuitManifest_SequenceNumber m)
              then throw ErrSUITManifestSmallerSequenceNumber
              else if negb (Z.eqb (SuitManifest_SigningKeyID m) (ManifestSigningKey_ID key))
              then throw ErrSUITManifestSigningKeyMismatch
              else insert_manifest
          | None => insert_manifest
          end
      | _ => throw ErrNotAuthenticated
      end
  end.

(** ** agent_status.go *)

(** [AgentStatusRecord]: the agent, its device, its manifests (nil when there are none). *)
Definition AgentStatusRecord : Type := bytes * (option bytes * option (list SuitManifestOverview)).

Definition FromModel (s : AgentStatus) : AgentStatusRecord :=
  (AgentStatus_AgentKID s,
   (AgentStatus_DeviceUEID s,
    match AgentStatus_SuitManifests s with [] => None | l => Some l end)).

Definition GetAgentStatus (agentKID : bytes) : M (option AgentStatusRecord) :=
  agentStatus ← map_err (Wrapped "failed to list agent status")
                  (AgentStatusRepository_GetAgentStatus agentKID);
  match agentStatus with
  | None => mret None
  | Some s => mret (Some (FromModel s))
  end.

Fixpoint status_keys (l : list Agent) : M (list (bytes * Z)) :=
  match l with
  | [] => mret []
  | agent :: rest =>
      agentStatus ← map_err (Wrapped "failed to get agent status for agent")
                      (AgentStatusRepository_GetAgentStatus (Agent_KID agent));
      keys ← status_keys rest;
      mret (match agentStatus with
            | Some s => (AgentStatus_AgentKID s, AgentStatus_UpdatedAt s) :: keys
            | None => keys
            end)
  end.

Definition GetAgentStatuses : M (list (bytes * Z)) :=
  agents ← map_err (Wrapped "failed to list agents") AgentRepository_GetAll;
  status_keys agents.

Definition FindEntity (name : string) : M (option Entity) := EntityRepository_FindByName name.
End resolve.

(** ** Opening and seeding the database *)

Section seed.
Context `{Platform} `{Lib}.

(** [sqlite.InitDB]: the world's database is the one at the path; a file without tables
    is [empty_DB], and the schema's statements change nothing else. *)
Definition exec_statement (wrap : error → error) : M unit := map_err wrap (sql (λ d, (Ok tt, d))).

Definition sqlite_InitDB : M unit :=
  _ ← exec_statement (Wrapped "failed to ping database");
  _ ← exec_statement (Wrapped "failed to set PRAGMA foreign_keys");
  _ ← exec_statement (Wrapped "failed to set PRAGMA journal_mode");
  _ ← exec_statement (Wrapped "failed to set PRAGMA synchronous");
  _ ← exec_statement (Wrapped "failed to set PRAGMA busy_timeout");
  exec_statement (Wrapped "failed to create schema").

Definition InitDB : M unit := map_err (Wrapped "failed to initialize database") sqlite_InitDB.

Definition ensureTrustedDemoAgentKey : M unit :=
  key ← lift (res_of_option (ErrorString "failed to initialize fixed TEEP Agent's key")
                (cbor_key DefaultTrustedAgentKey));
  kid ← lift (res_of_option (Wrapped "derive demo trusted agent key kid" ErrLib) (key_Thumbprint key));
  existing ← try (getTEEPAgentKey kid);
  match existing with
  | inl _ => mret tt
  | inr _ => map_err (Wrapped "store demo trusted agent key") (setTEEPAgentKey (Some key) None)
  end.

Definition SeedDemoEntities (withManifest : bool) : M unit :=
  refs ← SeedEntities;
  if negb withManifest then mret tt else SeedHelloTextManifest (DeveloperSigningKeyID refs).

Definition SeedDemoAgent (withStatus : bool) : M unit :=
  _ ← ensureTrustedDemoAgentKey;
  refs ← SeedEntities;
  SeedAgentScenario (DeviceAdminID refs) withStatus.

Definition SeedDemoData : M unit :=
  _ ← SeedDemoEntities true;
  SeedDemoAgent true.

Definition EnsureDefaultEntity (withManifest : bool) : M unit := SeedDemoEntities withManifest.
Definition EnsureDefaultTEEPAgent (withStatus : bool) : M unit := SeedDemoAgent withStatus.
End seed.
