(* ===== verification/Server.v ===== *)
(** The HTTP front end: [internal/server/handler.go] and the wiring of
    [internal/server/server.go].

    Logging is left out; [logReply] only logs.  [net/http] is modelled as far as the
    handlers use it: a request's method, path, two headers and body, and the response
    they write. *)

From S2P Require Import Prelude Model Db Evolve AgentRepo ManifestRepo StatusRepo Wire Lib.
From S2P Require Import Suit Teep Rats Qvl Collateral Verifiers Tam.

(** ** Requests and responses *)

(** A body: its bytes, whether the connection fails after them, and the result of
    [Body.Close()]. *)
Record Body := mkBody {
  Body_Bytes : bytes;
  Body_ReadFails : bool;
  Body_CloseFails : bool;
}.

(** [r.Header.Get] of an absent header is the empty string. *)
Record Request := mkRequest {
  Req_Method : string;
  Req_Path : string;
  Req_Accept : string;
  Req_ContentType : string;
  Req_Body : Body;
}.

Record Response := mkResponse {
  Resp_Status : Z;
  Resp_Headers : list (string * string);
  Resp_Body : bytes;
}.

Record responseSpec := mkResponseSpec {
  status : Z;
  body : option bytes;
  contentType : string;
}.

Definition StatusOK : Z := 200.
Definition StatusNoContent : Z := 204.
Definition StatusBadRequest : Z := 400.
Definition StatusUnauthorized : Z := 401.
Definition StatusForbidden : Z := 403.
Definition StatusNotFound : Z := 404.
Definition StatusMethodNotAllowed : Z := 405.
Definition StatusRequestEntityTooLarge : Z := 413.
Definition StatusUnsupportedMediaType : Z := 415.
Definition StatusInternalServerError : Z := 500.
Definition StatusServiceUnavailable : Z := 503.

Definition newline : bytes := bs [10]%Z.

(** [http.Error(w, error, code)]. *)
Definition http_Error (error : string) (code : Z) : Response :=
  mkResponse code
    [("Content-Type", "text/plain; charset=utf-8"); ("X-Content-Type-Options", "nosniff")]
    (GoText.bytes_of_string error ++ newline).

Definition internal_server_error : Response :=
  http_Error "Internal Server Error" StatusInternalServerError.
Definition method_not_allowed : Response := http_Error "Method Not Allowed" StatusMethodNotAllowed.

Definition defaultHeaders : list (string * string) :=
  [("Cache-Control", "no-store"); ("X-Content-Type-Options", "nosniff");
   ("Content-Security-Policy", "default-src 'none'"); ("Referrer-Policy", "no-referrer")].

Definition writeResponse (spec : responseSpec) : Response :=
  match slice (body spec) with
  | [] => mkResponse (status spec) [("Server", "Bar/2.2")] []
  | b => mkResponse (status spec)
           (("Server", "Bar/2.2") :: defaultHeaders ++
            [("Content-Type", contentType spec); ("Content-Length", pretty.pretty (len b))]) b
  end.

Definition maxRequestBodyBytes : Z := Z.shiftl 32 10.
Definition maxRequestBodyBytesForSUIT : Z := Z.shiftl 32 20.

(** [io.ReadAll(http.MaxBytesReader(w, r.Body, limit))]: the limit is hit before a later
    read error. *)
Inductive read_result := ReadOK (b : bytes) | ReadTooLarge | ReadFailed.

Definition ReadAll (limit : Z) (b : Body) : read_result :=
  if Z.ltb limit (len (Body_Bytes b)) then ReadTooLarge
  else if Body_ReadFails b then ReadFailed
  else ReadOK (Body_Bytes b).

(** ** Handlers *)

Section handlers.
Context `{Platform} `{Lib}.

Definition tamOverHttp (t : TAM) (r : Request) : M Response :=
  if negb (String.eqb (Req_Method r) "POST") then mret internal_server_error
  else if negb (String.eqb (Req_Accept r) "application/teep+cbor") then
    mret (http_Error "This endpoint only accepts Accept: application/teep+cbor"
            StatusUnsupportedMediaType)
  else if negb (String.eqb (Req_ContentType r) "application/teep+cbor") then
    mret (http_Error "This endpoint only accepts Content-Type: application/teep+cbor"
            StatusUnsupportedMediaType)
  else
    match ReadAll maxRequestBodyBytes (Req_Body r) with
    | ReadTooLarge | ReadFailed => mret internal_server_error
    | ReadOK body =>
        if Body_CloseFails (Req_Body r) then mret internal_server_error
        else
          res ← try (ResolveTEEPMessage t body);
          match res with
          | inr err =>
              if bool_decide (err = ErrVerifierNotConfigured) then
                mret (http_Error "verifier client is not configured, so attestation with challenge-response is not available" StatusServiceUnavailable)
              else mret internal_server_error
          | inl responseBody =>
              match slice responseBody with
              | [] => mret (writeResponse (mkResponseSpec StatusNoContent None ""))
              | _ => mret (writeResponse
                             (mkResponseSpec StatusOK responseBody "application/teep+cbor"))
              end
          end
    end.

(** [append] to a nil slice: nil when nothing was appended. *)
Definition appended {A} (l : list A) : option (list A) :=
  match l with [] => None | _ => Some l end.

Definition getManifests (r : Request) : M Response :=
  if negb (String.eqb (Req_Method r) "GET") then mret method_not_allowed
  else if negb (String.eqb (Req_Accept r) "application/cbor") then
    mret (http_Error "This endpoint only accepts Accept: application/cbor" StatusUnsupportedMediaType)
  else
    res ← try GetManifests;
    match res with
    | inr _ => mret (http_Error "failed to get SUIT Manifest" StatusInternalServerError)
    | inl storedManifests =>
        match Marshal_overviews (appended (map overview_of storedManifests)) with
        | None => mret (http_Error "failed to get SUIT Manifest" StatusInternalServerError)
        | Some encoded =>
            mret (writeResponse (mkResponseSpec StatusOK (Some encoded) "application/cbor"))
        end
    end.

Definition bad_manifest : Response := http_Error "failed to parse SUIT Manifest" StatusBadRequest.

(** What [addTCManifest] does once the body is read; its result is the response. *)
Definition register_error (err : error) : Response :=
  if bool_decide (err = ErrNotAuthenticated) then
    http_Error "the manifest signing key is not trusted by the TAM" StatusBadRequest
  else if bool_decide (err = ErrSUITManifestSmallerSequenceNumber) then
    http_Error "the manifest sequence number should be bigger than the existing one" StatusBadRequest
  else if bool_decide (err = ErrSUITManifestSigningKeyMismatch) then
    http_Error "the manifest signing key should be the same as the existing one" StatusBadRequest
  else http_Error "failed to add SUIT Manifest" StatusInternalServerError.

Definition registerManifest (body : bytes) : M Response :=
  parsed ← try (lift (Unmarshal_with Envelope_UnmarshalCBOR body));
  match parsed with
  | inr _ => mret bad_manifest
  | inl envelope =>
      let kid := Block_KID (AuthenticationBlock0 (Envelope_AuthenticationWrapper envelope)) in
      skipped ← lift (SkipTag body (spare_capacity body));
      let '(_, untaggedEnvelopeBytes) := skipped in
      key ← try (GetEntityKey kid);
      match key with
      | inr _ | inl None => mret bad_manifest
      | inl (Some key) =>
          verified ← try (lift (Envelope_Verify envelope key));
          match verified with
          | inr _ => mret bad_manifest
          | inl _ =>
              manifest ← try (lift (Unmarshal_NestedManifest (ManifestBstr envelope)));
              match manifest with
              | inr _ => mret bad_manifest
              | inl manifest =>
                  match Components (Manifest_Common manifest) with
                  | [component] =>
                      match Marshal_component_id component with
                      | None => mret bad_manifest
                      | Some encodedComponentID =>
                          r ← try (SetEnvelope (Some untaggedEnvelopeBytes)
                                     (DigestBstr (Envelope_AuthenticationWrapper envelope)) kid
                                     encodedComponentID (ManifestSequenceNumber manifest));
                          match r with
                          | inr err => mret (register_error err)
                          | inl _ =>
                              mret (writeResponse (mkResponseSpec StatusOK
                                      (Some (GoText.bytes_of_string "OK" ++ newline)) "text/plain"))
                          end
                      end
                  | _ => mret bad_manifest
                  end
              end
          end
      end
  end.

Definition addTCManifest (r : Request) : M Response :=
  if negb (String.eqb (Req_Method r) "POST") then mret method_not_allowed
  else if negb (String.eqb (Req_ContentType r) "application/suit-envelope+cose") then
    mret (http_Error "This endpoint only accepts Content-Type: application/suit-envelope+cose"
            StatusUnsupportedMediaType)
  else
    match ReadAll maxRequestBodyBytesForSUIT (Req_Body r) with
    | ReadTooLarge => mret (http_Error "request body is too large" StatusRequestEntityTooLarge)
    | ReadFailed => mret bad_manifest
    | ReadOK body =>
        if Body_CloseFails (Req_Body r) then mret bad_manifest
        else registerManifest body
    end.

Definition adminName : string := "admin@example.com".

(** [entity.IsTAMAdmin] of a nil [*model.Entity] is a nil dereference. *)
Definition getAgentList (r : Request) : M Response :=
  if negb (String.eqb (Req_Method r) "GET") then mret method_not_allowed
  else if negb (String.eqb (Req_Accept r) "application/cbor") then
    mret (http_Error "This endpoint only accepts Accept: application/cbor" StatusUnsupportedMediaType)
  else
    entity ← try (FindEntity adminName);
    match entity with
    | inr _ => mret (http_Error "unauthorized" StatusUnauthorized)
    | inl None => panic
    | inl (Some entity) =>
        if IsTAMAdmin entity || (IsDeviceAdmin entity && Z.ltb 0 (Entity_ID entity)) then
          res ← try GetAgentStatuses;
          match res with
          | inr _ => mret (http_Error "failed to get TEEP Agent list" StatusInternalServerError)
          | inl agentList =>
              match Marshal_status_keys agentList with
              | None => mret (http_Error "failed to encode TEEP Agent list" StatusInternalServerError)
              | Some encoded =>
                  mret (writeResponse (mkResponseSpec StatusOK (Some encoded) "application/cbor"))
              end
          end
        else mret (http_Error "forbidden" StatusForbidden)
    end.

(** The loop over the key ids: unknown agents are skipped, an error stops it. *)
Fixpoint collect_statuses (kids : list bytes) : M (list AgentStatusRecord) :=
  match kids with
  | [] => mret []
  | kid :: rest =>
      agentStatus ← GetAgentStatus kid;
      statusList ← collect_statuses rest;
      mret (match agentStatus with Some s => s :: statusList | None => statusList end)
  end.

Definition getAgentStatus (r : Request) : M Response :=
  let bad := http_Error "failed to parse Request Body" StatusBadRequest in
  if negb (String.eqb (Req_Method r) "POST") then mret method_not_allowed
  else if negb (String.eqb (Req_Accept r) "application/cbor") then
    mret (http_Error "This endpoint only accepts Accept: application/cbor" StatusUnsupportedMediaType)
  else if negb (String.eqb (Req_ContentType r) "application/cbor") then
    mret (http_Error "This endpoint only accepts Content-Type: application/cbor"
            StatusUnsupportedMediaType)
  else
    match ReadAll maxRequestBodyBytes (Req_Body r) with
    | ReadTooLarge => mret (http_Error "request body is too large" StatusRequestEntityTooLarge)
    | ReadFailed => mret bad
    | ReadOK body =>
        if Body_CloseFails (Req_Body r) then mret bad
        else
          match cbor_bytes_list body with
          | None => mret bad
          | Some kids =>
              entity ← try (FindEntity adminName);
              match entity with
              | inr _ => mret (http_Error "failed to find Device Admin entity" StatusBadRequest)
              | inl _ =>
                  res ← try (collect_statuses kids);
                  match res with
                  | inr _ =>
                      mret (http_Error "failed to get TEEP Agent status" StatusInternalServerError)
                  | inl statusList =>
                      match Marshal_status_records (appended statusList) with
                      | None =>
                          mret (http_Error "failed to encode TEEP Agent status" StatusInternalServerError)
                      | Some encoded =>
                          mret (writeResponse
                                  (mkResponseSpec StatusOK (Some encoded) "application/cbor"))
                      end
                  end
              end
          end
    end.

Definition ServeHTTP (t : TAM) (r : Request) : M Response :=
  if String.eqb (Req_Path r) "/tam" then tamOverHttp t r
  else if String.eqb (Req_Path r) "/SUITManifestService/ListManifests" then getManifests r
  else if String.eqb (Req_Path r) "/SUITManifestService/RegisterManifest" then addTCManifest r
  else if String.eqb (Req_Path r) "/AgentService/ListAgents" then getAgentList r
  else if String.eqb (Req_Path r) "/AgentService/GetAgentStatus" then getAgentStatus r
  else mret (http_Error "404 page not found" StatusNotFound).
End handlers.
