(* ===== verification/Logger.v ===== *)
(** The log handler: [internal/logger/logger.go]. *)

From S2P Require Import Prelude GoText GoUrl GoFormat Model.
From stdpp Require Import pretty.
From Stdlib Require Import Ascii.

(** ** Levels *)

Definition LevelDebug : Z := -4.
Definition LevelInfo : Z := 0.
Definition LevelWarn : Z := 4.
Definition LevelError : Z := 8.
Definition DefaultLevel : Z := LevelInfo.

Definition ParseLevel (raw : string) : res error Z :=
  let s := ToLower (TrimSpace raw) in
  if (String.eqb s "" || String.eqb s "info")%bool then Ok LevelInfo
  else if String.eqb s "debug" then Ok LevelDebug
  else if (String.eqb s "warn" || String.eqb s "warning")%bool then Ok LevelWarn
  else if String.eqb s "error" then Ok LevelError
  else Err (ErrorString "unsupported log level").

Definition levelLabel (level : Z) : string :=
  if Z.leb level LevelDebug then "DEBUG"
  else if Z.ltb level LevelWarn then "INFO"
  else if Z.ltb level LevelError then "WARN"
  else "ERROR".

(** ** slog *)

(** The dynamic types [formatAny] tells apart; [AOther] carries what [fmt.Sprint] prints.
    A [time.Time] is a [fmt.Stringer], so its own case, which is the later one, is dead. *)
Inductive any_value :=
  | ANil | AString (s : string) | AError (msg : string) | AStringer (s : string)
  | AOther (sprint : string).

(** [slog.Value]; a [LogValuer] is the value it returns, floats are their bits. *)
Inductive Value :=
  | VString (s : string) | VTime (t : Z) | VBool (b : bool) | VInt64 (z : Z) | VUint64 (z : Z)
  | VFloat64 (bits : Z) | VDuration (d : Z) | VAny (a : any_value)
  | VGroup (l : list (string * Value)) | VLogValuer (v : Value).

Definition Attr : Type := string * Value.

Record LogRecord := mkLogRecord {
  Record_Time : Z;
  Record_Level : Z;
  Record_Message : string;
  Record_Attrs : list Attr;
}.

(** What [Value.Resolve] returns after calling [LogValue] 100 times. *)
Definition too_many_log_values : Value := VAny (AError "LogValue called too many times").

(** ** The handler *)

Record Handler := mkHandler {
  Handler_level : Z;
  Handler_name : string;
  Handler_attrs : list Attr;
  Handler_groups : list string;
}.

(** [*slog.Logger]: one over a [*Handler], or over some other handler. *)
Inductive SlogLogger := LoggerOver (h : Handler) | LoggerOther.

Definition NewHandler (level : Z) (name : string) : Handler := mkHandler level (TrimSpace name) [] [].
Definition NewLogger (level : Z) : SlogLogger := LoggerOver (NewHandler level "").
Definition NewNamed (name : string) (level : Z) : SlogLogger := LoggerOver (NewHandler level name).

Definition WithAttrs (attrs : list Attr) (h : Handler) : Handler :=
  mkHandler (Handler_level h) (Handler_name h) (Handler_attrs h ++ attrs) (Handler_groups h).

Definition WithGroup (name : string) (h : Handler) : Handler :=
  if String.eqb name "" then h
  else mkHandler (Handler_level h) (Handler_name h) (Handler_attrs h) (Handler_groups h ++ [name]).

Definition withName (name : string) (h : Handler) : Handler :=
  mkHandler (Handler_level h) (TrimSpace name) (Handler_attrs h) (Handler_groups h).

Definition Rename (base : option SlogLogger) (name : string) : option SlogLogger :=
  match base with
  | None => None
  | Some (LoggerOver h) => Some (LoggerOver (withName name h))
  | Some LoggerOther => Some LoggerOther
  end.

Definition Enabled (h : option Handler) (level : Z) : bool :=
  match h with None => false | Some h => Z.leb (Handler_level h) level end.

Section handler.
Context `{Formats}.

(** A rune at or below the space is a byte of its own. *)
Definition needs_quote (t : utf8_token) : bool :=
  match t with
  | TInvalid _ => false
  | TRune r _ => (N.leb r 32 || N.eqb r 34 || N.eqb r 61)%bool
  end.

Definition quoteIfNeeded (s : string) : string :=
  if String.eqb s "" then String double_quote (String double_quote EmptyString)
  else if existsb needs_quote (utf8 (String.list_ascii_of_string s)) then Quote s
  else s.

Definition formatAny (v : any_value) : string :=
  match v with
  | ANil => "<nil>"
  | AString s | AError s | AStringer s | AOther s => quoteIfNeeded s
  end.

(** Groups and [LogValuer]s do not reach it; their [String] would be quoted. *)
Definition formatValue (v : Value) : string :=
  match v with
  | VString s => quoteIfNeeded s
  | VTime t => Format_RFC3339Nano t
  | VBool b => if b then "true" else "false"
  | VInt64 z | VUint64 z => pretty z
  | VFloat64 bits => FormatFloat bits
  | VDuration d => Duration_String d
  | VAny a => formatAny a
  | VGroup _ | VLogValuer _ => quoteIfNeeded ""
  end.

Definition appendLeaf (out prefix : list string) (key : string) (v : Value) : list string :=
  let keyParts := if String.eqb key "" then prefix else prefix ++ [key] in
  match keyParts, v with
  | [], _ => out
  | _, VAny ANil => if String.eqb key "" then out else out ++ [strings_Join "." keyParts +++ "=" +++ formatValue v]
  | _, _ => out ++ [strings_Join "." keyParts +++ "=" +++ formatValue v]
  end.

(** [attr.Value.Resolve()] calls [LogValue] while it can, 100 times at most. *)
Fixpoint appendAttr (calls : nat) (out prefix : list string) (key : string) (v : Value) : list string :=
  match calls with
  | O => appendLeaf out prefix key too_many_log_values
  | S calls =>
      match v with
      | VLogValuer v' => appendAttr calls out prefix key v'
      | VGroup children =>
          let groupPrefix := if String.eqb key "" then prefix else prefix ++ [key] in
          fold_left (λ out child, appendAttr 100 out groupPrefix child.1 child.2) children out
      | _ => appendLeaf out prefix key v
      end
  end.

Definition append_attrs (prefix : list string) (attrs : list Attr) (out : list string) : list string :=
  fold_left (λ out a, appendAttr 100 out prefix a.1 a.2) attrs out.

Definition formatRecordAttrs (h : Handler) (r : LogRecord) : list string :=
  append_attrs (Handler_groups h) (Record_Attrs r)
    (append_attrs (Handler_groups h) (Handler_attrs h) []).

(** [Handle] writes this text with one [io.WriteString], under the handler's mutex. *)
Definition Handle (h : Handler) (r : LogRecord) : string :=
  let time := if Z.eqb (Record_Time r) zero_time then ""
              else Format_RFC3339Nano (Record_Time r) +++ " " in
  let name := if String.eqb (Handler_name h) "" then ""
              else Handler_name h +++ (if String.eqb (Record_Message r) "" then "" else ": ") in
  let b := time +++ "[" +++ levelLabel (Record_Level r) +++ "] " +++ name +++ Record_Message r in
  let attrs := match formatRecordAttrs h r with
               | [] => ""
               | formatted => (if HasSuffix b " " then "" else " ") +++ strings_Join " " formatted
               end in
  b +++ attrs +++ String (ascii_of_N 10) EmptyString.
End handler.

(** ** Properties of the text *)

Section one_line.
Context `{Formats}.

Lemma quoteIfNeeded_no_c0 s : no_c0 (quoteIfNeeded s).
Proof.
  unfold quoteIfNeeded. destruct (String.eqb s ""); [by repeat constructor|].
  destruct (existsb _ _) eqn:He; [apply Quote_no_c0|]. unfold no_c0.
  destruct (utf8_bytes (String.list_ascii_of_string s)) as [Ht <-]. apply Forall_concat, Forall_map.
  apply Forall_forall. intros t Hin. rewrite Forall_forall in Ht. specialize (Ht t Hin).
  assert (needs_quote t = false) as Hn.
  { apply not_true_is_false. intros Hn. apply not_true_iff_false in He. apply He, existsb_exists.
    exists t. by rewrite <- list_elem_of_In. }
  destruct t as [c|r enc]; simpl in *; [constructor; [unfold not_c0; lia|constructor]|].
  destruct Ht as [(c & -> & -> & _)|Ht].
  { apply orb_false_iff in Hn as [[Hn%N.leb_gt _]%orb_false_iff _].
    constructor; [unfold not_c0; lia|constructor]. }
  eapply Forall_impl; [exact Ht|]. unfold not_c0. lia.
Qed.
Context `{!C0FreeFormats}.

Lemma formatValue_no_c0 v : no_c0 (formatValue v).
Proof.
  destruct v as [| |[]| | | | |[]| |]; simpl;
    auto using quoteIfNeeded_no_c0, Format_RFC3339Nano_no_c0, Duration_String_no_c0, FormatFloat_no_c0, pretty_Z_no_c0;
    by repeat constructor.
Qed.

(** The keys an attribute's value brings along. *)
Fixpoint no_c0_keys (v : Value) : Prop :=
  match v with
  | VGroup l =>
      (fix go l := match l with [] => True | c :: l => no_c0 c.1 ∧ no_c0_keys c.2 ∧ go l end) l
  | VLogValuer v => no_c0_keys v
  | _ => True
  end.

Lemma appendLeaf_no_c0 out prefix key v :
  Forall no_c0 out → Forall no_c0 prefix → no_c0 key → Forall no_c0 (appendLeaf out prefix key v).
Proof.
  intros Ho Hp Hk. unfold appendLeaf.
  assert (Forall no_c0 (if String.eqb key "" then prefix else prefix ++ [key])) as Hparts
    by (case_match; [done|apply Forall_app_2; [done|by repeat constructor]]).
  pose proof (formatValue_no_c0 v) as Hv. revert Hparts. generalize (if String.eqb key "" then prefix else prefix ++ [key]).
  intros parts Hparts. pose proof (no_c0_join "." parts ltac:(by repeat constructor) Hparts) as Hjoin.
  assert (Forall no_c0 (out ++ [strings_Join "." parts +++ "=" +++ formatValue v])) as Hnew.
  { apply Forall_app_2; [done|]. constructor; [|constructor]. apply no_c0_app; [done|].
    apply no_c0_app; [by repeat constructor|done]. }
  repeat case_match; done.
Qed.

Lemma appendAttr_no_c0 v : ∀ calls out prefix key,
  no_c0_keys v → Forall no_c0 out → Forall no_c0 prefix → no_c0 key → Forall no_c0 (appendAttr calls out prefix key v).
Proof.
  revert v. fix IH 1. intros v [|calls] out prefix key Hv Ho Hp Hk.
  - destruct v; by apply appendLeaf_no_c0.
  - destruct v as [| | | | | | | |l|v']; try by apply appendLeaf_no_c0.
    + simpl. assert (Forall no_c0 (if String.eqb key "" then prefix else prefix ++ [key])) as Hg
        by (case_match; [done|apply Forall_app_2; [done|by repeat constructor]]).
      revert Hv Ho Hg. generalize (if String.eqb key "" then prefix else prefix ++ [key]). intros g. clear Hp Hk.
      revert out. induction l as [|[k c] l IHl]; intros out Hv Ho Hg; [done|].
      simpl in Hv |- *. destruct Hv as (Hk & Hc & Hl). apply IHl; [done| |done]. by apply IH.
    + simpl in *. by apply IH.
Qed.

Lemma append_attrs_no_c0 prefix attrs out :
  Forall (λ a : Attr, no_c0 a.1 ∧ no_c0_keys a.2) attrs → Forall no_c0 prefix → Forall no_c0 out →
  Forall no_c0 (append_attrs prefix attrs out).
Proof.
  intros Ha Hp. revert out. induction Ha as [|[k v] l [Hk Hv] _ IH]; intros out Ho; [done|].
  simpl in *. apply IH. by apply appendAttr_no_c0.
Qed.
End one_line.

(** ** Properties *)

Section properties.
Context `{Formats} `{!C0FreeFormats}.

Definition no_c0_attrs : list Attr → Prop := Forall (λ a, no_c0 a.1 ∧ no_c0_keys a.2).

(** C30: whatever values it logs, a record is one line of text: as long as the names, keys
    and message, which the program writes itself, have no byte below the space, no value
    brings one in, so none ends the line, starts another, or contains a carriage return, a
    tab or an escape character. (DEL and the C1 controls are another matter, see
    [del_and_c1_are_not_quoted].) *)
Theorem record_is_one_line (h : Handler) (r : LogRecord) :
  no_c0 (Handler_name h) → Forall no_c0 (Handler_groups h) → no_c0_attrs (Handler_attrs h) →
  no_c0 (Record_Message r) → no_c0_attrs (Record_Attrs r) →
  ∃ line, Handle h r = line +++ String (ascii_of_N 10) EmptyString ∧ no_c0 line.
Proof.
  intros Hn Hg Ha Hm Hr. unfold Handle.
  pose proof (append_attrs_no_c0 _ _ _ Hr Hg (append_attrs_no_c0 _ _ _ Ha Hg (Forall_nil_2 _))) as Hf.
  fold (formatRecordAttrs h r) in Hf. eexists (_ +++ _). split; [symmetry; apply string_app_assoc|].
  apply no_c0_app; [|destruct (formatRecordAttrs h r); [constructor|]].
  - repeat apply no_c0_app; try done; repeat case_match; try (by repeat constructor);
      repeat apply no_c0_app; try done; try apply Format_RFC3339Nano_no_c0; try (by repeat constructor).
    unfold levelLabel. repeat case_match; by repeat constructor.
  - apply no_c0_app; [case_match; by repeat constructor|]. by apply no_c0_join; [repeat constructor|].
Qed.
(** [quoteIfNeeded] looks for runes up to the space, the quote and the equals sign only: a
    value without these is written as it is, DEL and the C1 controls included. *)
Theorem del_and_c1_are_not_quoted (s : string) :
  s ≠ "" →
  Forall (λ t, ∃ r enc, t = TRune r enc ∧ (127 ≤ r ≤ 159)%N) (utf8 (String.list_ascii_of_string s)) →
  quoteIfNeeded s = s.
Proof.
  intros Hne Hs. unfold quoteIfNeeded. destruct (String.eqb_spec s ""); [done|].
  destruct (existsb _ _) eqn:He; [|done]. apply existsb_exists in He as (t & Ht%list_elem_of_In & Hq).
  rewrite Forall_forall in Hs. destruct (Hs t Ht) as (r & enc & -> & Hr). simpl in Hq.
  destruct (N.leb_spec r 32); [lia|]. destruct (N.eqb_spec r 34); [lia|]. destruct (N.eqb_spec r 61); [lia|done].
Qed.

(** A group qualifies every attribute of its handler, those attached before it was opened
    included; [slog.Handler] asks for the later ones only. *)
Lemma groups_qualify_earlier_attributes (h : Handler) (g : string) (attrs : list Attr) (r : LogRecord) :
  formatRecordAttrs (WithGroup g (WithAttrs attrs h)) r = formatRecordAttrs (WithAttrs attrs (WithGroup g h)) r.
Proof. unfold WithGroup. by destruct (String.eqb g ""). Qed.
End properties.

(** ** Witness *)

#[local] Instance example_formats : Formats := {|
  unicode_IsPrint := λ _, false;
  Format_RFC3339Nano := λ _, "2026-01-01T00:00:00Z";
  Duration_String := λ _, "1s";
  FormatFloat := λ _, "1.5";
|}.

#[local] Instance example_no_c0 : C0FreeFormats.
Proof. split; intros; by repeat constructor. Qed.

Definition newline : string := String (ascii_of_N 10) EmptyString.

Definition example_record : LogRecord :=
  mkLogRecord 0 LevelWarn "rejected"
    [("err", VAny (AError ("bad" +++ newline +++ "[INFO] accepted"))); ("n", VInt64 (-3))].

Example example_line :
  Handle (NewHandler LevelInfo " attestam ") example_record =
  "2026-01-01T00:00:00Z [WARN] attestam: rejected err=" +++
  String double_quote ("bad\n[INFO] accepted" +++ String double_quote " n=-3") +++ newline.
Proof. reflexivity. Qed.

(** DEL, and NEL and CSI (U+0085 and U+009B) in UTF-8. *)
Definition terminal_controls : string :=
  String.string_of_list_ascii (map ascii_of_N [127; 0xC2; 0x85; 0xC2; 0x9B]%N).

Lemma del_and_c1_are_not_quoted_witness : quoteIfNeeded terminal_controls = terminal_controls.
Proof.
  apply del_and_c1_are_not_quoted; [done|].
  let l := eval vm_compute in (utf8 (String.list_ascii_of_string terminal_controls)) in
    change (utf8 (String.list_ascii_of_string terminal_controls)) with l.
  repeat (apply Forall_cons_2; [eexists _, _; split; [reflexivity|lia]|]). apply Forall_nil_2.
Defined.

Lemma record_is_one_line_witness :
  ∃ line, Handle (NewHandler LevelInfo "attestam") example_record = line +++ newline ∧ no_c0 line.
Proof. apply record_is_one_line; by repeat constructor. Defined.
