(* ===== verification/Startup.v ===== *)
(** Starting the server: the flags and environment of [cmd/attestam/main.go], the
    configuration of [internal/config/config.go], and [New] of
    [internal/server/server.go]. *)

From S2P Require Import Prelude GoText GoUrl GoFormat Model Db Wire Lib Rats Verifiers Demo Tam Server Logger.

(** ** Package flag *)

Inductive flag_value := FString (s : string) | FBool (b : bool) | FDuration (d : Z) | FInt (n : Z).

(** The flags by name with their values, and the names that were set. *)
Record FlagSet := mkFlagSet {
  formal : list (string * flag_value);
  actual : list string;
}.

(** [strconv.ParseBool]. *)
Definition ParseBool (s : string) : option bool :=
  if existsb (String.eqb s) ["1"; "t"; "T"; "true"; "TRUE"; "True"] then Some true
  else if existsb (String.eqb s) ["0"; "f"; "F"; "false"; "FALSE"; "False"] then Some false
  else None.

Definition flag_lookup (f : FlagSet) (name : string) : option flag_value :=
  snd <$> List.find (λ e, String.eqb name e.1) (formal f).

Definition flagWasSet (f : FlagSet) (name : string) : bool := existsb (String.eqb name) (actual f).

Section startup.
Context `{Platform} `{Lib}.

(** [Value.Set]. *)
Definition set_value (v : flag_value) (s : string) : option flag_value :=
  match v with
  | FString _ => Some (FString s)
  | FBool _ => FBool <$> ParseBool s
  | FDuration _ => FDuration <$> time_ParseDuration s
  | FInt _ => FInt <$> strconv_ParseInt s
  end.

(** [fv.Set(value)] and [f.actual[name] = flag]. *)
Definition set_flag (f : FlagSet) (name value : string) : option FlagSet :=
  v ← flag_lookup f name;
  v' ← set_value v value;
  Some (mkFlagSet (map (λ e, if String.eqb name e.1 then (e.1, v') else e) (formal f))
          (name :: actual f)).

(** An argument that starts with a dash, cut into name and value; [None] is bad syntax. *)
Definition cut_flag (s : string) : option (string * option string) :=
  let name := if HasPrefix s "--" then String.substring 2 (String.length s) s
              else String.substring 1 (String.length s) s in
  match name with
  | EmptyString => None
  | String c rest =>
      if (is_code 45 c || is_code 61 c)%bool then None
      else let '(before, after, found) := Cut 61 rest in
           Some (String c before, if found then Some after else None)
  end.

(** [flag.Parse]: an error, or a request for help, ends the program. *)
Fixpoint Parse_flags (args : list string) (f : FlagSet) : res error FlagSet :=
  let fails := Err (ErrorString "usage") in
  match args with
  | [] => Ok f
  | s :: rest =>
      if negb (HasPrefix s "-") || Nat.ltb (String.length s) 2 then Ok f
      else if String.eqb s "--" then Ok f
      else
        match cut_flag s with
        | None => fails
        | Some (name, value) =>
            match flag_lookup f name, value with
            | None, _ => fails
            | Some (FBool _), value =>
                match set_flag f name (default "true" value) with
                | Some f => Parse_flags rest f
                | None => fails
                end
            | Some _, Some value =>
                match set_flag f name value with
                | Some f => Parse_flags rest f
                | None => fails
                end
            | Some _, None =>
                match rest with
                | [] => fails
                | value :: rest =>
                    match set_flag f name value with
                    | Some f => Parse_flags rest f
                    | None => fails
                    end
                end
            end
        end
  end.

(** ** main.go *)

Definition envAddr : string := "ATTESTAM_ADDR".
Definition envTAMTEEPPrivateKeyPath : string := "ATTESTAM_TAM_TEEP_PRIVATE_KEY_PATH".
Definition envDBPath : string := "ATTESTAM_DB_PATH".
Definition envInsecureDemoMode : string := "ATTESTAM_INSECURE_DEMO_MODE".
Definition envChallengeServer : string := "ATTESTAM_CHALLENGE_SERVER".
Definition envChallengeContentType : string := "ATTESTAM_CHALLENGE_CONTENT_TYPE".
Definition envChallengeInsecureTLS : string := "ATTESTAM_CHALLENGE_INSECURE_TLS".
Definition envChallengeTimeout : string := "ATTESTAM_CHALLENGE_TIMEOUT".
Definition envIntelCollateralCacheDir : string := "ATTESTAM_INTEL_COLLATERAL_CACHE_DIR".
Definition envIntelCollateralServiceURL : string := "ATTESTAM_INTEL_COLLATERAL_SERVICE_URL".
Definition envIntelCollateralInsecureTLS : string := "ATTESTAM_INTEL_COLLATERAL_SERVICE_INSECURE_TLS".
Definition envIntelCollateralSubscriptionKey : string := "ATTESTAM_INTEL_COLLATERAL_SUBSCRIPTION_KEY".
Definition envLogLevel : string := "ATTESTAM_LOG_LEVEL".

Definition quoted (s : string) : string := String double_quote s +++ String double_quote EmptyString.

(** The flags [main] declares, with their defaults. *)
Definition main_flags : FlagSet := mkFlagSet
  [("addr", FString "localhost:8080");
   ("tam-teep-private-key-path", FString "");
   ("db-path", FString "tam_state.db");
   ("insecure-demo-mode", FBool false);
   ("challenge-server", FString "https://localhost:8443");
   ("challenge-content-type",
      FString ("application/eat+cwt; eat_profile=" +++ quoted "urn:ietf:rfc:rfc9711"));
   ("challenge-insecure-tls", FBool true);
   ("challenge-timeout", FDuration (60 * second));
   ("intel-collateral-cache-dir", FString "./");
   ("intel-collateral-service-url",
      FString "https://api.trustedservices.intel.com/sgx/certification/v4");
   ("intel-collateral-service-insecure-tls", FBool false);
   ("intel-collateral-subscription-key", FString "");
   ("log-level", FString "info")] [].

Definition flag_string (f : FlagSet) (name : string) : string :=
  match flag_lookup f name with Some (FString s) => s | _ => "" end.
Definition flag_bool (f : FlagSet) (name : string) : bool :=
  match flag_lookup f name with Some (FBool b) => b | _ => false end.
Definition flag_duration (f : FlagSet) (name : string) : Z :=
  match flag_lookup f name with Some (FDuration d) => d | _ => 0%Z end.

(** [LookupEnv] is the process's environment; [os.Exit(1)] is an error. *)
Variable LookupEnv : string → option string.

Definition exit_1 {A} : res error A := Err (ErrorString "exit status 1").

Definition stringFromEnv (envKey defaultValue : string) : string := default defaultValue (LookupEnv envKey).

Definition boolFromEnv (envKey : string) (defaultValue : bool) : res error bool :=
  match LookupEnv envKey with
  | None => Ok defaultValue
  | Some value => match ParseBool value with Some parsed => Ok parsed | None => exit_1 end
  end.

Definition durationFromEnv (envKey : string) (defaultValue : Z) : res error Z :=
  match LookupEnv envKey with
  | None => Ok defaultValue
  | Some value => match time_ParseDuration value with Some parsed => Ok parsed | None => exit_1 end
  end.

Definition resolveLogLevel (f : FlagSet) (cliValue flagName envKey : string) : res error Z :=
  if flagWasSet f flagName then ParseLevel cliValue
  else match LookupEnv envKey with
       | Some envValue => ParseLevel envValue
       | None => Ok DefaultLevel
       end.

(** ** config.go *)

Record TAMConfig := mkTAMConfig {
  Addr : string;
  DBPath : string;
  InsecureDemoMode : bool;
  TAMTEEPPrivateKeyPath : string;
  Config_Logger : option SlogLogger;
  ChallengeServerURL : string;
  ChallengeContentType : string;
  ChallengeInsecureTLS : bool;
  ChallengeTimeout : Z;
  Config_IntelCollateralCacheDir : string;
  Config_IntelCollateralServiceURL : string;
  Config_IntelCollateralInsecureTLS : bool;
  Config_IntelCollateralSubscriptionKey : string;
}.

(** [main], up to the call of [server.New]. *)
Definition main_config (args : list string) : res error TAMConfig :=
  f ← Parse_flags args main_flags;
  logLevel ← res_map_err (λ _, ErrorString "exit status 1")
               (resolveLogLevel f (flag_string f "log-level") "log-level" envLogLevel);
  let logger := NewNamed "attestam" logLevel in
  let addr := stringFromEnv envAddr (flag_string f "addr") in
  let privateKeyPath := stringFromEnv envTAMTEEPPrivateKeyPath (flag_string f "tam-teep-private-key-path") in
  let dbPath := stringFromEnv envDBPath (flag_string f "db-path") in
  insecureDemoMode ← boolFromEnv envInsecureDemoMode (flag_bool f "insecure-demo-mode");
  let challengeServer := stringFromEnv envChallengeServer (flag_string f "challenge-server") in
  let challengeContentType :=
    stringFromEnv envChallengeContentType (flag_string f "challenge-content-type") in
  challengeInsecureTLS ← boolFromEnv envChallengeInsecureTLS (flag_bool f "challenge-insecure-tls");
  challengeTimeout ← durationFromEnv envChallengeTimeout (flag_duration f "challenge-timeout");
  let cacheDir := stringFromEnv envIntelCollateralCacheDir (flag_string f "intel-collateral-cache-dir") in
  let serviceURL :=
    stringFromEnv envIntelCollateralServiceURL (flag_string f "intel-collateral-service-url") in
  collateralInsecureTLS ← boolFromEnv envIntelCollateralInsecureTLS
                            (flag_bool f "intel-collateral-service-insecure-tls");
  let subscriptionKey :=
    stringFromEnv envIntelCollateralSubscriptionKey (flag_string f "intel-collateral-subscription-key") in
  Ok (mkTAMConfig addr dbPath insecureDemoMode privateKeyPath (Some logger) challengeServer challengeContentType
        challengeInsecureTLS challengeTimeout cacheDir serviceURL collateralInsecureTLS subscriptionKey).

(** ** server.go *)

(** [Server]: the configuration, and the TAM its handler serves. *)
Record Server := mkServer {
  Server_cfg : TAMConfig;
  handler_tam : TAM;
}.

Definition ra_config (cfg : TAMConfig) : RAConfig :=
  mkRAConfig "" (ChallengeServerURL cfg) (ChallengeContentType cfg) (ChallengeInsecureTLS cfg)
    (ChallengeTimeout cfg) (Config_IntelCollateralCacheDir cfg) (Config_IntelCollateralServiceURL cfg)
    (Config_IntelCollateralInsecureTLS cfg) (Config_IntelCollateralSubscriptionKey cfg).

Definition New (cfg : TAMConfig) : M Server :=
  if negb (InsecureDemoMode cfg) && String.eqb (TAMTEEPPrivateKeyPath cfg) ""
  then throw (ErrorString "tam private key path is required outside insecure demo mode")
  else
    t ← (if InsecureDemoMode cfg then lift (NewDemoTAMWithRAConfig (ra_config cfg))
         else NewTAMWithRAConfig (TAMTEEPPrivateKeyPath cfg) (ra_config cfg));
    _ ← InitDB;
    _ ← (if InsecureDemoMode cfg then SeedDemoData else mret tt);
    mret (mkServer cfg t).

(** [main]: configure, construct and serve; [ListenAndServe] hands every request to the
    handler of the server that [New] made. *)
Definition main_server (args : list string) : M Server :=
  cfg ← lift (main_config args);
  map_err (λ _, ErrorString "exit status 1") (New cfg).

Definition serve (s : Server) (r : Request) : M Response := ServeHTTP (handler_tam s) r.
End startup.
