(* ===== verification/VerifierLog.v ===== *)
(** What the verifiers log: [renderDecodedVerifierResponse] and [logVerifierResponse] of
    [internal/infra/rats/verifier_client.go], [logNativeResult] of [intel_qvl_verifier.go],
    [logFetchResult] of [intel_qvl_pcs.go]. *)

From S2P Require Import Prelude GoText GoUrl GoFormat Model Db Wire Lib Suit Rats Qvl Logger.

(** ** The response of a challenge-response server *)

(** [m[key] = v]; the order of the keys does not matter to the encoder, which sorts them. *)
Definition set_key {V} (key : string) (v : V) (m : list (string * V)) : list (string * V) :=
  filter (λ e, e.1 ≠ key) m ++ [(key, v)].

Section response.
Context `{Lib}.

(** [json.Unmarshal] into a map: [None] is the nil map, which [null] leaves. *)
Definition decode_object (text : string) : res error (option (list (string * json))) :=
  match json_decode text with
  | Some (JObject m) => Ok (Some m)
  | Some JNull => Ok None
  | _ => Err (Wrapped "decode JSON" ErrLib)
  end.

(** The decoded evidence goes into the object it came in, where there is one. *)
Definition with_decoded_evidence (resp : AttestationResponse) (printable : list (string * json)) :
    list (string * json) :=
  match object_key "evidence" printable with
  | Some (JObject evidenceMap) =>
      match PrettyEvidence resp with
      | Ok prettyEvidence =>
          if String.eqb prettyEvidence "" then printable
          else match json_decode prettyEvidence with
               | Some decoded => set_key "evidence" (JObject (set_key "decoded" decoded evidenceMap)) printable
               | None => printable
               end
      | _ => printable
      end
  | _ => printable
  end.

(** Writing to a nil map panics. *)
Definition renderDecodedVerifierResponse (body : bytes) : res error string :=
  printable ← decode_object (string_of_bytes body);
  resp ← res_of_option (Wrapped "decode attestation response" ErrLib) (json_attestation_response body);
  let printable := with_decoded_evidence resp <$> printable in
  printable ← match PrettyResultJWT resp with
              | Ok (headerPretty, payloadPretty) =>
                  headerObj ← res_of_option (Wrapped "decode JWT header JSON" ErrLib) (json_decode headerPretty);
                  payloadObj ← res_of_option (Wrapped "decode JWT payload JSON" ErrLib) (json_decode payloadPretty);
                  match printable with
                  | None => Panic
                  | Some m => Ok (Some (set_key "result" (JObject [("header", headerObj); ("payload", payloadObj)]) m))
                  end
              | _ => Ok printable
              end;
  res_of_option (Wrapped "pretty print decoded response" ErrLib)
    (json_indent match printable with Some m => JObject m | None => JNull end).

(** The records of [logVerifierResponse]; [text] is the error's message.  A panic is one of
    [Process]. *)
Definition logVerifierResponse (text : error → string) (now : Z) (body : bytes) : res error (list LogRecord) :=
  match renderDecodedVerifierResponse body with
  | Ok decoded => Ok [mkLogRecord now LevelDebug "verifier response (decoded)" [("body", VString decoded)]]
  | Err err =>
      Ok [mkLogRecord now LevelDebug "verifier response body" [("body", VString (string_of_bytes body))];
          mkLogRecord now LevelDebug "failed to decode verifier response for pretty print"
            [("err", VAny (AError (text err)))]]
  | Panic => Panic
  | OutOfFuel => OutOfFuel
  end.
End response.

(** ** The result of the native library *)

(** [%x] of a number, with [fuel] digits at most. *)
Fixpoint hex_number (fuel : nat) (n : N) : string :=
  match fuel with
  | O => ""
  | S fuel => if N.ltb n 16 then String (hex_digit n) EmptyString
              else hex_number fuel (n / 16) +++ String (hex_digit (n mod 16)) EmptyString
  end.

Fixpoint zeros (n : nat) : string := match n with O => "" | S n => "0" +++ zeros n end.
Definition zero_padded (width : nat) (s : string) : string := zeros (width - String.length s) +++ s.

(** A [uint32] has at most 8 hexadecimal digits. *)
Definition format_x (n : Z) : string := hex_number 8 (Z.to_N n).
Definition format_04x (n : Z) : string := zero_padded 4 (format_x n).

Definition native_result_record (now : Z) (nativeResult : intelQVLNativeResult) (classification earStatus : string) :
    LogRecord :=
  mkLogRecord now LevelDebug "Intel QVL verification result"
    [("classification", VString classification); ("ear_status", VString earStatus);
     ("dcap_status", VString ("0x" +++ format_04x (dcapStatus nativeResult)));
     ("verification_result_name", VString (intelQVLVerificationResultName (verificationResult nativeResult)));
     ("verification_result", VString ("0x" +++ format_x (verificationResult nativeResult)));
     ("collateral_expiration_status", VUint64 (collateralExpirationStatus nativeResult));
     ("supplemental_data_size", VUint64 (supplementalDataSize nativeResult))].

(** ** The answers of Intel's collateral service *)

(** [truncateString] of [fmt]: a precision counts runes, and a byte that is not part of
    one counts as one. *)
Definition truncate_runes (n : nat) (s : string) : string :=
  String.string_of_list_ascii (concat (map bytes_of (take n (utf8 (String.list_ascii_of_string s))))).

(** [logFetchResult]; [status] is [resp.Status]. *)
Definition fetch_result_record `{Formats} (now : Z) (rawURL status : string) (body : bytes) : LogRecord :=
  mkLogRecord now LevelDebug "Intel collateral service fetch result"
    [("url", VString rawURL); ("status", VString status); ("body_len", VInt64 (len body));
     ("body", VString (Quote (truncate_runes 30 (string_of_bytes body))))].

Example dcap_status_text : format_04x 0xe001 = "e001" ∧ format_04x 7 = "0007" ∧ format_x 0 = "0".
Proof. by vm_compute. Qed.

(** ** Logging a response is harmless *)

Section harmless.
Context `{Lib}.

(** [null] decodes to the empty response, and what is printed decodes again. *)
Context (null_response : ∀ body resp,
  json_decode (string_of_bytes body) = Some JNull → json_attestation_response body = Some resp → Response_Result resp = "").
Context (indent_decodes : ∀ j text, json_indent j = Some text → json_decode text = Some j).

Lemma PrettyResultJWT_decodes resp h p :
  PrettyResultJWT resp = Ok (h, p) → is_Some (json_decode h) ∧ is_Some (json_decode p).
Proof using indent_decodes.
  unfold PrettyResultJWT. destruct (String.eqb _ _); [done|]. destruct (Split 46 _) as [|p0 [|p1 rest]]; [done..|].
  assert (∀ s t, decodeJWTSection s = Ok t → is_Some (json_decode t)) as Hd.
  { intros s t. unfold decodeJWTSection. destruct (base64_raw_url s) as [data|]; [|done]. simpl.
    destruct (json_decode (string_of_bytes data)) as [j|]; [|done]. simpl.
    destruct (json_indent j) as [text|] eqn:Ht; [|done]. intros [= <-]. by rewrite (indent_decodes _ _ Ht). }
  destruct (decodeJWTSection p0) as [t0| | |] eqn:H0; [|done..]. destruct (decodeJWTSection p1) as [t1| | |] eqn:H1; [|done..].
  intros [= <- <-]. split; by eapply Hd.
Qed.

(** Whatever the server sends, rendering it does not panic. *)
Lemma renderDecodedVerifierResponse_no_panic body : renderDecodedVerifierResponse body ≠ Panic.
Proof using Type*.
  unfold renderDecodedVerifierResponse, decode_object.
  destruct (json_decode _) as [[| | | | |m]|] eqn:Hj; simpl; try done;
    destruct (json_attestation_response body) as [resp|] eqn:Hr; simpl; try done.
  - pose proof (null_response _ _ Hj Hr) as Hres. unfold PrettyResultJWT. rewrite Hres. simpl. by destruct (json_indent _).
  - destruct (PrettyResultJWT resp) as [[h p]| | |] eqn:Hp; simpl; try (by destruct (json_indent _)).
    destruct (PrettyResultJWT_decodes _ _ _ Hp) as [[jh ->] [jp ->]]. simpl. by destruct (json_indent _).
Qed.
End harmless.
