(* ===== verification/Diag.v ===== *)
(** Diagnostic text: the [CBORDiagString] methods of [internal/tam/teep_message.go],
    [internal/suit] and [internal/util/cbor.go], and [PrintCOSEKey], with the log records
    they go into. *)

From stdpp Require Import pretty.
From S2P Require Import Prelude GoText GoUrl GoFormat Model Db Wire Lib Suit Teep Logger.
From Stdlib Require Import Ascii.

(** ** Helpers of [fmt] and [strings] *)

Definition dquote : string := String double_quote EmptyString.
Definition newline_text : string := String (ascii_of_N 10) EmptyString.

Fixpoint strings_Repeat (s : string) (n : nat) : string :=
  match n with O => "" | S n => s +++ strings_Repeat s n end.

(** [strings.ToUpper(hex.EncodeToString(b))]. *)
Definition hex_upper (b : bytes) : string := ToUpper_ascii (EncodeToString b).

(** ** util/cbor.go *)

(** [DiagList[T].CBORDiagString], the elements' method given. *)
Definition DiagList_CBORDiagString {T} (element : nat → T → string) (indent : nat) (l : list T) : string :=
  "[" +++ strings_Join ", " (map (element indent) l) +++ "]".

Definition BytesHexMax32_CBORDiagString (indent : nat) (b : bytes) : string :=
  if Nat.ltb 32 (length b) then "h'" +++ hex_upper (take 32 b) +++ "'/.../"
  else "h'" +++ hex_upper b +++ "'".

Definition DiagString_CBORDiagString (indent : nat) (d : string) : string := dquote +++ d +++ dquote.

(** The label and the value of a parameter of a COSE key, by dynamic type. *)
Inductive key_label := LabelInt (z : Z) | LabelString (s : string).
Inductive param_value :=
  | ParamNil | ParamString (s : string) | ParamBytes (b : bytes) | ParamBool (b : bool)
  | ParamStringer (s : string) | ParamOther (sprint : string).

#[export] Instance key_label_eq_dec : EqDecision key_label.
Proof. solve_decision. Defined.

(** The fields of [cose.Key] and its methods, which are go-cose's. *)
Class KeyFields `{Lib} := {
  key_Type : cose_key → Z;
  key_ID : cose_key → bytes;
  key_Alg : cose_key → Z;
  key_Ops : cose_key → list Z;
  key_BaseIV : cose_key → bytes;
  key_Params : cose_key → list (key_label * param_value);
  (** curve, x, y, d *)
  key_EC2 : cose_key → Z * bytes * bytes * bytes;
  (** curve, x, d *)
  key_OKP : cose_key → Z * bytes * bytes;
  key_Symmetric : cose_key → bytes;
  KeyType_String : Z → string;
  Curve_String : Z → string;
  Algorithm_String : Z → string;
  KeyOp_String : Z → string;
}.

Definition KeyTypeOKP : Z := 1.
Definition KeyTypeEC2 : Z := 2.
Definition KeyTypeSymmetric : Z := 4.
Definition AlgorithmReserved : Z := 0.

Definition stringifyCBORKey_label (label : key_label) : string :=
  match label with LabelString k => k | LabelInt z => pretty z end.

Definition stringifyCBORValue (value : param_value) : string :=
  match value with
  | ParamNil => "null"
  | ParamString v => DiagString_CBORDiagString 0 v
  | ParamBytes v => BytesHexMax32_CBORDiagString 0 v
  | ParamBool v => if v then "true" else "false"
  | ParamStringer v => DiagString_CBORDiagString 0 v
  | ParamOther v => v
  end.

Section keys.
Context `{KeyFields}.

(** [appendField] and the two functions around it, to the fields written so far. *)
Definition appendField (name value : string) (fields : list string) : list string :=
  if String.eqb value "" then fields else fields ++ [dquote +++ name +++ dquote +++ ":" +++ value].

Definition appendDiagString (name value : string) (fields : list string) : list string :=
  if String.eqb value "" then fields else appendField name (DiagString_CBORDiagString 0 value) fields.

Definition appendBytes (name : string) (value : bytes) (fields : list string) : list string :=
  match value with [] => fields | _ => appendField name (BytesHexMax32_CBORDiagString 0 value) fields end.

Definition skipParamLabels (ty : Z) : list key_label :=
  if Z.eqb ty KeyTypeEC2 then [LabelInt (-1); LabelInt (-2); LabelInt (-3); LabelInt (-4)]
  else if Z.eqb ty KeyTypeOKP then [LabelInt (-1); LabelInt (-2); LabelInt (-4)]
  else [].

Definition label_le (a b : string * string) : Prop := String.leb a.1 b.1 = true.
#[export] Instance label_le_dec a b : Decision (label_le a b).
Proof using Type. unfold label_le. apply _. Defined.

(** The parameters that are not among the fields, by label. *)
Definition param_entries (key : cose_key) : list (string * string) :=
  merge_sort label_le
    (omap (λ p, if decide (p.1 ∈ skipParamLabels (key_Type key)) then None
                else Some (stringifyCBORKey_label p.1, stringifyCBORValue p.2)) (key_Params key)).

Definition key_material (key : cose_key) (fields : list string) : list string :=
  if Z.eqb (key_Type key) KeyTypeEC2 then
    let '(crv, x, y, d) := key_EC2 key in
    appendBytes "d" d (appendBytes "y" y (appendBytes "x" x
      (appendDiagString "crv" (Curve_String crv) fields)))
  else if Z.eqb (key_Type key) KeyTypeOKP then
    let '(crv, x, d) := key_OKP key in
    appendBytes "d" d (appendBytes "x" x (appendDiagString "crv" (Curve_String crv) fields))
  else if Z.eqb (key_Type key) KeyTypeSymmetric then appendBytes "k" (key_Symmetric key) fields
  else fields.

Definition key_fields (key : cose_key) : list string :=
  let fields := appendDiagString "kty" (KeyType_String (key_Type key)) [] in
  let fields := key_material key fields in
  let fields := appendBytes "kid" (key_ID key) fields in
  let fields := if negb (Z.eqb (key_Alg key) AlgorithmReserved)
                then appendDiagString "alg" (Algorithm_String (key_Alg key)) fields else fields in
  let fields := match key_Ops key with
                | [] => fields
                | ops => appendField "key_ops"
                           ("[" +++ strings_Join "," (map (λ op, DiagString_CBORDiagString 0 (KeyOp_String op)) ops)
                              +++ "]") fields
                end in
  let fields := appendBytes "base_iv" (key_BaseIV key) fields in
  fold_left (λ fields e, appendField e.1 e.2 fields) (param_entries key) fields.

Definition PrintCOSEKey (key : option cose_key) : string :=
  match key with
  | None => "null"
  | Some key => "{" +++ strings_Join "," (key_fields key) +++ "}"
  end.
End keys.

(** ** internal/suit *)

Section suit.
Context `{Formats} `{Lib}.

Definition isPrintableUTF8 (b : bytes) : bool :=
  forallb (λ t, match t with TInvalid _ => false | TRune r _ => IsPrint r end)
    (utf8 (String.list_ascii_of_string (string_of_bytes b))).

Definition ValidString (s : string) : bool :=
  forallb (λ t, match t with TInvalid _ => false | TRune _ _ => true end) (utf8 (String.list_ascii_of_string s)).

Definition ComponentIDBytes_CBORDiagString (indent : nat) (c : option bytes) : string :=
  let utf8EncodedString := string_of_bytes (slice c) in
  if (ValidString utf8EncodedString && isPrintableUTF8 (slice c))%bool then "'" +++ utf8EncodedString +++ "'"
  else "h'" +++ EncodeToString (slice c) +++ "'".

Definition ComponentID_CBORDiagString (indent : nat) (c : ComponentID) : string :=
  "[" +++ strings_Join ", " (map (ComponentIDBytes_CBORDiagString indent) (slice c)) +++ "]".

Definition Digest_CBORDiagString (indent : nat) (d : Digest) : string :=
  "[" +++ pretty (DigestAlg d) +++ ", h'" +++ hex_upper (slice (DigestBytes d)) +++ "']".

Definition COSEProfile_CBORDiagString (indent : nat) (p : COSEProfile) : string :=
  "[" +++ pretty (Profile_DigestAlg p) +++ ", " +++ pretty (Profile_AuthAlg p) +++ ", "
    +++ pretty (Profile_KeyExchangeAlg p) +++ ", " +++ pretty (Profile_EncryptionAlg p) +++ "]".

(** Lines between braces, the closing one at the outer indentation. *)
Definition braces (indent : nat) (lines : list string) : string :=
  "{" +++ newline_text +++ strings_Join ("," +++ newline_text) lines +++ newline_text
    +++ strings_Repeat "  " indent +++ "}".

Definition SystemPropertyClaims_CBORDiagString (indent : nat) (s : SystemPropertyClaims) : string :=
  let pad2 := strings_Repeat "  " (S indent) in
  braces indent
    (match slice (SystemComponentID s) with
     | [] => []
     | _ => [pad2 +++ "/ system-component-id / 0: " +++ ComponentID_CBORDiagString (S indent) (SystemComponentID s)]
     end ++
     match slice (ImageDigest s) with
     | [] => []
     | d => match cbor_digest d with
            | Some digest => [pad2 +++ "/ image-digest / 3: << " +++ Digest_CBORDiagString (S indent) digest +++ " >>"]
            | None => []
            end
     end ++
     (if negb (Z.eqb (ImageSize s) 0) then [pad2 +++ "/ image-size / 14: " +++ pretty (ImageSize s)] else [])).
End suit.

(** ** internal/tam/teep_message.go *)

Definition TEEPMessageType_CBORDiagString (indent : nat) (t : Z) : string :=
  if Z.eqb t TEEPTypeQueryRequest then "1 / query-request /"
  else if Z.eqb t TEEPTypeQueryResponse then "2 / query-response /"
  else if Z.eqb t TEEPTypeUpdate then "3 / update /"
  else if Z.eqb t TEEPTypeSuccess then "4 / success /"
  else if Z.eqb t TEEPTypeError then "5 / error /"
  else unknown_code t.

Definition number_CBORDiagString (indent : nat) (v : Z) : string := pretty v.

Definition DataItemRequested_CBORDiagString (indent : nat) (v : Z) : string :=
  let items :=
    (if AttestationRequested v then ["attestation"] else []) ++
    (if TCListRequested v then ["tc-list"] else []) ++
    (if ExtensionsRequested v then ["extensions"] else []) ++
    (if SUITReportsRequested v then ["suit-reports"] else []) in
  match items with
  | [] => "0 / none /"
  | _ => pretty v +++ " / " +++ strings_Join " | " items +++ " /"
  end.

Definition TEEPErrCode_CBORDiagString (indent : nat) (e : Z) : string :=
  match e with
  | 1 => "1 / ERR_PERMANENT_ERROR /"
  | 2 => "2 / ERR_UNSUPPORTED_EXTENSION /"
  | 3 => "3 / ERR_UNSUPPORTED_FRESHNESS_MECHANISMS /"
  | 4 => "4 / ERR_UNSUPPORTED_MSG_VERSION /"
  | 5 => "5 / ERR_UNSUPPORTED_CIPHER_SUITES /"
  | 6 => "6 / ERR_BAD_CERTIFICATE /"
  | 7 => "7 / ERR_ATTESTATION_REQUIRED /"
  | 8 => "8 / ERR_UNSUPPORTED_SUIT_REPORT /"
  | 9 => "9 / ERR_CERTIFICATE_EXPIRED /"
  | 10 => "10 / ERR_TEMPORARY_ERROR /"
  | 11 => "11 / ERR_MANIFEST_PROCESSING_FAILED /"
  | _ => unknown_code e
  end%Z.

Definition TEEPCipherSuite_CBORDiagString (indent : nat) (c : TEEPCipherSuite) : string :=
  "[" +++ pretty (Suite_Type c) +++ ", " +++ pretty (Suite_Algorithm c) +++ "]".

Definition TEEPCipherSuites_CBORDiagString (indent : nat) (c : list TEEPCipherSuite) : string :=
  "[" +++ strings_Join ", " (map (TEEPCipherSuite_CBORDiagString indent) c) +++ "]".

Section teep.
Context `{Formats} `{Lib}.

Definition RequestedTCInfo_CBORDiagString (indent : nat) (r : RequestedTCInfo) : string :=
  let pad2 := strings_Repeat "  " (S indent) in
  braces indent
    ([pad2 +++ "/ component-id / 15: " +++ ComponentID_CBORDiagString 0 (Requested_ComponentID r)] ++
     match TCManifestSequenceNumber r with
     | Some n => [pad2 +++ "/ tc-manifest-sequence-number / 16: " +++ pretty n]
     | None => []
     end ++
     match HaveBinary r with
     | Some b => [pad2 +++ "/ have-binary / 17: " +++ (if b then "true" else "false")]
     | None => []
     end).

(** One option of a message: nothing when it is nil. *)
Definition option_line {T} (pad name : string) (render : T → string) (o : option T) : list string :=
  match o with None => [] | Some x => [pad +++ "/ " +++ name +++ ": " +++ render x] end.

Definition TEEPOptions_CBORDiagString (indent : nat) (o : TEEPOptions) : string :=
  let pad2 := strings_Repeat "  " (S indent) in
  let i := S indent in
  let bytes_list := DiagList_CBORDiagString BytesHexMax32_CBORDiagString i in
  braces indent
    (option_line pad2 "supported-teep-cipher-suites / 1"
       (DiagList_CBORDiagString (DiagList_CBORDiagString TEEPCipherSuite_CBORDiagString) i)
       (Opt_SupportedTEEPCipherSuites o) ++
     option_line pad2 "challenge / 2" (BytesHexMax32_CBORDiagString i) (Opt_Challenge o) ++
     option_line pad2 "versions / 3" (DiagList_CBORDiagString number_CBORDiagString i) (Opt_Versions o) ++
     option_line pad2 "supported-suit-cose-profiles / 4"
       (DiagList_CBORDiagString COSEProfile_CBORDiagString i) (Opt_SupportedSUITCOSEProfiles o) ++
     option_line pad2 "selected-version / 5" (λ v : Z, pretty v) (Opt_SelectedVersion o) ++
     option_line pad2 "attestation-payload / 6" (BytesHexMax32_CBORDiagString i) (Opt_AttestationPayload o) ++
     option_line pad2 "tc-list / 7"
       (DiagList_CBORDiagString SystemPropertyClaims_CBORDiagString i) (Opt_TCList o) ++
     option_line pad2 "ext-list / 8" (DiagList_CBORDiagString number_CBORDiagString i) (Opt_ExtList o) ++
     option_line pad2 "manifest-list / 9" bytes_list (Opt_ManifestList o) ++
     option_line pad2 "msg / 10" (DiagString_CBORDiagString i) (Opt_Msg o) ++
     option_line pad2 "err-msg / 11" (DiagString_CBORDiagString i) (Opt_ErrMsg o) ++
     option_line pad2 "attestation-payload-format / 12" (DiagString_CBORDiagString i)
       (Opt_AttestationPayloadFormat o) ++
     option_line pad2 "requested-tc-list / 13"
       (DiagList_CBORDiagString RequestedTCInfo_CBORDiagString i) (Opt_RequestedTCList o) ++
     option_line pad2 "unneeded-manifest-list / 14" bytes_list (Opt_UnneededManifestList o) ++
     option_line pad2 "suit-reports / 18" bytes_list (Opt_SUITReports o) ++
     option_line pad2 "token / 19" (BytesHexMax32_CBORDiagString i) (Opt_Token o) ++
     option_line pad2 "supported-freshness-mechanisms / 20"
       (DiagList_CBORDiagString number_CBORDiagString i) (Opt_SupportedFreshnessMechanisms o) ++
     option_line pad2 "err-lang / 21" (DiagString_CBORDiagString i) (Opt_ErrLang o) ++
     option_line pad2 "err-code / 22" (TEEPErrCode_CBORDiagString i) (Opt_ErrCode o)).

Definition TEEPMessage_CBORDiagString (indent : nat) (m : TEEPMessage) : string :=
  let pad1 := strings_Repeat "  " indent in
  let pad2 := strings_Repeat "  " (S indent) in
  strings_Join ("," +++ newline_text)
    (["/ TEEPMessage: / [" +++ newline_text +++ pad2 +++ "/ type: / " +++ TEEPMessageType_CBORDiagString 0 (TEEP_Type m);
      pad2 +++ "/ options: / " +++ TEEPOptions_CBORDiagString (S indent) (TEEP_Options m)] ++
     if Z.eqb (TEEP_Type m) TEEPTypeQueryRequest then
       [pad2 +++ "/ supported-teep-cipher-suites: / " +++
          DiagList_CBORDiagString (DiagList_CBORDiagString TEEPCipherSuite_CBORDiagString) 0
            (slice (TEEP_SupportedTEEPCipherSuites m));
        pad2 +++ "/ supported-suit-cose-profiles: / " +++
          DiagList_CBORDiagString COSEProfile_CBORDiagString 0 (slice (TEEP_SupportedSUITCOSEProfiles m));
        pad2 +++ "/ data-item-requested: / " +++ DataItemRequested_CBORDiagString 0 (TEEP_DataItemRequested m)]
     else if Z.eqb (TEEP_Type m) TEEPTypeError then
       [pad2 +++ "/ err-code: / " +++ TEEPErrCode_CBORDiagString 0 (TEEP_ErrCode m)]
     else [])
  +++ newline_text +++ pad1 +++ "]".

(** ** Records *)

(** What reaches the output: [slog] asks [Enabled] first. *)
Definition logged (h : Handler) (r : LogRecord) : option string :=
  if Enabled (Some h) (Record_Level r) then Some (Handle h r) else None.

(** What [newTAMFromKeyBytes] logs about the key it has loaded ([kid] is nil when the
    thumbprint fails), and what [ResolveTEEPMessage] logs about a message. *)
Definition loaded_key_record `{!KeyFields} (now : Z) (key : cose_key) : LogRecord :=
  mkLogRecord now LevelDebug "loaded TAM key"
    [("cose_key", VString (PrintCOSEKey (Some key)));
     ("kid", VString (BytesHexMax32_CBORDiagString 0 (slice (key_Thumbprint key))))].

(** What [newTAMFromKeyBytes] writes. *)
Definition newTAM_log `{!KeyFields} (h : Handler) (now : Z) (keyBytes : bytes) : list string :=
  match cbor_key keyBytes with
  | Some key => match logged h (loaded_key_record now key) with Some text => [text] | None => [] end
  | None => []
  end.

Definition received_record (now : Z) (m : TEEPMessage) : LogRecord :=
  mkLogRecord now LevelDebug (TEEPMessage_CBORDiagString 0 m) [].

(** [logReply] of [internal/server/handler.go]: the records of an answer.  [text] is the
    message of an error; the text is cyan, between two escape sequences. *)
Definition ansi_escape (s : string) : string := String (ascii_of_N 27) ("[" +++ s).

Definition logReply (text : error → string) (now : Z) (responseBody : bytes) : res error (list LogRecord) :=
  match Sign1_UnmarshalCBOR responseBody with
  | None => Ok [mkLogRecord now LevelError "failed to parse response COSE_Sign1 message"
                  [("err", VAny (AError (text ErrLib)))]]
  | Some sign1 =>
      match Unmarshal_TEEPMessage (slice (Sign1_Payload sign1)) with
      | Ok m =>
          Ok [mkLogRecord now LevelInfo
                (ansi_escape "36mreturning TEEP " +++ TEEPMessageType_String (TEEP_Type m) +++ ansi_escape "0m") [];
              mkLogRecord now LevelDebug (TEEPMessage_CBORDiagString 0 m) []]
      | Err err => Ok [mkLogRecord now LevelError "failed to parse response TEEP Message"
                         [("err", VAny (AError (text err)))]]
      | Panic => Panic
      | OutOfFuel => OutOfFuel
      end
  end.
End teep.
