(* ===== verification/Console.v ===== *)
(** The admin console: [cmd/admin-console], a web front end that asks a TAM over HTTP.

    Its only state is the cache of agents per TAM ([tamDeviceCaches]).  What an exchange with
    the TAM does is a parameter, a program over the rest of the world, so that a console and
    a server can be run together, step by step. *)

From stdpp Require Import pretty.
From S2P Require Import Prelude GoText GoUrl GoFormat Model Db Wire Lib Suit Rats Tam Server Logger Startup Diag.

(** What the console takes from packages outside the repository. *)
Class ConsoleLib := {
  (** [cbor.Unmarshal] and [cbor.Marshal] at the types of the console *)
  cbor_overviews : bytes → option (list SuitManifestOverview);
  cbor_status_keys : bytes → option (list (bytes * Z));
  cbor_status_records : bytes → option (list AgentStatusRecord);
  cbor_component_id : bytes → option ComponentID;
  Marshal_kids : list bytes → option bytes;
  cbor_Diagnose : bytes → option string;
  (** [json.Encoder] with an indentation of two spaces *)
  json_Encode : json → bytes;
  base64_RawURLEncoding : bytes → string;
  Format_RFC3339 : Z → string;
  (** the text of an error, and [resp.Status] *)
  Error_text : error → string;
  Status_text : HttpResponse → string;
  (** [ParseMultipartForm] and [FormFile("file")]: no form; no such file; its name and
      content, which cannot be read to the end if it is [None] *)
  multipart_file : Request → option (option (string * option bytes));
  (** pages, scripts and styles *)
  asset : Request → Response;
}.

(** ** types.go *)

Record TrustedComponent := mkTrustedComponent { TC_Name : ComponentID; TC_Version : Z }.

(** [Agent]; [InstalledTCList] is nil when there is none. *)
Record ConsoleAgent := mkConsoleAgent {
  Console_KID : bytes;
  LastUpdate : Z;
  Attributes_Ueid : bytes;
  InstalledTCList : option (list TrustedComponent);
}.

Section types.
Context `{Formats} `{Lib} `{ConsoleLib}.

Definition componentIDDisplayName (id : ComponentID) : string :=
  match slice id with [] => "" | _ => ComponentID_CBORDiagString 0 id end.

Definition TrustedComponent_MarshalJSON (w : TrustedComponent) : json :=
  JObject [("name", JString (componentIDDisplayName (TC_Name w))); ("version", JNumber (pretty (TC_Version w)))].

Definition Attribute_MarshalJSON (ueid : bytes) : json := JObject [("ueid", JString (EncodeToString ueid))].

Definition formatUpdatedAt (t : Z) : string := Format_RFC3339 t.

Definition Agent_MarshalJSON (a : ConsoleAgent) : json :=
  JObject [("kid", JString (base64_RawURLEncoding (Console_KID a)));
           ("last_update", JString (formatUpdatedAt (LastUpdate a)));
           ("attribute", Attribute_MarshalJSON (Attributes_Ueid a));
           ("installed-tc",
              match InstalledTCList a with
              | None => JNull
              | Some l => JArray (map TrustedComponent_MarshalJSON l)
              end)].

(** ** agent_codec.go and manifest_codec.go *)

Definition decodeCBORComponentID (raw : bytes) : option ComponentID :=
  match cbor_component_id raw with
  | Some id => match slice id with [] => None | _ => Some id end
  | None => None
  end.

(** An overview whose component cannot be decoded is left out. *)
Definition component_of_overview (m : SuitManifestOverview) : option TrustedComponent :=
  name ← decodeCBORComponentID (Overview_TrustedComponentID m);
  Some (mkTrustedComponent name (Overview_SequenceNumber m)).

Definition agent_of_record (record : AgentStatusRecord) : ConsoleAgent :=
  let '(kid, (ueid, manifests)) := record in
  mkConsoleAgent kid zero_time (slice ueid)
    (match slice manifests with [] => None | l => Some (omap component_of_overview l) end).

Definition decodeAgentsFromCBOR (body : bytes) : res error (list ConsoleAgent) :=
  res_map (map agent_of_record)
    (res_of_option (Wrapped "failed to unmarshal CBOR device list" ErrLib) (cbor_status_records body)).

Definition decodeManifestsFromCBOR (body : bytes) : res error (list TrustedComponent) :=
  res_map (omap component_of_overview)
    (res_of_option (Wrapped "failed to unmarshal CBOR" ErrLib) (cbor_overviews body)).
End types.

(** ** http_utils.go *)

Definition no_store_headers : list (string * string) :=
  [("Cache-Control", "no-store, max-age=0"); ("Pragma", "no-cache"); ("Expires", "0")].

Definition respondJSON `{ConsoleLib} (v : json) : Response :=
  mkResponse StatusOK (no_store_headers ++ [("Content-Type", "application/json; charset=utf-8")]) (json_Encode v).

Definition cors_headers : list (string * string) :=
  [("Access-Control-Allow-Origin", "*"); ("Access-Control-Allow-Methods", "GET, POST, OPTIONS");
   ("Access-Control-Allow-Headers", "Content-Type")].

Definition with_headers (headers : list (string * string)) (r : Response) : Response :=
  mkResponse (Resp_Status r) (headers ++ Resp_Headers r) (Resp_Body r).

(** ** config.go *)

Record AppConfig := mkAppConfig {
  Server_Port : Z;
  TAMAPIBase : string;
  TAMAPIDebug : bool;
  App_LogLevel : Z;
}.

Definition envConsoleLogLevel : string := "ATTESTAM_CONSOLE_LOG_LEVEL".

Definition console_flags : FlagSet := mkFlagSet
  [("port", FInt 9090); ("tam-api-base", FString "http://127.0.0.1:8080/"); ("tam-api-debug", FBool false);
   ("log-level", FString "info")] [].

Definition flag_int (f : FlagSet) (name : string) : Z :=
  match flag_lookup f name with Some (FInt n) => n | _ => 0%Z end.

Section config.
Context `{Lib} (LookupEnv : string → option string).

Definition consoleFlagWasSet (f : FlagSet) (name : string) : bool := existsb (String.eqb name) (actual f).

(** [exists_] is [os.Stat] without an error. *)
Definition resolvePath (exists_ : string → bool) (rel : string) : string :=
  default rel (List.find exists_ [rel; Join ["cmd"; "admin-console"; rel]]).

Definition resolveConsoleLogLevel (f : FlagSet) (cliValue : string) : res error Z :=
  if consoleFlagWasSet f "log-level" then ParseLevel cliValue
  else match LookupEnv envConsoleLogLevel with
       | Some envValue => ParseLevel envValue
       | None => Ok DefaultLevel
       end.

Definition loadConfigFromFlags (args : list string) : res error AppConfig :=
  f ← Parse_flags args console_flags;
  level ← res_map_err (λ _, ErrorString "exit status 1")
            (resolveConsoleLogLevel f (flag_string f "log-level"));
  Ok (mkAppConfig (flag_int f "port") (flag_string f "tam-api-base") (flag_bool f "tam-api-debug") level).

Definition validateConfig (cfg : AppConfig) : res error unit :=
  if String.eqb (TAMAPIBase cfg) "" then Err (ErrorString "tam-api-base is required") else Ok tt.
End config.

(** ** tam_api_debug.go *)

Section debug.
Context `{Formats} `{ConsoleLib}.

Definition isPrintableASCII (body : bytes) : bool :=
  forallb (λ b, let n := Byte.to_N b in
    (N.eqb n 10 || N.eqb n 13 || N.eqb n 9 || (N.leb 0x20 n && N.leb n 0x7e))%bool) body.

(** [strings.ReplaceAll(s, newline, newline and two spaces)]. *)
Fixpoint indent_lines (s : string) : string :=
  match s with
  | EmptyString => EmptyString
  | String c s' => if is_code 10 c then String c ("  " +++ indent_lines s') else String c (indent_lines s')
  end.

Definition indentBody (body : string) : string := "  " +++ indent_lines body.

Definition formatBodyForDebug (contentType : string) (body : bytes) : string :=
  match body with
  | [] => "<empty>"
  | _ =>
      let text := if isPrintableASCII body then string_of_bytes body else EncodeToString body in
      if (HasPrefix contentType "application/cbor" || Contains contentType "+cbor")%bool
      then default text (cbor_Diagnose body) else text
  end.

(** Headers by name; each has one value here. *)
Definition header_le (a b : string * string) : Prop := String.leb a.1 b.1 = true.
#[export] Instance header_le_dec a b : Decision (header_le a b).
Proof using Type. unfold header_le. apply _. Defined.

Definition formatHTTPMessage (method url : string) (header : list (string * string)) (body : bytes)
    (redactedBody : string) : string :=
  strings_Join newline_text
    ((if String.eqb method "" && String.eqb url "" then [] else [method +++ " " +++ url]) ++
     map (λ e, e.1 +++ ": " +++ e.2) (merge_sort header_le header) ++
     ["body:";
      if negb (String.eqb redactedBody "") then "  " +++ redactedBody
      else indentBody (formatBodyForDebug (Header_Get header "Content-Type") body)]).

(** The file name travels in the request's context. *)
Definition redactedBodyPlaceholder (method path : string) (filename : option string) : string :=
  if (String.eqb method "POST" && HasSuffix path "/SUITManifestService/RegisterManifest")%bool then
    match filename with
    | Some f => if String.eqb f "" then "<omitted>" else "<omitted: " +++ f +++ ">"
    | None => "<omitted>"
    end
  else "".

(** The two records of [tamAPILoggingRoundTripper.RoundTrip]; [status] is [resp.Status]. *)
Definition request_record (now : Z) (path : string) (filename : option string) (req : HttpRequest) : LogRecord :=
  mkLogRecord now LevelDebug "TAM API request"
    [("message", VString (formatHTTPMessage (Http_Method req) (Http_URL req) (Http_Header req) (Http_Body req)
        (redactedBodyPlaceholder (Http_Method req) path filename)))].

Definition response_record (now : Z) (status : string) (resp : HttpResponse) : LogRecord :=
  mkLogRecord now LevelDebug "TAM API response"
    [("status", VString status);
     ("message", VString (formatHTTPMessage "" "" (Http_ResponseHeader resp) (slice (Http_ResponseBody resp)) ""))].
End debug.

(** ** The state *)

Record cachedAgent := mkCachedAgent { cached_agent : ConsoleAgent; cached_lastUpdate : Z }.

(** [tamDeviceCaches]: per base, the agents by key id. *)
Definition Caches : Type := gmap string (gmap bytes cachedAgent).

(** The console, and the rest of the world. *)
Record System := mkSystem { sys_world : World; sys_caches : Caches }.

Definition with_caches (c : Caches) (s : System) : System := mkSystem (sys_world s) c.
Definition with_world (w : World) (s : System) : System := mkSystem w (sys_caches s).

Abbreviation CM A := (Prog error System A).

(** A program of the rest of the world, as a part of the whole. *)
Fixpoint zoom {A} (p : M A) : CM A :=
  match p with
  | Done r => Done r
  | Step upd k => Step (λ s, with_world (upd (sys_world s)) s) (λ s, zoom (k (sys_world s)))
  end.

(** What is done with the caches under a lock. *)
Definition locked {A} (f : Caches → A * Caches) : CM A :=
  Step (λ s, with_caches (f (sys_caches s)).2 s) (λ s, Done (Ok (f (sys_caches s)).1)).

Lemma run_zoom {A} (p : M A) s :
  run (zoom p) s = ((run p (sys_world s)).1, with_world (run p (sys_world s)).2 s).
Proof. revert s. induction p as [r|upd k IH]; intros s; simpl; [by destruct s|by rewrite IH]. Qed.

Lemma run_locked {A} (f : Caches → A * Caches) s :
  run (locked f) s = (Ok (f (sys_caches s)).1, with_caches (f (sys_caches s)).2 s).
Proof. done. Qed.

(** An exchange with a server: the file name in the request's context, the client, the request. *)
Abbreviation Exchange := (option string → HttpClient → HttpRequest → M HttpResponse).

Section transport.
Context `{Formats} `{Lib} `{ConsoleLib}.

(** [tamAPILoggingRoundTripper.RoundTrip] at the time [now], with the records it logs; a body
    that was read is put back. *)
Definition RoundTrip (now : Z) (filename : option string) (next : HttpRequest → M HttpResponse) (req : HttpRequest) :
    M (list LogRecord * (HttpResponse + error)) :=
  let path := match url_Parse (Http_URL req) with Some u => URL_Path u | None => "" end in
  let request := request_record now path filename req in
  resp ← try (next req);
  mret match resp with
       | inr err =>
           ([request; mkLogRecord now LevelDebug "TAM API response error"
               [("method", VString (Http_Method req)); ("url", VString (Http_URL req)); ("err", VAny (AError (Error_text err)))]],
            inr err)
       | inl resp =>
           match Http_ResponseBody resp with
           | None => ([request], inr (Wrapped "read response body for debug logging" ErrLib))
           | Some _ => ([request; response_record now (Status_text resp) resp], inl resp)
           end
       end.

(** The transport that [newTAMAPIClient] sets: what the records say is left out here. *)
Definition tamAPITransport (debug : bool) (exchange : Exchange) : Exchange := λ filename client req,
  if debug then
    out ← RoundTrip zero_time filename (exchange filename client) req;
    lift match out.2 with inl resp => Ok resp | inr err => Err err end
  else exchange filename client req.
End transport.

(** [strings.TrimRight(s, "/")]. *)
Definition TrimRight_slash (s : string) : string := trim_right 47 s.

Section console.
Context `{Formats} `{Lib} `{ConsoleLib}.

Context (exchange : Exchange).

Definition newTAMAPIClient : HttpClient := mkHttpClient (12 * second) false.

(** [client.Do] of a request with a file name in its context. *)
Definition client_Do (filename : option string) (client : HttpClient) (req : HttpRequest) : CM HttpResponse :=
  zoom (exchange filename client req).

(** [tamDeviceCaches.byBase[base]], made when it is missing. *)
Definition getTAMDevicesCache (base : string) : CM unit :=
  locked (λ c, (tt, match c !! base with Some _ => c | None => <[base := ∅]> c end)).

Definition success (resp : HttpResponse) : bool :=
  (Z.leb 200 (Http_StatusCode resp) && Z.ltb (Http_StatusCode resp) 300)%bool.

Definition status_text (resp : HttpResponse) : string :=
  "status " +++ pretty (Http_StatusCode resp) +++ " from TAM API".

(** The exchange that the three reading calls have in common, up to the decoding. *)
Definition fetch_cbor (client : HttpClient) (req : HttpRequest) : CM bytes :=
  resp ← client_Do None client req;
  let contentType := Header_Get (Http_ResponseHeader resp) "Content-Type" in
  if negb (success resp) then throw (ErrorString (status_text resp))
  else if negb (HasPrefix contentType "application/cbor") then
    throw (ErrorString ("unsupported response Content-Type " +++ Quote contentType +++ " from TAM API"))
  else lift (res_of_option (Wrapped "failed to read body" ErrLib) (Http_ResponseBody resp)).

Definition fetchTAMListAgents (base : string) (client : HttpClient) : CM (list (bytes * Z)) :=
  let url := TrimRight_slash base +++ "/AgentService/ListAgents" in
  req ← lift (NewRequest "GET" url [("Accept", "application/cbor")] []);
  body ← fetch_cbor client req;
  lift (res_of_option (Wrapped "failed to decode ListAgents cbor" ErrLib) (cbor_status_keys body)).

Definition fetchTAMGetAgentStatus (base : string) (client : HttpClient) (kids : list bytes) : CM (list ConsoleAgent) :=
  let url := TrimRight_slash base +++ "/AgentService/GetAgentStatus" in
  body ← lift (res_of_option (Wrapped "failed to encode GetAgentStatus request" ErrLib) (Marshal_kids kids));
  req ← lift (NewRequest "POST" url [("Accept", "application/cbor"); ("Content-Type", "application/cbor")] body);
  raw ← fetch_cbor client req;
  lift (decodeAgentsFromCBOR raw).

Definition with_last_update (t : Z) (a : ConsoleAgent) : ConsoleAgent :=
  mkConsoleAgent (Console_KID a) t (Attributes_Ueid a) (InstalledTCList a).

(** The update of a cache: the agents that were fetched, and none that is not listed. *)
Definition refresh (lastUpdatedByKID : gmap bytes Z) (agents : list ConsoleAgent) (c : gmap bytes cachedAgent) :
    gmap bytes cachedAgent :=
  filter (λ e, is_Some (lastUpdatedByKID !! e.1))
    (fold_left (λ c a, <[Console_KID a := mkCachedAgent a (default zero_time (lastUpdatedByKID !! Console_KID a))]> c)
       agents c).

Definition fetchTAMDevices (base : string) : CM (list ConsoleAgent) :=
  let client := newTAMAPIClient in
  keys ← fetchTAMListAgents base client;
  _ ← getTAMDevicesCache base;
  let listed := filter (λ key, key.1 ≠ []) keys in
  let orderedKIDs := map fst listed in
  let lastUpdatedByKID : gmap bytes Z := fold_left (λ m key, <[key.1 := key.2]> m) listed ∅ in
  match orderedKIDs with
  | [] => _ ← locked (λ c, (tt, <[base := ∅]> c)); mret []
  | _ =>
      agents ← fetchTAMGetAgentStatus base client orderedKIDs;
      let agents := map (λ a, with_last_update (default zero_time (lastUpdatedByKID !! Console_KID a)) a) agents in
      _ ← locked (λ c, (tt, <[base := refresh lastUpdatedByKID agents (default ∅ (c !! base))]> c));
      locked (λ c, (omap (λ kid, cached_agent <$> default ∅ (c !! base) !! kid) orderedKIDs, c))
  end.

Definition fetchTAMManifests (base : string) : CM (list TrustedComponent) :=
  let url := TrimRight_slash base +++ "/SUITManifestService/ListManifests" in
  req ← lift (NewRequest "GET" url [("Accept", "application/cbor")] []);
  body ← fetch_cbor newTAMAPIClient req;
  lift (decodeManifestsFromCBOR body).

(** The result is what is written on success. *)
Definition postTAMManifest (r : Request) (base : string) : CM Response :=
  form ← lift (res_of_option (Wrapped "failed to parse form" ErrLib) (multipart_file r));
  file ← lift (res_of_option (ErrorString "file is required") form);
  body ← lift (res_of_option (Wrapped "failed to read upload file" ErrLib) file.2);
  let url := TrimRight_slash base +++ "/SUITManifestService/RegisterManifest" in
  req ← lift (NewRequest "POST" url [("Content-Type", "application/suit-envelope+cose")] body);
  resp ← client_Do (Some file.1) newTAMAPIClient req;
  respBody ← lift (res_of_option (Wrapped "failed to read TAM API response" ErrLib) (Http_ResponseBody resp));
  if negb (success resp) then throw (ErrorString (status_text resp +++ ": " +++ TrimSpace (string_of_bytes respBody)))
  else mret (respondJSON (JObject [("success", JBool true)])).

(** ** handlers.go *)

Definition misconfigured : Response :=
  http_Error "AttesTAM Console is misconfigured: tam-api-base is required" StatusInternalServerError.

Definition StatusBadGateway : Z := 502.
Definition fetch_failed (err : error) : Response :=
  http_Error ("TAM API fetch failed: " +++ Error_text err) StatusBadGateway.
Definition post_failed (err : error) : Response :=
  http_Error ("TAM API post failed: " +++ Error_text err) StatusBadGateway.

Definition handleListAgents (base : string) (r : Request) : CM Response :=
  if negb (String.eqb (Req_Method r) "GET") then mret (http_Error "method not allowed" StatusMethodNotAllowed)
  else if String.eqb base "" then mret misconfigured
  else
    res ← try (fetchTAMDevices base);
    match res with
    | inr err => mret (fetch_failed err)
    | inl devices => mret (respondJSON (JArray (map Agent_MarshalJSON devices)))
    end.

Definition handleListManifestsService (base : string) (r : Request) : CM Response :=
  if negb (String.eqb (Req_Method r) "GET") then mret (http_Error "method not allowed" StatusMethodNotAllowed)
  else if String.eqb base "" then mret misconfigured
  else
    res ← try (fetchTAMManifests base);
    match res with
    | inr err => mret (fetch_failed err)
    | inl manifests => mret (respondJSON (JArray (map TrustedComponent_MarshalJSON manifests)))
    end.

Definition handleRegisterManifest (base : string) (r : Request) : CM Response :=
  if negb (String.eqb (Req_Method r) "POST") then mret (http_Error "method not allowed" StatusMethodNotAllowed)
  else if String.eqb base "" then mret misconfigured
  else
    res ← try (postTAMManifest r base);
    match res with
    | inr err => mret (post_failed err)
    | inl resp => mret resp
    end.

(** ** main.go *)

(** The routes of [main]'s mux; the index page and static files are assets. *)
Definition console_routes (base : string) (r : Request) : CM Response :=
  if String.eqb (Req_Path r) "/console/view-managed-devices" then handleListAgents base r
  else if String.eqb (Req_Path r) "/console/view-managed-tcs" then handleListManifestsService base r
  else if String.eqb (Req_Path r) "/console/register-tc" then handleRegisterManifest base r
  else mret (asset r).

Definition withCORS (next : Request → CM Response) (r : Request) : CM Response :=
  if String.eqb (Req_Method r) "OPTIONS" then mret (mkResponse StatusNoContent cors_headers [])
  else
    resp ← next r;
    mret (with_headers cors_headers resp).

End console.

Section main.
Context `{Formats} `{Lib} `{ConsoleLib} (exchange : Exchange).

(** The console as a server, once [main] has its configuration. *)
Definition Console_ServeHTTP (cfg : AppConfig) : Request → CM Response :=
  withCORS (console_routes (tamAPITransport (TAMAPIDebug cfg) exchange) (TAMAPIBase cfg)).

Definition console_main (LookupEnv : string → option string) (args : list string) : res error (Request → CM Response) :=
  cfg ← loadConfigFromFlags LookupEnv args;
  _ ← res_map_err (λ _, ErrorString "exit status 1") (validateConfig cfg);
  Ok (Console_ServeHTTP cfg).
End main.
