(* ===== verification/ConsoleDebug.v ===== *)
(** The console's debug output: that it changes nothing, and what it leaves out. *)

From stdpp Require Import pretty.
From S2P Require Import Prelude GoText GoUrl GoFormat Model Db Wire Lib Server Logger Startup Diag Console.

(** ** Programs up to their errors *)

Section upto.
Context {S : Type} (R : error → error → Prop).

Definition results_upto {A} (a b : res error A) : Prop :=
  match a, b with
  | Ok a, Ok b => a = b
  | Err e, Err e' => R e e'
  | Panic, Panic | OutOfFuel, OutOfFuel => True
  | _, _ => False
  end.

(** The same state and, up to [R], the same result, wherever they start. *)
Definition upto {A} (p q : Prog error S A) : Prop :=
  ∀ s, (run p s).2 = (run q s).2 ∧ results_upto (run p s).1 (run q s).1.

Lemma upto_bind {A B} (p q : Prog error S A) (f g : A → Prog error S B) :
  upto p q → (∀ a, upto (f a) (g a)) → upto (p ≫= f) (q ≫= g).
Proof.
  intros Hpq Hfg s. rewrite !run_bind. destruct (Hpq s) as [Hs Hr].
  destruct (run p s) as [a s1], (run q s) as [b s2]. simpl in Hs, Hr. subst s2.
  destruct a, b; simpl in *; try done. subst. apply Hfg.
Qed.

Lemma upto_refl `{!Reflexive R} {A} (p : Prog error S A) : upto p p.
Proof. intros s. split; [done|]. destruct (run p s).1; simpl; [done|reflexivity|done..]. Qed.
End upto.

Lemma upto_zoom R {A} (p q : M A) : upto R p q → upto R (zoom p) (zoom q).
Proof. intros Hpq s. rewrite !run_zoom. destruct (Hpq (sys_world s)) as [Hs Hr]. simpl. by rewrite Hs. Qed.

(** ** The debug output is transparent *)

Section transparency.
Context `{Formats} `{Lib} `{ConsoleLib} (R : error → error → Prop) `{!Reflexive R} (exchange : Exchange).

(** Either errors are not compared, or every response has a body that can be read. *)
Context (Hbody : (∀ e e', R e e') ∨
  ∀ filename client req w resp w', run (exchange filename client req) w = (Ok resp, w') → Http_ResponseBody resp ≠ None).
Abbreviation debugging := (tamAPITransport true exchange).

(** The debug output only makes a difference where a body cannot be read. *)
Lemma client_Do_debug filename client req s :
  run (client_Do debugging filename client req) s = run (client_Do exchange filename client req) s ∨
  (∀ e e', R e e') ∧ ∃ resp s' e, run (client_Do exchange filename client req) s = (Ok resp, s') ∧
    Http_ResponseBody resp = None ∧ run (client_Do debugging filename client req) s = (Err e, s').
Proof.
  unfold client_Do, tamAPITransport, RoundTrip. rewrite !run_zoom, run_bind, run_bind, run_try.
  destruct (run (exchange filename client req) (sys_world s)) as [[resp|e| |] w'] eqn:Hr; simpl; try by left.
  destruct (Http_ResponseBody resp) eqn:Hread; [by left|right].
  destruct Hbody as [Hall|Hb]; [|by destruct (Hb _ _ _ _ _ _ Hr)]. split; [done|]. by eexists _, _, _.
Qed.

Lemma fetch_cbor_debug client req : upto R (fetch_cbor debugging client req) (fetch_cbor exchange client req).
Proof.
  intros s. unfold fetch_cbor. rewrite !run_bind.
  destruct (client_Do_debug None client req s) as [->|(Hall & resp & s' & e & -> & Hread & ->)].
  - destruct (run _ s) as [[resp|e| |] s']; [by apply upto_refl|split; [done|]; first [exact I|simpl; reflexivity]..].
  - simpl. rewrite Hread. destruct (negb (success resp)); [|destruct (negb (HasPrefix _ _))]; (split; [done|apply Hall]).
Qed.

Ltac upto_auto :=
  repeat first [apply fetch_cbor_debug | apply upto_refl; assumption | apply upto_bind; [|intros ?] | case_match].

Lemma fetchTAMDevices_debug base : upto R (fetchTAMDevices debugging base) (fetchTAMDevices exchange base).
Proof.
  unfold fetchTAMDevices. apply upto_bind.
  { unfold fetchTAMListAgents. upto_auto. }
  intros keys. unfold fetchTAMGetAgentStatus. upto_auto.
Qed.

Lemma fetchTAMManifests_debug base : upto R (fetchTAMManifests debugging base) (fetchTAMManifests exchange base).
Proof. unfold fetchTAMManifests. upto_auto. Qed.

Lemma postTAMManifest_debug r base : upto R (postTAMManifest debugging r base) (postTAMManifest exchange r base).
Proof.
  unfold postTAMManifest. apply upto_bind; [by apply upto_refl|]. intros form.
  apply upto_bind; [by apply upto_refl|]. intros [name content]. apply upto_bind; [by apply upto_refl|]. intros body.
  apply upto_bind; [by apply upto_refl|]. intros req s. rewrite !run_bind. cbn [fst].
  destruct (client_Do_debug (Some name) newTAMAPIClient req s) as [->|(Hall & resp & s' & e & -> & Hread & ->)].
  - destruct (run _ s) as [[resp|e| |] s']; [by apply upto_refl|split; [done|]; first [exact I|simpl; reflexivity]..].
  - simpl. rewrite Hread. split; [done|apply Hall].
Qed.
End transparency.

(** ** The whole console *)

Section console.
Context `{Formats} `{Lib} `{ConsoleLib} (R : error → error → Prop) `{!Reflexive R} (exchange : Exchange) (cfg : AppConfig).
Implicit Types (r : Request) (s : System).
Context (Hbody : (∀ e e', R e e') ∨
  ∀ filename client req w resp w', run (exchange filename client req) w = (Ok resp, w') → Http_ResponseBody resp ≠ None).

(** Responses that are the same but for the text of an error. *)
Context (same : Response → Response → Prop) `{!Reflexive same}.
Context (same_fetch : ∀ e e', R e e' → same (fetch_failed e) (fetch_failed e')).
Context (same_post : ∀ e e', R e e' → same (post_failed e) (post_failed e')).
Context (same_headers : ∀ h a b, same a b → same (with_headers h a) (with_headers h b)).

(** Two ways to answer, from one state. *)
Definition alike (p q : CM Response) : Prop :=
  ∀ s, ∃ a b s', run p s = (a, s') ∧ run q s = (b, s') ∧
    match a, b with Ok a, Ok b => same a b | _, _ => a = b end.

Lemma alike_refl (p : CM Response) : alike p p.
Proof using Type*.
  intros s. eexists _, _, _. do 2 (split; [apply surjective_pairing|]). destruct (run p s).1; [reflexivity|done..].
Qed.

Lemma alike_try {A} (p q : CM A) (answer : A → Response) (failed : error → Response) :
  upto R p q → (∀ e e', R e e' → same (failed e) (failed e')) →
  alike (res ← try p; match res with inr err => mret (failed err) | inl a => mret (answer a) end)
        (res ← try q; match res with inr err => mret (failed err) | inl a => mret (answer a) end).
Proof using Type*.
  intros Hpq Hfailed s. rewrite !run_bind, !run_try. destruct (Hpq s) as [Hs Hr].
  destruct (run p s) as [a s1], (run q s) as [b s2]. simpl in Hs, Hr. subst s2. exists (res_map (λ x, match x with inl a => answer a | inr e => failed e end)
    match a with Ok a => Ok (inl a) | Err e => Ok (inr e) | Panic => Panic | OutOfFuel => OutOfFuel end),
    (res_map (λ x, match x with inl a => answer a | inr e => failed e end)
    match b with Ok a => Ok (inl a) | Err e => Ok (inr e) | Panic => Panic | OutOfFuel => OutOfFuel end), s1.
  destruct a as [a|e| |], b as [b|e'| |]; simpl in *; try done; (split; [done|]; split; [done|]).
  - by subst b.
  - by apply Hfailed.
Qed.

Definition without_debug : AppConfig := mkAppConfig (Server_Port cfg) (TAMAPIBase cfg) false (App_LogLevel cfg).

Lemma routes_alike base r :
  alike (console_routes (tamAPITransport true exchange) base r) (console_routes exchange base r).
Proof using Type*.
  unfold console_routes, handleListAgents, handleListManifestsService, handleRegisterManifest.
  repeat match goal with |- alike (if ?b then _ else _) _ => destruct b end; try apply alike_refl.
  - apply alike_try; [by apply fetchTAMDevices_debug|done].
  - apply alike_try; [by apply fetchTAMManifests_debug|done].
  - apply (alike_try _ _ (λ page, page)); [by apply postTAMManifest_debug|done].
Qed.

Lemma Console_alike r : alike (Console_ServeHTTP exchange cfg r) (Console_ServeHTTP exchange without_debug r).
Proof using Type*.
  unfold Console_ServeHTTP, withCORS. destruct (String.eqb _ _); [apply alike_refl|].
  change (tamAPITransport (TAMAPIDebug without_debug) exchange) with exchange.
  change (TAMAPIBase without_debug) with (TAMAPIBase cfg). destruct (TAMAPIDebug cfg); [|apply alike_refl]. intros s. rewrite !run_bind.
  destruct (routes_alike (TAMAPIBase cfg) r s) as (a & b & s' & -> & -> & Hab).
  destruct a as [a|e| |], b as [b|e'| |]; try done; eexists _, _, s'; (split; [reflexivity|]; split; [reflexivity|]); try done.
  by apply same_headers.
Qed.
End console.

(** Where every body can be read there is no difference at all. *)
Lemma Console_exact `{Formats} `{Lib} `{ConsoleLib} (exchange : Exchange) (cfg : AppConfig) r s :
  (∀ filename client req w resp w', run (exchange filename client req) w = (Ok resp, w') → Http_ResponseBody resp ≠ None) →
  run (Console_ServeHTTP exchange cfg r) s = run (Console_ServeHTTP exchange (without_debug cfg) r) s.
Proof.
  intros Hbody. destruct (Console_alike eq exchange cfg (or_intror Hbody) eq) with r s as (a & b & s' & -> & -> & Hab);
    [by intros ?? ->|by intros ?? ->|by intros ??? ->|].
  f_equal. destruct a, b; congruence.
Qed.

(** An uploaded manifest is not in the log: the record of the request is the same for every
    content. *)
Lemma upload_record_redacted `{Formats} `{ConsoleLib} now path filename url header body body' :
  HasSuffix path "/SUITManifestService/RegisterManifest" = true →
  request_record now path filename (mkHttpRequest "POST" url header body)
    = request_record now path filename (mkHttpRequest "POST" url header body').
Proof.
  intros Hp. unfold request_record, formatHTTPMessage, redactedBodyPlaceholder. cbn [Http_Method Http_URL Http_Header Http_Body].
  rewrite Hp. cbn [andb String.eqb Ascii.eqb Bool.eqb]. by destruct filename as [[|]|].
Qed.

Section properties.
Context `{Formats} `{Lib} `{ConsoleLib}.

End properties.
