(* ===== verification/Ends.v ===== *)
(** Programs that end: what never runs out of fuel, wherever it starts and whatever fails.
    The requests of the console end, and so does the console. *)

From S2P Require Import Prelude GoUrl Model Db Wire Lib AgentRepo ManifestRepo StatusRepo Suit Teep Rats Verifiers Tam Server.

(** ** Results and programs *)

Definition ended {E A} (r : res E A) : Prop := r ≠ OutOfFuel.

Section ended.
Context {E : Type}.

Lemma ended_Ok {A} (a : A) : ended (Ok a : res E A).
Proof. done. Qed.
Lemma ended_Err {A} (e : E) : ended (Err e : res E A).
Proof. done. Qed.
Lemma ended_of_option {A} (e : E) (o : option A) : ended (res_of_option e o).
Proof. by destruct o. Qed.
Lemma ended_bind {A B} (r : res E A) (f : A → res E B) : ended r → (∀ a, ended (f a)) → ended (r ≫= f).
Proof. destruct r; simpl; intros Hr Hf; [apply Hf|done..]. Qed.
Lemma ended_map_err {A} (f : E → E) (r : res E A) : ended r → ended (res_map_err f r).
Proof. by destruct r. Qed.
Lemma ended_slice (b : bytes) lo hi : ended (go_slice (E:=E) b lo hi).
Proof. unfold go_slice. by case_bool_decide. Qed.
End ended.

Definition ends {E S A} (p : Prog E S A) : Prop := ∀ s, ended (run p s).1.

Section ends.
Context {E S : Type}.

Lemma ends_done {A} (r : res E A) : ended r → ends (Done r : Prog E S A).
Proof. by intros Hr s. Qed.
Lemma ends_bind {A B} (p : Prog E S A) (f : A → Prog E S B) : ends p → (∀ a, ends (f a)) → ends (p ≫= f).
Proof.
  intros Hp Hf s. rewrite run_bind. pose proof (Hp s) as Hr.
  destruct (run p s) as [[a|e| |] s']; simpl in *; [apply Hf|done..].
Qed.
Lemma ends_try {A} (p : Prog E S A) : ends p → ends (try p).
Proof. intros Hp s. rewrite run_try. pose proof (Hp s) as Hr. simpl. by destruct (run p s).1. Qed.
Lemma ends_map_err {A} (f : E → E) (p : Prog E S A) : ends p → ends (map_err f p).
Proof. intros Hp s. rewrite run_map_err. apply ended_map_err, Hp. Qed.
Lemma ends_atomically {A} (f : S → res E A * S) : (∀ s, ended (f s).1) → ends (atomically f).
Proof. intros Hf s. rewrite run_atomically. apply Hf. Qed.
End ends.

Lemma ends_sql `{Platform} {A} (f : DB → res error A * DB) : (∀ d, ended (f d).1) → ends (sql f).
Proof. intros Hf w. rewrite run_sql. destruct (db_fault _); [done|apply Hf]. Qed.
Lemma ends_insert `{Platform} {R} `{Relation R} ok (mk : Z → R) : ends (insert ok mk).
Proof. apply ends_sql. intros d. unfold insert_row. by destruct (_ && _). Qed.
Lemma ends_query `{Platform} {A} (f : DB → A) : ends (query f).
Proof. by apply ends_sql. Qed.
Lemma ends_select_first `{Platform} {R} `{Relation R} le (p : R → bool) : ends (select_first le p).
Proof. apply ends_sql. intros. apply ended_of_option. Qed.
Lemma ends_nil_if_no_rows `{Platform} {A} wrap (m : M A) : ends m → ends (nil_if_no_rows wrap m).
Proof.
  intros Hm. apply ends_bind; [by apply ends_try|]. intros [x|e]; [done|]. by case_bool_decide.
Qed.
Lemma ends_select_opt `{Platform} {R} `{Relation R} wrap (p : R → bool) : ends (select_opt wrap p).
Proof. apply ends_nil_if_no_rows, ends_sql. intros. apply ended_of_option. Qed.

Ltac ends_step :=
  lazymatch goal with
  | |- ended (match ?x with _ => _ end) => destruct x
  | |- ended (Ok _) => apply ended_Ok
  | |- ended (Err _) => apply ended_Err
  | |- ended (res_of_option _ _) => apply ended_of_option
  | |- ended (decoded _) => apply ended_of_option
  | |- ended (go_slice _ _ _) => apply ended_slice
  | |- ended (res_map_err _ _) => apply ended_map_err
  | |- ended (_ ≫= _) => apply ended_bind; [|intros ?]
  | |- ends (_ ≫= _) => apply ends_bind; [|intros ?]
  | |- ends (try _) => apply ends_try
  | |- ends (map_err _ _) => apply ends_map_err
  | |- ends (sql _) => apply ends_sql; intros ?; simpl
  | |- ends (insert _ _) => apply ends_insert
  | |- ends (query _) => apply ends_query
  | |- ends (select_first _ _) => apply ends_select_first
  | |- ends (nil_if_no_rows _ _) => apply ends_nil_if_no_rows
  | |- ends (select_opt _ _) => apply ends_select_opt
  | |- ends (lift _) => apply ends_done
  | |- ends (mret _) => apply ends_done, ended_Ok
  | |- ends (throw _) => apply ends_done, ended_Err
  | |- ends panic => by intros ?
  | |- ends (match ?x with _ => _ end) => destruct x
  | |- ends (let '(_, _) := ?x in _) => destruct x
  | |- _ => solve [auto 2 with ends nocore]
  end.
Create HintDb ends discriminated.
Ltac ends_auto := repeat (cbv zeta; ends_step).

(** ** Decoders *)

Section decoders.
Context `{Lib}.

Lemma ended_Unmarshal_with {A} (f : bytes → res error A) data : (∀ b, ended (f b)) → ended (Unmarshal_with f data).
Proof. intros Hf. unfold Unmarshal_with. by destruct (cbor_wellformed data). Qed.

Lemma ended_Nested {A} (f : bytes → res error A) data : (∀ b, ended (f b)) → ended (Nested_UnmarshalCBOR f data).
Proof. intros Hf. unfold Nested_UnmarshalCBOR. ends_auto. Qed.

Lemma ended_Sign1 data : ended (Unmarshal_Sign1 data).
Proof. apply ended_Unmarshal_with. intros. ends_auto. Qed.

Lemma ended_SkipTag data spare : ended (SkipTag data spare).
Proof. unfold SkipTag. ends_auto. Qed.

Lemma ended_Envelope data : ended (Unmarshal_with Envelope_UnmarshalCBOR data).
Proof.
  apply ended_Unmarshal_with. intros. unfold Envelope_UnmarshalCBOR. apply ended_bind; [apply ended_SkipTag|].
  intros [tagged rest]. ends_auto. apply ended_Unmarshal_with. intros. apply ended_Nested. intros.
  apply ended_Unmarshal_with. intros. unfold AuthenticationWrapper_UnmarshalCBOR. ends_auto.
  apply ended_Unmarshal_with. intros. apply ended_Nested, ended_Sign1.
Qed.

Lemma ended_Verify e key : ended (Envelope_Verify e key).
Proof.
  unfold Envelope_Verify. ends_auto. generalize [AuthenticationBlock0 (Envelope_AuthenticationWrapper e)].
  intros l. induction l as [|block l IH]; [done|]. cbn [verify_blocks]. apply ended_bind.
  - unfold verify_block. ends_auto. apply ended_Unmarshal_with. intros. apply ended_Nested, ended_Sign1.
  - intros []; [done|exact IH].
Qed.

Lemma ended_Manifest data : ended (Unmarshal_NestedManifest data).
Proof.
  apply ended_Unmarshal_with. intros. apply ended_Nested. intros. unfold Unmarshal_Manifest. ends_auto.
  apply ended_Nested. intros. unfold Unmarshal_Common. ends_auto.
Qed.
End decoders.

#[export] Hint Resolve ended_SkipTag ended_Envelope ended_Verify ended_Manifest : ends.

(** ** Requests *)

Section requests.
Context `{Platform} `{Lib}.

Lemma GetEntityKey_ends kid : ends (GetEntityKey kid).
Proof. unfold GetEntityKey, ManifestSigningKeyRepository_FindByKID. ends_auto. Qed.

Lemma GetManifests_ends : ends GetManifests.
Proof. unfold GetManifests, SuitManifestRepository_FindLatestAll. ends_auto. Qed.

Lemma SetEnvelope_ends e dg kid tc n : ends (SetEnvelope e dg kid tc n).
Proof.
  unfold SetEnvelope, ManifestSigningKeyRepository_FindByKID, GetManifest,
    SuitManifestRepository_FindLatestByTrustedComponentID, SuitManifestRepository_Create. ends_auto.
Qed.

Lemma GetAgentStatus_ends kid : ends (AgentStatusRepository_GetAgentStatus kid).
Proof. unfold AgentStatusRepository_GetAgentStatus. ends_auto. Qed.

#[local] Hint Resolve GetEntityKey_ends GetManifests_ends SetEnvelope_ends GetAgentStatus_ends : ends.

Lemma FindEntity_ends name : ends (FindEntity name).
Proof. unfold FindEntity, EntityRepository_FindByName. ends_auto. Qed.

Lemma GetAgentStatuses_ends : ends GetAgentStatuses.
Proof.
  unfold GetAgentStatuses, AgentRepository_GetAll. ends_auto.
  match goal with |- ends (status_keys ?l) => induction l as [|x rest IH] end; [done|]. cbn [status_keys]. ends_auto.
Qed.

Lemma collect_statuses_ends kids : ends (collect_statuses kids).
Proof. induction kids as [|kid l IH]; [done|]. cbn [collect_statuses]. unfold GetAgentStatus. ends_auto. Qed.

#[local] Hint Resolve FindEntity_ends GetAgentStatuses_ends collect_statuses_ends : ends.

(** Every request but one to the TEEP endpoint, whose loops have fuel of their own. *)
Lemma ServeHTTP_ends t r : Req_Path r ≠ "/tam" → ends (ServeHTTP t r).
Proof.
  intros Hp. unfold ServeHTTP. apply String.eqb_neq in Hp. rewrite Hp.
  unfold getManifests, addTCManifest, registerManifest, getAgentList, getAgentStatus. ends_auto.
Qed.
End requests.
