(* ===== verification/Total.v ===== *)
(** Total correctness: programs that do return.  The other program logics of the development
    ([rg], [moves], [pays]) say what holds if a program returns; [yields p s Q] says that
    [p], run alone from [s], returns, and what holds then. *)

From S2P Require Import Prelude Model Db Evolve OneTime ManifestRepo.

Section yields.
Context {E S : Type}.
Implicit Types s : S.

Definition yields {A} (p : Prog E S A) s (Q : A → S → Prop) : Prop :=
  ∃ a s', run p s = (Ok a, s') ∧ Q a s'.

Lemma yields_ret {A} (a : A) s (Q : A → S → Prop) : Q a s → yields (mret a) s Q.
Proof. intros HQ. by exists a, s. Qed.

Lemma yields_bind {A B} (p : Prog E S A) (f : A → Prog E S B) s (Q : B → S → Prop) :
  yields p s (λ a s', yields (f a) s' Q) → yields (p ≫= f) s Q.
Proof. intros (a & s1 & Hr & b & s2 & Hf & HQ). exists b, s2. by rewrite run_bind, Hr. Qed.

Lemma yields_map_err {A} g (p : Prog E S A) s (Q : A → S → Prop) : yields p s Q → yields (map_err g p) s Q.
Proof. intros (a & s1 & Hr & HQ). exists a, s1. by rewrite run_map_err, Hr. Qed.

Lemma yields_try {A} (p : Prog E S A) s (Q : A + E → S → Prop) :
  yields p s (λ a, Q (inl a)) → yields (try p) s Q.
Proof. intros (a & s1 & Hr & HQ). exists (inl a), s1. by rewrite run_try, Hr. Qed.

Lemma yields_lift {A} (r : res E A) a s (Q : A → S → Prop) : r = Ok a → Q a s → yields (lift r) s Q.
Proof. intros -> HQ. by exists a, s. Qed.

Lemma yields_weaken {A} (p : Prog E S A) s (Q Q' : A → S → Prop) :
  yields p s Q → (∀ a s', Q a s' → Q' a s') → yields p s Q'.
Proof. intros (a & s1 & Hr & HQ) HQ'. exists a, s1. auto. Qed.

(** What holds if it returns, holds. *)
Lemma yields_Ok {A} (p : Prog E S A) s (Q Q' : A → S → Prop) :
  yields p s Q → (∀ a s', run p s = (Ok a, s') → Q a s' → Q' a s') → yields p s Q'.
Proof. intros (a & s1 & Hr & HQ) HQ'. exists a, s1. auto. Qed.

Lemma yields_equiv {A} (p q : Prog E S A) s (Q : A → S → Prop) :
  run p s = run q s → yields q s Q → yields p s Q.
Proof. intros Hr (a & s1 & Hq & HQ). exists a, s1. by rewrite Hr. Qed.
End yields.

(** The statements of a program whose database works. *)
Section statements.
Context `{Reliable}.
Implicit Types w : World.

Lemma yields_sql {A} (f : DB → res error A * DB) w a (Q : A → World → Prop) :
  (f (w_db w)).1 = Ok a → Q a (with_db (f (w_db w)).2 (tick_call w)) → yields (sql f) w Q.
Proof. intros Hf HQ. eexists _, _. rewrite run_sql_reliable, Hf. split; [reflexivity|done]. Qed.

Lemma yields_time_now w (Q : Z → World → Prop) : Q (clock (w_reads w)) (tick_clock w) → yields time_now w Q.
Proof. intros HQ. eexists _, _. split; [reflexivity|done]. Qed.

Lemma yields_select_opt {T} `{Relation T} wrap (p : T → bool) w (Q : option T → World → Prop) :
  Q (head (matching p (w_db w))) (with_db (w_db w) (tick_call w)) → yields (select_opt wrap p) w Q.
Proof. intros HQ. eexists _, _. by rewrite run_select_opt_reliable. Qed.

(** No rows is an answer. *)
Lemma yields_nil_if_no_rows {A} wrap (f : DB → option A) w (Q : option A → World → Prop) :
  Q (f (w_db w)) (with_db (w_db w) (tick_call w)) →
  yields (nil_if_no_rows wrap (sql (λ d, (res_of_option ErrNoRows (f d), d)))) w Q.
Proof.
  intros HQ. exists (f (w_db w)), (with_db (w_db w) (tick_call w)). split; [|done].
  unfold nil_if_no_rows. rewrite run_bind, run_try, run_sql_reliable. cbn [fst snd].
  by destruct (f (w_db w)).
Qed.

Lemma yields_insert {T} `{Relation T} ok (mk : Z → T) w (Q : Z → World → Prop) :
  ok (w_db w) = true → (seq (rel_get (R:=T) (w_db w)) < max_int64)%Z →
  (let id := (seq (rel_get (R:=T) (w_db w)) + 1)%Z in
   Q id (with_db (rel_set (mkTable (rows (rel_get (w_db w)) ++ [mk id]) id) (w_db w)) (tick_call w))) →
  yields (insert ok mk) w Q.
Proof.
  intros Hok Hseq HQ. eexists _, _. rewrite run_insert_reliable, insert_row_ok by done.
  split; [reflexivity|done].
Qed.

(** A row is found by what identifies it. *)
Lemma head_matching_unique {T} `{Relation T} (p : T → bool) d r :
  r ∈ rows (rel_get d) → p r = true → (∀ r', r' ∈ rows (rel_get d) → p r' = true → r' = r) →
  head (matching p d) = Some r.
Proof.
  intros Hr Hp Hu. unfold matching. destruct (filter _ _) as [|x l] eqn:Hf.
  - exfalso. apply (not_elem_of_nil r). rewrite <- Hf. by apply list_elem_of_filter.
  - simpl. f_equal. assert (x ∈ x :: l) as Hx by left. rewrite <- Hf in Hx.
    apply list_elem_of_filter in Hx as [? ?]. by apply Hu.
Qed.

(** An unused value can be used up. *)
Lemma yields_MarkConsumed {R} `{OneTime R} v (r : R) w (Q : unit → World → Prop) :
  r ∈ rows (rel_get (w_db w)) → value r = v → consumed r = false →
  Q tt (with_db (update_rows (λ r : R, eqb_bytes (value r) v && negb (consumed r)) consume (w_db w)) (tick_call w)) →
  yields (OneTime_MarkConsumed R v) w Q.
Proof.
  intros Hr Hv Hc HQ. unfold OneTime_MarkConsumed, update. apply yields_bind, yields_map_err.
  eapply yields_sql; [reflexivity|]. cbn [snd].
  assert (r ∈ matching (λ r : R, eqb_bytes (value r) v && negb (consumed r)) (w_db w)) as Hm.
  { apply list_elem_of_filter. split; [|done]. rewrite Hc, andb_true_r. by apply eqb_bytes_eq. }
  destruct (matching _ _) as [|x l]; [by apply not_elem_of_nil in Hm|]. by apply yields_ret.
Qed.
End statements.
