(* ===== verification/Frame.v ===== *)
(** What a program leaves alone.  [moves G p]: every step of [p] moves the database along
    [G], so [G] holds of any run of [p], and of what [p] does among other programs.
    [reads p]: [p] never changes the database; [leaves R p]: it never changes the table of
    [R].  With [adds], a row that was not there before is traced to the call that
    inserted it. *)

From S2P Require Import Prelude Model Db Evolve.

(** A program over the world, each step of which moves the database along [G]. *)
Fixpoint moves (G : DB → DB → Prop) {A} (p : M A) : Prop :=
  match p with
  | Done _ => True
  | Step upd k => ∀ w, G (w_db w) (w_db (upd w)) ∧ moves G (k w)
  end.

Definition reads {A} (p : M A) : Prop := moves (λ d d', d' = d) p.
Definition leaves (R : Type) `{Relation R} {A} (p : M A) : Prop := moves (same_table R) p.

#[export] Instance eq_db_preorder : PreOrder (λ d d' : DB, d' = d).
Proof. split; [done|]. intros ???. congruence. Qed.

(** Which tables a relation between databases lets a program write. *)
Class Inserts (T : Type) `{Relation T} (G : DB → DB → Prop) : Prop :=
  inserts ok (mk : Z → T) d : G d (insert_row ok mk d).2.
Class Updates (T : Type) `{Relation T} (G : DB → DB → Prop) : Prop :=
  updates p (f : T → T) d : G d (update_rows p f d).

#[export] Hint Extern 1 (Inserts _ (same_table _)) =>
  intros ???; apply same_table_insert; intros; reflexivity : typeclass_instances.
#[export] Hint Extern 1 (Updates _ (same_table _)) =>
  intros ???; apply same_table_update; intros; reflexivity : typeclass_instances.

Lemma moves_weaken (G G' : DB → DB → Prop) {A} (p : M A) :
  (∀ d d', G d d' → G' d d') → moves G p → moves G' p.
Proof.
  intros HG. induction p as [r|upd k IH]; simpl; [done|]. intros Hp w. destruct (Hp w). auto.
Qed.

Section frame.
Context (G : DB → DB → Prop).
Implicit Types w : World.

Lemma moves_done {A} (r : res error A) : moves G (Done r).
Proof using Type. done. Qed.

Lemma moves_bind {A B} (p : M A) (f : A → M B) : moves G p → (∀ a, moves G (f a)) → moves G (p ≫= f).
Proof using Type.
  intros Hp Hf. unfold mbind, prog_mbind. induction p as [[a|e| |]|upd k IH]; simpl; try done; [apply Hf|].
  intros w. destruct (Hp w). auto.
Qed.

Lemma moves_try {A} (p : M A) : moves G p → moves G (try p).
Proof using Type.
  induction p as [[a|e| |]|upd k IH]; simpl; try done. intros Hp w. destruct (Hp w). auto.
Qed.

Lemma moves_map_err {A} f (p : M A) : moves G p → moves G (map_err f p).
Proof using Type.
  induction p as [r|upd k IH]; simpl; try done. intros Hp w. destruct (Hp w). auto.
Qed.

Context `{!PreOrder G}.

Lemma moves_run {A} (p : M A) : moves G p → ∀ w, G (w_db w) (w_db (run p w).2).
Proof using All.
  induction p as [r|upd k IH]; simpl; [done|]. intros Hp w. destruct (Hp w) as [Hu Hk].
  etrans; [exact Hu|]. by apply IH.
Qed.

(** A reader moves the database along any preorder. *)
Lemma moves_of_reads {A} (p : M A) : reads p → moves G p.
Proof using All. apply (moves_weaken (λ d d', d' = d)). by intros d d' ->. Qed.

Lemma moves_atomically {A} (f : World → res error A * World) :
  (∀ w, w_db (f w).2 = w_db w) → moves G (atomically f).
Proof using All. intros Hf w. simpl. by rewrite Hf. Qed.

(** However the programs are interleaved. *)
Lemma moves_sched {A} (c c' : list (M A) * World) :
  rtc sched c c' → Forall (moves G) c.1 → G (w_db c.2) (w_db c'.2).
Proof using All.
  induction 1 as [c|c1 c2 c3 Hs _ IH]; intros Hall; [done|].
  inversion Hs as [ps1 upd k ps2 w]; subst; simpl in *.
  apply Forall_app in Hall as [H1 [Hp H2]%Forall_cons]. destruct (Hp w) as [Hu Hk].
  etrans; [exact Hu|]. apply IH. apply Forall_app. split; [done|]. by constructor.
Qed.
Context `{Platform}.

Lemma moves_sql {A} (f : DB → res error A * DB) : (∀ d, G d (f d).2) → moves G (sql f).
Proof using All. intros Hf w. simpl. split; [|done]. destruct (db_fault _); simpl; [done|apply Hf]. Qed.

Lemma moves_insert {T} `{Relation T} `{!Inserts T G} ok (mk : Z → T) : moves G (insert ok mk).
Proof using All. apply moves_sql. apply inserts. Qed.

Lemma moves_update {T} `{Relation T} `{!Updates T G} p (f : T → T) : moves G (update p f).
Proof using All. apply moves_sql. apply updates. Qed.

Lemma moves_transaction {A} b c (m : M A) : moves G m → moves G (transaction b c m).
Proof using All.
  intros Hm w. simpl. split; [|done]. destruct (db_fault _); [reflexivity|].
  pose proof (moves_run m Hm (tick_call w)) as Hr.
  destruct (run m (tick_call w)) as [[a|e| |] w1]; simpl in *; try reflexivity.
  by destruct (db_fault _).
Qed.

End frame.

Lemma reads_run {A} (p : M A) : reads p → ∀ w, w_db (run p w).2 = w_db w.
Proof. apply moves_run. apply _. Qed.

Lemma leaves_run R `{Relation R} {A} (p : M A) :
  leaves R p → ∀ w, same_table R (w_db w) (w_db (run p w).2).
Proof. apply moves_run. apply _. Qed.

(** The same, for a run that is already named. *)
Lemma run_reads {A} (p : M A) w r w' : reads p → run p w = (r, w') → w_db w' = w_db w.
Proof. intros Hp Hr. pose proof (reads_run p Hp w) as Hd. by rewrite Hr in Hd. Qed.

Lemma run_leaves R `{Relation R} {A} (p : M A) w r w' :
  leaves R p → run p w = (r, w') → rel_get (R:=R) (w_db w') = rel_get (w_db w).
Proof. intros Hp Hr. pose proof (leaves_run R p Hp w) as Hd. by rewrite Hr in Hd. Qed.

Lemma reads_leaves R `{Relation R} {A} (p : M A) : reads p → leaves R p.
Proof. apply moves_of_reads. apply _. Qed.

(** Walk through a program. *)
Ltac moves_world := apply moves_atomically; [apply _|].
Ltac moves_step :=
  match goal with
  | |- moves _ (_ ≫= _) => apply moves_bind
  | |- moves _ (try _) => apply moves_try
  | |- moves _ (map_err _ _) => apply moves_map_err
  | |- moves _ (match ?x with _ => _ end) => destruct x
  | |- moves _ (mret _) => exact I
  | |- moves _ (throw _) => exact I
  | |- moves _ panic => exact I
  | |- moves _ (lift _) => exact I
  | |- moves _ (Done _) => exact I
  | |- moves _ time_now => moves_world; intros; reflexivity
  | |- moves _ (rand_read _) => moves_world; intros; reflexivity
  | |- moves _ (file_op _) => moves_world; intros; by destruct (file_fault _)
  | |- moves _ (ReadFile _) => unfold ReadFile
  | |- moves _ (Remove _) => unfold Remove
  | |- moves _ Touch_file => unfold Touch_file
  | |- moves _ (Rename _ _) => unfold Rename
  | |- moves _ (Write_temp _ _) => moves_world; intros; by destruct (file_fault _)
  | |- moves _ (CreateTemp _) => moves_world; intros; destruct (file_fault _); [done|by case_match]
  | |- moves _ (atomically _) => moves_world; intros; reflexivity
  | |- moves _ (query _) => apply moves_sql; [apply _|intros; simpl; reflexivity]
  | |- moves _ (select_one _) => apply moves_sql; [apply _|intros; simpl; reflexivity]
  | |- moves _ (select_first _ _) => apply moves_sql; [apply _|intros; simpl; reflexivity]
  | |- moves _ (select_opt _ _) => unfold select_opt
  | |- moves _ (nil_if_no_rows _ _) => unfold nil_if_no_rows
  | |- moves _ (insert _ _) => apply moves_insert; apply _
  | |- moves _ (update _ _) => apply moves_update; apply _
  | |- moves _ (transaction _ _ _) => apply moves_transaction; [apply _|]
  | |- moves _ (sql _) =>
      apply moves_sql; [apply _|intros; cbn [snd]; first [reflexivity | apply updates | apply inserts]]
  | |- moves _ _ => solve [eauto with frames]
  end.
Create HintDb frames discriminated.
Ltac moves_auto :=
  lazymatch goal with
  | |- reads _ => unfold reads
  | |- leaves _ _ => unfold leaves
  | _ => idtac
  end;
  repeat (intros; moves_step); intros.

(** ** New rows *)

Section fresh.
Context `{Platform} {R : Type} `{Relation R}.
Implicit Types w : World.

(** [p], run from [w], put a row with property [P] in the table of [R]. *)
Definition adds {A} (P : R → Prop) (p : M A) w : Prop :=
  (∃ r, r ∈ rows (rel_get (w_db (run p w).2)) ∧ P r) ∧
  ¬ ∃ r, r ∈ rows (rel_get (w_db w)) ∧ P r.

Lemma adds_leaves {A} (P : R → Prop) (p : M A) w : leaves R p → ¬ adds P p w.
Proof. intros Hl [Hn Ho]. apply Ho. by rewrite (leaves_run _ _ Hl w) in Hn. Qed.

(** The call that added it: not the first one, if that leaves the table alone. *)
Lemma adds_bind {A B} (P : R → Prop) (p : M A) (f : A → M B) w :
  leaves R p → adds P (p ≫= f) w →
  ∃ a w1, run p w = (Ok a, w1) ∧ adds P (f a) w1.
Proof.
  intros Hl [Hn Ho]. rewrite run_bind in Hn. pose proof (leaves_run _ _ Hl w) as Hl'.
  destruct (run p w) as [[a|e| |] w1] eqn:Hr; simpl in *;
    [|by destruct Ho; rewrite Hl' in Hn..].
  exists a, w1. split; [done|]. split; [done|]. by rewrite Hl'.
Qed.

(** ... the first one, if the rest leaves it alone. *)
Lemma adds_bind_last {A B} (P : R → Prop) (p : M A) (f : A → M B) w :
  (∀ a, leaves R (f a)) → adds P (p ≫= f) w → adds P p w.
Proof.
  intros Hl [Hn Ho]. split; [|done]. rewrite run_bind in Hn.
  destruct (run p w) as [[a|e| |] w1] eqn:Hr; simpl in *; [|done..].
  by rewrite (leaves_run _ _ (Hl a) w1) in Hn.
Qed.

Lemma adds_try {A} (P : R → Prop) (p : M A) w : adds P (try p) w → adds P p w.
Proof. unfold adds. by rewrite run_try. Qed.

Lemma adds_map_err {A} (P : R → Prop) f (p : M A) w : adds P (map_err f p) w → adds P p w.
Proof. unfold adds. by rewrite run_map_err. Qed.

Lemma adds_insert (P : R → Prop) ok (mk : Z → R) w :
  adds P (insert ok mk) w →
  ∃ id, run (insert ok mk) w = (Ok id, with_db (rel_set (mkTable (rows (rel_get (w_db w)) ++ [mk id]) id) (w_db w)) (tick_call w))
    ∧ P (mk id) ∧ ok (w_db w) = true.
Proof.
  unfold adds. rewrite run_insert. destruct (db_fault _); [by intros [? []]|].
  destruct (insert_row ok mk (w_db w)) as [r d] eqn:Hi. simpl. intros [(x & Hx & HP) Ho].
  destruct r as [id|e| |].
  - apply insert_row_inv in Hi as (Hok & _ & -> & ->). rewrite rel_get_set in Hx. simpl in Hx.
    apply elem_of_app in Hx as [Hx| ->%list_elem_of_singleton]; [by destruct Ho; exists x|].
    eexists. by split_and!.
  - unfold insert_row in Hi. case_match; simplify_eq. destruct Ho. by exists x.
  - unfold insert_row in Hi. case_match; simplify_eq.
  - unfold insert_row in Hi. case_match; simplify_eq.
Qed.
End fresh.

(** ** What a run does to the rest of the world

    [stays G p]: run alone, [p] moves the world along [G], whatever its result. *)
Section stays.
Context (G : World → World → Prop) `{!PreOrder G}.

Definition stays {A} (p : M A) : Prop := ∀ w, G w (run p w).2.

Lemma run_stays {A} (p : M A) w r w' : stays p → run p w = (r, w') → G w w'.
Proof using Type. intros Hp Hr. specialize (Hp w). by rewrite Hr in Hp. Qed.

Lemma stays_done {A} (r : res error A) : stays (Done r).
Proof. intros w. simpl. reflexivity. Qed.

Lemma stays_bind {A B} (p : M A) (f : A → M B) : stays p → (∀ a, stays (f a)) → stays (p ≫= f).
Proof.
  intros Hp Hf w. rewrite run_bind. specialize (Hp w). destruct (run p w) as [[a|e| |] w1]; simpl in *;
    [etrans; [exact Hp|apply Hf]|done..].
Qed.

Lemma stays_try {A} (p : M A) : stays p → stays (try p).
Proof using Type. intros Hp w. rewrite run_try. apply Hp. Qed.

Lemma stays_map_err {A} f (p : M A) : stays p → stays (map_err f p).
Proof using Type. intros Hp w. rewrite run_map_err. apply Hp. Qed.

Lemma stays_atomically {A} (f : World → res error A * World) : (∀ w, G w (f w).2) → stays (atomically f).
Proof using Type. intros Hf w. by rewrite run_atomically. Qed.

Context `{Platform} (Hcall : ∀ d w, G w (with_db d (tick_call w))) (Hread : ∀ w, G w (tick_clock w)).

Lemma stays_sql {A} (f : DB → res error A * DB) : stays (sql f).
Proof using Hcall.
  apply stays_atomically. intros w. destruct (db_fault _); [|apply Hcall].
  exact (Hcall (w_db w) w).
Qed.

Lemma stays_time_now : stays time_now.
Proof using Hread. apply stays_atomically. intros w. apply Hread. Qed.

Lemma stays_transaction {A} b c (m : M A) : stays m → stays (transaction b c m).
Proof using All.
  intros Hm. apply stays_atomically. intros w. destruct (db_fault _); [exact (Hcall (w_db w) w)|].
  specialize (Hm (tick_call w)). destruct (run m (tick_call w)) as [r w'] eqn:Hr. simpl in Hm.
  assert (G w w') as Hw by (etrans; [exact (Hcall (w_db w) w)|exact Hm]).
  destruct r; [destruct (db_fault _)|..]; simpl; (etrans; [exact Hw|]).
  all: first [exact (Hcall (w_db w) w') | exact (Hcall (w_db w') w')].
Qed.
End stays.

(** [every_step G p]: each single step of [p] moves the world along [G], whatever others
    do in between. *)
Section every_step.
Context (G : World → World → Prop) `{!PreOrder G}.

Definition every_step {A} (p : M A) : Prop := ∀ w, rg G (λ _ _, True) p w.

Lemma every_done {A} (r : res error A) : every_step (Done r).
Proof. intros w. destruct r; [by apply rg_ret|by constructor..]. Qed.

Lemma every_bind {A B} (p : M A) (f : A → M B) :
  every_step p → (∀ a, every_step (f a)) → every_step (p ≫= f).
Proof. intros Hp Hf w. eapply rg_bind; [apply _|apply Hp|]. intros a w' _ _. apply Hf. Qed.

Lemma every_try {A} (p : M A) : every_step p → every_step (try p).
Proof.
  intros Hp w. eapply rg_weaken; [apply _|by eapply rg_try, Hp|done].
Qed.

Lemma every_map_err {A} f (p : M A) : every_step p → every_step (map_err f p).
Proof. intros Hp w. apply rg_map_err; [apply _|apply Hp]. Qed.

Lemma every_atomically {A} (f : World → res error A * World) : (∀ w, G w (f w).2) → every_step (atomically f).
Proof. intros Hf w. by apply rg_atomically. Qed.
End every_step.

Ltac every_step_auto := repeat (intros;
  match goal with
  | |- every_step _ (_ ≫= _) => apply every_bind; [apply _| |]
  | |- every_step _ (try _) => apply every_try; [apply _|]
  | |- every_step _ (map_err _ _) => apply every_map_err; [apply _|]
  | |- every_step _ (match ?x with _ => _ end) => destruct x
  | |- every_step _ (mret _) => apply every_done; apply _
  | |- every_step _ (throw _) => apply every_done; apply _
  | |- every_step _ (lift _) => apply every_done; apply _
  | |- every_step _ (Done _) => apply every_done; apply _
  end).

Create HintDb stays discriminated.

Ltac stays_step :=
  match goal with
  | |- stays _ (_ ≫= _) => apply stays_bind; [apply _| |]
  | |- stays _ (try _) => apply stays_try
  | |- stays _ (map_err _ _) => apply stays_map_err
  | |- stays _ (match ?x with _ => _ end) => destruct x
  | |- stays _ (mret _) => apply stays_done; apply _
  | |- stays _ (throw _) => apply stays_done; apply _
  | |- stays _ panic => apply stays_done; apply _
  | |- stays _ (lift _) => apply stays_done; apply _
  | |- stays _ (sql _) => apply stays_sql; [solve [eauto with stays]]
  | |- stays _ (query _) => unfold query
  | |- stays _ (select_one _) => unfold select_one
  | |- stays _ (select_first _ _) => unfold select_first
  | |- stays _ (select_opt _ _) => unfold select_opt
  | |- stays _ (nil_if_no_rows _ _) => unfold nil_if_no_rows
  | |- stays _ (insert _ _) => unfold insert
  | |- stays _ (update _ _) => unfold update
  | |- stays _ time_now => apply stays_time_now; [solve [eauto with stays]]
  | |- stays _ (transaction _ _ _) =>
      apply stays_transaction; [apply _|solve [eauto with stays]|solve [eauto with stays]|]
  | |- stays _ (atomically _) => apply stays_atomically; intros; cbn [snd]; solve [eauto with stays]
  | |- stays _ _ => solve [eauto with stays]
  end.
Ltac stays_auto := repeat (intros; stays_step); intros.

(** The clock is only ever read on. *)
Definition passed (w w' : World) : Prop := w_reads w ≤ w_reads w'.

#[export] Instance passed_preorder : PreOrder passed.
Proof. split; unfold passed; [intros w; lia|intros ???; lia]. Qed.

Lemma passed_call d w : passed w (with_db d (tick_call w)).
Proof. unfold passed. simpl. lia. Qed.
Lemma passed_read w : passed w (tick_clock w).
Proof. unfold passed. simpl. lia. Qed.
#[export] Hint Resolve passed_call passed_read : stays.
