(* ===== verification/Requests.v ===== *)
(** What serving a request can do to the database: every handler, from any state and
    among any other requests, only ever moves the database along [evolves]. *)

From S2P Require Import Prelude GoText Model Db Evolve OneTime AgentRepo ManifestRepo SentRepo.
From S2P Require Import StatusRepo Wire Lib Suit Teep Rats Qvl Collateral Verifiers Tam Server.

Section harmless.
Context `{Platform} `{Lib}.
Implicit Types w : World.

Lemma harmless_lift {A} (r : res error A) w : harmless (lift r) w.
Proof. by apply (rg_lift (on_db evolves)). Qed.

Lemma harmless_sign s alg kid payload w : harmless (cose_Sign1 s alg kid payload) w.
Proof. by apply safe_pure_step. Qed.

#[local] Hint Resolve harmless_lift harmless_sign : attestam.

Lemma COSESign1Sign_harmless m k w : harmless (TEEPMessage_COSESign1Sign m k) w.
Proof. unfold TEEPMessage_COSESign1Sign. harmless_auto. Qed.

Lemma harmless_Do client req w : harmless (Do client req) w.
Proof using All. by apply safe_pure_step. Qed.

#[local] Hint Resolve harmless_Do : attestam.

Lemma harmless_getAbsolute c url w : harmless (getAbsolute c url) w.
Proof using All. unfold getAbsolute. harmless_auto. Qed.

#[local] Hint Resolve harmless_getAbsolute : attestam.

Lemma harmless_getCollateral c quote w : harmless (getIntelQVLQuoteCollateral c quote) w.
Proof using All.
  unfold getIntelQVLQuoteCollateral, Fetch, fetchPCKCRL, fetchRootCACRL, fetchTCBInfo, fetchQEIdentity, pcs_get.
  harmless_auto.
Qed.

Lemma harmless_Cache_Get c quote w : harmless (Cache_Get c quote) w.
Proof. unfold Cache_Get. harmless_auto. Qed.

Lemma harmless_Cache_Put c quote collateral w : harmless (Cache_Put c quote collateral) w.
Proof. unfold Cache_Put. harmless_auto. Qed.

#[local] Hint Resolve harmless_getCollateral harmless_Cache_Get harmless_Cache_Put : attestam.

Lemma harmless_Process v payload w : harmless (IRAVerifier_Process v payload) w.
Proof.
  destruct v as [|c|v|process]; cbn [IRAVerifier_Process]; [| | |by apply safe_pure_step];
    unfold VerifierClient_Process, createSession, submitPayload, IntelQVLVerifier_Process, quoteCollateral,
      verifyIntelQVLQuote; harmless_auto.
Qed.

Lemma submit_harmless t fmt data w : harmless (submitAttestationPayload t fmt data) w.
Proof.
  unfold submitAttestationPayload, selectVerifier, resolveVerifier.
  apply harmless_bind.
  { destruct (TAM_resolveVerifier t); [|harmless_auto].
    apply harmless_bind; [|intros; apply safe_done]. apply safe_pure_step. intros w'.
    case_bool_decide; [done|]. by destruct (NewVerifierForBackend _ _ _). }
  intros [v backend] w1 _. destruct (is_nil_interface v); [apply safe_throw|].
  apply harmless_bind; [harmless_auto|]. intros p w2 _.
  apply harmless_bind; [apply safe_map_err, harmless_Process|]. harmless_auto.
Qed.

Lemma generateToken_harmless w : wf (w_db w) → harmless generateToken w.
Proof.
  intros Hwf. apply harmless_bind; [|harmless_auto].
  apply harmless_try. by eapply safe_true, (OneTime_GenerateUnique_safe (R:=Token)).
Qed.

Lemma generateChallenge_harmless w : wf (w_db w) → harmless generateChallenge w.
Proof.
  intros Hwf. apply harmless_bind; [|harmless_auto].
  apply harmless_try. by eapply safe_true, (OneTime_GenerateUnique_safe (R:=Challenge)).
Qed.

Lemma searchChallenge_harmless c w : wf (w_db w) → harmless (searchSentMessageWithChallenge c) w.
Proof.
  intros Hwf. destruct c as [c|]; [|apply safe_done]. unfold searchSentMessageWithChallenge.
  apply harmless_bind; [by apply harmless_try; eapply safe_true, (OneTime_MarkConsumed_safe (R:=Challenge))|].
  intros [?|?] w1 Hw1; [|apply safe_done]. pose proof (evolves_wf _ _ Hw1 Hwf).
  apply harmless_bind; [by apply harmless_try; eapply safe_true, SentQuery_FindByChallenge_safe|].
  harmless_auto.
Qed.

Lemma searchToken_harmless o w : wf (w_db w) → harmless (searchSentMessageWithToken o) w.
Proof.
  intros Hwf. destruct o as [v|]; [|apply safe_done]. unfold searchSentMessageWithToken.
  apply harmless_bind; [by apply harmless_try; eapply safe_true, (OneTime_MarkConsumed_safe (R:=Token))|].
  intros [?|?] w1 Hw1; [|apply safe_done]. pose proof (evolves_wf _ _ Hw1 Hwf).
  apply harmless_bind; [by apply harmless_try; eapply safe_true, SentQuery_FindByToken_safe|].
  intros [[q|]|e] w2 Hw2; [apply safe_done| |apply safe_done].
  apply harmless_bind; [|harmless_auto]. apply harmless_try.
  unfold SentUpdateMessageRepository_FindWithManifestsByToken. harmless_auto.
Qed.

Lemma saveSentQueryRequest_harmless m w : harmless (saveSentQueryRequest m) w.
Proof. unfold saveSentQueryRequest. harmless_auto. Qed.

Lemma saveSentUpdate_harmless m kid ms w : wf (w_db w) → harmless (saveSentUpdate m kid ms) w.
Proof.
  intros Hwf. unfold saveSentUpdate. case_match; [apply safe_throw|].
  apply harmless_bind; [|harmless_auto].
  by eapply safe_map_err, safe_true, CreateWithToken_safe.
Qed.

#[local] Hint Resolve COSESign1Sign_harmless generateToken_harmless generateChallenge_harmless
  saveSentQueryRequest_harmless saveSentUpdate_harmless : attestam.

Lemma generateQueryRequest_harmless t w : wf (w_db w) → harmless (generateQueryRequest t) w.
Proof. intros Hwf. unfold generateQueryRequest. harmless_auto. Qed.

Lemma generateQueryRequestWithAttestation_harmless t w :
  wf (w_db w) → harmless (generateQueryRequestWithAttestation t) w.
Proof. intros Hwf. unfold generateQueryRequestWithAttestation. harmless_auto. Qed.

Lemma getTEEPAgentKey_harmless kid w : wf (w_db w) → harmless (getTEEPAgentKey kid) w.
Proof.
  intros Hwf. unfold getTEEPAgentKey. case_match; [apply safe_throw|].
  apply harmless_bind; [by eapply safe_true, AgentRepository_FindByKID_safe|]. intros. apply harmless_lift.
Qed.

Lemma setTEEPAgentKey_harmless k u w : harmless (setTEEPAgentKey k u) w.
Proof. unfold setTEEPAgentKey. harmless_auto. Qed.

Lemma tryAuthenticate_harmless raw w : wf (w_db w) → harmless (tryAuthenticateTeepMessage raw) w.
Proof.
  intros Hwf. unfold tryAuthenticateTeepMessage, checkSignatureWithKID.
  destruct (Sign1_UnmarshalCBOR raw) as [msg|]; [|apply safe_done].
  apply harmless_bind; [|intros [[m k] e] w1 _; harmless_auto].
  apply harmless_bind; [harmless_auto|]. intros [m|e] w1 Hw1; [|apply safe_done].
  destruct (getKid _) as [kid|]; [|apply safe_done]. pose proof (evolves_wf _ _ Hw1 Hwf).
  apply harmless_bind; [by apply harmless_try, getTEEPAgentKey_harmless|]. harmless_auto.
Qed.

Lemma verifyAttestationPayload_harmless t body m kid w :
  wf (w_db w) → harmless (verifyAttestationPayload t body m kid) w.
Proof.
  intros Hwf. unfold verifyAttestationPayload. destruct (Opt_AttestationPayload _); [|apply safe_throw].
  apply harmless_bind; [apply submit_harmless|]. intros [r backend] w1 Hw1.
  destruct (negb _); [apply safe_done|].
  apply harmless_bind; [apply harmless_lift|]. intros r2 w2 Hw2.
  apply harmless_bind; [apply searchChallenge_harmless; eauto with attestam|]. intros [sent|] w3 Hw3; [|apply safe_throw].
  destruct kid; [apply safe_done|]. destruct (_ && _); [apply safe_throw|].
  destruct (AttestationKey _); [|apply safe_throw].
  apply harmless_bind; [apply safe_map_err, harmless_lift|]. intros _ w4 _.
  apply harmless_bind; [apply safe_map_err, setTEEPAgentKey_harmless|]. harmless_auto.
Qed.

Lemma collect_manifests_harmless l w : wf (w_db w) → harmless (collect_manifests l) w.
Proof.
  revert w. induction l as [|c l IH]; intros w Hwf; cbn [collect_manifests]; [apply safe_done|].
  apply harmless_bind; [by eapply safe_map_err, safe_true, FindLatest_safe|]. intros m w1 Hw1.
  apply harmless_bind; [apply IH; eauto with attestam|]. harmless_auto.
Qed.

Lemma processQueryResponse_harmless t m kid sent w :
  wf (w_db w) → harmless (processQueryResponse t m kid sent) w.
Proof.
  intros Hwf. unfold processQueryResponse. destruct (negb _); [apply safe_throw|].
  apply harmless_bind; [by apply generateToken_harmless|]. intros [tok|] w1 Hw1; [|apply safe_throw].
  apply harmless_bind; [apply harmless_lift|]. intros s1 w2 Hw2.
  apply harmless_bind; [apply harmless_lift|]. intros [|c cs] w3 Hw3; [apply safe_done|].
  apply harmless_bind; [apply collect_manifests_harmless; eauto with attestam|].
  intros [|x ms] w4 Hw4; [apply safe_done|].
  apply harmless_bind; [apply safe_map_err, COSESign1Sign_harmless|]. intros resp w5 Hw5.
  apply harmless_bind; [apply safe_map_err, saveSentUpdate_harmless; eauto 7 with attestam|].
  harmless_auto.
Qed.

Lemma handle_reports_harmless record l w :
  (∀ dg raw w', wf (w_db w') → harmless (record dg raw) w') →
  wf (w_db w) → harmless (handle_reports record l) w.
Proof using All.
  intros Hr. revert w. induction l as [|raw l IH]; intros w Hwf; cbn [handle_reports]; [apply safe_done|].
  apply harmless_bind; [apply harmless_try, harmless_lift|]. intros [rep|e] w1 Hw1; [|eauto with attestam].
  destruct (negb _); [eauto with attestam|].
  apply harmless_bind; [destruct (report_succeeded _); [eauto with attestam|apply safe_done]|].
  intros. eauto with attestam.
Qed.

Lemma handleReports_harmless record m kid sent w :
  (∀ k dg raw w', wf (w_db w') → harmless (record k dg raw) w') →
  wf (w_db w) → harmless (handleReports record m kid sent) w.
Proof using All.
  intros Hr Hwf. unfold handleReports. destruct kid; [|apply safe_throw].
  destruct sent; [|apply safe_throw].
  apply harmless_bind; [apply handle_reports_harmless; [apply Hr|done]|]. harmless_auto.
Qed.

Lemma handleQueryResponse_harmless t body m kid sent w :
  wf (w_db w) → harmless (handleQueryResponse t body m kid sent) w.
Proof.
  intros Hwf. unfold handleQueryResponse.
  assert (∀ w', wf (w_db w') → safe (A:=option bytes) (λ _ _, True) (
    ids ← match sent with
          | Some _ => mret (kid, sent)
          | None =>
              v ← verifyAttestationPayload t body m kid;
              let '(r, k, s) := v in
              if negb (EqualFold (EarStatus r) "affirming") then throw ErrAttestationFailed
              else mret (if is_nil k then kid else k, if is_nil s then sent else s)
          end;
    match ids with
    | (Some kid, Some sent) => processQueryResponse t m kid sent
    | _ => throw ErrNotAuthenticated
    end) w') as Hmain.
  { intros w' Hwf'. apply harmless_bind.
    - destruct sent; [apply safe_done|].
      apply harmless_bind; [by apply verifyAttestationPayload_harmless|]. intros [[r k] s] w2 _.
      destruct (negb _); [apply safe_throw|apply safe_done].
    - intros [[k|] [s|]] w2 Hw2; try apply safe_throw.
      apply processQueryResponse_harmless. eauto with attestam. }
  destruct sent as [s|]; [destruct kid as [k|]|]; [by apply Hmain| |by destruct kid; apply Hmain].
  apply harmless_bind; [by apply generateQueryRequestWithAttestation_harmless|]. harmless_auto.
Qed.

Lemma ResolveTEEPMessage_harmless t body w : wf (w_db w) → harmless (ResolveTEEPMessage t body) w.
Proof.
  intros Hwf. unfold ResolveTEEPMessage. destruct body as [|b body].
  { apply harmless_bind; [by apply generateQueryRequest_harmless|]. harmless_auto. }
  apply harmless_bind; [by apply tryAuthenticate_harmless|]. intros [[m kid] e] w1 Hw1.
  assert (safe (A:=option bytes) (λ _ _, True) (match e with Some e => throw e | None => mret None end) w1)
    by (destruct e; [apply safe_throw|apply safe_done]).
  destruct m as [m|]; [|done]. case_bool_decide; [|done].
  apply harmless_bind; [apply searchToken_harmless; eauto with attestam|]. intros sent w2 Hw2.
  assert (wf (w_db w2)) by eauto with attestam.
  destruct (Z.eqb _ _); [by apply handleQueryResponse_harmless|].
  destruct (Z.eqb _ _); [apply handleReports_harmless; [|done]|].
  { intros k dg raw w' Hwf'. unfold updateAgentStatusOnManifestSuccess.
    apply harmless_bind; [by eapply harmless_try, safe_true, ReflectManifestSuccess_safe|]. harmless_auto. }
  destruct (Z.eqb _ _); [apply handleReports_harmless; [|done]|apply safe_throw].
  intros k dg raw w' Hwf'. unfold updateAgentStatusOnManifestError.
  apply harmless_bind; [apply harmless_try, RecordManifestProcessingFailure_harmless|]. harmless_auto.
Qed.

(** *** The HTTP handlers *)

Lemma SetEnvelope_harmless e dg kid tc n w : wf (w_db w) → harmless (SetEnvelope e dg kid tc n) w.
Proof.
  intros Hwf. unfold SetEnvelope, ManifestSigningKeyRepository_FindByKID, GetManifest.
  destruct e; [|apply safe_throw].
  apply harmless_bind; [apply harmless_try, harmless_select_opt|]. intros [[k|]|e] w1 Hw1; [|apply safe_throw..].
  apply harmless_bind; [by eapply safe_map_err, safe_true, FindLatest_safe; eauto with attestam|].
  intros m w2 Hw2. harmless_auto.
Qed.

Lemma registerManifest_harmless body w : wf (w_db w) → harmless (registerManifest body) w.
Proof.
  intros Hwf. unfold registerManifest. apply harmless_bind; [apply harmless_try, harmless_lift|].
  intros [env|e] w1 Hw1; [|apply safe_done].
  apply harmless_bind; [apply harmless_lift|]. intros [tag raw] w2 Hw2.
  apply harmless_bind.
  { apply harmless_try. unfold GetEntityKey, ManifestSigningKeyRepository_FindByKID. harmless_auto. }
  intros [[k|]|e] w3 Hw3; [|apply safe_done..].
  apply harmless_bind; [apply harmless_try, harmless_lift|]. intros [?|e] w4 Hw4; [|apply safe_done].
  apply harmless_bind; [apply harmless_try, harmless_lift|]. intros [man|e] w5 Hw5; [|apply safe_done].
  destruct (Components _) as [|c [|]]; [apply safe_done| |apply safe_done].
  destruct (Marshal_component_id c); [|apply safe_done].
  apply harmless_bind; [apply harmless_try, SetEnvelope_harmless; eauto 7 with attestam|]. harmless_auto.
Qed.

Lemma status_keys_harmless l w : harmless (status_keys l) w.
Proof.
  revert w. induction l as [|a l IH]; intros w; cbn [status_keys]; [apply safe_done|].
  apply harmless_bind; [apply safe_map_err, GetAgentStatus_harmless|]. intros s w1 _.
  apply harmless_bind; [apply IH|]. harmless_auto.
Qed.

Lemma collect_statuses_harmless l w : harmless (collect_statuses l) w.
Proof.
  revert w. induction l as [|a l IH]; intros w; cbn [collect_statuses]; [apply safe_done|].
  apply harmless_bind.
  - unfold GetAgentStatus. apply harmless_bind; [apply safe_map_err, GetAgentStatus_harmless|]. harmless_auto.
  - intros s w1 _. apply harmless_bind; [apply IH|]. harmless_auto.
Qed.

Lemma ServeHTTP_harmless t r w : wf (w_db w) → harmless (ServeHTTP t r) w.
Proof.
  intros Hwf. unfold ServeHTTP. destruct (String.eqb _ _).
  { unfold tamOverHttp. do 3 (destruct (negb _); [apply safe_done|]).
    destruct (ReadAll _ _); [|apply safe_done..]. destruct (Body_CloseFails _); [apply safe_done|].
    apply harmless_bind; [by apply harmless_try, ResolveTEEPMessage_harmless|]. harmless_auto. }
  destruct (String.eqb _ _).
  { unfold getManifests, GetManifests. harmless_auto. }
  destruct (String.eqb _ _).
  { unfold addTCManifest. do 2 (destruct (negb _); [apply safe_done|]).
    destruct (ReadAll _ _); [|apply safe_done..]. destruct (Body_CloseFails _); [apply safe_done|].
    by apply registerManifest_harmless. }
  destruct (String.eqb _ _).
  { unfold getAgentList, FindEntity, EntityRepository_FindByName.
    do 2 (destruct (negb _); [apply safe_done|]).
    apply harmless_bind; [apply harmless_try, harmless_select_opt|].
    intros [[e|]|e] w1 _; [|apply safe_panic|apply safe_done].
    destruct (_ || _); [|apply safe_done]. apply harmless_bind; [|harmless_auto].
    unfold GetAgentStatuses, AgentRepository_GetAll. apply harmless_try.
    apply harmless_bind; [harmless_auto|]. intros. apply status_keys_harmless. }
  destruct (String.eqb _ _); [|apply safe_done].
  unfold getAgentStatus, FindEntity, EntityRepository_FindByName.
  do 3 (destruct (negb _); [apply safe_done|]).
  destruct (ReadAll _ _); [|apply safe_done..]. destruct (Body_CloseFails _); [apply safe_done|].
  destruct (cbor_bytes_list _) as [kids|]; [|apply safe_done].
  apply harmless_bind; [apply harmless_try, harmless_select_opt|]. intros [e|e] w1 _; [|apply safe_done].
  apply harmless_bind; [apply harmless_try, collect_statuses_harmless|]. harmless_auto.
Qed.
End harmless.
