(* ===== verification/TamFrames.v ===== *)
(** How the calls of the program move the database: which of them only read, and which
    tables the others write.  A lemma [f_moves] holds for every relation between databases
    that lets the tables [f] writes be written. *)

From S2P Require Import Prelude GoText Model Db Evolve Frame OneTime AgentRepo ManifestRepo.
From S2P Require Import SentRepo StatusRepo Wire Lib Suit Teep Rats Qvl Collateral Verifiers Tam Server.

(** ** Readers *)

Section readers.
Context `{Platform} `{Lib}.
Implicit Types w : World.

Lemma getCollateral_reads c quote : reads (getIntelQVLQuoteCollateral c quote).
Proof.
  unfold getIntelQVLQuoteCollateral, Fetch, fetchPCKCRL, fetchRootCACRL, fetchTCBInfo, fetchQEIdentity,
    pcs_get, getAbsolute, Do.
  moves_auto.
Qed.

Lemma Process_reads v payload : reads (IRAVerifier_Process v payload).
Proof.
  pose proof getCollateral_reads as Hg. unfold reads in Hg.
  destruct v as [|[c|]|v|process]; cbn [IRAVerifier_Process];
    unfold VerifierClient_Process, createSession, submitPayload, Do, IntelQVLVerifier_Process, quoteCollateral,
      Cache_Get, Cache_Put, verifyIntelQVLQuote; moves_auto.
Qed.

Lemma resolveVerifier_reads cfg f : reads (resolveVerifier cfg f).
Proof.
  unfold resolveVerifier. apply moves_atomically; [apply _|]. intros w.
  case_bool_decide; [done|]. by destruct (NewVerifierForBackend _ _ _).
Qed.

Lemma resolveVerifier_Ok cfg format w v w' :
  run (resolveVerifier cfg format) w = (Ok v, w') →
  ∃ mk, NewVerifierForBackend mk (VerifierBackendForAttestationPayloadFormat format)
          (with_backend (VerifierBackendForAttestationPayloadFormat format) cfg) = Ok v.
Proof.
  unfold resolveVerifier. rewrite run_atomically. case_bool_decide; [intros [= Hv _]; eauto|].
  destruct (NewVerifierForBackend _ _ _) as [v'| | |] eqn:Hv; intros Hr; simplify_eq. eauto.
Qed.

Lemma submit_reads t fmt data : reads (submitAttestationPayload t fmt data).
Proof.
  pose proof Process_reads as Hp. pose proof resolveVerifier_reads as Hv. unfold reads in Hp, Hv.
  unfold submitAttestationPayload, selectVerifier. moves_auto.
Qed.

Lemma getTEEPAgentKey_reads kid : reads (getTEEPAgentKey kid).
Proof. unfold getTEEPAgentKey, AgentRepository_FindByKID. moves_auto. Qed.

Lemma tryAuthenticate_reads raw : reads (tryAuthenticateTeepMessage raw).
Proof.
  pose proof getTEEPAgentKey_reads as Hk. unfold reads in Hk.
  unfold tryAuthenticateTeepMessage, checkSignatureWithKID. moves_auto.
Qed.

Lemma COSESign1Sign_reads m k : reads (TEEPMessage_COSESign1Sign m k).
Proof. unfold TEEPMessage_COSESign1Sign, cose_Sign1. moves_auto. Qed.

Lemma collect_manifests_reads l : reads (collect_manifests l).
Proof.
  unfold reads. induction l as [|c l IH]; cbn [collect_manifests]; [done|].
  unfold SuitManifestRepository_FindLatestByTrustedComponentID. moves_auto.
Qed.

Lemma status_keys_reads l : reads (status_keys l).
Proof.
  unfold reads. induction l as [|a l IH]; cbn [status_keys]; [done|].
  unfold AgentStatusRepository_GetAgentStatus. moves_auto.
Qed.

Lemma collect_statuses_reads l : reads (collect_statuses l).
Proof.
  unfold reads. induction l as [|a l IH]; cbn [collect_statuses]; [done|].
  unfold GetAgentStatus, AgentStatusRepository_GetAgentStatus. moves_auto.
Qed.

Lemma InitDB_reads : reads InitDB.
Proof. unfold InitDB, sqlite_InitDB, exec_statement. moves_auto. Qed.
End readers.

Create HintDb readers discriminated.
#[export] Hint Resolve getCollateral_reads Process_reads resolveVerifier_reads submit_reads
  getTEEPAgentKey_reads tryAuthenticate_reads COSESign1Sign_reads collect_manifests_reads
  status_keys_reads collect_statuses_reads : readers.
#[export] Hint Extern 8 (moves _ _) => apply moves_of_reads; [apply _|]; solve [eauto with readers] : frames.

(** ** Writers *)

Section writers.
Context `{Platform} `{Lib} (G : DB → DB → Prop) `{!PreOrder G}.

Lemma GenerateUnique_moves (R : Type) `{OneTime R} `{!Inserts R G} fuel :
  moves G (OneTime_GenerateUnique R fuel).
Proof.
  induction fuel as [|fuel IH]; cbn [OneTime_GenerateUnique]; [done|].
  unfold OneTime_FindByValue, OneTime_Create. moves_auto.
Qed.

Lemma generateToken_moves `{!Inserts Token G} : moves G generateToken.
Proof.
  pose proof (GenerateUnique_moves Token). unfold generateToken, TokenRepository_GenerateUniqueToken.
  moves_auto.
Qed.

Lemma generateChallenge_moves `{!Inserts Challenge G} : moves G generateChallenge.
Proof.
  pose proof (GenerateUnique_moves Challenge).
  unfold generateChallenge, ChallengeRepository_GenerateUniqueChallenge. moves_auto.
Qed.

Lemma searchToken_moves `{!Updates Token G} o : moves G (searchSentMessageWithToken o).
Proof.
  unfold searchSentMessageWithToken, TokenRepository_MarkConsumed, OneTime_MarkConsumed,
    SentQueryRequestMessageRepository_FindByToken, SentUpdateMessageRepository_FindWithManifestsByToken.
  moves_auto.
Qed.

Lemma searchChallenge_moves `{!Updates Challenge G} o : moves G (searchSentMessageWithChallenge o).
Proof.
  unfold searchSentMessageWithChallenge, ChallengeRepository_MarkConsumed, OneTime_MarkConsumed,
    SentQueryRequestMessageRepository_FindByChallenge.
  moves_auto.
Qed.

Lemma saveSentQueryRequest_moves `{!Inserts SentQueryRequestMessage G} m : moves G (saveSentQueryRequest m).
Proof.
  unfold saveSentQueryRequest, SentQueryRequestMessageRepository_CreateWithToken,
    SentQueryRequestMessageRepository_CreateWithChallenge, SentQueryRequestMessageRepository_Create,
    TokenRepository_FindByToken, ChallengeRepository_FindByChallenge, OneTime_FindByValue.
  moves_auto.
Qed.

Lemma generateQueryRequest_moves `{!Inserts Token G} `{!Inserts SentQueryRequestMessage G} t :
  moves G (generateQueryRequest t).
Proof.
  pose proof generateToken_moves. pose proof saveSentQueryRequest_moves.
  unfold generateQueryRequest. moves_auto.
Qed.

Lemma generateQueryRequestWithAttestation_moves `{!Inserts Challenge G}
    `{!Inserts SentQueryRequestMessage G} t : moves G (generateQueryRequestWithAttestation t).
Proof.
  pose proof generateChallenge_moves. pose proof saveSentQueryRequest_moves.
  unfold generateQueryRequestWithAttestation. moves_auto.
Qed.

Lemma setTEEPAgentKey_moves `{!Inserts Agent G} key ueid : moves G (setTEEPAgentKey key ueid).
Proof.
  unfold setTEEPAgentKey, AgentRepository_FindByKIDIgnoreRevoked, DeviceRepository_FindByUEID,
    AgentRepository_Create.
  moves_auto.
Qed.

Section update.
Context `{!Inserts Token G} `{!Inserts SentUpdateMessage G} `{!Inserts SentManifest G}.

Lemma link_manifests_moves id ms : moves G (link_manifests id ms).
Proof using PreOrder0 Inserts2.
  induction ms as [|m ms IH]; cbn [link_manifests]; [done|].
  unfold link_manifest, SuitManifestRepository_FindByID. moves_auto.
Qed.

Lemma saveSentUpdate_moves m kid ms : moves G (saveSentUpdate m kid ms).
Proof using PreOrder0 Inserts1 Inserts2.
  pose proof link_manifests_moves.
  unfold saveSentUpdate, SentUpdateMessageRepository_CreateWithToken, SentUpdateMessageRepository_Create,
    AgentRepository_FindByKID, TokenRepository_FindByToken, OneTime_FindByValue.
  moves_auto.
Qed.

Lemma processQueryResponse_moves t m kid sent : moves G (processQueryResponse t m kid sent).
Proof.
  pose proof generateToken_moves. pose proof saveSentUpdate_moves.
  unfold processQueryResponse. moves_auto.
Qed.
End update.

Lemma handle_reports_moves record l :
  (∀ dg raw, moves G (record dg raw)) → moves G (handle_reports record l).
Proof. intros Hr. induction l as [|raw l IH]; cbn [handle_reports]; [done|]. moves_auto. Qed.

Lemma handleReports_moves record m kid sent :
  (∀ k dg raw, moves G (record k dg raw)) → moves G (handleReports record m kid sent).
Proof.
  intros Hr. pose proof (λ k l, handle_reports_moves (record k) l (Hr k)).
  unfold handleReports. moves_auto.
Qed.

Lemma success_moves `{!Inserts Holding G} `{!Updates Holding G} `{!Inserts SuitReport G} k dg raw :
  moves G (updateAgentStatusOnManifestSuccess k dg raw).
Proof.
  unfold updateAgentStatusOnManifestSuccess, AgentStatusRepository_ReflectManifestSuccess,
    replace_holding, current_timestamp.
  moves_auto.
Qed.

Lemma failure_moves `{!Inserts SuitReport G} k dg raw : moves G (updateAgentStatusOnManifestError k dg raw).
Proof.
  unfold updateAgentStatusOnManifestError, AgentStatusRepository_RecordManifestProcessingFailure,
    current_timestamp.
  moves_auto.
Qed.

Lemma SetEnvelope_moves `{!Inserts SuitManifest G} env dg kid tc n : moves G (SetEnvelope env dg kid tc n).
Proof.
  unfold SetEnvelope, ManifestSigningKeyRepository_FindByKID, GetManifest,
    SuitManifestRepository_FindLatestByTrustedComponentID, SuitManifestRepository_Create.
  moves_auto.
Qed.

Lemma registerManifest_moves `{!Inserts SuitManifest G} body : moves G (registerManifest body).
Proof.
  pose proof SetEnvelope_moves.
  unfold registerManifest, GetEntityKey, ManifestSigningKeyRepository_FindByKID. moves_auto.
Qed.
End writers.

(** The handlers other than the TEEP endpoint. *)
Ltac unfold_handlers :=
  unfold getManifests, GetManifests, SuitManifestRepository_FindLatestAll, addTCManifest, getAgentList,
    getAgentStatus, FindEntity, EntityRepository_FindByName, GetAgentStatuses, AgentRepository_GetAll.

Section requests.
Context `{Platform} `{Lib} (G : DB → DB → Prop) `{!PreOrder G}.
Context `{!Inserts Token G} `{!Inserts Challenge G} `{!Updates Challenge G} `{!Inserts Agent G}.
Context `{!Inserts SentQueryRequestMessage G} `{!Inserts SentUpdateMessage G} `{!Inserts SentManifest G}.

Lemma verifyAttestationPayload_moves t body m kid : moves G (verifyAttestationPayload t body m kid).
Proof.
  pose proof (searchChallenge_moves G). pose proof (setTEEPAgentKey_moves G).
  unfold verifyAttestationPayload. moves_auto.
Qed.

Lemma handleQueryResponse_moves t body m kid sent : moves G (handleQueryResponse t body m kid sent).
Proof.
  pose proof verifyAttestationPayload_moves. pose proof (processQueryResponse_moves G).
  pose proof (generateQueryRequestWithAttestation_moves G).
  unfold handleQueryResponse. moves_auto.
Qed.

Context `{!Updates Token G} `{!Inserts Holding G} `{!Updates Holding G} `{!Inserts SuitReport G}.

Lemma ResolveTEEPMessage_moves t body : moves G (ResolveTEEPMessage t body).
Proof.
  pose proof handleQueryResponse_moves. pose proof (generateQueryRequest_moves G).
  pose proof (searchToken_moves G).
  pose proof (λ m k s, handleReports_moves G updateAgentStatusOnManifestSuccess m k s (success_moves G)).
  pose proof (λ m k s, handleReports_moves G updateAgentStatusOnManifestError m k s (failure_moves G)).
  unfold ResolveTEEPMessage. moves_auto.
Qed.

Definition register_path : string := "/SUITManifestService/RegisterManifest".

(** No other request touches the manifests. *)
Lemma other_requests_moves t r : Req_Path r ≠ register_path → moves G (ServeHTTP t r).
Proof.
  intros Hp. pose proof ResolveTEEPMessage_moves.
  unfold ServeHTTP, tamOverHttp. destruct (String.eqb_spec (Req_Path r) "/SUITManifestService/RegisterManifest");
    [done|]. unfold_handlers. moves_auto.
Qed.

(** The tables a request may write; no others are ever touched. *)
Lemma ServeHTTP_moves `{!Inserts SuitManifest G} t r : moves G (ServeHTTP t r).
Proof.
  pose proof ResolveTEEPMessage_moves. pose proof (registerManifest_moves G).
  unfold ServeHTTP, tamOverHttp. unfold_handlers. moves_auto.
Qed.
End requests.
