(* ===== verification/Scenario.v ===== *)
(** A concrete agent, and a TAM run against it through its own operations: what the
    witnesses of the theorems about the TAM evaluate. *)

From S2P Require Import Prelude Model Db Evolve OneTime AgentRepo ManifestRepo SentRepo.
From S2P Require Import StatusRepo Wire Lib Stub Suit Teep Rats Qvl Collateral Verifiers Tam Server Requests.

Definition agent_key : bytes := bs [5]%Z.
Definition agent_kid : bytes := pad 32 agent_key.
Definition tam_key : bytes := bs [0x77]%Z.
Definition dev_key : bytes := bs [0x55]%Z.
Definition dev_kid : bytes := pad 32 dev_key.

(** The values the random source yields on draw [n]. *)
Definition nth_draw (n : Z) : bytes := replicate 32 (byte_of_Z (n + 1)).

(** Message bodies. *)
Definition evidence_body : bytes := bs [1]%Z.
Definition response_body : bytes := bs [2]%Z.
Definition success_body : bytes := bs [3]%Z.
Definition error_body : bytes := bs [4]%Z.
Definition evidence : bytes := bs [6]%Z.
(** ... of a device that also names a component, with the evidence in it. *)
Definition joining_body : bytes := bs [0x1A]%Z.
Definition joining_evidence : bytes := bs [0x1D]%Z.
Definition good_report : bytes := bs [8]%Z.
Definition bad_report : bytes := bs [9]%Z.
Definition envelope : bytes := bs [0xA0; 0]%Z.
Definition component : ComponentID := Some [Some (bs [0xC]%Z)].
Definition component_bytes : bytes := bs [0xC]%Z.
Definition manifest_bytes : bytes := bs [0xAF]%Z.
Definition manifest_digest : bytes := pad 32 (bs [0xD]%Z).

Definition options_with (payload : option bytes) (format : option string)
    (tcs : option (list SystemPropertyClaims)) (reports : option (list bytes)) (token : option bytes) :
    TEEPOptions :=
  mkTEEPOptions None None None None None payload tcs None None None None format None None reports token
    None None None.

Definition signed_by (key kid payload : bytes) : Sign1Message :=
  mkSign1Message [] [(HeaderLabelKeyID, HBytes kid)] (Some payload) key.

Definition script : Script := {|
  s_sign1 := [(evidence_body, signed_by agent_key agent_kid (bs [0x11]%Z));
              (response_body, signed_by agent_key agent_kid (bs [0x12]%Z));
              (success_body, signed_by agent_key agent_kid (bs [0x13]%Z));
              (error_body, signed_by agent_key agent_kid (bs [0x14]%Z));
              (evidence, signed_by agent_key agent_kid (bs [0x16]%Z));
              (joining_body, signed_by agent_key agent_kid (bs [0x1B]%Z));
              (joining_evidence, signed_by agent_key agent_kid (bs [0x1E]%Z));
              (bs [0xA4]%Z, mkSign1Message [(HeaderLabelKeyID, HBytes dev_kid)] [] None dev_key)];
  s_array := [(bs [0x1B]%Z, [bs [0x22]%Z; bs [0x1C]%Z]); (bs [0x11]%Z, [bs [0x22]%Z; bs [0x31]%Z]); (bs [0x12]%Z, [bs [0x22]%Z; bs [0x32]%Z]);
              (bs [0x13]%Z, [bs [0x24]%Z; bs [0x33]%Z]);
              (bs [0x14]%Z, [bs [0x25]%Z; bs [0x34]%Z; bs [0x21]%Z]);
              (bs [0xA1]%Z, [bs [0xA2]%Z; bs [0xA3]%Z])];
  s_map := [(envelope, [(KUint 2, bs [0xA7]%Z); (KUint 3, manifest_bytes)])];
  s_bytes := [(bs [0xA7]%Z, Some (bs [0xA1]%Z)); (bs [0xA2]%Z, Some manifest_digest);
              (bs [0xA3]%Z, Some (bs [0xA4]%Z)); (manifest_bytes, Some (bs [0xA8]%Z));
              (bs [0xA9]%Z, Some (bs [0xAA]%Z))];
  s_int := [(bs [0x21]%Z, 1%Z); (bs [0x22]%Z, 2%Z); (bs [0x24]%Z, 4%Z); (bs [0x25]%Z, 5%Z)];
  s_options := [(bs [0x1C]%Z, options_with (Some joining_evidence) (Some "application/eat+cwt")
                   (Some [mkSystemPropertyClaims component None 0]) None None);
                (bs [0x31]%Z, options_with (Some evidence) (Some "application/eat+cwt") None None None);
                (bs [0x32]%Z, options_with None None
                   (Some [mkSystemPropertyClaims component None 0; mkSystemPropertyClaims component None 0])
                   None (Some (nth_draw 3)));
                (bs [0x33]%Z, options_with None None None (Some [good_report; bad_report]) (Some (nth_draw 5)));
                (bs [0x34]%Z, options_with None None None (Some [bad_report]) (Some (nth_draw 5)))];
  s_digest := [(manifest_digest, mkDigest AlgorithmSHA256 (Some (pad 32 manifest_bytes)))];
  s_report := [(good_report, mkRawReport
                 (mkReference "" (mkDigest AlgorithmSHA256 (Some (pad 32 manifest_digest)))) None []
                 (Some (bs [0xF5]%Z)));
               (bad_report, mkRawReport
                 (mkReference "" (mkDigest AlgorithmSHA256 (Some (pad 32 manifest_digest)))) None []
                 (Some (bs [0x83]%Z)))];
  s_bool := [(bs [0xF5]%Z, true)];
  s_detailed := [(bs [0x83]%Z, mkDetailedResult 1 (mkRecord [] 0 0 0 []) 11)];
  s_manifest := [(bs [0xA8]%Z, mkRawManifest 1 3 (Some (bs [0xA9]%Z)))];
  s_common := [(bs [0xAA]%Z, mkCommon [component] None)];
  s_bundle := [];
  s_eat := [(bs [0x1E]%Z, mkEat (Some [nth_draw 5]) (Some (Some agent_key)) None);
            (bs [0x16]%Z, mkEat (Some [nth_draw 0]) (Some (Some agent_key)) None)];
  s_http := λ _ _ _, None; s_certificate := []; s_certificates := []; s_cache := [];
|}.

Definition lib : Lib := stub script.

(** A verifier that affirms whatever it is given. *)
Definition affirming : ProcessedAttestation bytes :=
  mkProcessedAttestation None "" "" "" VerifierBackendVeraison "affirming" true None None None "" None.

Definition tam : @TAM lib :=
  @mkTAM lib (@Supplied lib (λ _ _, Ok affirming)) None tam_key.

(** The TAM has asked for evidence. *)
Definition asked : World :=
  (run (@generateQueryRequestWithAttestation calm lib tam) initial_world).2.

Lemma asked_wf : wf (w_db asked).
Proof.
  exact (evolves_wf _ _ (proj1 (safe_run _ _ _
    (@generateQueryRequestWithAttestation_harmless calm lib tam initial_world wf_empty))) wf_empty).
Qed.

(** ... and got it: the agent is enrolled. *)
Definition enrolled : World :=
  (run (@ResolveTEEPMessage calm lib tam evidence_body) asked).2.

Lemma enrolled_wf : wf (w_db enrolled).
Proof.
  exact (evolves_wf _ _ (proj1 (safe_run _ _ _
    (@ResolveTEEPMessage_harmless calm lib tam evidence_body asked asked_wf))) asked_wf).
Qed.

(** A TC developer with a signing key, and the manifest of sequence number 3 that it
    registers. *)
Section developer.
Context `{Platform}.

Definition developer : M unit :=
  eid ← EntityRepository_Create (mkEntity 0 "dev" false true false 0);
  _ ← ManifestSigningKeyRepository_Create (mkManifestSigningKey 0 dev_kid eid dev_key 0 0);
  mret tt.

Lemma developer_harmless w : harmless developer w.
Proof. unfold developer. harmless_auto. Qed.
End developer.

Definition with_developer (w : World) : World := (run (@developer calm) w).2.
Definition with_manifest (w : World) : World := (run (@registerManifest calm lib envelope) (with_developer w)).2.

Lemma with_developer_wf w : wf (w_db w) → wf (w_db (with_developer w)).
Proof. exact (evolves_wf _ _ (proj1 (safe_run _ _ _ (@developer_harmless calm w)))). Qed.

Lemma with_manifest_wf w : wf (w_db w) → wf (w_db (with_manifest w)).
Proof.
  intros Hwf. apply with_developer_wf in Hwf.
  exact (evolves_wf _ _ (proj1 (safe_run _ _ _ (@registerManifest_harmless calm lib envelope _ Hwf))) Hwf).
Qed.

(** The enrolled agent has been asked what it has installed ... *)
Definition queried : World := (run (@generateQueryRequest calm lib tam) (with_manifest enrolled)).2.

Lemma queried_wf : wf (w_db queried).
Proof.
  pose proof (with_manifest_wf enrolled enrolled_wf) as Hwf.
  exact (evolves_wf _ _ (proj1 (safe_run _ _ _ (@generateQueryRequest_harmless calm lib tam _ Hwf))) Hwf).
Qed.

(** ... and has been sent an Update. *)
Definition updated : World := (run (@ResolveTEEPMessage calm lib tam response_body) queried).2.

Lemma updated_wf : wf (w_db updated).
Proof.
  exact (evolves_wf _ _ (proj1 (safe_run _ _ _
    (@ResolveTEEPMessage_harmless calm lib tam response_body queried queried_wf))) queried_wf).
Qed.
