(* ===== verification/Trust.v ===== *)
(** How an agent comes to be trusted: what a signature proves about its sender, and
    what evidence it takes to put a new key into the [agents] table. *)

From S2P Require Import Prelude GoText Model Db Evolve Frame OneTime AgentRepo ManifestRepo.
From S2P Require Import SentRepo StatusRepo Wire Lib Stub Suit Teep Rats Qvl Collateral Verifiers Tam Requests.
From S2P Require Import TamFrames Scenario.

Section sign.
Context `{Platform} `{Lib}.
Implicit Types w : World.

Lemma FindByKID_Ok kid w a w' :
  run (AgentRepository_FindByKID kid) w = (Ok a, w') →
  ∃ r, r ∈ rows (agents (w_db w)) ∧ Agent_KID r = kid ∧ Agent_RevokedAt r = None ∧
    (clock (w_reads w) ≤ Agent_ExpiredAt r)%Z ∧ a = fetched r ∧ w_db w' = w_db w.
Proof.
  unfold AgentRepository_FindByKID. intros Hr. run_inv Hr. apply run_try_Ok in Hrun.
  destruct a0 as [r|e]; [|done].
  assert (w_reads s = w_reads w) as Hreads.
  { unfold select_one in Hrun. rewrite run_sql in Hrun. destruct (db_fault _); by simplify_eq/=. }
  apply run_select_one_Ok in Hrun as (Hin & Hkid%eqb_bytes_eq & _ & Hdb).
  case_bool_decide as Hrev; [done|]. run_inv Hk.
  unfold time_now in Hrun. rewrite run_atomically in Hrun. simplify_eq/=.
  case_bool_decide as Hexp; [done|]. simplify_eq/=. exists r. split_and!; [done|done| | |done|done].
  - destruct (Agent_RevokedAt r); [by destruct Hrev|done].
  - rewrite <- Hreads. lia.
Qed.

Lemma getTEEPAgentKey_Ok kid w key w' :
  run (getTEEPAgentKey kid) w = (Ok key, w') →
  ∃ a, a ∈ rows (agents (w_db w)) ∧ Agent_KID a = kid ∧ length kid = 32 ∧
    Agent_RevokedAt a = None ∧ (clock (w_reads w) ≤ Agent_ExpiredAt a)%Z ∧
    cbor_key (Agent_PublicKey a) = Some key.
Proof.
  unfold getTEEPAgentKey. destruct (Nat.eqb _ _) eqn:Hlen; [|done]. apply Nat.eqb_eq in Hlen.
  intros Hr. cbn [negb] in Hr. run_inv Hr. apply FindByKID_Ok in Hrun as (r & Hin & Hk' & Hrev & Hexp & -> & _).
  apply run_lift_Ok in Hk as [Hk _]. apply res_of_option_Ok in Hk.
  by exists r.
Qed.

(** A key id out of [tryAuthenticateTeepMessage] is one whose agent signed the message. *)
Lemma tryAuthenticate_kid raw w m kid e w' :
  run (tryAuthenticateTeepMessage raw) w = (Ok (m, Some kid, e), w') →
  ∃ sign1 msg a key pub alg v,
    Sign1_UnmarshalCBOR raw = Some sign1 ∧
    Unmarshal_TEEPMessage (slice (Sign1_Payload sign1)) = Ok msg ∧ m = Some msg ∧ e = None ∧
    getKid (Sign1_Unprotected sign1) = Some kid ∧ length kid = 32 ∧
    a ∈ rows (agents (w_db w)) ∧ Agent_KID a = kid ∧ Agent_RevokedAt a = None ∧
    (clock (w_reads w) ≤ Agent_ExpiredAt a)%Z ∧ cbor_key (Agent_PublicKey a) = Some key ∧
    key_PublicKey key = Some pub ∧ key_AlgorithmOrDefault key = Some alg ∧
    NewVerifier alg pub = Some v ∧ Sign1_Verify v sign1 = true.
Proof.
  unfold tryAuthenticateTeepMessage. destruct (Sign1_UnmarshalCBOR raw) as [sign1|] eqn:Hs; [|done].
  intros Hr. run_inv Hr. destruct a as [[m1 k1] [e1|]]; simplify_eq/=.
  unfold checkSignatureWithKID in Hrun. run_inv Hrun. apply run_try_Ok in Hrun0.
  destruct a as [msg|e1]; [|done]. apply run_lift_Ok in Hrun0 as [Hmsg ->].
  destruct (getKid _) as [kid'|] eqn:Hkid; [|done]. run_inv Hk. apply run_try_Ok in Hrun.
  destruct a as [key|e1]; [|done]. apply getTEEPAgentKey_Ok in Hrun as (a & ? & ? & ? & ? & ? & ?).
  destruct (key_PublicKey key) as [pub|] eqn:?; [|done].
  destruct (key_AlgorithmOrDefault key) as [alg|] eqn:?; [|done].
  destruct (NewVerifier alg pub) as [v|] eqn:?; [|done].
  destruct (Sign1_Verify v sign1) eqn:?; [|done]. simplify_eq/=.
  by exists sign1, msg, a, key, pub, alg, v.
Qed.

(** When there is a message at all, it is the payload of the COSE_Sign1. *)
Lemma tryAuthenticate_message raw w msg k e w' :
  run (tryAuthenticateTeepMessage raw) w = (Ok (Some msg, k, e), w') →
  ∃ sign1, Sign1_UnmarshalCBOR raw = Some sign1 ∧
    Unmarshal_TEEPMessage (slice (Sign1_Payload sign1)) = Ok msg.
Proof.
  unfold tryAuthenticateTeepMessage. destruct (Sign1_UnmarshalCBOR raw) as [sign1|] eqn:Hs; [|done].
  intros Hr. run_inv Hr. assert (∃ k e, a = (Some msg, k, e)) as (k1 & e1 & ->).
  { destruct a as [[m1 k1] [e1|]]; simplify_eq/=; eauto. }
  clear Hk. unfold checkSignatureWithKID in Hrun. run_inv Hrun. apply run_try_Ok in Hrun0.
  destruct a as [msg'|e']; [|done]. apply run_lift_Ok in Hrun0 as [Hmsg ->].
  exists sign1. split; [done|]. rewrite Hmsg. f_equal.
  destruct (getKid _); [|by simplify_eq/=]. run_inv Hk.
  destruct a; [|by simplify_eq/=]. repeat (case_match; simplify_eq/=; try done).
Qed.
End sign.

(** ** Enrolment *)

Section enrol.
Context `{Platform} `{Lib}.
Implicit Types w : World.

(** The challenge was issued in a query request, and is not used up yet. *)
Definition pending (c : bytes) (d : DB) : Prop :=
  ∃ r q, r ∈ rows (challenges d) ∧ Challenge_Challenge r = c ∧ Challenge_Consumed r = false ∧
    q ∈ rows (sent_query_request_messages d) ∧ SentQueryRequest_ChallengeID q = Some (Challenge_ID r).

Lemma searchChallenge_Some o w m w' :
  run (searchSentMessageWithChallenge o) w = (Ok (Some m), w') →
  ∃ c, o = Some c ∧ (wf (w_db w) → pending c (w_db w)) ∧ spent (R:=Challenge) c (w_db w').
Proof.
  destruct o as [c|]; [|done]. unfold searchSentMessageWithChallenge. intros Hr. run_inv Hr.
  apply run_try_Ok in Hrun. destruct a as [[]|e]; [|done].
  apply (MarkConsumed_Ok (R:=Challenge)) in Hrun as ((r & Hr & Hv & Hc) & Hsp & Hdb). run_inv Hk.
  apply run_try_Ok in Hrun. destruct a as [[q|]|e]; [|done..].
  exists c. split; [done|]. simpl in Hk0. simplify_eq.
  unfold SentQueryRequestMessageRepository_FindByChallenge, nil_if_no_rows in Hrun.
  run_inv Hrun. apply run_try_Ok in Hrun0. destruct a as [q'|e]; [|by case_bool_decide].
  rewrite run_sql in Hrun0. destruct (db_fault _); [done|]. simpl in Hrun0.
  injection Hrun0 as Hj Hw. simplify_eq/=. split; [|done]. intros Hwf.
  apply res_of_option_Ok, head_Some_elem_of in Hj.
  apply list_elem_of_bind in Hj as (r2 & Hq & Hr2). apply list_elem_of_bind in Hq as (q2 & Hq & Hq2).
  apply list_elem_of_singleton in Hq as ->.
  apply list_elem_of_filter in Hr2 as [Hv2%eqb_bytes_eq Hr2].
  apply list_elem_of_filter in Hq2 as [Hp%bool_decide_eq_true Hq2].
  rewrite Hdb in Hr2, Hq2. exists r, q2. split_and!; [done..| |].
  - by unfold update_rows in Hq2.
  - rewrite Hp. f_equal. unfold update_rows in Hr2. simpl in Hr2.
    apply list_elem_of_In, in_map_iff in Hr2 as (r3 & <- & Hr3%list_elem_of_In).
    assert (r3 = r) as ->; [|by case_match].
    apply (value_inj (R:=Challenge) (w_db w)); [done..|].
    simpl. etrans; [|exact Hv2]. by destruct (_ && _).
Qed.
End enrol.

Section attest.
Context `{Platform} `{Lib}.
Implicit Types w : World.

(** The row [setTEEPAgentKey] inserts. *)
Lemma setTEEPAgentKey_adds key ueid kid w :
  adds (λ a : Agent, Agent_KID a = kid) (setTEEPAgentKey (Some key) ueid) w →
  key_Thumbprint key = Some kid ∧ length kid = 32 ∧
  ∃ a now pk, rows (agents (w_db (run (setTEEPAgentKey (Some key) ueid) w).2)) = rows (agents (w_db w)) ++ [a] ∧
    Agent_KID a = kid ∧ Marshal_key key = Some pk ∧ Agent_PublicKey a = pk ∧ Agent_RevokedAt a = None ∧
    Agent_CreatedAt a = now ∧ Agent_ExpiredAt a = (now + 365 * 24 * hour)%Z.
Proof.
  unfold setTEEPAgentKey at 1. destruct (key_Thumbprint key) as [kid'|] eqn:Hth;
    [|intros Ha; exfalso; revert Ha; apply adds_leaves; moves_auto].
  destruct (Nat.eqb _ _) eqn:Hlen; cbn [negb]; [|intros Ha; exfalso; revert Ha; apply adds_leaves; moves_auto].
  apply Nat.eqb_eq in Hlen. intros Ha.
  unfold setTEEPAgentKey. rewrite Hth, Hlen. cbn [Nat.eqb negb].
  apply adds_bind in Ha as (pk & w1 & Hpk & Ha); [|moves_auto].
  rewrite run_bind, Hpk. cbn [run_then].
  apply run_lift_Ok in Hpk as [Hpk ->]. apply res_of_option_Ok in Hpk.
  apply adds_bind in Ha as (ex & w2 & Hex & Ha);
    [|unfold AgentRepository_FindByKIDIgnoreRevoked; moves_auto].
  assert (w_db w2 = w_db w) as Hdb
    by (eapply run_reads, Hex; unfold AgentRepository_FindByKIDIgnoreRevoked; moves_auto).
  rewrite run_bind, Hex. cbn [run_then].
  destruct ex as [ex|]; [exfalso; revert Ha; apply adds_leaves; moves_auto|].
  match type of Ha with adds _ (?p ≫= ?f) _ => assert (reads p) as Hreads end.
  { unfold DeviceRepository_FindByUEID. moves_auto. }
  apply adds_bind in Ha as (did & w3 & Hd & Ha); [|by apply reads_leaves].
  rewrite run_bind, Hd. cbn [run_then].
  assert (w_db w3 = w_db w) as Hdb3.
  { rewrite <- Hdb. by eapply run_reads, Hd. }
  apply adds_bind in Ha as (t & w4 & Ht & Ha); [|moves_auto].
  rewrite run_bind, Ht. cbn [run_then].
  unfold time_now in Ht. rewrite run_atomically in Ht.
  assert (w_db w4 = w_db w) as Hdb4 by (rewrite <- Hdb3; by simplify_eq/=). clear Ht.
  apply adds_bind_last in Ha; [|intros; moves_auto].
  unfold AgentRepository_Create in *. apply adds_insert in Ha as (id & Hins & Hk & _).
  rewrite run_bind, Hins. cbn [run_then]. rewrite run_ret. simpl in *. subst kid.
  split; [done|]. split; [done|]. rewrite Hdb4.
  eexists _, (t / second * second)%Z, pk. by split_and!.
Qed.
(** What the evidence in a message established: a verifier affirmed the payload, its
    claims name the challenge and the key, and that key signed the message itself. *)
Definition established (t : TAM) (body : bytes) (incoming : TEEPMessage)
    (challenge : bytes) (key : cose_key) : Prop :=
  ∃ payload verdict backend result v1 v2,
    let format := default "" (Opt_AttestationPayloadFormat (TEEP_Options incoming)) in
    Opt_AttestationPayload (TEEP_Options incoming) = Some payload ∧
    run (submitAttestationPayload t (Opt_AttestationPayloadFormat (TEEP_Options incoming)) payload) v1
      = (Ok (verdict, backend), v2) ∧
    EqualFold (EarStatus verdict) "affirming" = true ∧
    (requiresAttestedAgentKey format = true ∨ backend = VerifierBackendIntelQVL) ∧
    populateClaims backend format verdict payload = Ok result ∧
    AttestationNonce result = Some challenge ∧ AttestationKey result = Some key ∧
    verifyCOSESignature body key = Ok tt.

(** Before anything is enrolled, nothing but readers have run. *)
Lemma verifyAttestationPayload_adds t body incoming agentKID kid w :
  wf (w_db w) →
  adds (λ a : Agent, Agent_KID a = kid) (verifyAttestationPayload t body incoming agentKID) w →
  agentKID = None ∧
  ∃ challenge key w1, established t body incoming challenge key ∧ pending challenge (w_db w) ∧
    evolves (w_db w) (w_db w1) ∧
    spent (R:=Challenge) challenge (w_db w1) ∧ rows (agents (w_db w1)) = rows (agents (w_db w)) ∧
    ∃ ueid, adds (λ a : Agent, Agent_KID a = kid) (setTEEPAgentKey (Some key) ueid) w1 ∧
      w_db (run (verifyAttestationPayload t body incoming agentKID) w).2
        = w_db (run (setTEEPAgentKey (Some key) ueid) w1).2.
Proof.
  intros Hwf. unfold verifyAttestationPayload.
  destruct (Opt_AttestationPayload _) as [payload|] eqn:Hp;
    [|intros Ha; exfalso; revert Ha; apply adds_leaves; moves_auto].
  intros Ha. apply adds_bind in Ha as ([verdict backend] & w1 & Hsub & Ha);
    [|apply reads_leaves, submit_reads].
  rewrite run_bind, Hsub. cbn [run_then].
  assert (w_db w1 = w_db w) as Hdb1 by (eapply run_reads, Hsub; apply submit_reads).
  destruct (EqualFold _ _) eqn:Haff; cbn [negb] in *;
    [|exfalso; revert Ha; apply adds_leaves; moves_auto].
  apply adds_bind in Ha as (result & w2 & Hcl & Ha); [|moves_auto].
  rewrite run_bind, Hcl. cbn [run_then]. apply run_lift_Ok in Hcl as [Hcl ->].
  apply adds_bind in Ha as (sent & w3 & Hse & Ha); [|apply searchChallenge_moves; apply _].
  rewrite run_bind, Hse. cbn [run_then].
  destruct sent as [sent|]; [|exfalso; revert Ha; apply adds_leaves; moves_auto].
  assert (rows (agents (w_db w3)) = rows (agents (w_db w))) as Hag.
  { rewrite <- Hdb1. exact (f_equal rows (run_leaves Agent _ _ _ _ (searchChallenge_moves (same_table Agent) _) Hse)). }
  assert (evolves (w_db w) (w_db w3)) as Hev.
  { change w3 with (Ok (E:=error) (Some sent), w3).2. rewrite <- Hse, <- Hdb1.
    apply (safe_run (λ _ _, True)), searchChallenge_harmless. by rewrite Hdb1. }
  apply searchChallenge_Some in Hse as (c & Hn & Hpend & Hsp).
  destruct agentKID as [k|]; [exfalso; revert Ha; apply adds_leaves; moves_auto|].
  destruct (negb _ && negb _) eqn:Hreq; [exfalso; revert Ha; apply adds_leaves; moves_auto|].
  destruct (AttestationKey result) as [key|] eqn:Hkey;
    [|exfalso; revert Ha; apply adds_leaves; moves_auto].
  apply adds_bind in Ha as (u & w4 & Hsig & Ha); [|moves_auto].
  rewrite run_bind, Hsig. cbn [run_then].
  apply run_map_err_Ok, run_lift_Ok in Hsig as [Hsig ->]. destruct u.
  apply adds_bind_last in Ha; [|intros; moves_auto]. apply adds_map_err in Ha.
  split; [done|]. exists c, key, w3. split_and!; [|by rewrite <- Hdb1; apply Hpend; rewrite Hdb1|done|done|done|].
  - exists payload, verdict, backend, result, w, w1. split_and!; try done.
    apply andb_false_iff in Hreq as [Hreq|Hreq]; apply negb_false_iff in Hreq;
      [by left|right; by apply String.eqb_eq].
  - exists (AttestationUEID result). split; [done|].
    rewrite run_bind, run_map_err.
    destruct (run (setTEEPAgentKey _ _) w3) as [[]]; done.
Qed.
(** An agent row for [kid] that carries [key] and lives a year. *)
Definition enrolled_as (kid : bytes) (key : cose_key) (a : Agent) : Prop :=
  Agent_KID a = kid ∧ Marshal_key key = Some (Agent_PublicKey a) ∧ Agent_RevokedAt a = None ∧
  Agent_ExpiredAt a = (Agent_CreatedAt a + 365 * 24 * hour)%Z.

(** The outcome, as a statement about the states before and after a program. *)
Definition enrols (t : TAM) (body kid : bytes) (incoming : TEEPMessage) {A} (p : M A) w : Prop :=
  ∃ challenge key a, established t body incoming challenge key ∧ pending challenge (w_db w) ∧
    spent (R:=Challenge) challenge (w_db (run p w).2) ∧ key_Thumbprint key = Some kid ∧ length kid = 32 ∧
    rows (agents (w_db (run p w).2)) = rows (agents (w_db w)) ++ [a] ∧ enrolled_as kid key a.

Lemma enrols_bind t body kid incoming {A B} (p : M A) (f : A → M B) w a w1 :
  run p w = (Ok a, w1) → rows (agents (w_db w1)) = rows (agents (w_db w)) →
  (∀ c, pending c (w_db w1) → pending c (w_db w)) →
  enrols t body kid incoming (f a) w1 → enrols t body kid incoming (p ≫= f) w.
Proof.
  intros Hr Hag Hp (c & key & r & ? & ? & ? & ? & ? & Hadd & ?).
  exists c, key, r. rewrite run_bind, Hr. cbn [run_then]. rewrite <- Hag. auto 10.
Qed.

Lemma handleQueryResponse_adds t body incoming agentKID sentMessage kid w :
  wf (w_db w) →
  adds (λ a : Agent, Agent_KID a = kid) (handleQueryResponse t body incoming agentKID sentMessage) w →
  sentMessage = None ∧ agentKID = None ∧
  enrols t body kid incoming (handleQueryResponse t body incoming agentKID sentMessage) w.
Proof.
  intros Hwf Ha.
  assert (sentMessage = None ∧ adds (λ a : Agent, Agent_KID a = kid)
            (verifyAttestationPayload t body incoming agentKID) w ∧
          rows (agents (w_db (run (handleQueryResponse t body incoming agentKID sentMessage) w).2)) =
          rows (agents (w_db (run (verifyAttestationPayload t body incoming agentKID) w).2))) as (-> & Hv & Hrows).
  { pose proof (processQueryResponse_moves (same_table Agent)).
    pose proof (generateQueryRequestWithAttestation_moves (same_table Agent)).
    unfold handleQueryResponse in *.
    destruct sentMessage as [s|].
    { exfalso. revert Ha. apply adds_leaves. destruct agentKID; moves_auto. }
    split; [done|]. apply adds_bind_last in Ha; [|intros [[] []]; moves_auto].
    split; [apply adds_bind_last in Ha; [done|intros [[] ?]; moves_auto]|].
    rewrite !run_bind.
    destruct (run (verifyAttestationPayload _ _ _ _) w) as [[[[v k] s]| | |] w1]; simpl; try done.
    destruct (negb _); simpl; [done|].
    match goal with |- context [run ?p w1] => assert (moves (same_table Agent) p) as Hm end.
    { destruct (if is_nil k then agentKID else k); [|moves_auto].
      destruct (if is_nil s then None else s); moves_auto. }
    exact (f_equal rows (leaves_run Agent _ Hm w1)). }
  split; [done|].
  destruct (verifyAttestationPayload_adds _ _ _ _ _ _ Hwf Hv) as (-> & c & key & w1 & He & Hpe & Hev1 & Hsp & Hag & ueid & Hset & Hr).
  split; [done|].
  apply setTEEPAgentKey_adds in Hset as (Hth & Hlen & a & now & pk & Hadd & ? & ? & ? & ? & ? & ?).
  exists c, key, a.
  assert (wf (w_db w1)) as Hwf1 by by eapply evolves_wf.
  assert (evolves (w_db w1) (w_db (run (setTEEPAgentKey (Some key) ueid) w1).2)) as Hev2
    by apply (safe_run _ _ _ (setTEEPAgentKey_harmless _ _ _)).
  assert (wf (w_db (run (verifyAttestationPayload t body incoming None) w).2)) as Hwf2
    by (rewrite Hr; by eapply evolves_wf).
  split_and!; [done|done| |done|done|by rewrite Hrows, Hr, Hadd, Hag|by split_and!; subst].
  eapply spent_evolves; [exact Hwf1| |exact Hsp]. etrans; [exact Hev2|]. rewrite <- Hr.
  unfold handleQueryResponse.
  match goal with |- evolves _ (w_db (run ((?p ≫= ?g) ≫= ?f) w).2) =>
    assert (evolves (w_db (run p w).2) (w_db (run (p ≫= g) w).2)) as Hg;
    [apply bind_evolves; [|done]
    |etrans; [exact Hg|]; apply (bind_evolves (p ≫= g) f); [|by eapply evolves_wf]]
  end.
  - intros [[r k] s] w2 _. destruct (negb _); [apply safe_throw|apply safe_done].
  - intros [[k|] [s|]] w2 Hw2; try apply safe_throw. by apply processQueryResponse_harmless.
Qed.

Lemma ResolveTEEPMessage_adds t body kid w :
  wf (w_db w) →
  adds (λ a : Agent, Agent_KID a = kid) (ResolveTEEPMessage t body) w →
  ∃ sign1 incoming, Sign1_UnmarshalCBOR body = Some sign1 ∧
    Unmarshal_TEEPMessage (slice (Sign1_Payload sign1)) = Ok incoming ∧
    TEEP_Type incoming = TEEPTypeQueryResponse ∧
    enrols t body kid incoming (ResolveTEEPMessage t body) w.
Proof.
  intros Hwf Ha. unfold ResolveTEEPMessage in *. destruct body as [|b body].
  { exfalso. revert Ha. apply adds_leaves.
    pose proof (generateQueryRequest_moves (same_table Agent)).
    moves_auto. }
  apply adds_bind in Ha as ([[m agentKID] err] & w1 & Hau & Ha); [|apply reads_leaves, tryAuthenticate_reads].
  assert (w_db w1 = w_db w) as Hdb1 by (eapply run_reads, Hau; apply tryAuthenticate_reads).
  assert (¬ adds (λ a : Agent, Agent_KID a = kid)
            (match err with Some e => throw e | None => mret None end : M (option bytes)) w1) as Hno
    by (apply adds_leaves; moves_auto).
  destruct m as [incoming|]; [|done]. case_bool_decide as Herr; [|done].
  apply tryAuthenticate_message in Hau as Hmsg. destruct Hmsg as (sign1 & Hs & Hm).
  exists sign1, incoming. split; [done|]. split; [done|].
  assert (TEEP_Type incoming = TEEPTypeQueryResponse ∧ adds (λ a : Agent, Agent_KID a = kid)
    (sentMessage ← searchSentMessageWithToken (Opt_Token (TEEP_Options incoming));
     handleQueryResponse t (b :: body) incoming agentKID sentMessage) w1) as [Hty Ha'].
  { destruct (Z.eqb _ TEEPTypeQueryResponse) eqn:Hty; [by apply Z.eqb_eq in Hty|].
    exfalso. revert Ha. apply adds_leaves.
    pose proof (searchToken_moves (same_table Agent)).
    pose proof (λ m k s, handleReports_moves (same_table Agent) _ m k s (success_moves (same_table Agent))).
    pose proof (λ m k s, handleReports_moves (same_table Agent) _ m k s (failure_moves (same_table Agent))).
    moves_auto. }
  split; [done|]. eapply enrols_bind; [exact Hau|by rewrite Hdb1|by rewrite Hdb1|].
  simpl. rewrite bool_decide_true by done.
  apply adds_bind in Ha' as (sent & w2 & Hse & Ha'); [|apply searchToken_moves; apply _].
  eapply enrols_bind; [exact Hse|..].
  - exact (f_equal rows (run_leaves Agent _ _ _ _ (searchToken_moves (same_table Agent) _) Hse)).
  - intros c (r & q & ? & ? & ? & ? & ?). exists r, q.
    assert (challenges (w_db w2) = challenges (w_db w1)) as Hc
      by exact (run_leaves Challenge _ _ _ _ (searchToken_moves (same_table Challenge) _) Hse).
    assert (sent_query_request_messages (w_db w2) = sent_query_request_messages (w_db w1)) as Hq
      by exact (run_leaves SentQueryRequestMessage _ _ _ _ (searchToken_moves (same_table SentQueryRequestMessage) _) Hse).
    by rewrite <- Hc, <- Hq.
  - rewrite Hty. cbn [Z.eqb].
    apply handleQueryResponse_adds; [|done].
    change w2 with (Ok (E:=error) sent, w2).2. rewrite <- Hse.
    eapply evolves_wf; [apply (safe_run (λ _ _, True)), searchToken_harmless|]; by rewrite Hdb1.
Qed.

(** A spent challenge matches nothing. *)
Lemma searchChallenge_spent c w :
  wf (w_db w) → spent (R:=Challenge) c (w_db w) →
  (run (searchSentMessageWithChallenge (Some c)) w).1 = Ok None ∧
  w_db (run (searchSentMessageWithChallenge (Some c)) w).2 = w_db w.
Proof.
  intros Hwf Hsp. unfold searchSentMessageWithChallenge.
  rewrite run_bind, run_try. unfold ChallengeRepository_MarkConsumed, OneTime_MarkConsumed, update.
  rewrite run_bind, run_map_err, run_sql. destruct (db_fault _); [done|].
  cbn [fst snd res_map_err run_then]. rewrite (spent_no_match (R:=Challenge)) by done. simpl.
  split; [done|]. unfold update_rows.
  assert (map (λ r : Challenge, if eqb_bytes (value r) c && negb (consumed r) then consume r else r)
            (rows (challenges (w_db w))) = rows (challenges (w_db w))) as Hid.
  { assert (∀ r : Challenge, r ∈ rows (challenges (w_db w)) → eqb_bytes (value r) c && negb (consumed r) = false) as Hf.
    { intros r Hr. apply not_true_iff_false. intros Hp.
      assert (r ∈ matching (λ r : Challenge, eqb_bytes (value r) c && negb (consumed r)) (w_db w)) as Hin
        by by apply list_elem_of_filter.
      rewrite (spent_no_match (R:=Challenge)) in Hin by done. by apply not_elem_of_nil in Hin. }
    induction (rows (challenges (w_db w))) as [|r l IH]; [done|]. simpl. rewrite Hf by left.
    f_equal. apply IH. intros. apply Hf. by right. }
  simpl. simpl in Hid. rewrite Hid. by destruct (w_db w) as [? ? ? ? ? ? ? []].
Qed.
End attest.

(** ** Finding what was stored *)

Section stored.
Context `{Platform} `{Lib}.
Implicit Types w : World.

Lemma FindByKID_present `{!Reliable} kid a w :
  a ∈ rows (agents (w_db w)) → wf (w_db w) → Agent_KID a = kid → Agent_RevokedAt a = None →
  (clock (w_reads w) ≤ Agent_ExpiredAt a)%Z →
  ∃ w', run (AgentRepository_FindByKID kid) w = (Ok (fetched a), w').
Proof.
  intros Ha Hwf Hk Hrev Hexp. unfold AgentRepository_FindByKID, select_one.
  rewrite run_bind, run_try, run_sql_reliable. cbn [fst snd].
  destruct (head (matching _ _)) as [a2|] eqn:Hh; cbn [res_of_option run_then fst snd].
  - apply head_Some_elem_of, list_elem_of_filter in Hh as [Hk2%eqb_bytes_eq Ha2].
    assert (a2 = a) as -> by (eapply fmap_NoDup_inj; [exact (wf_kid _ Hwf)|done|done|congruence]).
    rewrite bool_decide_false by (intros Hn; by apply Hn). rewrite run_bind. unfold time_now.
    rewrite run_atomically. cbn [run_then]. simpl. rewrite bool_decide_false by lia. by eexists.
  - exfalso. unfold matching in Hh. destruct (filter _ _) as [|x l] eqn:Hf; [|done].
    apply (not_elem_of_nil a). rewrite <- Hf. apply list_elem_of_filter.
    split; [by apply eqb_bytes_eq|done].
Qed.

Lemma setTEEPAgentKey_stores key ueid kid w w1 :
  key_Thumbprint key = Some kid → length kid = 32 →
  run (setTEEPAgentKey (Some key) ueid) w = (Ok tt, w1) →
  ∃ a, a ∈ rows (agents (w_db w1)) ∧ Agent_KID a = kid.
Proof.
  intros Hth Hlen. unfold setTEEPAgentKey. rewrite Hth, Hlen. cbn [Nat.eqb negb]. intros Hr.
  run_inv Hr. apply run_lift_Ok in Hrun as [_ ->]. run_inv Hk.
  destruct a0 as [ex|].
  - simpl in Hk0. injection Hk0 as <-. unfold AgentRepository_FindByKIDIgnoreRevoked in Hrun.
    run_inv Hrun. apply run_try_Ok in Hrun0. destruct a0 as [r|e]; [|by case_match].
    apply run_select_one_Ok in Hrun0 as (Hin & Hkid%eqb_bytes_eq & _ & Hdb).
    run_inv Hk. unfold time_now in Hrun. rewrite run_atomically in Hrun. simplify_eq/=.
    case_bool_decide; simplify_eq/=. exists r. by rewrite Hdb.
  - run_inv Hk0. run_inv Hk. run_inv Hk0. simpl in Hk. injection Hk as <-.
    unfold AgentRepository_Create in Hrun2. apply run_insert_Ok in Hrun2 as (_ & _ & ->).
    eexists. simpl. split; [apply elem_of_app; right; by apply list_elem_of_singleton|done].
Qed.
End stored.

(** ** The verifiers the TAM builds itself *)

Section builtin.
Context `{Platform} `{Lib}.
Implicit Types w : World.

(** Neither the Veraison client nor the QVL verifier reads a nonce out of its result. *)
Lemma builtin_no_nonce v payload w pa w' :
  (∃ c, v = Client c) ∨ (∃ cfg, v = IntelQVL cfg) →
  run (IRAVerifier_Process v payload) w = (Ok pa, w') → AttestationNonce pa = None.
Proof.
  intros [[c ->]|[cfg ->]]; simpl; intros Hr.
  - unfold VerifierClient_Process in Hr. destruct payload; [done|]. destruct c; [|done].
    run_inv Hr. run_inv Hk. apply run_lift_Ok in Hk0 as [Hk _].
    unfold DecodeAttestationResponse in Hk. destruct a0 as [|x a0]; [done|].
    destruct (json_attestation_response _); [|done]. simpl in Hk.
    destruct (PrettyEvidence _); simpl in Hk; [|done..].
    destruct (PrettyResultJWT _) as [[]| | |]; simpl in Hk; [|done..].
    match type of Hk with context [mbind _ ?p] => destruct p; simpl in Hk; [|done..] end.
    destruct (selectUpdateArtifact _ _) as [[]]. simpl in Hk. by simplify_eq.
  - unfold IntelQVLVerifier_Process in Hr. destruct payload; [done|]. run_inv Hr. run_inv Hk.
    destruct a0 as [st nr]. destruct (negb _); [done|]. simpl in Hk0. by simplify_eq.
Qed.

Lemma NewVerifierForBackend_builtin mk backend cfg v :
  NewVerifierForBackend mk backend cfg = Ok v → (∃ c, v = Client c) ∨ (∃ q, v = IntelQVL q).
Proof.
  unfold NewVerifierForBackend. destruct (String.eqb _ VerifierBackendVeraison).
  { destruct (NewVerifierClient _); intros; simplify_eq/=. left. by eexists. }
  destruct (String.eqb _ VerifierBackendIntelQVL); [|done].
  destruct (NewIntelQVLVerifier _ _); intros; simplify_eq/=. right. by eexists.
Qed.

Lemma resolveVerifier_builtin cfg format w v w' :
  run (resolveVerifier cfg format) w = (Ok v, w') → (∃ c, v = Client c) ∨ (∃ q, v = IntelQVL q).
Proof. by intros [mk Hv%NewVerifierForBackend_builtin]%resolveVerifier_Ok. Qed.

Lemma submit_no_nonce t cfg fmt payload w pa backend w' :
  TAM_resolveVerifier t = Some cfg →
  run (submitAttestationPayload t fmt payload) w = (Ok (pa, backend), w') →
  AttestationNonce pa = None ∧
  backend = VerifierBackendForAttestationPayloadFormat (default "" fmt).
Proof.
  intros Ht. unfold submitAttestationPayload, selectVerifier. rewrite Ht. intros Hr.
  run_inv Hr. run_inv Hrun. simpl in Hk0. injection Hk0 as <- <-.
  destruct (is_nil_interface a0); [done|]. run_inv Hk. run_inv Hk0. simpl in Hk. injection Hk as <- <- _.
  apply run_map_err_Ok, builtin_no_nonce in Hrun1; [done|].
  by eapply resolveVerifier_builtin.
Qed.
End builtin.

(** ** Properties *)

Section properties.
Context `{Platform} `{Lib}.
Implicit Types w : World.

(** C1: a key only becomes an agent's key through attestation.  If handling a message puts
    the key id [kid] into the [agents] table, then the message is a QueryResponse, in
    a COSE_Sign1 that verifies under a key whose thumbprint is [kid]; a verifier
    affirmed the evidence in it; that very key, and a challenge that the TAM sent out
    and that nobody had answered yet, are what the evidence claims; the challenge is
    used up now; and exactly that key was stored, for one year. *)
Theorem new_agent_is_attested (t : TAM) (body kid : bytes) w r w' :
  wf (w_db w) →
  run (ResolveTEEPMessage t body) w = (r, w') →
  (∃ a, a ∈ rows (agents (w_db w')) ∧ Agent_KID a = kid) →
  ¬ (∃ a, a ∈ rows (agents (w_db w)) ∧ Agent_KID a = kid) →
  ∃ sign1 incoming challenge key a,
    Sign1_UnmarshalCBOR body = Some sign1 ∧
    Unmarshal_TEEPMessage (slice (Sign1_Payload sign1)) = Ok incoming ∧
    TEEP_Type incoming = TEEPTypeQueryResponse ∧
    established t body incoming challenge key ∧
    pending challenge (w_db w) ∧ spent (R:=Challenge) challenge (w_db w') ∧
    key_Thumbprint key = Some kid ∧ length kid = 32 ∧
    rows (agents (w_db w')) = rows (agents (w_db w)) ++ [a] ∧ enrolled_as kid key a.
Proof.
  intros Hwf Hrun Hnew Hold.
  destruct (ResolveTEEPMessage_adds t body kid w Hwf) as
    (sign1 & incoming & ? & ? & ? & c & key & a & Hen).
  { split; [|done]. by rewrite Hrun. }
  exists sign1, incoming, c, key, a. rewrite Hrun in Hen. tauto.
Qed.

(** C11: the sender of a message is who it says: when authentication yields a key id, the
    message is signed by the key stored for that agent, which is enrolled, not revoked
    and not expired at the time of the check. *)
Theorem authenticated_sender (raw : bytes) w m kid e w' :
  run (tryAuthenticateTeepMessage raw) w = (Ok (m, Some kid, e), w') →
  ∃ sign1 msg a key pub alg v,
    Sign1_UnmarshalCBOR raw = Some sign1 ∧
    Unmarshal_TEEPMessage (slice (Sign1_Payload sign1)) = Ok msg ∧ m = Some msg ∧ e = None ∧
    getKid (Sign1_Unprotected sign1) = Some kid ∧ length kid = 32 ∧
    a ∈ rows (agents (w_db w)) ∧ Agent_KID a = kid ∧ Agent_RevokedAt a = None ∧
    (clock (w_reads w) ≤ Agent_ExpiredAt a)%Z ∧ cbor_key (Agent_PublicKey a) = Some key ∧
    key_PublicKey key = Some pub ∧ key_AlgorithmOrDefault key = Some alg ∧
    NewVerifier alg pub = Some v ∧ Sign1_Verify v sign1 = true.
Proof. apply tryAuthenticate_kid. Qed.

(** C10: evidence cannot be replayed: an affirmed payload whose claims name a challenge that
    is used up is refused, whoever sends it, and changes nothing. *)
Theorem replayed_evidence_refused (t : TAM) (body payload : bytes) (incoming : TEEPMessage)
    (agentKID : option bytes) verdict backend result challenge w w1 :
  wf (w_db w) → spent (R:=Challenge) challenge (w_db w) →
  let format := Opt_AttestationPayloadFormat (TEEP_Options incoming) in
  Opt_AttestationPayload (TEEP_Options incoming) = Some payload →
  run (submitAttestationPayload t format payload) w = (Ok (verdict, backend), w1) →
  EqualFold (EarStatus verdict) "affirming" = true →
  populateClaims backend (default "" format) verdict payload = Ok result →
  AttestationNonce result = Some challenge →
  (run (verifyAttestationPayload t body incoming agentKID) w).1 = Err ErrNotAuthenticated ∧
  w_db (run (verifyAttestationPayload t body incoming agentKID) w).2 = w_db w.
Proof.
  intros Hwf Hsp format Hp Hsub Haff Hcl Hn. unfold verifyAttestationPayload. rewrite Hp.
  assert (w_db w1 = w_db w) as Hdb by (eapply run_reads, Hsub; apply submit_reads).
  unfold format in *. rewrite run_bind, Hsub. cbn [run_then]. rewrite Haff. cbn [negb].
  rewrite run_bind, Hcl. cbn [lift run run_then]. rewrite run_bind, Hn.
  destruct (searchChallenge_spent challenge w1) as [Hr Hd]; [by rewrite Hdb..|].
  destruct (run (searchSentMessageWithChallenge _) w1) as [r w2]. simpl in *. subst r. simpl.
  by rewrite Hd.
Qed.

(** The key that [setTEEPAgentKey] stores is the key that [getTEEPAgentKey] finds: for
    the year that follows, and whatever the server does meanwhile, as long as the agent
    is not revoked. *)
Theorem stored_key_is_found `{!Reliable} (key : cose_key) (ueid : option bytes) (kid : bytes) w w1 w2 :
  (∀ k b, Marshal_key k = Some b → cbor_key b = Some k) →
  wf (w_db w) →
  key_Thumbprint key = Some kid → length kid = 32 →
  ¬ (∃ a, a ∈ rows (agents (w_db w)) ∧ Agent_KID a = kid) →
  run (setTEEPAgentKey (Some key) ueid) w = (Ok tt, w1) →
  evolves (w_db w1) (w_db w2) →
  (∀ a, a ∈ rows (agents (w_db w2)) → Agent_KID a = kid → Agent_RevokedAt a = None) →
  (∀ a, a ∈ rows (agents (w_db w1)) → Agent_KID a = kid →
     clock (w_reads w2) ≤ Agent_CreatedAt a + 365 * 24 * hour)%Z →
  (run (getTEEPAgentKey kid) w2).1 = Ok key.
Proof.
  intros Hcodec Hwf Hth Hlen Hnew Hrun Hev Hrev Hclock.
  pose proof (setTEEPAgentKey_stores _ _ _ _ _ Hth Hlen Hrun) as Hin.
  assert (wf (w_db w1)) as Hwf1.
  { change w1 with (Ok (E:=error) tt, w1).2. rewrite <- Hrun. eapply evolves_wf; [|exact Hwf].
    by apply (safe_run _ _ _ (setTEEPAgentKey_harmless _ _ _)). }
  assert (adds (λ a : Agent, Agent_KID a = kid) (setTEEPAgentKey (Some key) ueid) w) as Ha
    by (split; [by rewrite Hrun|done]).
  apply setTEEPAgentKey_adds in Ha as (_ & _ & a & now & pk & Hrows & Hk & Hpk & Hpub & _ & Hcr & Hexp).
  rewrite Hrun in Hrows. simpl in Hrows.
  assert (a ∈ rows (agents (w_db w1))) as Ha1 by (rewrite Hrows; apply elem_of_app; right; left).
  assert (seen a (w_db w1)) as Hs by by apply seen_in.
  destruct (seen_evolves a _ _ Hwf1 Hev Hs) as (a' & Ha' & (_ & Hk' & Hpub' & _ & Hexp' & _)).
  apply (FindByKID_present kid a' w2) in Ha' as (w3 & Hf);
    [|exact (evolves_wf _ _ Hev Hwf1)|congruence|apply Hrev; [done|congruence]|rewrite Hexp', Hexp, <- Hcr; by apply Hclock].
  unfold getTEEPAgentKey. rewrite Hlen. cbn [Nat.eqb negb]. rewrite run_bind, Hf. cbn [run_then lift run fst].
  unfold decoded. simpl. rewrite Hpub', Hpub. by rewrite (Hcodec _ _ Hpk).
Qed.
(** With the verifiers the TAM builds itself, evidence in a format that is neither an EAT
    nor an SGX bundle is never accepted, not even from an agent that is enrolled: no
    verifier returns the nonce such evidence answers, so a QueryResponse that relies
    on it is an error whatever the verifier says. *)
Theorem other_formats_never_accepted (t : TAM) (cfg : RAConfig) (body : bytes) (incoming : TEEPMessage)
    (agentKID : option bytes) w resp w' :
  let format := default "" (Opt_AttestationPayloadFormat (TEEP_Options incoming)) in
  TAM_resolveVerifier t = Some cfg →
  requiresAttestedAgentKey format = false →
  VerifierBackendForAttestationPayloadFormat format = VerifierBackendVeraison →
  run (handleQueryResponse t body incoming agentKID None) w ≠ (Ok resp, w').
Proof.
  intros format Ht Hfmt Hback Hr. unfold handleQueryResponse in Hr. run_inv Hr. run_inv Hrun.
  destruct a0 as [[pa k] s2]. destruct (negb (EqualFold _ _)) eqn:Haff; [done|].
  unfold verifyAttestationPayload in Hrun0.
  destruct (Opt_AttestationPayload _) as [payload|]; [|done]. run_inv Hrun0. destruct a0 as [verdict backend].
  apply (submit_no_nonce _ _ _ _ _ _ _ _ Ht) in Hrun as [Hnonce ->].
  destruct (negb (EqualFold (EarStatus verdict) _)) eqn:Haff2.
  { simpl in Hk1. injection Hk1 as <- <- <- _. by rewrite Haff2 in Haff. }
  run_inv Hk1. apply run_lift_Ok in Hrun as [Hcl ->].
  unfold populateClaims in Hcl. fold format in Hcl. rewrite Hback, Hfmt in Hcl.
  change (String.eqb VerifierBackendVeraison VerifierBackendIntelQVL) with false in Hcl. simplify_eq/=.
  rewrite Hnonce in Hk2. done.
Qed.
End properties.

(** ** Witnesses *)

Lemma new_agent_is_attested_witness :
  ∃ challenge a, @pending challenge (w_db asked) ∧
    rows (agents (w_db (run (@ResolveTEEPMessage calm lib tam evidence_body) asked).2)) = [a] ∧
    Agent_KID a = agent_kid.
Proof.
  destruct (@new_agent_is_attested calm lib tam evidence_body agent_kid asked _ _ asked_wf
    (surjective_pairing _)) as (s & m & c & key & a & _ & _ & _ & _ & Hp & _ & _ & _ & Hr & Hk & _).
  - eexists. split; [vm_compute; left|]. by vm_compute.
  - intros (a & Ha & _). vm_compute in Ha. by apply not_elem_of_nil in Ha.
  - exists c, a. split; [done|]. split; [exact Hr|exact Hk].
Defined.

Lemma authenticated_sender_witness :
  ∃ a, a ∈ rows (agents (w_db enrolled)) ∧ Agent_KID a = agent_kid ∧ Agent_RevokedAt a = None.
Proof.
  destruct (@authenticated_sender calm lib response_body enrolled
    (match (run (@tryAuthenticateTeepMessage calm lib response_body) enrolled).1 with
     | Ok (m, _, _) => m | _ => None end) agent_kid None
    (run (@tryAuthenticateTeepMessage calm lib response_body) enrolled).2)
    as (? & ? & a & ? & ? & ? & ? & _ & _ & _ & _ & _ & _ & Ha & Hk & Hr & _).
  - by vm_compute.
  - by exists a.
Defined.

Definition evidence_message : TEEPMessage :=
  mkTEEPMessage 2 (options_with (Some evidence) (Some "application/eat+cwt") None None None) None None 0 0.

Definition affirmed : ProcessedAttestation bytes :=
  mkProcessedAttestation None "" "" "" VerifierBackendVeraison "affirming" true (Some (nth_draw 0)) None
    (Some agent_key) "" None.

Lemma replayed_evidence_refused_witness :
  (run (@verifyAttestationPayload calm lib tam evidence_body evidence_message None) enrolled).1
    = Err ErrNotAuthenticated.
Proof.
  apply (@replayed_evidence_refused calm lib tam evidence_body evidence evidence_message None
    affirming VerifierBackendVeraison affirmed (nth_draw 0) enrolled
    (run (@submitAttestationPayload calm lib tam (Some "application/eat+cwt") evidence) enrolled).2 enrolled_wf).
  - eexists. split; [vm_compute; left|]. by vm_compute.
  - done.
  - by vm_compute.
  - done.
  - by vm_compute.
  - done.
Defined.

Lemma stored_key_is_found_witness :
  (run (@getTEEPAgentKey calm lib agent_kid)
     (run (@setTEEPAgentKey calm lib (Some agent_key) None) initial_world).2).1 = Ok agent_key.
Proof.
  apply (@stored_key_is_found calm lib calm_reliable agent_key None agent_kid initial_world
    (run (@setTEEPAgentKey calm lib (Some agent_key) None) initial_world).2).
  - by intros k b [= ->].
  - apply wf_empty.
  - done.
  - by vm_compute.
  - intros (a & Ha & _). vm_compute in Ha. by apply not_elem_of_nil in Ha.
  - by vm_compute.
  - reflexivity.
  - intros a Ha _. vm_compute in Ha. apply list_elem_of_singleton in Ha. by subst.
  - intros a Ha _. vm_compute in Ha. apply list_elem_of_singleton in Ha. subst. by vm_compute.
Defined.

Definition some_config : RAConfig := mkRAConfig "" "https://verifier.example" "" false 0 "" "" false "".

Lemma other_formats_never_accepted_witness :
  run (@handleQueryResponse calm lib (@mkTAM lib (@NilVerifier lib) (Some some_config) tam_key) evidence_body
         (mkTEEPMessage 2 (options_with (Some evidence) (Some "application/psa-attestation-token") None None None)
            None None 0 0) (Some agent_kid) None) enrolled ≠ (Ok None, enrolled).
Proof. apply (@other_formats_never_accepted calm lib _ some_config); by vm_compute. Defined.
