(* ===== verification/Messages.v ===== *)
(** TEEP messages and SUIT framing: what the decoder accepts, that a message the TAM signs
    decodes to itself, the bits of a data-item request, and the tag of an envelope. *)

From S2P Require Import Prelude GoText GoFormat Model Db Wire Lib Stub Suit Teep Scenario.

(** ** Messages as the decoder builds them *)

(** A message of one of the five types, with the fields of the other types at zero. *)
Definition canonical (m : TEEPMessage) : bool :=
  let bare := bool_decide (TEEP_SupportedTEEPCipherSuites m = None) &&
              bool_decide (TEEP_SupportedSUITCOSEProfiles m = None) && Z.eqb (TEEP_DataItemRequested m) 0 in
  if Z.eqb (TEEP_Type m) TEEPTypeQueryRequest then Z.eqb (TEEP_ErrCode m) 0
  else if existsb (Z.eqb (TEEP_Type m)) [TEEPTypeQueryResponse; TEEPTypeUpdate; TEEPTypeSuccess]
  then bare && Z.eqb (TEEP_ErrCode m) 0
  else if Z.eqb (TEEP_Type m) TEEPTypeError then bare
  else false.

(** ** What the encoder drops, and what the decoder takes *)

(** A slice with the tag [omitempty]: an empty one is not encoded, so it is read as nil. *)
Definition omitempty {A} (o : option (list A)) : option (list A) :=
  match o with Some [] => None | _ => o end.

Definition normal_claims (c : SystemPropertyClaims) : SystemPropertyClaims :=
  mkSystemPropertyClaims (omitempty (SystemComponentID c)) (omitempty (ImageDigest c)) (ImageSize c).

Definition normal_requested (r : RequestedTCInfo) : RequestedTCInfo :=
  mkRequestedTCInfo (omitempty (Requested_ComponentID r)) (TCManifestSequenceNumber r) (HaveBinary r).

Definition normal_options (o : TEEPOptions) : TEEPOptions :=
  mkTEEPOptions (omitempty (Opt_SupportedTEEPCipherSuites o)) (omitempty (Opt_Challenge o))
    (omitempty (Opt_Versions o)) (omitempty (Opt_SupportedSUITCOSEProfiles o)) (Opt_SelectedVersion o)
    (omitempty (Opt_AttestationPayload o)) (map normal_claims <$> omitempty (Opt_TCList o))
    (omitempty (Opt_ExtList o)) (omitempty (Opt_ManifestList o)) (Opt_Msg o) (Opt_ErrMsg o)
    (Opt_AttestationPayloadFormat o) (map normal_requested <$> omitempty (Opt_RequestedTCList o))
    (omitempty (Opt_UnneededManifestList o)) (omitempty (Opt_SUITReports o)) (omitempty (Opt_Token o))
    (omitempty (Opt_SupportedFreshnessMechanisms o)) (Opt_ErrLang o) (Opt_ErrCode o).

Definition normal (m : TEEPMessage) : TEEPMessage :=
  mkTEEPMessage (TEEP_Type m) (normal_options (TEEP_Options m)) (TEEP_SupportedTEEPCipherSuites m)
    (TEEP_SupportedSUITCOSEProfiles m) (TEEP_DataItemRequested m) (TEEP_ErrCode m).

(** Integers within their Go type, text in UTF-8 (invalid text is encoded, but not decoded),
    and arrays of at most 131072 elements, the decoder's limit. *)
Definition signed_int (z : Z) : bool := Z.leb (-2 ^ 63) z && Z.ltb z (2 ^ 63).
Definition unsigned (w : Z) (z : Z) : bool := Z.leb 0 z && Z.ltb z (2 ^ w).
Definition given {A} (p : A → bool) (o : option A) : bool := match o with Some a => p a | None => true end.
Definition items {A} (p : A → bool) (l : list A) : bool := Z.leb (Z.of_nat (length l)) 131072 && forallb p l.
Definition valid_utf8 (s : string) : bool :=
  forallb (λ t, match t with TInvalid _ => false | TRune _ _ => true end) (utf8 (String.list_ascii_of_string s)).
Definition anything {A} (_ : A) : bool := true.

Definition fits_suite (s : TEEPCipherSuite) : bool := signed_int (Suite_Type s) && signed_int (Suite_Algorithm s).
Definition fits_profile (p : COSEProfile) : bool :=
  signed_int (Profile_DigestAlg p) && signed_int (Profile_AuthAlg p) &&
  signed_int (Profile_KeyExchangeAlg p) && signed_int (Profile_EncryptionAlg p).
Definition fits_claims (c : SystemPropertyClaims) : bool :=
  given (items anything) (SystemComponentID c) && unsigned 64 (ImageSize c).
Definition fits_requested (r : RequestedTCInfo) : bool :=
  given (items anything) (Requested_ComponentID r) && given (unsigned 64) (TCManifestSequenceNumber r).

Definition fits_options (o : TEEPOptions) : bool :=
  given (items (items fits_suite)) (Opt_SupportedTEEPCipherSuites o) &&
  given (items (unsigned 32)) (Opt_Versions o) &&
  given (items fits_profile) (Opt_SupportedSUITCOSEProfiles o) &&
  given (unsigned 32) (Opt_SelectedVersion o) && given (items fits_claims) (Opt_TCList o) &&
  given (items (unsigned 32)) (Opt_ExtList o) && given (items anything) (Opt_ManifestList o) &&
  given valid_utf8 (Opt_Msg o) && given valid_utf8 (Opt_ErrMsg o) &&
  given valid_utf8 (Opt_AttestationPayloadFormat o) && given (items fits_requested) (Opt_RequestedTCList o) &&
  given (items anything) (Opt_UnneededManifestList o) && given (items anything) (Opt_SUITReports o) &&
  given (items (unsigned 64)) (Opt_SupportedFreshnessMechanisms o) && given valid_utf8 (Opt_ErrLang o) &&
  given (unsigned 8) (Opt_ErrCode o).

Definition fits_element (e : element) : bool :=
  match e with
  | EType t => signed_int t
  | EOptions o => fits_options o
  | ECipherSuites l => given (items (items fits_suite)) l
  | ECOSEProfiles l => given (items fits_profile) l
  | EDataItem v => unsigned 64 v
  | EErrCode c => unsigned 8 c
  end.

Definition fits (m : TEEPMessage) : bool :=
  forallb fits_element
    [EType (TEEP_Type m); EOptions (TEEP_Options m); ECipherSuites (TEEP_SupportedTEEPCipherSuites m);
     ECOSEProfiles (TEEP_SupportedSUITCOSEProfiles m); EDataItem (TEEP_DataItemRequested m);
     EErrCode (TEEP_ErrCode m)].

(** A second trip changes nothing. *)
Lemma omitempty_idemp {A} (o : option (list A)) : omitempty (omitempty o) = omitempty o.
Proof. by destruct o as [[]|]. Qed.

Lemma omitempty_map {A} (f : A → A) (o : option (list A)) :
  (∀ a, f (f a) = f a) → map f <$> omitempty (map f <$> omitempty o) = map f <$> omitempty o.
Proof.
  intros Hf. destruct o as [[|a l]|]; [done| |done]. simpl. rewrite Hf. do 2 f_equal.
  induction l as [|x l IH]; simpl; by rewrite ?Hf, ?IH.
Qed.

Lemma normal_normal (m : TEEPMessage) : normal (normal m) = normal m.
Proof.
  unfold normal, normal_options. cbn. rewrite !omitempty_idemp, !omitempty_map; [done|..].
  - intros []. unfold normal_requested. cbn. by rewrite !omitempty_idemp.
  - intros []. unfold normal_claims. cbn. by rewrite !omitempty_idemp.
Qed.

Section decoding.
Context `{Platform} `{Lib}.

(** The number of elements a message of type [ty] has. *)
Definition arity (ty : Z) : nat :=
  if Z.eqb ty TEEPTypeQueryRequest then 5 else if Z.eqb ty TEEPTypeError then 3 else 2.

(** C36: the decoder of TEEP messages is total, and what it returns is well formed: the
    array has as many elements as a message of its type has, its first element is one
    of the five types, and the fields that belong to other types keep their zero value. *)
Theorem UnmarshalCBOR_exact data :
  match TEEPMessage_UnmarshalCBOR data with
  | Ok m => canonical m = true ∧
      ∃ a0 rest, cbor_array data = Some (a0 :: rest) ∧ cbor_int a0 = Some (TEEP_Type m) ∧
        S (length rest) = arity (TEEP_Type m) ∧ cbor_options (default [] (rest !! 0)) = Some (TEEP_Options m)
  | Err _ => True
  | Panic | OutOfFuel => False
  end.
Proof.
  unfold TEEPMessage_UnmarshalCBOR, decoded.
  destruct (cbor_array data) as [[|a0 [|a1 rest]]|]; try done. cbn [mbind res_bind res_of_option].
  destruct (cbor_int a0) as [ty|] eqn:Hty; [|done]. cbn [mbind res_bind res_of_option].
  destruct (Z.eqb_spec ty TEEPTypeQueryRequest) as [->|H1].
  { destruct rest as [|a2 [|a3 [|a4 []]]]; try done.
    destruct (cbor_options a1) eqn:Ho; [|done]. cbn [mbind res_bind res_of_option].
    do 3 (match goal with |- context [res_of_option _ ?o] => destruct o; [|done] end;
      cbn [mbind res_bind res_of_option]).
    split; [done|]. by exists a0, [a1; a2; a3; a4]. }
  destruct (Z.eqb ty TEEPTypeQueryResponse || _ || _) eqn:H2.
  { destruct rest; [|done]. destruct (cbor_options a1) eqn:Ho; [|done]. cbn [mbind res_bind res_of_option].
    rewrite !orb_true_iff, !Z.eqb_eq in H2. split; [by destruct H2 as [[->| ->]| ->]|].
    exists a0, [a1]. split_and!; try done. by destruct H2 as [[->| ->]| ->]. }
  destruct (Z.eqb_spec ty TEEPTypeError) as [->|]; [|done].
  destruct rest as [|a2 []]; try done.
  destruct (cbor_options a1) eqn:Ho; [|done]. cbn [mbind res_bind res_of_option].
  destruct (cbor_uint8 a2); [|done]. split; [done|]. by exists a0, [a1; a2].
Qed.

(** *** What the CBOR and COSE libraries promise *)

(** The decoder that reads an element of an array back: options without the empty slices
    that [omitempty] drops. *)
Definition reads_back (part : bytes) (e : element) : Prop :=
  match e with
  | EType t => cbor_int part = Some t
  | EOptions o => cbor_options part = Some (normal_options o)
  | ECipherSuites l => cbor_cipher_suites part = Some l
  | ECOSEProfiles l => cbor_cose_profiles part = Some l
  | EDataItem v => cbor_uint part = Some v
  | EErrCode c => cbor_uint8 part = Some c
  end.

(** An encoded array of a few elements that fit the decoder is well formed, and each
    element is read back. *)
Definition cbor_faithful : Prop :=
  ∀ l b, length l ≤ 5 → forallb fits_element l = true → Marshal_elements l = Some b →
    cbor_wellformed b = true ∧ ∃ parts, cbor_array b = Some parts ∧ Forall2 reads_back parts l.

(** The public half of the key belongs to the private one: what the key signs verifies
    under it, and carries the payload. *)
Definition key_pair (key : cose_key) : Prop :=
  ∀ s v alg kid payload rnd b,
    key_Signer key = Some s → key_Verifier key = Some v → Sign1 s alg kid payload rnd = Some b →
    ∃ msg, Sign1_UnmarshalCBOR b = Some msg ∧ Sign1_Payload msg = Some payload ∧ Sign1_Verify v msg = true.

Ltac read_back :=
  repeat match goal with
  | Hf : Forall2 reads_back _ (_ :: _) |- _ => apply Forall2_cons_inv_r in Hf as (? & ? & ? & Hf & ->)
  | Hf : Forall2 reads_back _ [] |- _ => apply Forall2_nil_inv_r in Hf as ->
  end; simpl in *.

Lemma MarshalCBOR_round_trip (m : TEEPMessage) (b : bytes) :
  cbor_faithful → canonical m = true → fits m = true → TEEPMessage_MarshalCBOR m = Ok b →
  Unmarshal_TEEPMessage b = Ok (normal m).
Proof.
  intros Hfaith Hc Hfit Hm. destruct m as [ty o cs ps di ec].
  unfold TEEPMessage_MarshalCBOR, canonical, decoded in *. cbn in Hc, Hm.
  assert (∀ l, res_of_option ErrLib (Marshal_elements l) = Ok b →
    length l ≤ 5 → (∀ e, In e l → In e [EType ty; EOptions o; ECipherSuites cs; ECOSEProfiles ps; EDataItem di; EErrCode ec]) →
    cbor_wellformed b = true ∧ ∃ parts, cbor_array b = Some parts ∧ Forall2 reads_back parts l) as Hl.
  { intros l Hl%res_of_option_Ok Hlen Hin. apply Hfaith; [done| |done]. apply forallb_forall. intros e He%Hin.
    unfold fits in Hfit. rewrite forallb_forall in Hfit. by apply Hfit. }
  unfold Unmarshal_TEEPMessage, Unmarshal_with, TEEPMessage_UnmarshalCBOR, decoded.
  assert (ty ∈ [1; 2; 3; 4; 5]%Z) as Hty.
  { rewrite !elem_of_cons. revert Hc. unfold TEEPTypeQueryRequest, TEEPTypeQueryResponse, TEEPTypeUpdate,
      TEEPTypeSuccess, TEEPTypeError. simpl.
    destruct (Z.eqb_spec ty 1), (Z.eqb_spec ty 2), (Z.eqb_spec ty 3), (Z.eqb_spec ty 4), (Z.eqb_spec ty 5);
      simpl; auto 7. discriminate. }
  assert (∀ bare, bool_decide (cs = None) && bool_decide (ps = None) && (di =? 0)%Z && bare = true →
    cs = None ∧ ps = None ∧ di = 0%Z ∧ bare = true) as Hbare.
  { intros bare. rewrite !andb_true_iff, !bool_decide_eq_true, Z.eqb_eq. tauto. }
  rewrite !elem_of_cons, elem_of_nil in Hty. destruct Hty as [->|[->|[->|[->|[->|[]]]]]]; simpl in Hc, Hm;
    (apply Hl in Hm as (-> & parts & -> & Hf); [|simpl; lia|simpl; tauto]); read_back;
    repeat match goal with Hr : _ = Some _ |- _ => rewrite Hr; clear Hr; cbn [res_of_option mbind res_bind] end;
    simpl.
  - apply Z.eqb_eq in Hc as ->. done.
  - apply Hbare in Hc as (-> & -> & -> & ->%Z.eqb_eq). done.
  - apply Hbare in Hc as (-> & -> & -> & ->%Z.eqb_eq). done.
  - apply Hbare in Hc as (-> & -> & -> & ->%Z.eqb_eq). done.
  - rewrite <- (andb_true_r (_ && _)) in Hc. apply Hbare in Hc as (-> & -> & -> & _). done.
Qed.

(** C35: what the TAM signs, its recipient reads: a well-formed message signed by
    [COSESign1Sign] with a key verifies under that key and decodes to the same message, but
    for the empty slices in its options, which [omitempty] drops and which come back as nil.
    The message has to fit the decoder ([fits]: integers in their Go types, text in UTF-8,
    arrays within its limit), the CBOR library has to read back what it encodes, and the
    key has to be a key pair. *)
Theorem signed_message_round_trip (m : TEEPMessage) (key : cose_key) v (b : bytes) w w' :
  cbor_faithful → key_pair key →
  canonical m = true → fits m = true → key_Verifier key = Some v →
  run (TEEPMessage_COSESign1Sign m key) w = (Ok b, w') →
  TEEPMessage_COSESign1Verify key b = Ok (normal m).
Proof.
  intros Hcbor Hcose Hc Hfit Hv Hr. unfold TEEPMessage_COSESign1Sign in Hr.
  run_inv Hr. apply run_lift_Ok in Hrun as [Hs%res_of_option_Ok ->].
  run_inv Hk. apply run_lift_Ok in Hrun as [_ ->]. run_inv Hk0. apply run_lift_Ok in Hrun as [_ ->].
  run_inv Hk. apply run_lift_Ok in Hrun as [Hm ->]. unfold cose_Sign1 in Hk0. rewrite run_atomically in Hk0.
  destruct (Sign1 _ _ _ _ _) as [sig|] eqn:Hsig; simplify_eq/=.
  destruct (Hcose _ _ _ _ _ _ _ Hs Hv Hsig) as (msg & Hmsg & Hpayload & Hver).
  unfold TEEPMessage_COSESign1Verify, decoded. rewrite Hv. cbn [res_of_option mbind res_bind].
  rewrite Hmsg. cbn [res_of_option mbind res_bind]. rewrite Hver, Hpayload. cbn [negb slice default].
  by apply MarshalCBOR_round_trip.
Qed.
End decoding.

(** ** Data-item requests *)

(** The four flags [RequestDataItem] packs into an integer are the four its accessors
    read back, and no other bit is set: the value is below 16. *)
Theorem RequestDataItem_flags (attestation tcList extensions suitReports : bool) :
  let v := RequestDataItem attestation tcList extensions suitReports in
  (0 ≤ v < 16)%Z ∧
  AttestationRequested v = attestation ∧ TCListRequested v = tcList ∧
  ExtensionsRequested v = extensions ∧ SUITReportsRequested v = suitReports.
Proof. by destruct attestation, tcList, extensions, suitReports. Qed.

(** ** The tag of an envelope *)

(** [SkipTag] strips the two bytes of the tag 107 and nothing else.  It can only panic
    on an input of fewer than two bytes, and then only when the two bytes it looks at
    are not there at all, or the bytes behind the input complete the tag. *)
Theorem SkipTag_exact data spare :
  match SkipTag data spare with
  | Ok (true, rest) => data = envelopeTagBytes ++ rest
  | Ok (false, rest) => rest = data ∧ ¬ ∃ rest, data = envelopeTagBytes ++ rest
  | Panic => length data < 2 ∧ (length (data ++ spare) < 2 ∨ take 2 (data ++ spare) = envelopeTagBytes)
  | Err _ | OutOfFuel => False
  end.
Proof.
  unfold SkipTag, envelopeTagBytesLen.
  destruct (decide (2 ≤ length (data ++ spare))) as [Hlen|Hlen].
  2: { assert (go_slice (E:=error) (data ++ spare) 0 (Z.of_nat 2) = Panic) as ->
         by (unfold go_slice; by rewrite bool_decide_false by lia).
       cbn [mbind res_bind]. rewrite length_app in *. split; lia. }
  rewrite (go_slice_Ok (data ++ spare)) by lia. cbn [mbind res_bind].
  change (take (Z.to_nat (Z.of_nat 2 - 0)) (drop (Z.to_nat 0) (data ++ spare))) with (take 2 (data ++ spare)).
  case_bool_decide as Htag; cbn [mbind res_bind].
  - destruct (decide (2 ≤ length data)) as [Hl|Hl].
    + rewrite go_slice_Ok by lia. cbn [mbind res_bind].
      rewrite take_ge by (rewrite length_drop; lia). rewrite take_app_le in Htag by lia.
      by rewrite <- Htag, take_drop.
    + unfold go_slice. rewrite bool_decide_false by lia. cbn [mbind res_bind]. split; [lia|by right].
  - split; [done|]. intros [rest ->]. by apply Htag.
Qed.

(** ** Witnesses *)

(** A library that encodes every message, options without their empty slices, and reads it
    back: each part through an injection into the positive numbers. *)
#[local] Instance cipher_suite_eq_dec : EqDecision TEEPCipherSuite.
Proof. solve_decision. Defined.
#[local] Instance cipher_suite_countable : Countable TEEPCipherSuite.
Proof. by apply (inj_countable' (λ s, (Suite_Type s, Suite_Algorithm s)) (λ f, mkTEEPCipherSuite f.1 f.2)); intros []. Defined.

#[local] Instance cose_profile_eq_dec : EqDecision COSEProfile.
Proof. solve_decision. Defined.
#[local] Instance cose_profile_countable : Countable COSEProfile.
Proof.
  by apply (inj_countable' (λ p, (Profile_DigestAlg p, Profile_AuthAlg p, Profile_KeyExchangeAlg p, Profile_EncryptionAlg p))
    (λ f, mkCOSEProfile f.1.1.1 f.1.1.2 f.1.2 f.2)); intros [].
Defined.

#[local] Instance claims_eq_dec : EqDecision SystemPropertyClaims.
Proof. solve_decision. Defined.
#[local] Instance claims_countable : Countable SystemPropertyClaims.
Proof.
  by apply (inj_countable' (λ c, (SystemComponentID c, ImageDigest c, ImageSize c))
    (λ f, mkSystemPropertyClaims f.1.1 f.1.2 f.2)); intros [].
Defined.

#[local] Instance requested_eq_dec : EqDecision RequestedTCInfo.
Proof. solve_decision. Defined.
#[local] Instance requested_countable : Countable RequestedTCInfo.
Proof.
  by apply (inj_countable' (λ r, (Requested_ComponentID r, TCManifestSequenceNumber r, HaveBinary r))
    (λ f, mkRequestedTCInfo f.1.1 f.1.2 f.2)); intros [].
Defined.

Definition pack_options (o : TEEPOptions) : bytes :=
  pack_strings
    [pack (Opt_SupportedTEEPCipherSuites o); pack (Opt_Challenge o); pack (Opt_Versions o);
     pack (Opt_SupportedSUITCOSEProfiles o); pack (Opt_SelectedVersion o); pack (Opt_AttestationPayload o);
     pack (Opt_TCList o); pack (Opt_ExtList o); pack (Opt_ManifestList o); pack (Opt_Msg o); pack (Opt_ErrMsg o);
     pack (Opt_AttestationPayloadFormat o); pack (Opt_RequestedTCList o); pack (Opt_UnneededManifestList o);
     pack (Opt_SUITReports o); pack (Opt_Token o); pack (Opt_SupportedFreshnessMechanisms o);
     pack (Opt_ErrLang o); pack (Opt_ErrCode o)].

Definition unpack_options (b : bytes) : option TEEPOptions :=
  l ← unpack_strings b [];
  match l with
  | [b1; b2; b3; b4; b5; b6; b7; b8; b9; b10; b11; b12; b13; b14; b15; b16; b17; b18; b19] =>
      o1 ← unpack b1; o2 ← unpack b2; o3 ← unpack b3; o4 ← unpack b4; o5 ← unpack b5; o6 ← unpack b6;
      o7 ← unpack b7; o8 ← unpack b8; o9 ← unpack b9; o10 ← unpack b10; o11 ← unpack b11; o12 ← unpack b12;
      o13 ← unpack b13; o14 ← unpack b14; o15 ← unpack b15; o16 ← unpack b16; o17 ← unpack b17;
      o18 ← unpack b18; o19 ← unpack b19;
      Some (mkTEEPOptions o1 o2 o3 o4 o5 o6 o7 o8 o9 o10 o11 o12 o13 o14 o15 o16 o17 o18 o19)
  | _ => None
  end.

#[local] Arguments pack : simpl never.
#[local] Arguments unpack : simpl never.
#[local] Arguments pack_strings : simpl never.
#[local] Arguments unpack_strings : simpl never.

Lemma unpack_pack_options o : unpack_options (pack_options o) = Some o.
Proof.
  destruct o. unfold unpack_options, pack_options. cbn. rewrite unpack_pack_strings.
  cbn. do 19 (rewrite unpack_pack; cbn). done.
Qed.

Definition pack_element (e : element) : bytes :=
  match e with
  | EType t => pack t
  | EOptions o => pack_options (normal_options o)
  | ECipherSuites l => pack l
  | ECOSEProfiles l => pack l
  | EDataItem v => pack v
  | EErrCode c => pack c
  end.

Definition codec_lib : Lib := {|
  cose_key := bytes; public_key := bytes; verifier := bytes; signer := bytes; sign_message := unit;
  key_Algorithm := λ _, (-9)%Z; key_AlgorithmOrDefault := λ _, Some (-9)%Z; key_PublicKey := Some;
  key_Thumbprint := λ k, Some (pad 32 k); key_Signer := Some; key_Verifier := Some;
  NewVerifier := λ _ pk, Some pk; NewKeyEC2 := λ _ x y, Some (x ++ y); cose_Key_EC2 := λ _ _ x y, x ++ y;
  Sign1_UnmarshalCBOR := λ b, Some (mkSign1Message [] [] (Some (drop 1 b)) (take 1 b));
  Sign1_Verify := λ v m, bool_decide (take 1 v = Sign1_Raw m);
  Sign_UnmarshalCBOR := λ _, None; Sign_Verify := λ _ _, false;
  Sign1 := λ k _ _ payload _, match k with [] => None | x :: _ => Some (x :: payload) end;
  cbor_wellformed := λ _, true; spare_capacity := λ _, [];
  cbor_array := λ b, unpack_strings b []; cbor_map := λ _, None; cbor_bytes := λ b, Some (Some b);
  cbor_bytes_list := λ b, Some [b]; cbor_int := unpack;
  cbor_uint := unpack; cbor_uint8 := unpack; cbor_bool := λ _, None;
  cbor_decode_any := λ b, Some (CBytes b); cbor_options := unpack_options;
  cbor_cipher_suites := unpack; cbor_cose_profiles := unpack; cbor_digest := λ _, None;
  cbor_raw_report := λ _, None; cbor_record := λ _, None; cbor_claims := λ _, None;
  cbor_detailed_result := λ _, None; cbor_raw_manifest := λ _, None; cbor_common := λ _, None;
  cbor_bundle := λ _, None; cbor_key := Some;
  Marshal_elements := λ l, Some (pack_strings (map pack_element l));
  Marshal_component_id := λ c, Some (encode_component c); Marshal_digest := DigestBytes;
  Marshal_key := Some; Marshal_overviews := λ _, None; Marshal_status_keys := λ _, None;
  Marshal_status_records := λ _, None; Eat_FromCBOR := λ _, None; Nonce_Validate := λ _, true;
  UEID_Validate := λ _, true; sha256 := pad 32; sha384 := pad 48;
  json_attestation_response := λ _, None; json_decode := λ _, None; json_indent := λ _, None;
  json_indent_cbor := λ _, None; fmt_Sprint := λ _, ""; base64_decoders := []; base64_raw_url := λ _, None;
  http_RoundTrip := λ _ _ _ _, None; http_redirect_header := λ _ _, []; url_bracketed_host := λ _, None; pem_Decode := λ _, None;
  x509_ParseCertificate := λ _, None; x509_ParseCertificates := λ _, None;
  x509_ParseRevocationList := λ _, None; json_nextUpdate := λ _, None; time_Parse_RFC3339 := λ _, None; time_ParseDuration := λ _, None; strconv_ParseInt := λ _, None;
  json_collateral := λ _, None; Marshal_collateral := λ _, None; json_cache_entry := λ _, None;
  Marshal_cache_entry := λ _, None; intel_qvl_build := false;
  tee_get_fmspc_from_quote := λ _, (1%Z, λ _, Byte.x00);
  tee_get_supplemental_data_version_and_size := λ _, (0%Z, 0%Z);
  tee_verify_quote := λ _ _ _ _, (0%Z, Some 0%Z, Some 0%Z);
  calloc_fails := λ _, false;
  TEE_QV_RESULT_UNSPECIFIED := 0xa006;
  TEE_ERROR_INVALID_PARAMETER := 0xe001;
|}.

Lemma codec_lib_cbor : cbor_faithful (H0:=codec_lib).
Proof.
  intros l b _ _ Hm. cbn in Hm. injection Hm as <-. split; [done|].
  exists (map pack_element l). split; [apply unpack_pack_strings|].
  induction l as [|e l IH]; constructor; [|done]. destruct e; cbn; auto using unpack_pack, unpack_pack_options.
Qed.

Lemma codec_lib_cose key : key_pair (H0:=codec_lib) key.
Proof.
  intros s v alg kid payload rnd b [= <-] [= <-] Hs. cbn in Hs. destruct key; simplify_eq.
  eexists. split_and!; [done..|]. cbn. by rewrite bool_decide_true.
Qed.

(** An Error with a text and an empty token, which the recipient does not see. *)
Definition error_message : TEEPMessage :=
  mkTEEPMessage TEEPTypeError
    (mkTEEPOptions None None (Some [0%Z]) None None None
       (Some [mkSystemPropertyClaims (Some [Some (bs [0xC]%Z)]) (Some []) 7]) None None None (Some "no such token")
       None None None None (Some []) None None (Some 10%Z)) None None 0 10.

Lemma signed_message_round_trip_witness :
  ∃ b, (run (@TEEPMessage_COSESign1Sign calm codec_lib error_message (bs [9]%Z)) initial_world).1 = Ok b ∧
    TEEPMessage_COSESign1Verify (H0:=codec_lib) (bs [9]%Z) b =
      Ok (mkTEEPMessage TEEPTypeError
            (mkTEEPOptions None None (Some [0%Z]) None None None
               (Some [mkSystemPropertyClaims (Some [Some (bs [0xC]%Z)]) None 7]) None None None
               (Some "no such token") None None None None None None None (Some 10%Z)) None None 0 10).
Proof.
  eexists. split; [reflexivity|].
  apply (@signed_message_round_trip calm codec_lib error_message (bs [9]%Z) (bs [9]%Z) _ initial_world
    (run (@TEEPMessage_COSESign1Sign calm codec_lib error_message (bs [9]%Z)) initial_world).2).
  - exact codec_lib_cbor.
  - exact (codec_lib_cose _).
  - done.
  - by vm_compute.
  - done.
  - reflexivity.
Defined.
