(* ===== verification/Service.v ===== *)
(** The service as a whole: what any number of requests, served at the same time, can do
    to the database, and what a client sees. *)

From S2P Require Import Prelude GoText Model Db Evolve Frame OneTime AgentRepo ManifestRepo SentRepo.
From S2P Require Import StatusRepo Wire Lib Stub Suit Teep Rats Qvl Collateral Verifiers Tam Server Requests TamFrames.
From S2P Require Import Scenario Trust.

Section http.
Context `{Platform} `{Lib}.
Implicit Types w : World.

Lemma requests_harmless t rs w : wf (w_db w) → Forall (λ p, harmless p w) (map (ServeHTTP t) rs).
Proof. intros Hwf. apply Forall_map, Forall_true. intros r. by apply ServeHTTP_harmless. Qed.

Lemma requests_sched t rs w w' ps :
  wf (w_db w) → rtc sched (map (ServeHTTP t) rs, w) (ps, w') → evolves (w_db w) (w_db w').
Proof.
  intros Hwf Hs.
  apply (pool_rg (on_db evolves)) in Hs as [He _]; [done|by apply requests_harmless].
Qed.

(** Revoking an agent while requests are being served, and more arrive afterwards. *)
Lemma revoked_for_good t rs rs' kid w0 ps w w1 ps' w2 :
  wf (w_db w0) → rtc sched (map (ServeHTTP t) rs, w0) (ps, w) →
  run (AgentRepository_RevokeByKID kid) w = (Ok tt, w1) →
  rtc sched (ps ++ map (ServeHTTP t) rs', w1) (ps', w2) →
  wf (w_db w2) ∧ revoked kid (w_db w2).
Proof.
  intros Hwf0 Hbefore Hrun Hafter.
  apply (pool_rg (on_db evolves)) in Hbefore as [He0 Hps]; [|by apply requests_harmless].
  pose proof (evolves_wf _ _ He0 Hwf0) as Hwf.
  pose proof (safe_run _ _ _ (AgentRepository_RevokeByKID_harmless kid w)) as [He1 _].
  rewrite Hrun in He1. pose proof (evolves_wf _ _ He1 Hwf) as Hwf1.
  apply (pool_rg (on_db evolves)) in Hafter as [He2 _].
  - split; [by eapply evolves_wf|]. eapply revoked_evolves; [exact Hwf1|done|].
    by eapply RevokeByKID_revokes.
  - apply Forall_app. split; [|by apply requests_harmless].
    eapply Forall_impl; [exact Hps|]. intros p Hp. by apply (rg_mono (on_db evolves) _ p w w1).
Qed.
End http.

(** ** Properties *)

Section properties.
Context `{Platform} `{Lib}.
Implicit Types w : World.

(** C3: whatever requests arrive, in whatever order the server interleaves them, and
    whichever of them fail or panic on the way: the database stays well formed, no row
    is lost, and rows only change the way their table allows (tokens and challenges get
    used up, agents revoked, holdings deleted; nothing is ever undone). *)
Theorem requests_keep_invariant (t : TAM) (rs : list Request) w w' ps :
  wf (w_db w) → rtc sched (map (ServeHTTP t) rs, w) (ps, w') →
  keeps_all (w_db w) (w_db w') ∧ wf (w_db w').
Proof. intros Hwf Hs. by apply (requests_sched t rs w w' ps Hwf Hs). Qed.

(** C22: revocation is for good. An agent is revoked while any requests are being served,
    interleaved in any order; those go on, and any others arrive. However far they have
    got after that, looking the agent up by its key id reports it revoked, and no message
    counts as signed by it. *)
Theorem revocation_is_permanent `{!Reliable} (t : TAM) (kid : bytes) (rs rs' : list Request)
    (w0 w w1 w2 : World) ps ps' :
  wf (w_db w0) →
  rtc sched (map (ServeHTTP t) rs, w0) (ps, w) →
  run (AgentRepository_RevokeByKID kid) w = (Ok tt, w1) →
  rtc sched (ps ++ map (ServeHTTP t) rs', w1) (ps', w2) →
  (run (AgentRepository_FindByKID kid) w2).1 = Err ErrRevoked ∧
  ∀ body m k e w', run (tryAuthenticateTeepMessage body) w2 = (Ok (m, Some k, e), w') → k ≠ kid.
Proof.
  intros Hwf0 Hbefore Hrun Hafter.
  destruct (revoked_for_good t rs rs' kid w0 ps w w1 ps' w2) as [Hwf2 Hrev]; [done..|].
  split; [by apply FindByKID_reports_revoked|]. intros body m k e w' Hr ->.
  apply tryAuthenticate_kid in Hr as (_ & _ & a & _ & _ & _ & _ & _ & _ & _ & _ & _ & _ & Ha & Hk & Hnone & _).
  by apply (revoked_only kid (w_db w2) a).
Qed.

(** The checks [tamOverHttp] makes before it looks at the message. *)
Definition acceptable (r : Request) : Prop :=
  Req_Method r = "POST" ∧ Req_Accept r = "application/teep+cbor" ∧
  Req_ContentType r = "application/teep+cbor" ∧
  (len (Body_Bytes (Req_Body r)) ≤ maxRequestBodyBytes)%Z ∧
  Body_ReadFails (Req_Body r) = false ∧ Body_CloseFails (Req_Body r) = false.

(** A request that fails one of the checks of the TEEP endpoint (method, headers, body
    size, transport) gets an error response of status 415 or 500, and leaves the whole
    state as it was: no message over 32 KiB is ever parsed. *)
Theorem unacceptable_request_is_inert (t : TAM) (r : Request) w :
  ¬ acceptable r →
  ∃ msg code, run (tamOverHttp t r) w = (Ok (http_Error msg code), w) ∧
    code ∈ [StatusUnsupportedMediaType; StatusInternalServerError].
Proof.
  intros Hr. unfold tamOverHttp.
  destruct (String.eqb_spec (Req_Method r) "POST"); cbn [negb];
    [|eexists _, _; split; [reflexivity|right; left]].
  destruct (String.eqb_spec (Req_Accept r) "application/teep+cbor"); cbn [negb];
    [|eexists _, _; split; [reflexivity|left]].
  destruct (String.eqb_spec (Req_ContentType r) "application/teep+cbor"); cbn [negb];
    [|eexists _, _; split; [reflexivity|left]].
  unfold ReadAll. destruct (Z.ltb_spec maxRequestBodyBytes (len (Body_Bytes (Req_Body r))));
    [eexists _, _; split; [reflexivity|right; left]|].
  destruct (Body_ReadFails _) eqn:?; [eexists _, _; split; [reflexivity|right; left]|].
  destruct (Body_CloseFails _) eqn:?; [eexists _, _; split; [reflexivity|right; left]|].
  by destruct Hr.
Qed.

(** Otherwise the response is determined by what [ResolveTEEPMessage] returns: 200 with
    the message to send back, 204 without a body when there is none, 503 when no
    verifier is configured, 500 for every other error; a panic is not caught. *)
Theorem tamOverHttp_response (t : TAM) (r : Request) w :
  acceptable r →
  run (tamOverHttp t r) w =
    let '(res, w') := run (ResolveTEEPMessage t (Body_Bytes (Req_Body r))) w in
    (match res with
     | Ok o =>
         match slice o with
         | [] => Ok (mkResponse StatusNoContent [("Server", "Bar/2.2")] [])
         | b => Ok (writeResponse (mkResponseSpec StatusOK (Some b) "application/teep+cbor"))
         end
     | Err ErrVerifierNotConfigured =>
         Ok (http_Error "verifier client is not configured, so attestation with challenge-response is not available" StatusServiceUnavailable)
     | Err _ => Ok internal_server_error
     | Panic => Panic
     | OutOfFuel => OutOfFuel
     end, w').
Proof.
  intros (Hm & Ha & Hc & Hl & Hrd & Hcl). unfold tamOverHttp. rewrite Hm, Ha, Hc, !String.eqb_refl. cbn [negb].
  unfold ReadAll. replace (Z.ltb maxRequestBodyBytes _) with false by (symmetry; by apply Z.ltb_ge).
  rewrite Hrd, Hcl, run_bind, run_try.
  destruct (run (ResolveTEEPMessage _ _) w) as [[o|e| |] w']; simpl; [| |done..].
  - destruct o as [[|b bytes]|]; done.
  - by destruct e.
Qed.

(** A missing administrator crashes the agent list: [FindEntity] reports an unknown name
    as a nil entity without an error, which [getAgentList] dereferences. *)
Theorem getAgentList_panics `{!Reliable} (r : Request) w :
  Req_Method r = "GET" → Req_Accept r = "application/cbor" →
  (∀ e, e ∈ rows (entities (w_db w)) → Entity_Name e ≠ adminName) →
  (run (getAgentList r) w).1 = Panic.
Proof.
  intros Hm Ha Hno. unfold getAgentList. rewrite Hm, Ha, !String.eqb_refl. cbn [negb].
  unfold FindEntity, EntityRepository_FindByName. rewrite run_bind, run_try, run_select_opt_reliable.
  cbn [fst snd run_then]. destruct (head _) as [e|] eqn:Hh; [|done].
  apply head_Some_elem_of, list_elem_of_filter in Hh as [He%bool_decide_eq_true Hin].
  by destruct (Hno e Hin).
Qed.

(** Without a challenge server, evidence for the remote verifier crashes the request
    instead of being refused: [NewVerifierClient] returns a nil pointer, which as an
    [IRAVerifier] is not nil, so the test for [ErrVerifierNotConfigured] passes and
    [Process] dereferences it. *)
Theorem unconfigured_verifier_panics (t : TAM) (cfg : RAConfig) (body : bytes) (incoming : TEEPMessage)
    (agentKID : option bytes) b payload w :
  let format := default "" (Opt_AttestationPayloadFormat (TEEP_Options incoming)) in
  TAM_resolveVerifier t = Some cfg → BaseURL cfg = "" →
  VerifierBackendForAttestationPayloadFormat format = VerifierBackendVeraison →
  Opt_AttestationPayload (TEEP_Options incoming) = Some (b :: payload) →
  (run (handleQueryResponse t body incoming agentKID None) w).1 = Panic.
Proof.
  intros format Ht Hurl Hback Hp. unfold handleQueryResponse.
  rewrite run_bind, run_bind. unfold verifyAttestationPayload. rewrite Hp, run_bind.
  unfold submitAttestationPayload, selectVerifier. rewrite Ht, !run_bind.
  unfold resolveVerifier. fold format. rewrite Hback, run_atomically.
  unfold NewVerifierForBackend, NewVerifierClient. cbn [ToLower].
  change (String.eqb (ToLower VerifierBackendVeraison) VerifierBackendVeraison) with true.
  cbn [BaseURL with_backend]. rewrite Hurl. by case_bool_decide.
Qed.

(** An empty repository is listed as CBOR null, not as the empty array the comment in
    the handler promises: nothing is ever appended to the nil slice. *)
Theorem empty_list_is_null `{!Reliable} (r : Request) (null : bytes) w :
  Req_Method r = "GET" → Req_Accept r = "application/cbor" →
  rows (suit_manifests (w_db w)) = [] → Marshal_overviews None = Some null →
  (run (getManifests r) w).1 = Ok (writeResponse (mkResponseSpec StatusOK (Some null) "application/cbor")).
Proof.
  intros Hm Ha Hno Hnull. unfold getManifests. rewrite Hm, Ha, !String.eqb_refl. cbn [negb].
  unfold GetManifests, SuitManifestRepository_FindLatestAll, query.
  rewrite run_bind, run_try, run_map_err, run_sql_reliable. cbn [fst snd res_map_err run_then].
  rewrite Hno. cbn [filter list_filter].
  assert (sql_order (λ a b, blob_le (SuitManifest_TrustedComponentID a) (SuitManifest_TrustedComponentID b))
            [] = []) as -> by (apply Permutation_nil_r, sql_order_perm).
  cbn [map appended]. rewrite Hnull. done.
Qed.
End properties.

(** ** Witnesses *)

Definition post (body : bytes) : Request :=
  mkRequest "POST" "/tam" "application/teep+cbor" "application/teep+cbor" (mkBody body false false).
Definition get (path : string) : Request :=
  mkRequest "GET" path "application/cbor" "" (mkBody [] false false).

(** Two requests of the same evidence, one after the other's first step. *)
Lemma requests_keep_invariant_witness :
  ∃ ps w', rtc sched (map (@ServeHTTP calm lib tam) [post []; post evidence_body], asked) (ps, w') ∧
    keeps_all (w_db asked) (w_db w').
Proof.
  eexists _, _. match goal with |- ?P ∧ _ => assert P as Hs end.
  { eapply rtc_l; [refine (sched_step [_] _ _ [] _)|].
    eapply rtc_l; [refine (sched_step [] _ _ [_] _)|]. apply rtc_refl. }
  split; [exact Hs|]. apply (@requests_keep_invariant calm lib tam _ _ _ _ asked_wf Hs).
Defined.

(** A request is in flight when the agent is revoked, and another one comes. *)
Definition enrolled_agent : World :=
  (run (@AgentRepository_Create calm
          (mkAgent 0 dev_kid None 0 (1000000 * second) None (bs [1]%Z))) asked).2.

Lemma revocation_is_permanent_witness :
  ∃ ps w1 ps' w2,
    (run (@AgentRepository_RevokeByKID calm dev_kid) enrolled_agent).1 = Ok tt ∧
    rtc sched (ps ++ map (@ServeHTTP calm lib tam) [post evidence_body], w1) (ps', w2) ∧
    (run (@AgentRepository_FindByKID calm dev_kid) w2).1 = Err ErrRevoked.
Proof.
  exists (map (@ServeHTTP calm lib tam) [post []]),
    (run (@AgentRepository_RevokeByKID calm dev_kid) enrolled_agent).2.
  eexists _, _. split; [by vm_compute|].
  match goal with |- ?P ∧ _ => assert P as Hs end.
  { eapply rtc_l; [refine (sched_step [_] _ _ [] _)|].
    eapply rtc_l; [refine (sched_step [] _ _ [_] _)|]. apply rtc_refl. }
  split; [exact Hs|].
  refine (proj1 (@revocation_is_permanent calm lib calm_reliable tam dev_kid [post []] [post evidence_body]
    enrolled_agent enrolled_agent (run (@AgentRepository_RevokeByKID calm dev_kid) enrolled_agent).2 _
    (map (@ServeHTTP calm lib tam) [post []]) _ _ (rtc_refl _ _) _ Hs)).
  - exact (evolves_wf _ _ (proj1 (safe_run _ _ _ (@AgentRepository_Create_harmless calm _ asked))) asked_wf).
  - rewrite (surjective_pairing (run _ _)). by apply (f_equal (λ r, (r, _))).
Defined.

Lemma unacceptable_request_is_inert_witness :
  ∃ msg code, run (@tamOverHttp calm lib tam (get "/tam")) asked = (Ok (http_Error msg code), asked) ∧
    code ∈ [StatusUnsupportedMediaType; StatusInternalServerError].
Proof. apply (@unacceptable_request_is_inert calm lib tam (get "/tam")). by intros [? _]. Defined.

Lemma tamOverHttp_response_witness :
  (run (@tamOverHttp calm lib tam (post evidence_body)) asked).1
    = Ok (mkResponse StatusNoContent [("Server", "Bar/2.2")] []).
Proof.
  rewrite (@tamOverHttp_response calm lib tam (post evidence_body) asked).
  - by vm_compute.
  - by split_and!.
Defined.

Lemma getAgentList_panics_witness :
  (run (@getAgentList calm lib (get "/AgentService/ListAgents")) asked).1 = Panic.
Proof.
  apply (@getAgentList_panics calm lib calm_reliable); [done|done|].
  intros e He. vm_compute in He. by apply not_elem_of_nil in He.
Defined.

Lemma unconfigured_verifier_panics_witness :
  (run (@handleQueryResponse calm lib
          (@mkTAM lib (@NilVerifier lib) (Some (mkRAConfig "" "" "" false 0 "" "" false "")) tam_key)
          evidence_body
          (mkTEEPMessage 2 (options_with (Some evidence) (Some "application/eat+cwt") None None None)
             None None 0 0) None None) asked).1 = Panic.
Proof.
  apply (@unconfigured_verifier_panics calm lib _ (mkRAConfig "" "" "" false 0 "" "" false "")
    evidence_body _ None (byte_of_Z 6) []); by vm_compute.
Defined.

Lemma empty_list_is_null_witness :
  (run (@getManifests calm lib (get "/SUITManifestService/ListManifests")) asked).1
    = Ok (writeResponse (mkResponseSpec StatusOK (Some (bs [0xF6]%Z)) "application/cbor")).
Proof. by apply (@empty_list_is_null calm lib calm_reliable). Defined.
