(* ===== verification/Lifecycle.v ===== *)
(** The life of the server process: [main] of [cmd/attestam/main.go] from [server.New] on,
    the goroutine that runs [ListenAndServe], the connections of [net/http], and the
    requests being served, as one step relation.  What stands behind an exit status. *)

From S2P Require Import Prelude GoText Model Db Evolve Wire Lib Stub Verifiers Tam Server Startup.
From S2P Require Import Requests Scenario Service.

(** ** server.go *)

(** A non-nil error of [net/http]; [ErrServerClosed] is the one that [Serve] returns once
    [Shutdown] was called. *)
Inductive http_error := ErrServerClosed | HttpError (what : string).

(** [Server.ListenAndServe], given what [s.http.ListenAndServe] returned.  [None] is nil. *)
Definition Server_ListenAndServe (err : http_error) : option http_error :=
  match err with ErrServerClosed => None | _ => Some err end.

(** [Server.Shutdown]. *)
Definition Server_Shutdown (err : option http_error) : option http_error := err.

(** ** main.go *)

(** Where [main] is: at the [select], before the call of [Shutdown], in it, or at its end
    with the exit status of the process. *)
Inductive main_point := Selecting | Stopping | ShuttingDown | Exited (status : Z).

(** The case [err := <-errCh]. *)
Definition main_errCh (err : option http_error) : main_point :=
  match err with Some _ => Exited 1 | None => Exited 0 end.

(** After [srv.Shutdown(shutdownCtx)]. *)
Definition main_shutdown (err : option http_error) : main_point :=
  match Server_Shutdown err with Some _ => Exited 1 | None => Exited 0 end.

(** The goroutine [errCh <- srv.ListenAndServe()]. *)
Inductive goroutine := Starting | Listening | Returned (err : option http_error) | Sent.

(** A connection: no request yet, the handler of the [i]th request running, or between
    two requests. *)
Inductive conn := NewConn | Active (i : nat) | Idle.

Section lifecycle.
Context `{Platform} `{Lib}.

(** The process: where [main] is, whether [ctx] is done, the buffer of [errCh], the
    goroutine, [inShutdown] of the HTTP server, its connections, the requests begun, and
    the world they share. *)
Record Process := mkProcess {
  p_main : main_point;
  p_ctx_done : bool;
  p_errCh : option (option http_error);
  p_goroutine : goroutine;
  p_inShutdown : bool;
  p_conns : list conn;
  p_requests : list (M Response);
  p_world : World;
}.

Definition launched (w : World) : Process := mkProcess Selecting false None Starting false [] [] w.

Definition alive (m : main_point) : Prop := ∀ status, m ≠ Exited status.

(** A step of any part of the process; none is taken once [main] has ended. *)
Inductive step (s : Server) : Process → Process → Prop :=
  (** an interrupt or SIGTERM *)
  | step_signal m c e g d cs ps w : alive m →
      step s (mkProcess m c e g d cs ps w) (mkProcess m true e g d cs ps w)
  (** [net.Listen] succeeds *)
  | step_listen m c e cs ps w : alive m →
      step s (mkProcess m c e Starting false cs ps w) (mkProcess m c e Listening false cs ps w)
  (** listening or accepting fails, or the server is shutting down *)
  | step_return m c e g d cs ps w err : alive m → g = Starting ∨ g = Listening →
      (err = ErrServerClosed → d = true) →
      step s (mkProcess m c e g d cs ps w)
             (mkProcess m c e (Returned (Server_ListenAndServe err)) d cs ps w)
  | step_send m c err d cs ps w : alive m →
      step s (mkProcess m c None (Returned err) d cs ps w) (mkProcess m c (Some err) Sent d cs ps w)
  | step_accept m c e d cs ps w : alive m →
      step s (mkProcess m c e Listening d cs ps w) (mkProcess m c e Listening d (cs ++ [NewConn]) ps w)
  (** a request arrives on a connection *)
  | step_request m c e g d cs1 k cs2 ps w r : alive m → k = NewConn ∨ k = Idle →
      step s (mkProcess m c e g d (cs1 ++ k :: cs2) ps w)
             (mkProcess m c e g d (cs1 ++ Active (length ps) :: cs2) (ps ++ [serve s r]) w)
  (** one step of one handler *)
  | step_handler m c e g d cs ps w ps' w' : alive m → sched (ps, w) (ps', w') →
      step s (mkProcess m c e g d cs ps w) (mkProcess m c e g d cs ps' w')
  (** a handler has ended: its connection waits for the next request, or is closed *)
  | step_answered m c e g d cs1 i k cs2 ps w r : alive m → ps !! i = Some (Done r) → k = [Idle] ∨ k = [] →
      step s (mkProcess m c e g d (cs1 ++ Active i :: cs2) ps w)
             (mkProcess m c e g d (cs1 ++ k ++ cs2) ps w)
  (** the client, a timeout or [Shutdown] closes a connection without a request *)
  | step_close m c e g d cs1 k cs2 ps w : alive m → k = NewConn ∨ k = Idle →
      step s (mkProcess m c e g d (cs1 ++ k :: cs2) ps w) (mkProcess m c e g d (cs1 ++ cs2) ps w)
  (** the two cases of the [select] *)
  | step_ctx e g d cs ps w :
      step s (mkProcess Selecting true e g d cs ps w) (mkProcess Stopping true e g d cs ps w)
  | step_errCh c err g d cs ps w :
      step s (mkProcess Selecting c (Some err) g d cs ps w) (mkProcess (main_errCh err) c None g d cs ps w)
  (** [Shutdown] closes the listener; it returns once [Serve] has and no connection is
      left, with an error if closing the listener gave one, or once five seconds are over *)
  | step_shutdown c e g d cs ps w :
      step s (mkProcess Stopping c e g d cs ps w) (mkProcess ShuttingDown c e g true cs ps w)
  | step_drained c e g d ps w err : g ≠ Listening →
      step s (mkProcess ShuttingDown c e g d [] ps w) (mkProcess (main_shutdown err) c e g d [] ps w)
  | step_deadline c e g d cs ps w :
      step s (mkProcess ShuttingDown c e g d cs ps w)
             (mkProcess (main_shutdown (Some (HttpError "context deadline exceeded"))) c e g d cs ps w).
End lifecycle.

(** ** What holds of every reachable process *)

Section invariant.
Context `{Platform} `{Lib} (s : Server) (w0 : World).

(** The requests have run interleaved, each from its beginning. *)
Definition interleaved (p : Process) : Prop :=
  ∃ rs, rtc sched (map (serve s) rs, w0) (p_requests p, p_world p).

(** A handler that has not ended has its connection. *)
Definition attended (p : Process) : Prop :=
  ∀ i q, p_requests p !! i = Some q → (∀ r, q ≠ Done r) → Active i ∈ p_conns p.

(** Nil is only sent after [Shutdown], and [Shutdown] is only called after a signal. *)
Record orderly (p : Process) : Prop := {
  o_selecting : p_main p = Selecting → p_inShutdown p = false;
  o_signalled : p_main p ≠ Selecting → p_main p ≠ Exited 1 → p_ctx_done p = true;
  o_shutting : p_main p = ShuttingDown → p_inShutdown p = true;
  o_returned : p_goroutine p = Returned None → p_inShutdown p = true;
  o_sent : p_errCh p = Some None → p_inShutdown p = true;
  o_drained : p_main p = Exited 0 → p_conns p = [];
  o_status : ∀ n, p_main p = Exited n → n = 0%Z ∨ n = 1%Z;
}.

Lemma sched_app {A} (ps qs ps' : list (M A)) w w' :
  sched (ps, w) (ps', w') → sched (ps ++ qs, w) (ps' ++ qs, w').
Proof. inversion 1; subst. rewrite <- !app_assoc. simpl. constructor. Qed.

Lemma rtc_sched_app {A} (ps qs ps' : list (M A)) w w' :
  rtc sched (ps, w) (ps', w') → rtc sched (ps ++ qs, w) (ps' ++ qs, w').
Proof.
  intros Hs. remember (ps, w) as x eqn:Hx. remember (ps', w') as y eqn:Hy. revert ps w Hx.
  induction Hs as [|x [ps1 w1] y Hstep _ IH]; intros ps w ->; simplify_eq; [done|].
  eapply rtc_l; [by apply sched_app|by apply IH].
Qed.

Lemma step_interleaved p p' : step s p p' → interleaved p → interleaved p'.
Proof.
  intros Hs [rs Hr]. destruct Hs; try (by exists rs); simpl in *.
  - exists (rs ++ [r]). rewrite map_app. by apply rtc_sched_app.
  - exists rs. by eapply rtc_r.
Qed.

Lemma sched_unfinished {A} (ps ps' : list (M A)) w w' i q :
  sched (ps, w) (ps', w') → ps' !! i = Some q → (∀ r, q ≠ Done r) →
  ∃ q0, ps !! i = Some q0 ∧ ∀ r, q0 ≠ Done r.
Proof.
  inversion 1 as [ps1 upd k ps2 w1]; subst. intros Hi Hq.
  destruct (decide (i = length ps1)) as [->|Hne].
  - exists (Step upd k). split; [by apply list_lookup_middle|done].
  - exists q. split; [|done]. rewrite <- Hi. destruct (decide (i < length ps1)).
    + by rewrite !lookup_app_l by done.
    + rewrite !lookup_app_r by lia. destruct (i - length ps1) eqn:Hk; [lia|done].
Qed.

Lemma step_attended p p' : step s p p' → attended p → attended p'.
Proof.
  unfold attended. intros Hs Ha. destruct Hs; simpl in *; try exact Ha.
  - intros i q Hi Hq. apply elem_of_app. left. by eapply Ha.
  - intros i q Hi Hq. destruct (decide (i < length ps)) as [Hl|Hl].
    + rewrite lookup_app_l in Hi by done. specialize (Ha i q Hi Hq). destruct H2 as [-> | ->]; set_solver.
    + rewrite lookup_app_r in Hi by lia. apply list_lookup_singleton_Some in Hi as [? _].
      replace i with (length ps) by lia. set_solver.
  - intros i q Hi Hq. destruct (sched_unfinished _ _ _ _ _ _ H2 Hi Hq) as (q0 & Hi0 & Hq0). by eapply Ha.
  - intros j q Hj Hq. specialize (Ha j q Hj Hq).
    assert (j ≠ i) by (intros ->; rewrite Hj in H2; by eapply Hq; simplify_eq).
    destruct H3 as [-> | ->]; set_solver.
  - intros i q Hi Hq. specialize (Ha i q Hi Hq). destruct H2 as [-> | ->]; set_solver.
Qed.

(** A connection is served by a request there is. *)
Definition numbered (p : Process) : Prop := ∀ i, Active i ∈ p_conns p → i < length (p_requests p).

Lemma step_numbered p p' : step s p p' → numbered p → numbered p'.
Proof.
  unfold numbered. intros Hs Hn. destruct Hs; simpl in *; try exact Hn; intros j Hj.
  - apply Hn. set_solver.
  - rewrite length_app. simpl. apply elem_of_app in Hj as [Hj|[Hj|Hj]%elem_of_cons]; [|simplify_eq; lia|];
      (enough (j < length ps) by lia; apply Hn; set_solver).
  - inversion H2; subst. rewrite length_app in *. simpl in *. by apply Hn.
  - apply Hn. destruct H3 as [-> | ->]; set_solver.
  - apply Hn. set_solver.
Qed.

Lemma step_orderly p p' : step s p p' → orderly p → orderly p'.
Proof.
  intros Hs [Hsel Hsig Hshut Hret Hsent Hdr Hst].
  destruct Hs; simpl in *; constructor; simpl in *; try exact Hsel; try exact Hsig; try exact Hshut; try exact Hret;
    try exact Hsent; try exact Hdr; try exact Hst; try done; try (intros ->);
    try (match goal with Ha : alive (Exited _) |- _ => by destruct (Ha _ eq_refl) end).
  (* the goroutine returns, and sends *)
  - destruct err; [by intros _; apply H3|done].
  - intros [= ->]. by apply Hret.
  (* the [select] takes the error, which is not nil *)
  - by destruct err.
  - destruct err; [done|]. by rewrite Hsel in Hsent by done; specialize (Hsent eq_refl).
  - by destruct err.
  - destruct err; [done|]. by rewrite Hsel in Hsent by done; specialize (Hsent eq_refl).
  - destruct err; intros n [= <-]; auto.
  (* [Shutdown] begins and ends *)
  - intros _ _. by apply Hsig.
  - by destruct err.
  - intros _ _. by apply Hsig.
  - by destruct err.
  - destruct err; intros n [= <-]; auto.
  - intros n [= <-]. auto.
Qed.

Lemma reachable p : rtc (step s) (launched w0) p → interleaved p ∧ attended p ∧ numbered p ∧ orderly p.
Proof.
  intros Hr. apply (rtc_ind_r (R:=step s) (λ p, interleaved p ∧ attended p ∧ numbered p ∧ orderly p) (launched w0));
    [| |exact Hr].
  - split_and!; [by exists []|done|intros i Hi; by apply not_elem_of_nil in Hi|by constructor].
  - intros p1 p2 _ Hs (? & ? & ? & ?).
    split_and!; [by eapply step_interleaved|by eapply step_attended|by eapply step_numbered|by eapply step_orderly].
Qed.
End invariant.

(** ** A clean end is always possible *)

Section draining.
Context `{Platform} `{Lib} (s : Server).

Lemma sched_steps m c e g d cs ps w ps' w' :
  alive m → rtc sched (ps, w) (ps', w') →
  rtc (step s) (mkProcess m c e g d cs ps w) (mkProcess m c e g d cs ps' w').
Proof.
  intros Hm Hs. remember (ps, w) as x eqn:Hx. remember (ps', w') as y eqn:Hy. revert ps w Hx.
  induction Hs as [|x [ps1 w1] y Hstep _ IH]; intros ps w ->; simplify_eq; [done|].
  eapply rtc_l; [by apply step_handler|by apply IH].
Qed.

(** Every handler ends, and its connection can be closed. *)
Lemma drain m c e g d cs ps w :
  alive m → (∀ i, Active i ∈ cs → i < length ps) →
  ∃ ps' w', rtc (step s) (mkProcess m c e g d cs ps w) (mkProcess m c e g d [] ps' w').
Proof.
  intros Hm. revert ps w. induction cs as [|k cs IH]; intros ps w Hn; [by exists ps, w|].
  assert (∃ ps1 w1, length ps1 = length ps ∧
    rtc (step s) (mkProcess m c e g d (k :: cs) ps w) (mkProcess m c e g d cs ps1 w1)) as (ps1 & w1 & Hl & H1).
  { destruct k as [|i|].
    - exists ps, w. split; [done|]. apply rtc_once, (step_close s m c e g d [] NewConn cs); auto.
    - destruct (lookup_lt_is_Some_2 ps i) as [q Hq]; [apply Hn; left|].
      pose proof (sched_run (take i ps) q (drop (S i) ps) w) as Hr. rewrite take_drop_middle in Hr by done.
      eexists _, _. split; [|eapply rtc_r; [by apply sched_steps|
        apply (step_answered s m c e g d [] i [] cs _ _ (run q w).1); [done| |by right]]].
      + rewrite length_app, length_take, length_cons, length_drop. apply lookup_lt_Some in Hq. lia.
      + apply list_lookup_middle. rewrite length_take. apply lookup_lt_Some in Hq. lia.
    - exists ps, w. split; [done|]. apply rtc_once, (step_close s m c e g d [] Idle cs); auto. }
  destruct (IH ps1 w1) as (ps' & w' & H2); [intros i Hi; rewrite Hl; apply Hn; by right|].
  exists ps', w'. by etrans.
Qed.

Lemma shutdown_ends e g cs ps w :
  (∀ i, Active i ∈ cs → i < length ps) →
  ∃ p, rtc (step s) (mkProcess ShuttingDown true e g true cs ps w) p ∧ p_main p = Exited 0.
Proof.
  intros Hn. destruct (drain ShuttingDown true e g true cs ps w) as (ps' & w' & Hd); [done|done|].
  assert (∃ g', g' ≠ Listening ∧ rtc (step s) (mkProcess ShuttingDown true e g true [] ps' w')
    (mkProcess ShuttingDown true e g' true [] ps' w')) as (g' & Hg & Hr).
  { destruct g as [| |o|]; [by exists Starting|exists (Returned None)|by exists (Returned o)|by exists Sent].
    split; [done|]. apply rtc_once, (step_return s _ _ _ _ _ _ _ _ ErrServerClosed); auto; done. }
  eexists. split; [etrans; [exact Hd|]; eapply rtc_r; [exact Hr|by apply (step_drained _ _ _ _ _ _ _ None)]|done].
Qed.
End draining.

(** ** Property *)

Section properties.
Context `{Platform} `{Lib}.

(** C25: a server that ends with status 0 was told to by a signal, and has answered
    everybody: each request it began has been handled to its end.  At any moment, what it has done to
    the database is what its requests do interleaved step by step, in whatever order they
    arrived and on whatever connections, so the theorems about interleaved requests are
    theorems about the process; and a database that was well formed still is.  Once a
    signal has arrived and [main] has not ended, a clean end remains possible. *)
Theorem clean_exit_answers_everyone (s : Server) w p :
  wf (w_db w) → rtc (step s) (launched w) p →
  ((∃ rs, rtc sched (map (serve s) rs, w) (p_requests p, p_world p)) ∧
   wf (w_db (p_world p)) ∧ evolves (w_db w) (w_db (p_world p))) ∧
  (p_main p = Exited 0 → p_ctx_done p = true ∧ ∀ q, q ∈ p_requests p → ∃ r, q = Done r) ∧
  (∀ status, p_main p = Exited status → status = 0%Z ∨ status = 1%Z) ∧
  (p_ctx_done p = true → alive (p_main p) → ∃ p', rtc (step s) p p' ∧ p_main p' = Exited 0).
Proof.
  intros Hwf Hr. destruct (reachable s w p Hr) as ([rs Hi] & Ha & Hn & [Hsel Hsig Hshut _ _ Hdr Hst]).
  pose proof (requests_sched (handler_tam s) rs w (p_world p) (p_requests p) Hwf Hi) as He.
  split_and!; [by exists rs|by eapply evolves_wf|done| |done|].
  - intros H0'. split; [apply Hsig; by rewrite H0'|]. intros q [i Hq]%list_elem_of_lookup.
    destruct q as [r|upd k]; [by eexists|]. specialize (Ha i _ Hq). rewrite (Hdr H0') in Ha.
    by destruct (not_elem_of_nil (Active i)); apply Ha.
  - destruct p as [m c e g d cs ps w1]. simpl in *. intros -> Hal.
    assert (∀ d0, ∃ p', rtc (step s) (mkProcess Stopping true e g d0 cs ps w1) p' ∧ p_main p' = Exited 0) as Hstop.
    { intros d0. destruct (shutdown_ends s e g cs ps w1 Hn) as (p' & Hp & Hm). exists p'.
      split; [|done]. eapply rtc_l; [apply step_shutdown|exact Hp]. }
    destruct m as [| | |n]; [|by apply Hstop| |by destruct (Hal n)].
    + destruct (Hstop d) as (p' & Hp & Hm). exists p'. split; [|done]. eapply rtc_l; [apply step_ctx|exact Hp].
    + rewrite Hshut by done. by apply shutdown_ends.
Qed.
End properties.

(** ** Witness *)

Definition demo_server : Server :=
  mkServer (mkTAMConfig "localhost:8080" "tam_state.db" true "" None "" "" false 0 "" "" false "") tam.

Definition session_request : Request :=
  mkRequest "POST" "/tam" "application/teep+cbor" "application/teep+cbor" (mkBody [] false false).

(** A signal comes while the first request, for a session, is being handled. *)
Definition interrupted : Process :=
  mkProcess Selecting true None Listening false [Active 0] [@serve calm lib demo_server session_request] initial_world.

Lemma interrupted_reachable : rtc (@step calm lib demo_server) (launched initial_world) interrupted.
Proof.
  eapply rtc_l; [by apply step_listen|]. eapply rtc_l; [by apply step_accept|].
  eapply rtc_l; [apply (step_request demo_server _ _ _ _ _ [] NewConn [] _ _ session_request); [done|by left]|].
  apply rtc_once. by apply step_signal.
Qed.

Lemma clean_exit_answers_everyone_witness :
  ∃ p, rtc (@step calm lib demo_server) interrupted p ∧ p_main p = Exited 0.
Proof.
  destruct (@clean_exit_answers_everyone calm lib demo_server initial_world interrupted) as (_ & _ & _ & Hend).
  - exact wf_empty.
  - exact interrupted_reachable.
  - apply Hend; [reflexivity|]. intros status. discriminate.
Defined.
