(* ===== verification/Meanwhile.v ===== *)
(** What other requests leave alone.  While an agent and the TAM talk, the server handles
    other requests, interleaved step by step.  None of them touches an agent's row, and
    none uses up a token it does not carry. *)

From S2P Require Import Prelude GoText Model Db Evolve Frame OneTime AgentRepo ManifestRepo SentRepo StatusRepo.
From S2P Require Import Wire Lib Suit Teep Rats Qvl Collateral Verifiers Tam Server TamFrames Requests Service.

(** ** The relation *)

(** Rows of agents stay as they are, and so does the row of the token [v]. *)
Definition undisturbed (v : bytes) (d d' : DB) : Prop :=
  (∀ a, a ∈ rows (agents d) → a ∈ rows (agents d')) ∧
  ∀ r, r ∈ rows (tokens d) → Token_Token r = v → r ∈ rows (tokens d').

#[export] Instance undisturbed_preorder v : PreOrder (undisturbed v).
Proof. split; [by intros d|]. intros d1 d2 d3 [H1 H2] [H3 H4]. split; auto. Qed.

Ltac undisturbed_solve :=
  intros ???; unfold insert_row; try case_match; simpl;
  split; intros; simpl; auto; apply elem_of_app; by left.

#[export] Hint Extern 1 (Inserts _ (undisturbed _)) => solve [undisturbed_solve] : typeclass_instances.
#[export] Hint Extern 1 (Updates Challenge (undisturbed _)) => solve [undisturbed_solve] : typeclass_instances.
#[export] Hint Extern 1 (Updates Holding (undisturbed _)) => solve [undisturbed_solve] : typeclass_instances.

(** Using up another token. *)
Lemma undisturbed_consume v v' d :
  v' ≠ v →
  undisturbed v d (update_rows (λ r : Token, eqb_bytes (value r) v' && negb (consumed r)) consume d).
Proof.
  intros Hne. split; [done|]. intros r Hr Hv. simpl. apply list_elem_of_In, in_map_iff. exists r.
  split; [|by apply list_elem_of_In]. destruct (eqb_bytes _ _) eqn:He; [|done].
  apply eqb_bytes_eq in He. simpl in He. congruence.
Qed.

(** ** The calls *)

(** [results P p]: whatever happens meanwhile, what [p] returns has the property [P]. *)
Fixpoint results {A} (P : A → Prop) (p : M A) : Prop :=
  match p with
  | Done (Ok a) => P a
  | Done _ => True
  | Step _ k => ∀ w, results P (k w)
  end.

Lemma results_ret {A} (P : A → Prop) (a : A) : P a → results P (mret a).
Proof. done. Qed.

Lemma results_bind {A B} (P : A → Prop) (P' : B → Prop) (p : M A) (f : A → M B) :
  results P p → (∀ a, P a → results P' (f a)) → results P' (p ≫= f).
Proof.
  intros Hp Hf. unfold mbind, prog_mbind. induction p as [[a|e| |]|upd k IH]; simpl; try done; [by apply Hf|].
  intros w. apply IH, Hp.
Qed.

Lemma moves_bind_results G {A B} (P : A → Prop) (p : M A) (f : A → M B) :
  moves G p → results P p → (∀ a, P a → moves G (f a)) → moves G (p ≫= f).
Proof.
  intros Hp HP Hf. unfold mbind, prog_mbind. induction p as [[a|e| |]|upd k IH]; simpl; try done; [by apply Hf|].
  intros w. destruct (Hp w). split; [done|]. apply IH; [done|apply HP].
Qed.

Lemma results_True {A} (P : A → Prop) (p : M A) : (∀ a, P a) → results P p.
Proof. intros HP. induction p as [[a|e| |]|upd k IH]; simpl; auto. Qed.

Section calls.
Context `{Platform} `{Lib}.

(** The message a body carries. *)
Definition body_message (body : bytes) (m : TEEPMessage) : Prop :=
  ∃ sign1, Sign1_UnmarshalCBOR body = Some sign1 ∧
    Unmarshal_TEEPMessage (slice (Sign1_Payload sign1)) = Ok m.

Lemma tryAuthenticate_results body :
  results (λ r, ∀ m, r.1.1 = Some m → body_message body m) (tryAuthenticateTeepMessage body).
Proof.
  unfold tryAuthenticateTeepMessage. destruct (Sign1_UnmarshalCBOR body) as [sign1|] eqn:Hs; [|done].
  apply (results_bind (λ r, ∀ m, r.1.1 = Some m → body_message body m)).
  2:{ intros [[m kid] [e|]] Hm; exact Hm. }
  unfold checkSignatureWithKID.
  apply (results_bind (λ r, ∀ m, r = inl m → body_message body m)).
  { destruct (Unmarshal_TEEPMessage _) as [msg|e| |] eqn:Hm; simpl; try done.
    intros m [= <-]. by exists sign1. }
  intros [msg|e] Hm; [|done]. specialize (Hm msg eq_refl).
  assert (∀ (k : option bytes) (e : option error) m, (Some msg, k, e).1.1 = Some m → body_message body m) as Hmsg
    by by intros k e m [= <-].
  destruct (getKid _) as [kid|]; [|by apply results_ret, Hmsg].
  apply (results_bind (λ _, True)); [by apply results_True|]. intros [key|e] _; [|apply results_ret, Hmsg].
  repeat (case_match; try apply results_ret, Hmsg).
Qed.

Section carries.
Variable v : bytes.

Lemma MarkConsumed_undisturbed v' : v' ≠ v → moves (undisturbed v) (TokenRepository_MarkConsumed v').
Proof.
  intros Hne. unfold TokenRepository_MarkConsumed, OneTime_MarkConsumed, update.
  apply moves_bind; [|intros; moves_auto]. apply moves_map_err, moves_sql; [apply _|].
  intros d. by apply undisturbed_consume.
Qed.

Lemma searchToken_undisturbed o : o ≠ Some v → moves (undisturbed v) (searchSentMessageWithToken o).
Proof.
  intros Ho. unfold searchSentMessageWithToken. destruct o as [v'|]; [|done].
  apply moves_bind; [apply moves_try, MarkConsumed_undisturbed; congruence|].
  unfold SentQueryRequestMessageRepository_FindByToken, SentUpdateMessageRepository_FindWithManifestsByToken.
  moves_auto.
Qed.

Lemma ResolveTEEPMessage_undisturbed t body :
  (∀ m, body_message body m → Opt_Token (TEEP_Options m) ≠ Some v) →
  moves (undisturbed v) (ResolveTEEPMessage t body).
Proof.
  intros Hc. unfold ResolveTEEPMessage. destruct body as [|b body].
  { pose proof (generateQueryRequest_moves (undisturbed v)). moves_auto. }
  eapply moves_bind_results; [apply moves_of_reads; [apply _|apply tryAuthenticate_reads]|apply tryAuthenticate_results|].
  intros [[[m|] kid] err] Hm; [|moves_auto]. destruct (bool_decide _); [|moves_auto].
  apply moves_bind; [by apply searchToken_undisturbed, Hc, Hm|]. intros sent.
  pose proof (handleQueryResponse_moves (undisturbed v)).
  pose proof (λ m k s, handleReports_moves (undisturbed v) _ m k s (success_moves (undisturbed v))).
  pose proof (λ m k s, handleReports_moves (undisturbed v) _ m k s (failure_moves (undisturbed v))).
  moves_auto.
Qed.

(** The request is a TEEP message that carries the token. *)
Definition carries (r : Request) : Prop :=
  Req_Path r = "/tam" ∧ ∃ m, body_message (Body_Bytes (Req_Body r)) m ∧ Opt_Token (TEEP_Options m) = Some v.

Lemma ServeHTTP_undisturbed t r : ¬ carries r → moves (undisturbed v) (ServeHTTP t r).
Proof.
  intros Hc. unfold ServeHTTP. destruct (String.eqb_spec (Req_Path r) "/tam") as [Hp|Hp].
  - assert (moves (undisturbed v) (ResolveTEEPMessage t (Body_Bytes (Req_Body r)))) as Hr.
    { apply ResolveTEEPMessage_undisturbed. intros m Hm Ht. destruct Hc. split; [done|]. by exists m. }
    unfold tamOverHttp, ReadAll. repeat case_match; simplify_eq; moves_auto.
  - pose proof (registerManifest_moves (undisturbed v)). unfold_handlers. moves_auto.
Qed.
End carries.

(** *** Other requests, between two messages of a conversation *)

(** The server has handled other requests, none of which carries the token. *)
Definition meanwhile (t : TAM) (v : bytes) (w w' : World) : Prop :=
  ∃ rs ps, Forall (λ r, ¬ carries v r) rs ∧ rtc sched (map (ServeHTTP t) rs, w) (ps, w').

Lemma meanwhile_nothing t v w : meanwhile t v w w.
Proof. exists [], []. split; [constructor|]. apply rtc_refl. Qed.

Lemma meanwhile_undisturbed t v w w' : meanwhile t v w w' → undisturbed v (w_db w) (w_db w').
Proof.
  intros (rs & ps & Hrs & Hs). apply (moves_sched _ _ _ Hs). cbn [fst]. clear Hs.
  induction Hrs; simpl; constructor; [by apply ServeHTTP_undisturbed|done].
Qed.

Lemma meanwhile_evolves t v w w' : wf (w_db w) → meanwhile t v w w' → evolves (w_db w) (w_db w').
Proof. intros Hwf (rs & ps & _ & Hs). by eapply requests_sched. Qed.
End calls.
