(* ===== verification/ManifestFlow.v ===== *)
(** Registering manifests: what [Envelope.Verify] establishes, which manifests get into
    the repository, and in which order. *)

From S2P Require Import Prelude Model Db Evolve Frame OneTime AgentRepo ManifestRepo SentRepo.
From S2P Require Import StatusRepo Wire Lib Stub Suit Teep Rats Qvl Collateral Verifiers Tam Server Requests TamFrames.
From S2P Require Import Scenario.

(** ** Verified envelopes *)

Section verify.
Context `{Lib}.

(** The envelope's digest is the SHA-256 sum of its manifest, and the first (and only)
    authentication block is a detached signature of that digest under [key]. *)
Definition verified (e : Envelope) (key : cose_key) : Prop :=
  ∃ digest pub v sign1,
    let wrapper := Envelope_AuthenticationWrapper e in
    cbor_digest (slice (DigestBstr wrapper)) = Some digest ∧
    DigestAlg digest = AlgorithmSHA256 ∧ slice (DigestBytes digest) = sha256 (ManifestBstr e) ∧
    key_PublicKey key = Some pub ∧ NewVerifier (key_Algorithm key) pub = Some v ∧
    Unmarshal_with (Nested_UnmarshalCBOR Unmarshal_Sign1)
      (authenticationBlockBstr (AuthenticationBlock0 wrapper)) = Ok sign1 ∧
    Sign1_Payload sign1 = None ∧ Sign1_Verify v (with_payload (DigestBstr wrapper) sign1) = true.

Lemma Envelope_Verify_Ok e key : Envelope_Verify e key = Ok tt ↔ verified e key.
Proof.
  unfold Envelope_Verify, verified. split.
  - intros Hv. apply res_bind_Ok in Hv as (d & Hd & Hv). apply res_of_option_Ok in Hd.
    destruct (Z.eqb_spec (DigestAlg d) AlgorithmSHA256) as [Halg|]; [|done]. cbn [negb] in Hv.
    destruct (eqb_bytes _ _) eqn:Hb; [|done]. cbn [negb] in Hv. apply eqb_bytes_eq in Hb.
    apply res_bind_Ok in Hv as (pub & Hp & Hv). apply res_of_option_Ok in Hp.
    apply res_bind_Ok in Hv as (v & Hn & Hv). apply res_of_option_Ok in Hn.
    cbn [verify_blocks] in Hv. apply res_bind_Ok in Hv as (ok & Hok & Hv).
    unfold verify_block in Hok. apply res_bind_Ok in Hok as (sign1 & Hs & Hok).
    destruct ok; [|done]. destruct (Sign1_Payload sign1) eqn:Hpl; [done|].
    exists d, pub, v, sign1. split_and!; try done; [|congruence].
    by destruct (Unmarshal_with _ _); simplify_eq/=.
  - intros (d & pub & v & sign1 & Hd & Halg & Hb & Hp & Hn & Hs & Hpl & Hok).
    rewrite Hd. cbn [res_of_option mbind res_bind]. rewrite Halg, Z.eqb_refl. cbn [negb].
    rewrite Hb. unfold eqb_bytes at 1. rewrite bool_decide_true by done. cbn [negb].
    rewrite Hp. cbn [res_of_option mbind res_bind]. rewrite Hn. cbn [res_of_option mbind res_bind verify_blocks].
    unfold verify_block. rewrite Hs. cbn [res_map_err mbind res_bind]. rewrite Hpl. cbn [mbind res_bind].
    by rewrite Hok.
Qed.
End verify.

(** ** The order of the repository *)

(** Of two manifests of the same component, the later one has the larger sequence
    number, and the same signing key. *)
Definition ordered (d : DB) : Prop :=
  ∀ i j mi mj, rows (suit_manifests d) !! i = Some mi → rows (suit_manifests d) !! j = Some mj → i < j →
    SuitManifest_TrustedComponentID mi = SuitManifest_TrustedComponentID mj →
    (SuitManifest_SequenceNumber mi < SuitManifest_SequenceNumber mj)%Z ∧
    SuitManifest_SigningKeyID mi = SuitManifest_SigningKeyID mj.

Definition of_component (tc : bytes) (d : DB) (m : SuitManifest) : Prop :=
  m ∈ rows (suit_manifests d) ∧ SuitManifest_TrustedComponentID m = tc.

Lemma sequence_desc_total x y : sequence_desc x y = true ∨ sequence_desc y x = true.
Proof. unfold sequence_desc. rewrite !Z.leb_le. lia. Qed.

Lemma sequence_desc_trans x y z :
  sequence_desc x y = true → sequence_desc y z = true → sequence_desc x z = true.
Proof. unfold sequence_desc. rewrite !Z.leb_le. lia. Qed.

(** A response that is not the one asked about. *)
Ltac refusal := intros ? ?; simplify_eq/=; done.

Section flow.
Context `{Platform} `{Lib}.
Implicit Types w : World.

(** What [FindLatestByTrustedComponentID] returns. *)
Definition latest_of (tc : bytes) (d : DB) (m : SuitManifest) : Prop :=
  of_component tc d m ∧
  ∀ m', of_component tc d m' → (SuitManifest_SequenceNumber m' ≤ SuitManifest_SequenceNumber m)%Z.

Lemma FindLatest_Ok tc w o w' :
  run (SuitManifestRepository_FindLatestByTrustedComponentID tc) w = (Ok o, w') →
  w_db w' = w_db w ∧
  match o with
  | Some m => ∃ r, latest_of tc (w_db w) r ∧ m = without_digest r
  | None => ∀ m, ¬ of_component tc (w_db w) m
  end.
Proof.
  unfold SuitManifestRepository_FindLatestByTrustedComponentID, nil_if_no_rows. intros Hr.
  run_inv Hr. run_inv Hrun. apply run_try_Ok in Hrun0. unfold select_first in Hrun0.
  destruct a0 as [r|e]; rewrite run_sql in Hrun0; destruct (db_fault _); simpl in Hrun0.
  - done.
  - injection Hrun0 as Hh <-. apply res_of_option_Ok in Hh.
    simpl in Hk0. simplify_eq. simpl in Hk. simplify_eq. split; [done|].
    apply head_sql_order in Hh as [Hin Hmax]; [|apply sequence_desc_total|apply sequence_desc_trans].
    apply list_elem_of_filter in Hin as [Hc%eqb_bytes_eq Hin]. exists r. split; [|done]. split; [done|].
    intros m' [Hin' Hc']. apply Z.leb_le. apply Hmax. apply list_elem_of_filter.
    split; [by apply eqb_bytes_eq|done].
  - by simplify_eq.
  - destruct (head _) eqn:Hh; simpl in Hrun0; [done|]. injection Hrun0 as <- <-.
    rewrite bool_decide_true in Hk0 by done. simpl in Hk0. simplify_eq. simpl in Hk. simplify_eq.
    split; [done|]. intros m [Hin Hc]. apply head_sql_order_None in Hh.
    apply (not_elem_of_nil m). rewrite <- Hh. apply list_elem_of_filter.
    split; [by apply eqb_bytes_eq|done].
Qed.
(** The signing key a key id stands for. *)
Definition signer_of (kid : bytes) (d : DB) : option ManifestSigningKey :=
  head (matching (λ k : ManifestSigningKey, eqb_bytes (ManifestSigningKey_KID k) kid) d).

Lemma signer_of_in kid d k :
  signer_of kid d = Some k → k ∈ rows (manifest_signing_keys d) ∧ ManifestSigningKey_KID k = kid.
Proof.
  intros Hh. apply head_Some_elem_of, list_elem_of_filter in Hh as [Hk%eqb_bytes_eq Hin]. done.
Qed.

(** What a successful [SetEnvelope] inserted, and into which repository. *)
Definition registered (env digest kid tc : bytes) (n : Z) (d d' : DB) : Prop :=
  ∃ k, signer_of kid d = Some k ∧
    ((∀ m, ¬ of_component tc d m) ∨
     ∃ m, latest_of tc d m ∧ (SuitManifest_SequenceNumber m < n)%Z ∧
          SuitManifest_SigningKeyID m = ManifestSigningKey_ID k) ∧
    (n < max_int64)%Z ∧
    d' = rel_set (mkTable (rows (suit_manifests d) ++
           [mkSuitManifest (seq (suit_manifests d) + 1) env digest (ManifestSigningKey_ID k) tc n zero_time])
         (seq (suit_manifests d) + 1)) d.

Lemma insert_manifest_run env dg k tc n w r w' :
  run (match dg with
       | None => throw ErrDriver
       | Some digest =>
           _ ← SuitManifestRepository_Create
                 (mkSuitManifest 0 env digest k tc n zero_time);
           mret tt
       end : M unit) w = (r, w') →
  (r ≠ Ok tt ∧ w_db w' = w_db w) ∨
  r = Ok tt ∧ ∃ digest, dg = Some digest ∧ (n < max_int64)%Z ∧
    w_db w' = rel_set (mkTable (rows (suit_manifests (w_db w)) ++
           [mkSuitManifest (seq (suit_manifests (w_db w)) + 1) env digest k tc n zero_time])
         (seq (suit_manifests (w_db w)) + 1)) (w_db w).
Proof.
  destruct dg as [digest|]; [|intros Hr; simpl in Hr; simplify_eq; by left].
  unfold SuitManifestRepository_Create. cbn [SuitManifest_SequenceNumber].
  destruct (Z.leb_spec max_int64 n); [intros Hr; simpl in Hr; simplify_eq; by left|].
  rewrite run_bind. destruct (run (insert _ _) w) as [ri wi] eqn:Hi. destruct ri as [id|e| |].
  - apply run_insert_Ok in Hi as (_ & -> & Hdb). cbn [run_then]. rewrite run_ret. intros Hr. simplify_eq.
    right. split; [done|]. exists digest. by split_and!.
  - rewrite run_insert in Hi. unfold insert_row in Hi. intros Hr. left. simpl in Hr. simplify_eq.
    split; [done|]. destruct (db_fault _); [by simplify_eq/=|]. case_match; by simplify_eq/=.
  - rewrite run_insert in Hi. unfold insert_row in Hi. destruct (db_fault _); [done|]. by case_match.
  - rewrite run_insert in Hi. unfold insert_row in Hi. destruct (db_fault _); [done|]. by case_match.
Qed.

(** Every run of [SetEnvelope] registers the envelope or leaves the database alone. *)
Lemma SetEnvelope_run env dg kid tc n w r w' :
  run (SetEnvelope env dg kid tc n) w = (r, w') →
  (r ≠ Ok tt ∧ w_db w' = w_db w) ∨
  r = Ok tt ∧ ∃ e digest, env = Some e ∧ dg = Some digest ∧
    registered e digest kid tc n (w_db w) (w_db w').
Proof.
  unfold SetEnvelope. destruct env as [e|]; [|intros Hr; simpl in Hr; simplify_eq; by left].
  rewrite run_bind, run_try. unfold ManifestSigningKeyRepository_FindByKID, select_opt, nil_if_no_rows.
  rewrite run_bind, run_try. destruct (run (select_one _) w) as [rk wk] eqn:Hk.
  pose proof (run_select_one_db (λ k : ManifestSigningKey, eqb_bytes (ManifestSigningKey_KID k) kid) w) as Hdbk.
  rewrite Hk in Hdbk. simpl in Hdbk.
  destruct rk as [k|er| |]; cbn [run_then fst snd];
    [|case_bool_decide; intros Hr; simpl in Hr; simplify_eq; by left
     |intros Hr; simpl in Hr; simplify_eq; by left..].
  rewrite run_ret. cbn [run_then fst snd].
  apply run_select_one_Ok in Hk as (_ & _ & Hkk & _).
  rewrite run_bind, run_map_err. unfold GetManifest.
  destruct (run (SuitManifestRepository_FindLatestByTrustedComponentID tc) wk) as [rl wl] eqn:Hl.
  assert (w_db wl = w_db wk) as Hdbl
    by (eapply run_reads, Hl; unfold SuitManifestRepository_FindLatestByTrustedComponentID; moves_auto).
  destruct rl as [o|er| |]; cbn [run_then fst snd res_map_err];
    [|intros Hr; simplify_eq; left; split; [done|congruence]..].
  apply FindLatest_Ok in Hl as [_ Hl]. rewrite Hdbk in Hl.
  assert (((∀ m, ¬ of_component tc (w_db w) m) ∨
       ∃ m, latest_of tc (w_db w) m ∧ (SuitManifest_SequenceNumber m < n)%Z ∧
          SuitManifest_SigningKeyID m = ManifestSigningKey_ID k) →
     run (match dg with
       | None => throw ErrDriver
       | Some digest =>
           _ ← SuitManifestRepository_Create
                 (mkSuitManifest 0 e digest (ManifestSigningKey_ID k) tc n zero_time);
           mret tt
       end : M unit) wl = (r, w') →
     (r ≠ Ok tt ∧ w_db w' = w_db w) ∨
     r = Ok tt ∧ ∃ e0 digest, Some e = Some e0 ∧ dg = Some digest ∧
       registered e0 digest kid tc n (w_db w) (w_db w')) as Hins.
  { intros Hb Hr. apply insert_manifest_run in Hr as [[? ?]|(-> & digest & -> & Hn & Hdb)];
      [left; split; [done|congruence]|right]. split; [done|]. exists e, digest. split; [done|]. split; [done|].
    rewrite Hdbl, Hdbk in Hdb. by exists k. }
  destruct o as [m|].
  - destruct Hl as (m0 & Hlat & ->). cbn [SuitManifest_SequenceNumber SuitManifest_SigningKeyID without_digest].
    destruct (Z.leb_spec n (SuitManifest_SequenceNumber m0));
      [intros Hr; simpl in Hr; simplify_eq; left; split; [done|congruence]|].
    destruct (Z.eqb_spec (SuitManifest_SigningKeyID m0) (ManifestSigningKey_ID k)); cbn [negb];
      [|intros Hr; simpl in Hr; simplify_eq; left; split; [done|congruence]].
    apply Hins. right. by exists m0.
  - apply Hins. by left.
Qed.

(** An insertion that [SetEnvelope] makes keeps the repository ordered. *)
Lemma registered_ordered e digest kid tc n d d' :
  ordered d → registered e digest kid tc n d d' → ordered d'.
Proof.
  intros Ho (k & _ & Hlat & _ & ->) i j mi mj. simpl. intros Hi Hj Hij Hc.
  assert (i < length (rows (suit_manifests d))) as Hli.
  { apply lookup_lt_Some in Hj. rewrite length_app in Hj. simpl in Hj. lia. }
  rewrite lookup_app_l in Hi by done.
  destruct (decide (j < length (rows (suit_manifests d)))) as [Hlj|Hlj].
  { rewrite lookup_app_l in Hj by done. by eapply Ho. }
  rewrite lookup_app_r in Hj by lia.
  apply list_lookup_singleton_Some in Hj as [_ <-]. simpl in *.
  assert (of_component tc d mi) as Hmi by (split; [by eapply list_elem_of_lookup_2|done]).
  destruct Hlat as [Hno|(m & [Hm Hmax] & Hlt & Hk)]; [by destruct (Hno mi)|].
  pose proof (Hmax _ Hmi) as Hle. split; [lia|]. rewrite <- Hk.
  destruct Hm as [Hm Hcm]. apply list_elem_of_lookup in Hm as [jm Hjm].
  destruct (decide (i = jm)) as [->|]; [congruence|].
  destruct (decide (i < jm)).
  - eapply (Ho i jm mi m); [done|done|done|congruence].
  - symmetry. eapply (Ho jm i m mi); [done|done|lia|congruence].
Qed.

Lemma GetEntityKey_Ok kid w key w' :
  run (GetEntityKey kid) w = (Ok (Some key), w') →
  w_db w' = w_db w ∧ length kid = 32 ∧
  ∃ k, signer_of kid (w_db w) = Some k ∧ cbor_key (ManifestSigningKey_PublicKey k) = Some key.
Proof.
  unfold GetEntityKey. destruct (Nat.eqb_spec (length kid) 32); [|done]. cbn [negb]. intros Hr.
  run_inv Hr. unfold ManifestSigningKeyRepository_FindByKID, select_opt, nil_if_no_rows in Hrun.
  run_inv Hrun. apply run_try_Ok in Hrun0. destruct a0 as [k|er]; [|case_bool_decide; simpl in *; simplify_eq; done].
  simpl in Hk0. simplify_eq. apply run_select_one_Ok in Hrun0 as (_ & _ & Hh & Hdb).
  run_inv Hk. apply run_lift_Ok in Hrun as [Hd ->]. apply res_of_option_Ok in Hd.
  simpl in Hk0. simplify_eq. split; [done|]. split; [done|]. by exists k.
Qed.

(** What a request body does when it is registered: a verified envelope of a registered
    signer goes into the repository. *)
Definition registers (body : bytes) (d d' : DB) : Prop :=
  ∃ envelope tagged untagged k key manifest component tc digest,
    let wrapper := Envelope_AuthenticationWrapper envelope in
    let kid := Block_KID (AuthenticationBlock0 wrapper) in
    Unmarshal_with Envelope_UnmarshalCBOR body = Ok envelope ∧
    SkipTag body (spare_capacity body) = Ok (tagged, untagged) ∧
    signer_of kid d = Some k ∧
    cbor_key (ManifestSigningKey_PublicKey k) = Some key ∧
    verified envelope key ∧ DigestBstr wrapper = Some digest ∧
    Unmarshal_NestedManifest (ManifestBstr envelope) = Ok manifest ∧
    Components (Manifest_Common manifest) = [component] ∧ Marshal_component_id component = Some tc ∧
    registered untagged digest kid tc (ManifestSequenceNumber manifest) d d'.

Definition answers (r : res error Response) (status : Z) : Prop := ∃ resp, r = Ok resp ∧ Resp_Status resp = status.
Definition refused (r : res error Response) : Prop := ∀ resp, r = Ok resp → (400 ≤ Resp_Status resp)%Z.

Lemma register_error_status e : (400 ≤ Resp_Status (register_error e))%Z.
Proof using Type. unfold register_error. repeat case_match; done. Qed.

(** Every run past the reading of the body: either nothing changes, and the answer is an
    error, or it is one and the body is registered. *)
Lemma registerManifest_run body w r w' :
  run (registerManifest body) w = (r, w') →
  (refused r ∧ w_db w' = w_db w) ∨ (answers r StatusOK ∧ registers body (w_db w) (w_db w')).
Proof.
  unfold registerManifest. rewrite run_bind, run_try. cbn [lift run fst snd].
  destruct (Unmarshal_with _ body) as [envelope|e| |] eqn:Hu; cbn [run_then];
    [|intros Hr; simpl in Hr; simplify_eq; left; split; [refusal|done]..].
  rewrite run_bind. cbn [lift run].
  destruct (SkipTag _ _) as [[tagged untagged]|e| |] eqn:Hsk; cbn [run_then];
    [|intros Hr; simpl in Hr; simplify_eq; left; split; [refusal|done]..].
  rewrite run_bind, run_try. destruct (run (GetEntityKey _) w) as [rk wk] eqn:Hk.
  assert (w_db wk = w_db w) as Hdbk
    by (eapply run_reads, Hk; unfold GetEntityKey, ManifestSigningKeyRepository_FindByKID; moves_auto).
  destruct rk as [[key|]|e| |]; cbn [fst snd run_then];
    [|intros Hr; simpl in Hr; simplify_eq; left; split; [refusal|done]..].
  apply GetEntityKey_Ok in Hk as (_ & _ & k & Hkid & Hkey).
  rewrite run_bind, run_try. cbn [lift run fst snd].
  destruct (Envelope_Verify envelope key) as [[]|e| |] eqn:Hv; cbn [run_then];
    [|intros Hr; simpl in Hr; simplify_eq; left; split; [refusal|done]..].
  apply Envelope_Verify_Ok in Hv.
  rewrite run_bind, run_try. cbn [lift run fst snd].
  destruct (Unmarshal_NestedManifest _) as [manifest|e| |] eqn:Hm; cbn [run_then];
    [|intros Hr; simpl in Hr; simplify_eq; left; split; [refusal|done]..].
  destruct (Components _) as [|component [|]] eqn:Hc; [intros Hr; simpl in Hr; simplify_eq; left; split; [refusal|done]| |
    intros Hr; simpl in Hr; simplify_eq; left; split; [refusal|done]].
  destruct (Marshal_component_id component) as [tc|] eqn:Htc; [|intros Hr; simpl in Hr; simplify_eq; left; split; [refusal|done]].
  rewrite run_bind, run_try. destruct (run (SetEnvelope _ _ _ _ _) wk) as [rs ws] eqn:Hs.
  apply SetEnvelope_run in Hs as Hcases.
  intros Hr. assert (w_db w' = w_db ws) as Hdb.
  { destruct rs as [[]|e| |]; simpl in Hr; by simplify_eq. }
  rewrite Hdb. destruct Hcases as [[Hne Hsame]|(-> & e & digest & He & Hdg & Hreg)].
  { left. split; [|congruence]. intros resp ->. destruct rs as [[]|e| |]; simpl in Hr; simplify_eq.
    apply register_error_status. }
  right. simplify_eq. rewrite Hdbk in Hreg. split; [simpl in Hr; simplify_eq; by eexists|].
  exists envelope, tagged, e, k, key, manifest, component, tc, digest. by split_and!.
Qed.
End flow.

(** Reading the request changes nothing. *)
Lemma addTCManifest_run `{Platform} `{Lib} r w resp w' :
  run (addTCManifest r) w = (resp, w') →
  (refused resp ∧ w_db w' = w_db w) ∨
  (answers resp StatusOK ∧ registers (Body_Bytes (Req_Body r)) (w_db w) (w_db w')).
Proof.
  unfold addTCManifest, ReadAll. intros Hr.
  repeat match type of Hr with
         | run (if ?b then _ else _) _ = _ => destruct b
         | run (match (if ?b then _ else _) with _ => _ end) _ = _ => destruct b
         end; try (injection Hr as <- <-; left; split; [refusal|done]).
  by apply registerManifest_run.
Qed.

(** ** Downgrades, under interleaving *)

Section downgrade.
Context `{Platform}.
Implicit Types w : World.

(** A statement whose error is looked at. *)
Lemma safe_try_sql {A} (Q : A + error → DB → Prop) (f : DB → res error A * DB) w :
  (∀ d, evolves (w_db w) d → evolves d (f d).2) →
  (∀ d, evolves (w_db w) d → ∀ d', evolves d d' → Q (inr ErrDriver) d') →
  (∀ d d' r, evolves (w_db w) d → evolves (f d).2 d' →
     match (f d).1 with Ok a => r = inl a | Err e => r = inr e | _ => False end → Q r d') →
  safe Q (try (sql f)) w.
Proof.
  intros He Hf HQ. unfold safe, sql, atomically. apply rg_step; unfold on_db.
  - intros w' Hw. destruct (db_fault _); simpl; [reflexivity|by apply He].
  - intros w' Hw. destruct (db_fault _); simpl.
    + apply (rg_ret (on_db evolves) _ (inr ErrDriver)). intros w2. by apply Hf.
    + destruct (f (w_db w')).1 as [a|e| |] eqn:Hfd; simpl.
      * apply (rg_ret (on_db evolves) _ (inl a)). intros w2 Hw2. eapply HQ; [exact Hw|exact Hw2|by rewrite Hfd].
      * apply (rg_ret (on_db evolves) _ (inr e)). intros w2 Hw2. eapply HQ; [exact Hw|exact Hw2|by rewrite Hfd].
      * by constructor.
      * by constructor.
Qed.

(** Whatever happens meanwhile, what [FindLatest] finds is no older than a manifest that
    was there before. *)
Lemma FindLatest_no_older m w :
  wf (w_db w) → m ∈ rows (suit_manifests (w_db w)) →
  safe (λ o _, ∃ m', o = Some m' ∧ (SuitManifest_SequenceNumber m ≤ SuitManifest_SequenceNumber m')%Z)
    (SuitManifestRepository_FindLatestByTrustedComponentID (SuitManifest_TrustedComponentID m)) w.
Proof.
  intros Hwf Hm. unfold SuitManifestRepository_FindLatestByTrustedComponentID, nil_if_no_rows.
  assert (∀ d, evolves (w_db w) d →
    m ∈ matching (is_component (SuitManifest_TrustedComponentID m)) d) as Hin.
  { intros d Hd. apply list_elem_of_filter. split; [by apply eqb_bytes_eq|].
    apply seen_manifest_in. eapply seen_evolves; [exact Hwf|exact Hd|by apply seen_in]. }
  eapply safe_bind with (Q := λ o _, ∃ m', o = Some m' ∧
    (SuitManifest_SequenceNumber m ≤ SuitManifest_SequenceNumber m')%Z).
  - eapply safe_bind with (Q := λ r _, match r with
      | inl m' => (SuitManifest_SequenceNumber m ≤ SuitManifest_SequenceNumber m')%Z
      | inr e => e ≠ ErrNoRows end).
    + apply safe_try_sql; [done|done|]. intros d d' r Hd _. cbn [fst snd].
      destruct (head _) as [m'|] eqn:Hh; simpl; intros ->.
      * apply head_sql_order in Hh as [_ Hmax]; [|apply sequence_desc_total|apply sequence_desc_trans].
        apply Z.leb_le. by apply Hmax, Hin.
      * apply head_sql_order_None in Hh. specialize (Hin d Hd). rewrite Hh in Hin.
        by apply not_elem_of_nil in Hin.
    + intros [m'|e] w' Hw HQ.
      * apply safe_ret. intros d Hd. exists m'. split; [done|]. by apply (HQ d).
      * rewrite bool_decide_false by (by apply (HQ (w_db w'))). apply safe_throw.
  - intros o w' Hw HQ. apply safe_ret. intros d Hd. destruct (HQ d Hd) as (m' & -> & Hle).
    by exists (without_digest m').
Qed.

Lemma SetEnvelope_older env dg kid m n w :
  wf (w_db w) → m ∈ rows (suit_manifests (w_db w)) → (n ≤ SuitManifest_SequenceNumber m)%Z →
  safe (λ _ _, False) (SetEnvelope env dg kid (SuitManifest_TrustedComponentID m) n) w.
Proof.
  intros Hwf Hm Hn. unfold SetEnvelope, GetManifest. destruct env as [e|]; [|apply safe_throw].
  apply harmless_bind; [apply harmless_try, harmless_select_opt|]. intros [[k|]|er] w1 Hw1; [|apply safe_throw..].
  eapply safe_bind.
  - apply safe_map_err, (FindLatest_no_older m); [exact (evolves_wf _ _ Hw1 Hwf)|].
    apply seen_manifest_in. eapply seen_evolves; [exact Hwf|exact Hw1|by apply seen_in].
  - intros o w2 Hw2 HQ. destruct (HQ (w_db w2)) as (m' & -> & Hle); [done|].
    replace (Z.leb n (SuitManifest_SequenceNumber m')) with true by (symmetry; apply Z.leb_le; lia).
    apply safe_throw.
Qed.
End downgrade.

(** ** Properties *)

Section properties.
Context `{Platform} `{Lib}.
Implicit Types w : World.

(** [Envelope.Verify] accepts exactly the envelopes whose digest is the SHA-256 sum of
    their manifest and whose authentication block is a detached signature of that
    digest by the given key. *)
Theorem Envelope_Verify_exact (e : Envelope) (key : cose_key) :
  Envelope_Verify e key = Ok tt ↔ verified e key.
Proof. apply Envelope_Verify_Ok. Qed.

(** C7: what gets into the manifest repository is verified: a manifest that handling a
    registration adds is the untagged body of the request, an envelope verified with
    the stored key of the registered signer it names; it is recorded under its digest,
    that signer, the encoding of its only component and its sequence number, which is
    larger than that of every manifest of the component. If the component has one
    already, its latest was registered by the same signer. *)
Theorem registered_manifest_is_verified (r : Request) (m : SuitManifest) w resp w' :
  run (addTCManifest r) w = (resp, w') →
  m ∈ rows (suit_manifests (w_db w')) → m ∉ rows (suit_manifests (w_db w)) →
  let body := Body_Bytes (Req_Body r) in
  ∃ envelope tagged k key manifest component,
    Unmarshal_with Envelope_UnmarshalCBOR body = Ok envelope ∧
    SkipTag body (spare_capacity body) = Ok (tagged, SuitManifest_Manifest m) ∧
    signer_of (Block_KID (AuthenticationBlock0 (Envelope_AuthenticationWrapper envelope))) (w_db w) = Some k ∧
    cbor_key (ManifestSigningKey_PublicKey k) = Some key ∧
    verified envelope key ∧
    DigestBstr (Envelope_AuthenticationWrapper envelope) = Some (SuitManifest_Digest m) ∧
    SuitManifest_SigningKeyID m = ManifestSigningKey_ID k ∧
    Unmarshal_NestedManifest (ManifestBstr envelope) = Ok manifest ∧
    Components (Manifest_Common manifest) = [component] ∧
    Marshal_component_id component = Some (SuitManifest_TrustedComponentID m) ∧
    SuitManifest_SequenceNumber m = ManifestSequenceNumber manifest ∧
    (SuitManifest_SequenceNumber m < max_int64)%Z ∧
    (∀ m', of_component (SuitManifest_TrustedComponentID m) (w_db w) m' →
      (SuitManifest_SequenceNumber m' < SuitManifest_SequenceNumber m)%Z) ∧
    ((∀ m', ¬ of_component (SuitManifest_TrustedComponentID m) (w_db w) m') ∨
     ∃ m', latest_of (SuitManifest_TrustedComponentID m) (w_db w) m' ∧
       SuitManifest_SigningKeyID m' = SuitManifest_SigningKeyID m).
Proof.
  intros Hrun Hin Hout body. apply addTCManifest_run in Hrun as [[_ Hsame]|[_ (envelope & tagged & untagged & k & key & manifest & component
    & tc & digest & ? & ? & Hk & ? & ? & ? & ? & ? & ? & Hreg)]]; [by rewrite Hsame in Hin|].
  exists envelope, tagged, k, key, manifest, component.
  destruct Hreg as (k2 & Hk2 & Hlat & Hn & Hdb). rewrite Hdb in Hin. simpl in Hin.
  apply elem_of_app in Hin as [?|Hin%list_elem_of_singleton]; [done|]. subst m. simpl.
  rewrite Hk in Hk2. injection Hk2 as <-. split_and!; try done.
  - intros m' Hm'. destruct Hlat as [Hno|(m & [_ Hmax] & Hlt & _)]; [by destruct (Hno m')|].
    pose proof (Hmax _ Hm'). lia.
  - destruct Hlat as [Hno|(m & Hl & _ & Hsame)]; [by left|]. right. by exists m.
Qed.

(** Registrations handled one after the other keep the repository in order: the
    manifests of a component have strictly increasing sequence numbers, all by the
    same signer. *)
Theorem registrations_stay_ordered (rs : list Request) w :
  ordered (w_db w) →
  ordered (w_db (foldl (λ w r, (run (addTCManifest r) w).2) w rs)).
Proof.
  revert w. induction rs as [|r rs IH]; intros w Ho; [done|]. simpl. apply IH.
  destruct (run (addTCManifest r) w) as [resp w'] eqn:Hrun. simpl.
  apply addTCManifest_run in Hrun as [[_ Hsame]|[_ (envelope & tagged & untagged & k & key & manifest & component
    & tc & digest & ? & ? & ? & ? & ? & ? & ? & ? & ? & Hreg)]]; [by rewrite Hsame|].
  by eapply registered_ordered.
Qed.

(** C20: a downgrade never succeeds, even while other requests run: once a manifest of a
    component is in the repository, storing an envelope for that component with the
    same or a smaller sequence number never returns without an error. *)
Theorem downgrade_refused (env digest : option bytes) (kid : bytes) (m : SuitManifest) (n : Z)
    (others : list (M unit)) w p ps w' :
  wf (w_db w) → m ∈ rows (suit_manifests (w_db w)) → (n ≤ SuitManifest_SequenceNumber m)%Z →
  Forall (λ q, harmless q w) others →
  rtc sched (SetEnvelope env digest kid (SuitManifest_TrustedComponentID m) n :: others, w) (p :: ps, w') →
  p ≠ Done (Ok tt).
Proof.
  intros Hwf Hm Hn Hothers Hs ->.
  destruct (sched_rg (on_db evolves) ((λ _ _, False) :: replicate (length others) (λ _ _, True)) _ _ Hs)
    as [_ Hall].
  - cbn [fst snd]. constructor; [by apply SetEnvelope_older|].
    clear Hs. induction others as [|q qs IH]; simpl; constructor; [by inversion Hothers|].
    apply IH. by inversion Hothers.
  - apply Forall2_cons_inv_r in Hall as (Q & Qs & Hp & _ & [= <- <-]).
    by apply (rg_ret_inv (on_db evolves) _ tt w' Hp w').
Qed.

End properties.

Section race.
#[local] Existing Instance calm.

Definition registration : M unit :=
  SetEnvelope (Some envelope) (Some manifest_digest) dev_kid component_bytes 3.

(** The check and the insertion are two statements, so two registrations at
    once can both pass the check: here the same envelope is stored twice, and the
    repository is no longer in order. *)
Theorem concurrent_registrations_race :
  let before := with_developer initial_world in
  ∃ after, rtc sched ([registration; registration], before) ([Done (Ok tt); Done (Ok tt)], after) ∧
    ordered (w_db before) ∧ ¬ ordered (w_db after).
Proof.
  eexists. split; [|split].
  - eapply rtc_l; [refine (sched_step [] _ _ [_] _)|]. eapply rtc_l; [refine (sched_step [] _ _ [_] _)|].
    eapply rtc_l; [refine (sched_step [_] _ _ [] _)|]. eapply rtc_l; [refine (sched_step [_] _ _ [] _)|].
    eapply rtc_l; [refine (sched_step [] _ _ [_] _)|]. eapply rtc_l; [refine (sched_step [_] _ _ [] _)|].
    apply rtc_refl.
  - intros i j mi mj Hi. apply list_elem_of_lookup_2 in Hi. vm_compute in Hi. by apply not_elem_of_nil in Hi.
  - intros Ho. specialize (Ho 0 1 _ _ eq_refl eq_refl (le_n 1) eq_refl) as [Hlt _]. by vm_compute in Hlt.
Qed.
End race.

(** ** Witnesses *)

Definition register (body : bytes) : Request :=
  mkRequest "POST" "/SUITManifestService/RegisterManifest" "" "application/suit-envelope+cose"
    (mkBody body false false).

Definition first_manifest : SuitManifest :=
  mkSuitManifest 1 envelope manifest_digest 1 component_bytes 3 zero_time.

Lemma registered_manifest_is_verified_witness :
  ∃ e key, @Unmarshal_with lib _ (@Envelope_UnmarshalCBOR lib) envelope = Ok e ∧ @verified lib e key.
Proof.
  destruct (@registered_manifest_is_verified calm lib (register envelope) first_manifest
    (with_developer initial_world) _ _ (surjective_pairing _)) as (e & tg & k & key & man & c & He & _ & _ & _ & Hv & _).
  - vm_compute. left.
  - intros Hin. vm_compute in Hin. by apply not_elem_of_nil in Hin.
  - by exists e, key.
Defined.

Lemma registrations_stay_ordered_witness :
  ordered (w_db (foldl (λ w r, (run (@addTCManifest calm lib r) w).2) initial_world
                   [register envelope; register envelope])).
Proof.
  apply (@registrations_stay_ordered calm lib).
  intros i j mi mj Hi. apply list_elem_of_lookup_2 in Hi. vm_compute in Hi. by apply not_elem_of_nil in Hi.
Defined.

Lemma downgrade_refused_witness :
  ∃ p w', rtc sched ([@SetEnvelope calm (Some envelope) (Some manifest_digest) dev_kid component_bytes 2],
                     with_manifest initial_world) ([p], w') ∧ p ≠ Done (Ok tt).
Proof.
  eexists _, _. match goal with |- ?P ∧ _ => assert P as Hs end.
  { eapply rtc_l; [refine (sched_step [] _ _ [] _)|]. eapply rtc_l; [refine (sched_step [] _ _ [] _)|].
    apply rtc_refl. }
  split; [exact Hs|].
  refine (@downgrade_refused calm _ _ _ first_manifest 2 [] _ _ [] _ (with_manifest_wf initial_world wf_empty) _ _ _ Hs).
  - vm_compute. left.
  - vm_compute. discriminate.
  - constructor.
Defined.
