(* ===== verification/Registry.v ===== *)
(** The manifest repository as a map: what [SuitManifestRepository] and [SetEnvelope] promise
    to their callers, and that the table of manifests implements it. *)

From S2P Require Import Prelude Model Db Evolve AgentRepo ManifestRepo Wire Lib Stub Suit Teep Rats Qvl Collateral Verifiers Tam.
From S2P Require Import Server Frame Requests Scenario ManifestFlow.

(** ** The specification: the newest entry of each component *)

Record Entry := mkEntry {
  Entry_Manifest : bytes;
  Entry_Digest : bytes;
  Entry_SigningKeyID : Z;
  Entry_SequenceNumber : Z;
}.

Abbreviation Registry := (gmap bytes Entry).

(** Registering an envelope under a signer ([None]: the key id is unknown). *)
Definition spec_register (signer : option Z) (env digest tc : bytes) (n : Z) (reg : Registry) :
    res error Registry :=
  match signer with
  | None => Err ErrNotAuthenticated
  | Some k =>
      let accepted :=
        if Z.leb max_int64 n then Err (ErrorString "sequence-number exceeds the limit")
        else Ok (<[tc := mkEntry env digest k n]> reg) in
      match reg !! tc with
      | Some e =>
          if Z.leb n (Entry_SequenceNumber e) then Err ErrSUITManifestSmallerSequenceNumber
          else if Z.eqb (Entry_SigningKeyID e) k then accepted
          else Err ErrSUITManifestSigningKeyMismatch
      | None => accepted
      end
  end.

(** ** The abstraction *)

Definition entry_of (m : SuitManifest) : Entry :=
  mkEntry (SuitManifest_Manifest m) (SuitManifest_Digest m) (SuitManifest_SigningKeyID m)
    (SuitManifest_SequenceNumber m).

(** Later rows replace earlier ones. *)
Definition registry_of (l : list SuitManifest) : Registry :=
  foldl (λ reg m, <[SuitManifest_TrustedComponentID m := entry_of m]> reg) ∅ l.

Definition registry (d : DB) : Registry := registry_of (rows (suit_manifests d)).

Lemma registry_of_snoc l m :
  registry_of (l ++ [m]) = <[SuitManifest_TrustedComponentID m := entry_of m]> (registry_of l).
Proof. unfold registry_of. by rewrite foldl_app. Qed.

(** The entry of a component is its last row. *)
Lemma registry_of_last l tc e :
  registry_of l !! tc = Some e ↔
  ∃ i m, l !! i = Some m ∧ SuitManifest_TrustedComponentID m = tc ∧ e = entry_of m ∧
    ∀ j m', l !! j = Some m' → SuitManifest_TrustedComponentID m' = tc → j ≤ i.
Proof.
  induction l as [|x l IH] using rev_ind.
  { split; [done|]. intros (i & m & Hi & _). done. }
  rewrite registry_of_snoc.
  destruct (decide (SuitManifest_TrustedComponentID x = tc)) as [Hx|Hx].
  - rewrite Hx, lookup_insert_eq. split.
    + intros [= <-]. exists (length l), x. rewrite lookup_app_r, Nat.sub_diag by done. split_and!; try done.
      intros j m' Hj _. apply lookup_lt_Some in Hj. rewrite length_app in Hj. simpl in Hj. lia.
    + intros (i & m & Hi & Hm & -> & Hlast).
      assert (length l ≤ i) as Hle.
      { eapply Hlast; [|exact Hx]. by rewrite lookup_app_r, Nat.sub_diag by done. }
      rewrite lookup_app_r in Hi by done. by apply list_lookup_singleton_Some in Hi as [_ ->].
  - rewrite lookup_insert_ne by done. rewrite IH. split; intros (i & m & Hi & Hm & He & Hlast); exists i, m.
    + split; [by apply lookup_app_l_Some|]. split_and!; try done. intros j m' Hj Hm'.
      apply lookup_app_Some in Hj as [Hj|[_ Hj]]; [by eapply Hlast|].
      apply list_lookup_singleton_Some in Hj as [_ <-]. done.
    + apply lookup_app_Some in Hi as [Hi|[_ Hi]];
        [|apply list_lookup_singleton_Some in Hi as [_ <-]; done].
      split_and!; try done. intros j m' Hj. eapply Hlast. by apply lookup_app_l_Some.
Qed.

Lemma registry_of_None l tc :
  registry_of l !! tc = None ↔ ∀ m, m ∈ l → SuitManifest_TrustedComponentID m ≠ tc.
Proof.
  induction l as [|x l IH] using rev_ind.
  { split; [|done]. intros _ m Hm. by apply not_elem_of_nil in Hm. }
  rewrite registry_of_snoc, lookup_insert_None, IH.
  setoid_rewrite elem_of_app. setoid_rewrite list_elem_of_singleton. naive_solver.
Qed.

(** In an ordered repository, the last row of a component is the one with the largest
    sequence number, and the only one with it. *)
Lemma registry_latest d tc m e :
  ordered d → latest_of tc d m → registry d !! tc = Some e → e = entry_of m.
Proof.
  intros Ho [[Hin Hc] Hmax] Hr. apply registry_of_last in Hr as (i & m' & Hi & Hm' & -> & Hlast).
  apply list_elem_of_lookup in Hin as [j Hj]. pose proof (Hlast j m Hj Hc) as Hle.
  destruct (decide (j = i)) as [->|]; [congruence|].
  destruct (Ho j i m m' Hj Hi) as [Hlt _]; [lia|congruence|].
  pose proof (Hmax m' (conj (list_elem_of_lookup_2 _ _ _ Hi) Hm')). lia.
Qed.

Lemma latest_registry d tc m :
  ordered d → latest_of tc d m → registry d !! tc = Some (entry_of m).
Proof.
  intros Ho Hl. destruct (registry d !! tc) as [e|] eqn:Hr; [f_equal; by eapply registry_latest|].
  destruct Hl as [[Hin Hc] _]. by destruct (proj1 (registry_of_None _ _) Hr m Hin).
Qed.

(** *** The list of the newest entries *)

Lemma foldr_max_ge n ns x : x ∈ n :: ns → (x ≤ foldr Z.max n ns)%Z.
Proof.
  induction ns as [|y ns IH].
  - intros ->%list_elem_of_singleton. simpl. lia.
  - cbn [foldr]. intros [->|[->|Hin]%elem_of_cons]%elem_of_cons; [|lia|].
    + pose proof (IH ltac:(left)). lia.
    + pose proof (IH ltac:(by right)). lia.
Qed.

Lemma foldr_max_in n ns : foldr Z.max n ns ∈ n :: ns.
Proof.
  induction ns as [|y ns IH]; simpl; [left|]. rewrite !elem_of_cons in *.
  destruct (Z.max_spec y (foldr Z.max n ns)) as [[_ ->]|[_ ->]]; naive_solver.
Qed.

Lemma is_max_spec l m :
  m ∈ l → is_max l m = true ↔
  ∀ m', m' ∈ l → SuitManifest_TrustedComponentID m' = SuitManifest_TrustedComponentID m →
    (SuitManifest_SequenceNumber m' ≤ SuitManifest_SequenceNumber m)%Z.
Proof.
  intros Hin. unfold is_max, max_sequence_number. rewrite bool_decide_eq_true.
  set (l' := filter _ l). assert (∀ x, x ∈ l' ↔ x ∈ l ∧ SuitManifest_TrustedComponentID x = SuitManifest_TrustedComponentID m) as Hl'.
  { intros x. subst l'. rewrite list_elem_of_filter. unfold is_component. rewrite eqb_bytes_eq. tauto. }
  assert (m ∈ l') as Hm by (by apply Hl'). clearbody l'.
  assert (SuitManifest_SequenceNumber m ∈ map SuitManifest_SequenceNumber l') as Hseq
    by (apply list_elem_of_fmap; eauto).
  destruct (map _ l') as [|n ns] eqn:Hmap; [by apply not_elem_of_nil in Hseq|].
  pose proof (foldr_max_in n ns) as Hmax. split.
  - intros [= Hn] m' Hm' Hc. rewrite <- Hn. apply foldr_max_ge. rewrite <- Hmap.
    apply list_elem_of_fmap. exists m'. split; [done|]. by apply Hl'.
  - intros Hle. f_equal. apply Z.le_antisymm; [|by apply foldr_max_ge].
    rewrite <- Hmap in Hmax. apply list_elem_of_fmap in Hmax as (x & Hx & [Hxl Hxc]%Hl').
    change (foldr Z.max n ns = SuitManifest_SequenceNumber x) in Hx. rewrite Hx. by apply Hle.
Qed.

Lemma NoDup_fmap_filter {A B} (f : A → B) (P : A → Prop) `{∀ x, Decision (P x)} l :
  (∀ i j x y, l !! i = Some x → l !! j = Some y → P x → P y → f x = f y → i = j) →
  NoDup (f <$> filter P l).
Proof.
  induction l as [|x l IH]; intros Hinj; [constructor|].
  assert (NoDup (f <$> filter P l)) as Hl.
  { apply IH. intros i j y z Hi Hj Hy Hz Hf. by apply Nat.succ_inj, (Hinj (S i) (S j) y z). }
  rewrite filter_cons. case_decide as Hx; [|done]. simpl. constructor; [|done].
  intros (y & Hf & [Hy [j Hj]%list_elem_of_lookup]%list_elem_of_filter)%list_elem_of_fmap.
  by specialize (Hinj 0 (S j) x y eq_refl Hj Hx Hy Hf).
Qed.

(** SQLite's order of blobs is total and transitive. *)
Lemma blob_le_total x y : blob_le x y = true ∨ blob_le y x = true.
Proof.
  revert y. induction x as [|a x IH]; intros [|b y]; simpl; auto.
  rewrite !orb_true_iff, !andb_true_iff, !N.ltb_lt, !N.eqb_eq.
  destruct (N.lt_total (Byte.to_N a) (Byte.to_N b)) as [?|[?|?]]; destruct (IH y); auto.
Qed.

Lemma blob_le_trans x y z : blob_le x y = true → blob_le y z = true → blob_le x z = true.
Proof.
  revert y z. induction x as [|a x IH]; intros [|b y] [|c z]; simpl; auto; try done.
  rewrite !orb_true_iff, !andb_true_iff, !N.ltb_lt, !N.eqb_eq.
  intros [?|[? ?]] [?|[? ?]]; [left; lia|left; lia|left; lia|right; split; [lia|by eapply IH]].
Qed.

(** ** The implementation *)

Section refinement.
Context `{Platform} `{!Reliable}.
Implicit Types w : World.

Lemma FindLatest_total tc w :
  ∃ o w', run (SuitManifestRepository_FindLatestByTrustedComponentID tc) w = (Ok o, w').
Proof.
  unfold SuitManifestRepository_FindLatestByTrustedComponentID, nil_if_no_rows.
  rewrite run_bind, run_bind, run_try, run_select_first_reliable. simpl.
  destruct (head _); simpl; by do 2 eexists.
Qed.

(** The row the implementation returns is the entry of the specification. *)
Lemma FindLatest_registry tc w :
  ordered (w_db w) →
  ∃ o w', run (SuitManifestRepository_FindLatestByTrustedComponentID tc) w = (Ok o, w') ∧ w_db w' = w_db w ∧
    match o with
    | Some m => ∃ r, latest_of tc (w_db w) r ∧ m = without_digest r ∧ registry (w_db w) !! tc = Some (entry_of r)
    | None => registry (w_db w) !! tc = None
    end.
Proof.
  intros Ho. destruct (FindLatest_total tc w) as (o & w' & Hrun). exists o, w'. split; [done|].
  apply FindLatest_Ok in Hrun as [Hdb Hl]. split; [done|]. destruct o as [m|].
  - destruct Hl as (r & Hl & ->). exists r. split_and!; try done. by apply latest_registry.
  - apply registry_of_None. intros m Hm Hc. by apply (Hl m).
Qed.

(** The lookup of a manifest implements the map's: in an ordered repository [GetManifest]
    returns exactly the entry of the component (without its digest), or nothing when
    there is none. *)
Theorem GetManifest_refines_lookup tc w :
  ordered (w_db w) →
  ∃ o w', run (GetManifest tc) w = (Ok o, w') ∧ w_db w' = w_db w ∧
    (o = None ↔ registry (w_db w) !! tc = None) ∧
    ∀ m, o = Some m → SuitManifest_TrustedComponentID m = tc ∧
      ∃ digest, registry (w_db w) !! tc =
        Some (mkEntry (SuitManifest_Manifest m) digest (SuitManifest_SigningKeyID m) (SuitManifest_SequenceNumber m)).
Proof.
  intros Ho. destruct (FindLatest_registry tc w Ho) as (o & w' & Hrun & Hdb & Hm).
  exists o, w'. split; [done|]. split; [done|]. destruct o as [m|].
  - destruct Hm as (r & [[_ Hc] _] & -> & Hr). split; [by rewrite Hr|]. intros m' [= <-].
    split; [done|]. by exists (SuitManifest_Digest r).
  - by rewrite Hm.
Qed.

Lemma FindByKID_run kid w :
  run (ManifestSigningKeyRepository_FindByKID kid) w =
    (Ok (signer_of kid (w_db w)), with_db (w_db w) (tick_call w)).
Proof. apply run_select_opt_reliable. Qed.

Lemma signer_references kid d k :
  signer_of kid d = Some k → references (R:=ManifestSigningKey) (ManifestSigningKey_ID k) d = true.
Proof.
  intros [Hin _]%signer_of_in. unfold references. apply implb_true_iff. intros _.
  apply existsb_exists. exists k. split; [by apply list_elem_of_In|apply Z.eqb_refl].
Qed.

(** The insertion at the end of [SetEnvelope]. *)
Lemma Create_registry env digest kid tc k n w :
  ordered (w_db w) → (seq (suit_manifests (w_db w)) < max_int64)%Z → signer_of kid (w_db w) = Some k →
  let '(r, w') := run (SuitManifestRepository_Create
                    (mkSuitManifest 0 env digest (ManifestSigningKey_ID k) tc n zero_time)) w in
  if Z.leb max_int64 n
  then r = Err (ErrorString "sequence-number exceeds the limit") ∧ w' = w
  else (∃ id, r = Ok id) ∧ registry (w_db w') = <[tc := mkEntry env digest (ManifestSigningKey_ID k) n]> (registry (w_db w)).
Proof.
  intros Ho Hseq Hk. unfold SuitManifestRepository_Create. cbn [SuitManifest_SequenceNumber].
  destruct (Z.leb max_int64 n); [done|]. rewrite run_insert_reliable.
  rewrite insert_row_ok; [|by eapply signer_references|done]. split; [by eexists|].
  unfold registry. simpl. by rewrite registry_of_snoc.
Qed.

(** C16: [SetEnvelope] implements the registration of the specification, errors included: in
    an ordered repository it returns the very result the specification prescribes; when
    that is a new map, the table stands for this map and is ordered again, and when it is
    an error, nothing has changed. *)
Theorem SetEnvelope_refines_register env digest kid tc n w :
  ordered (w_db w) → (seq (suit_manifests (w_db w)) < max_int64)%Z →
  let '(r, w') := run (SetEnvelope (Some env) (Some digest) kid tc n) w in
  match spec_register (ManifestSigningKey_ID <$> signer_of kid (w_db w)) env digest tc n (registry (w_db w)) with
  | Ok reg' => r = Ok tt ∧ registry (w_db w') = reg' ∧ ordered (w_db w')
  | Err e => r = Err e ∧ w_db w' = w_db w
  | Panic | OutOfFuel => False
  end.
Proof.
  intros Ho Hseq. destruct (run _ w) as [r w'] eqn:Hrun.
  pose proof (SetEnvelope_run _ _ _ _ _ _ _ _ Hrun) as Hreg.
  unfold SetEnvelope in Hrun. rewrite run_bind, run_try, FindByKID_run in Hrun. cbn [run_then fst snd] in Hrun.
  set (w1 := with_db (w_db w) (tick_call w)) in *. assert (w_db w1 = w_db w) as Hdb1 by done.
  unfold spec_register. destruct (signer_of kid (w_db w)) as [k|] eqn:Hk;
    [|simpl in Hrun; simplify_eq; by split]. cbn [fmap option_fmap option_map].
  rewrite run_bind, run_map_err in Hrun. unfold GetManifest in Hrun.
  destruct (FindLatest_registry tc w1) as (o & w2 & Hl & Hdb2 & Ho2); [by rewrite Hdb1|].
  rewrite Hl in Hrun. cbn [run_then fst snd res_map_err] in Hrun. rewrite Hdb1 in Hdb2, Ho2.
  assert (∀ (p : M unit), p = (_ ← SuitManifestRepository_Create
        (mkSuitManifest 0 env digest (ManifestSigningKey_ID k) tc n zero_time); mret tt) →
    run p w2 = (r, w') →
    match (if Z.leb max_int64 n then Err (ErrorString "sequence-number exceeds the limit")
           else Ok (<[tc := mkEntry env digest (ManifestSigningKey_ID k) n]> (registry (w_db w)))) with
    | Ok reg' => r = Ok tt ∧ registry (w_db w') = reg' ∧ ordered (w_db w')
    | Err e => r = Err e ∧ w_db w' = w_db w
    | Panic | OutOfFuel => False
    end) as Hcreate.
  { intros p -> Hp. pose proof (Create_registry env digest kid tc k n w2) as Hc.
    rewrite Hdb2 in Hc. specialize (Hc Ho Hseq Hk). rewrite run_bind in Hp.
    destruct (run (SuitManifestRepository_Create _) w2) as [rc w3].
    destruct (Z.leb max_int64 n).
    - destruct Hc as [-> ->]. cbn [run_then] in Hp. by simplify_eq.
    - destruct Hc as [[id ->] Hreg3]. cbn [run_then] in Hp. rewrite run_ret in Hp. simplify_eq.
      split_and!; [done|done|]. destruct Hreg as [[? _]|(_ & e & dg & _ & _ & Hr)]; [done|].
      by eapply registered_ordered. }
  destruct o as [m|].
  - destruct Ho2 as (m0 & _ & -> & ->).
    cbn [Entry_SequenceNumber Entry_SigningKeyID entry_of SuitManifest_SequenceNumber SuitManifest_SigningKeyID
      without_digest] in *.
    destruct (Z.leb n _); [simpl in Hrun; by simplify_eq|].
    destruct (Z.eqb _ _); cbn [negb] in Hrun; [by apply (Hcreate _ eq_refl)|simpl in Hrun; by simplify_eq].
  - rewrite Ho2. by apply (Hcreate _ eq_refl).
Qed.

(** The list of manifests is the map, in order: in an ordered repository [GetManifests]
    returns one row for each component, which is its entry, and nothing else, sorted by
    the bytes of the component. *)
Theorem GetManifests_lists_registry w :
  ordered (w_db w) →
  ∃ l w', run GetManifests w = (Ok l, w') ∧ w_db w' = w_db w ∧
    NoDup (SuitManifest_TrustedComponentID <$> l) ∧
    (∀ tc e, registry (w_db w) !! tc = Some e ↔
       ∃ m, m ∈ l ∧ SuitManifest_TrustedComponentID m = tc ∧ entry_of m = e) ∧
    StronglySorted (λ a b, blob_le (SuitManifest_TrustedComponentID a) (SuitManifest_TrustedComponentID b) = true) l.
Proof.
  intros Ho. unfold GetManifests, SuitManifestRepository_FindLatestAll, query.
  rewrite run_map_err, run_sql_reliable. simpl. do 2 eexists. split; [reflexivity|]. split; [done|].
  set (rs := rows (suit_manifests (w_db w))) in *. set (l := filter _ rs). split; [|split].
  - rewrite (sql_order_perm _ l). apply NoDup_fmap_filter. intros i j x y Hi Hj Hx Hy Hc.
    rewrite is_max_spec in Hx by (by eapply list_elem_of_lookup_2).
    rewrite is_max_spec in Hy by (by eapply list_elem_of_lookup_2).
    assert (SuitManifest_SequenceNumber x = SuitManifest_SequenceNumber y) as Hs.
    { apply Z.le_antisymm; [apply Hy|apply Hx]; try done; by eapply list_elem_of_lookup_2. }
    destruct (lt_eq_lt_dec i j) as [[Hlt|]|Hlt]; [|done|];
      [destruct (Ho i j x y Hi Hj Hlt Hc)|destruct (Ho j i y x Hj Hi Hlt)]; [lia|congruence|lia].
  - intros tc e. setoid_rewrite (sql_order_perm _ l). subst l. setoid_rewrite list_elem_of_filter. split.
    + intros Hr. apply registry_of_last in Hr as (i & m & Hi & Hc & -> & Hlast). fold rs in Hi, Hlast.
      exists m. split_and!; try done.
      { apply is_max_spec; [by eapply list_elem_of_lookup_2|]. intros m' [j Hj]%list_elem_of_lookup Hc'.
        destruct (decide (j = i)) as [->|]; [assert (m' = m) as -> by congruence; done|].
        assert (j < i) by (pose proof (Hlast j m' Hj (eq_trans Hc' Hc)); lia).
        destruct (Ho j i m' m Hj Hi); [done|congruence|lia]. }
      by eapply list_elem_of_lookup_2.
    + intros (m & [Hmax Hin] & Hc & <-). apply latest_registry; [done|]. split; [done|].
      intros m' [Hin' Hc']. rewrite is_max_spec in Hmax by done. apply Hmax; [done|congruence].
  - apply (sql_order_sorted (λ a b, blob_le (SuitManifest_TrustedComponentID a) (SuitManifest_TrustedComponentID b))).
    + intros. apply blob_le_total.
    + intros x y z. apply blob_le_trans.
Qed.
End refinement.

(** ** Witnesses *)

Definition repository : World := with_manifest initial_world.

Lemma repository_ordered : ordered (w_db repository).
Proof.
  intros i j mi mj Hi Hj Hij _. apply lookup_lt_Some in Hj. vm_compute in Hj. exfalso. lia.
Qed.

Lemma GetManifest_refines_lookup_witness :
  ∃ m w', run (@GetManifest calm component_bytes) repository = (Ok (Some m), w').
Proof.
  destruct (@GetManifest_refines_lookup calm calm_reliable component_bytes repository repository_ordered)
    as ([m|] & w' & Hr & _ & Hnone & _); [by exists m, w'|].
  pose proof (proj1 Hnone eq_refl) as Hn. by vm_compute in Hn.
Defined.

Lemma SetEnvelope_refines_register_witness :
  registry (w_db (run (@SetEnvelope calm (Some envelope) (Some manifest_digest) dev_kid component_bytes 7) repository).2)
    = <[component_bytes := mkEntry envelope manifest_digest 1 7]> (registry (w_db repository)).
Proof.
  pose proof (@SetEnvelope_refines_register calm calm_reliable envelope manifest_digest dev_kid component_bytes 7
    repository repository_ordered) as Hr.
  assert (seq (suit_manifests (w_db repository)) < max_int64)%Z as Hs by (by vm_compute). specialize (Hr Hs).
  destruct (run _ repository) as [r w']. 
  replace (spec_register _ _ _ _ _ _) with
    (Ok (E:=error) (<[component_bytes := mkEntry envelope manifest_digest 1 7]> (registry (w_db repository)))) in Hr
    by (by vm_compute). by destruct Hr as (_ & Hreg & _).
Defined.

Lemma GetManifests_lists_registry_witness :
  ∃ l w', run (@GetManifests calm) repository = (Ok l, w') ∧ NoDup (SuitManifest_TrustedComponentID <$> l).
Proof.
  destruct (@GetManifests_lists_registry calm calm_reliable repository repository_ordered)
    as (l & w' & Hr & _ & Hn & _). by exists l, w'.
Defined.
