(* ===== verification/UpdateFlow.v ===== *)
(** The update protocol: starting a session, answering a QueryResponse with an Update, and
    what the agent's reports do. *)

From S2P Require Import Prelude Model Db Evolve Frame OneTime AgentRepo ManifestRepo SentRepo.
From S2P Require Import StatusRepo Wire Lib Stub Suit Teep Rats Qvl Collateral Verifiers Tam Server Requests TamFrames.
From S2P Require Import Scenario ManifestFlow.

(** ** Components *)

Section components.
Context `{Lib}.

Lemma add_component_spec set c :
  NoDup set → NoDup (add_component set c) ∧ ∀ x, x ∈ add_component set c ↔ x ∈ set ∨ x = c.
Proof.
  intros Hnd. unfold add_component. destruct (existsb _ _) eqn:He.
  - split; [done|]. intros x. split; [by left|]. intros [?| ->]; [done|].
    apply existsb_exists in He as (y & Hy & Heq%eqb_bytes_eq). subst y. by apply list_elem_of_In.
  - split.
    + apply NoDup_app. split_and!; [done| |apply NoDup_singleton].
      intros x Hx ->%list_elem_of_singleton. apply not_true_iff_false in He. apply He.
      apply existsb_exists. exists c. split; [by apply list_elem_of_In|by apply eqb_bytes_eq].
    + intros x. rewrite elem_of_app, list_elem_of_singleton. done.
Qed.

Lemma encode_components_spec l set out :
  NoDup set → encode_components l set = Ok out →
  NoDup out ∧ (∀ x, x ∈ out ↔ x ∈ set ∨ ∃ c, c ∈ l ∧ Marshal_component_id c = Some x) ∧
  ∀ c, c ∈ l → ∃ x, Marshal_component_id c = Some x.
Proof.
  revert set. induction l as [|c l IH]; intros set Hnd; cbn [encode_components].
  { intros [= <-]. split_and!; [done| |by intros c ?%not_elem_of_nil].
    intros x. split; [by left|]. intros [?|(c & ?%not_elem_of_nil & _)]; done. }
  intros He. apply res_bind_Ok in He as (x & Hx & He). apply res_of_option_Ok in Hx.
  destruct (add_component_spec set x Hnd) as [Hnd' Hin]. apply IH in He as (Hout & Hel & Hall); [|done].
  split; [done|]. split.
  - intros y. rewrite Hel, Hin. setoid_rewrite elem_of_cons. naive_solver.
  - intros c' [->|Hc]%elem_of_cons; eauto.
Qed.
End components.

(** ** Collecting manifests *)

Section collect.
Context `{Platform} `{Lib}.
Implicit Types w : World.

(** For each component, in order: its latest manifest, if it has one. *)
Inductive collected (d : DB) : list bytes → list SuitManifest → Prop :=
  | collected_nil : collected d [] []
  | collected_unknown c cs ms : (∀ m, ¬ of_component c d m) → collected d cs ms → collected d (c :: cs) ms
  | collected_latest c cs r ms :
      latest_of c d r → collected d cs ms → collected d (c :: cs) (without_digest r :: ms).

Lemma collect_manifests_Ok cs w ms w' :
  run (collect_manifests cs) w = (Ok ms, w') → w_db w' = w_db w ∧ collected (w_db w) cs ms.
Proof.
  revert w ms w'. induction cs as [|c cs IH]; intros w ms w' Hr; cbn [collect_manifests] in Hr.
  { simpl in Hr. simplify_eq. split; [done|constructor]. }
  run_inv Hr. apply run_map_err_Ok, FindLatest_Ok in Hrun as [Hdb Ha]. run_inv Hk.
  apply IH in Hrun as [Hdb2 Hc]. simpl in Hk0. simplify_eq. split; [congruence|].
  rewrite Hdb in Hc. destruct a as [m|]; [|by constructor].
  destruct Ha as (r & Hlat & ->). by constructor.
Qed.

(** *** Fresh values *)

Lemma GenerateUnique_Ok (R : Type) `{OneTime R} fuel w v w' :
  run (OneTime_GenerateUnique R fuel) w = (Ok v, w') →
  length v = 32 ∧ ¬ issued (R:=R) v (w_db w) ∧
  w_db w' = rel_set (mkTable (rows (rel_get (w_db w)) ++
                [make v zero_time zero_time false (seq (rel_get (R:=R) (w_db w)) + 1)%Z])
              (seq (rel_get (R:=R) (w_db w)) + 1)) (w_db w).
Proof.
  revert w. induction fuel as [|fuel IH]; intros w Hr; cbn [OneTime_GenerateUnique] in Hr; [done|].
  run_inv Hr. apply run_map_err_Ok in Hrun. unfold rand_read in Hrun. rewrite run_atomically in Hrun.
  destruct (entropy _) as [f|]; [|done]. simpl in Hrun.
  injection Hrun as <- <-. run_inv Hk. apply run_map_err_Ok in Hrun.
  unfold OneTime_FindByValue, select_opt, nil_if_no_rows in Hrun. run_inv Hrun. apply run_try_Ok in Hrun0.
  destruct a0 as [r|e].
  - apply run_select_one_Ok in Hrun0 as (_ & _ & _ & Hdb). simpl in Hk. simplify_eq.
    apply IH in Hk0. by rewrite Hdb in Hk0.
  - unfold select_one in Hrun0. rewrite run_sql in Hrun0. destruct (db_fault _); [by simplify_eq|].
    simpl in Hrun0. destruct (head _) eqn:Hh; simpl in Hrun0; [done|]. injection Hrun0 as <- <-.
    rewrite bool_decide_true in Hk by done. simpl in Hk. simplify_eq. run_inv Hk0.
    unfold OneTime_Create in Hrun. do 2 apply run_map_err_Ok in Hrun.
    apply run_insert_Ok in Hrun as (_ & -> & Hdb). simpl in Hk. simplify_eq.
    split; [done|]. split; [|exact Hdb].
    intros (r & Hr & Hv). unfold matching in Hh. destruct (filter _ _) eqn:Hf; [|done].
    apply (not_elem_of_nil r). rewrite <- Hf. apply list_elem_of_filter. by split; [apply eqb_bytes_eq|].
Qed.

Lemma generateToken_Ok w v w' :
  run generateToken w = (Ok (Some v), w') →
  length v = 32 ∧ ¬ issued (R:=Token) v (w_db w) ∧
  w_db w' = rel_set (mkTable (rows (tokens (w_db w)) ++
                [mkToken (seq (tokens (w_db w)) + 1) v zero_time zero_time false])
              (seq (tokens (w_db w)) + 1)) (w_db w).
Proof.
  unfold generateToken. intros Hr. run_inv Hr. apply run_try_Ok in Hrun.
  destruct a as [v'|e]; simpl in Hk; simplify_eq. by apply (GenerateUnique_Ok Token) in Hrun.
Qed.

(** What [COSESign1Sign] returns is a COSE_Sign1 over the encoding of the message. *)
Definition signed (m : TEEPMessage) (key : cose_key) (out : bytes) : Prop :=
  ∃ s alg kid tbs rnd, key_Signer key = Some s ∧ key_AlgorithmOrDefault key = Some alg ∧
    key_Thumbprint key = Some kid ∧ TEEPMessage_MarshalCBOR m = Ok tbs ∧ Sign1 s alg kid tbs rnd = Some out.

Lemma COSESign1Sign_Ok m key w out w' :
  run (TEEPMessage_COSESign1Sign m key) w = (Ok out, w') → signed m key out ∧ w_db w' = w_db w.
Proof.
  unfold TEEPMessage_COSESign1Sign. intros Hr.
  run_inv Hr. apply run_lift_Ok in Hrun as [Hs ->]. apply res_of_option_Ok in Hs.
  run_inv Hk. apply run_lift_Ok in Hrun as [Ha ->]. apply res_of_option_Ok in Ha.
  run_inv Hk0. apply run_lift_Ok in Hrun as [Ht ->]. apply res_of_option_Ok in Ht.
  run_inv Hk. apply run_lift_Ok in Hrun as [Hm ->]. unfold cose_Sign1 in Hk0.
  rewrite run_atomically in Hk0. injection Hk0 as Hk0 <-. apply res_of_option_Ok in Hk0.
  split; [|done]. by eexists _, _, _, _, _.
Qed.

Lemma saveSentUpdate_Ok m kid ms w w' :
  wf (w_db w) → run (saveSentUpdate m kid ms) w = (Ok tt, w') →
  ∃ updID, update_recorded kid (slice (Opt_Token (TEEP_Options m))) (map SuitManifest_ID ms) updID (w_db w').
Proof.
  intros Hwf. unfold saveSentUpdate. destruct (negb _); [done|]. intros Hr. run_inv Hr.
  simpl in Hk. simplify_eq. apply run_map_err_Ok in Hrun. exists a.
  destruct (safe_run _ _ _ (CreateWithToken_safe kid (slice (Opt_Token (TEEP_Options m))) zero_time ms w Hwf))
    as [_ HQ]. rewrite Hrun in HQ. by apply HQ.
Qed.
End collect.

Section update.
Context `{Platform} `{Lib}.
Implicit Types w : World.

Lemma of_component_ext tc d d' m :
  rows (suit_manifests d') = rows (suit_manifests d) → of_component tc d m ↔ of_component tc d' m.
Proof. intros He. unfold of_component. by rewrite He. Qed.

Lemma collected_ext d d' cs ms :
  rows (suit_manifests d') = rows (suit_manifests d) → collected d cs ms → collected d' cs ms.
Proof.
  intros He. induction 1 as [|c cs ms Hno _ IH|c cs r ms [Hc Hmax] _ IH]; [constructor| |].
  - constructor; [|done]. intros m Hm. apply (Hno m). by apply (of_component_ext _ _ _ _ He).
  - constructor; [|done]. split; [by apply (of_component_ext _ _ _ _ He)|].
    intros m' Hm'. apply Hmax. by apply (of_component_ext _ _ _ _ He).
Qed.

Lemma encode_both_spec l1 l2 s1 s2 :
  encode_components l1 [] = Ok s1 → encode_components l2 s1 = Ok s2 →
  NoDup s2 ∧ ∀ x, x ∈ s2 ↔ ∃ c, (c ∈ l1 ∨ c ∈ l2) ∧ Marshal_component_id c = Some x.
Proof.
  intros H1 H2. apply encode_components_spec in H1 as (Hnd1 & Hin1 & _); [|constructor].
  apply encode_components_spec in H2 as (Hnd2 & Hin2 & _); [|done]. split; [done|].
  intros x. rewrite Hin2, Hin1. setoid_rewrite elem_of_nil. naive_solver.
Qed.

(** A revoked agent is never found, whatever happens meanwhile. *)
Lemma FindByKID_revoked a t w :
  wf (w_db w) → a ∈ rows (agents (w_db w)) → Agent_RevokedAt a = Some t →
  safe (λ _ _, False) (AgentRepository_FindByKID (Agent_KID a)) w.
Proof.
  intros Hwf Ha Ht. unfold AgentRepository_FindByKID.
  eapply safe_bind with (Q := λ r _, match r with inl b => Agent_RevokedAt b ≠ None | inr _ => True end).
  - apply safe_try, (safe_select_one (λ (b : Agent) _, Agent_RevokedAt b ≠ None)).
    intros b d d' Hd _ Hb Hk%eqb_bytes_eq.
    assert (seen a (w_db w)) as Hs by by apply seen_in.
    destruct (seen_evolves a _ _ Hwf Hd Hs) as (a' & Ha' & (_ & Hk' & _ & _ & _ & Hr)).
    assert (b = a') as -> by (eapply fmap_NoDup_inj;
      [exact (wf_kid _ (evolves_wf _ _ Hd Hwf))|done|done|congruence]).
    by rewrite (Hr t Ht).
  - intros [b|e] w1 Hw1 Hb; [|apply safe_throw].
    rewrite bool_decide_true by (by apply (Hb (w_db w1))). apply safe_throw.
Qed.

Lemma saveSentUpdate_revoked m a t ms w :
  wf (w_db w) → a ∈ rows (agents (w_db w)) → Agent_RevokedAt a = Some t →
  safe (λ _ _, False) (saveSentUpdate m (Agent_KID a) ms) w.
Proof.
  intros Hwf Ha Ht. unfold saveSentUpdate. destruct (negb _); [apply safe_throw|].
  eapply safe_bind with (Q := λ _ _, False); [|intros ? w' _ HQ; by destruct (HQ (w_db w'))].
  apply safe_map_err. unfold SentUpdateMessageRepository_CreateWithToken.
  eapply safe_bind; [by eapply safe_map_err, FindByKID_revoked|].
  intros ? w' _ HQ. by destruct (HQ (w_db w')).
Qed.

(** The same row, seen later. *)
Lemma revoked_later a t w w' :
  wf (w_db w) → a ∈ rows (agents (w_db w)) → Agent_RevokedAt a = Some t → on_db evolves w w' →
  wf (w_db w') ∧ ∃ a', a' ∈ rows (agents (w_db w')) ∧ Agent_KID a' = Agent_KID a ∧
    Agent_RevokedAt a' = Some t.
Proof.
  intros Hwf Ha Ht He. split; [exact (evolves_wf _ _ He Hwf)|].
  assert (seen a (w_db w)) as Hs by by apply seen_in.
  destruct (seen_evolves a _ _ Hwf He Hs) as (a' & Ha' & (_ & Hk' & _ & _ & _ & Hr)).
  exists a'. split_and!; [done|done|by apply Hr].
Qed.

Lemma processQueryResponse_revoked t incoming sent a tr w :
  wf (w_db w) → a ∈ rows (agents (w_db w)) → Agent_RevokedAt a = Some tr →
  safe (λ o _, o = None) (processQueryResponse t incoming (Agent_KID a) sent) w.
Proof.
  intros Hwf Ha Ht. unfold processQueryResponse. destruct (negb _); [apply safe_throw|].
  apply harmless_bind; [by apply generateToken_harmless|]. intros [tok|] w1 Hw1; [|apply safe_throw].
  apply harmless_bind; [apply harmless_lift|]. intros s1 w2 Hw2.
  apply harmless_bind; [apply harmless_lift|]. intros [|c cs] w3 Hw3; [by apply safe_ret|].
  assert (wf (w_db w3)) by eauto with attestam.
  apply harmless_bind; [by apply collect_manifests_harmless|]. intros [|x ms] w4 Hw4; [by apply safe_ret|].
  apply harmless_bind; [apply safe_map_err, COSESign1Sign_harmless|]. intros resp w5 Hw5.
  assert (on_db evolves w w5) as He by (do 4 (etrans; [eassumption|]); done).
  destruct (revoked_later a tr w w5 Hwf Ha Ht He) as (Hwf5 & a' & Ha' & Hk' & Hr'). rewrite <- Hk'.
  eapply safe_bind; [by eapply safe_map_err, saveSentUpdate_revoked|].
  intros ? w' _ HQ. by destruct (HQ (w_db w')).
Qed.
End update.

(** ** Reports *)

Section reports.
Context `{Platform} `{Lib}.
Implicit Types w : World.

(** The report of the list that the TAM acts on: the ones that decode, are for a SHA-256
    digest of 32 bytes, and report success.  With each, the encoding of the digest. *)
Definition accepted_report (raw : bytes) : option (option bytes * bytes) :=
  match Unmarshal_with Unmarshal_Report raw with
  | Ok report =>
      if report_digest_ok report && report_succeeded report
      then Some (Marshal_digest (Reference_Digest (Report_Reference report)), raw) else None
  | _ => None
  end.

Fixpoint in_sequence (record : option bytes → bytes → M unit) (l : list (option bytes * bytes)) : M unit :=
  match l with
  | [] => mret tt
  | (digest, raw) :: rest => _ ← record digest raw; in_sequence record rest
  end.

(** Decoding a report fails at worst: it does not panic. *)
Lemma unmarshal_records_total l : (∃ rs, unmarshal_records l = Ok rs) ∨ ∃ e, unmarshal_records l = Err e.
Proof.
  induction l as [|d l IH]; simpl; [by left; eexists|].
  unfold RecordOrClaims_UnmarshalCBOR. destruct (cbor_record d); [|destruct (cbor_claims d)]; simpl;
    try (destruct IH as [[rs ->]|[e ->]]; [left|right]; by eexists). right. by eexists.
Qed.

Lemma Unmarshal_Report_total raw :
  (∃ rep, Unmarshal_with Unmarshal_Report raw = Ok rep) ∨
  ∃ e, Unmarshal_with Unmarshal_Report raw = Err e.
Proof.
  unfold Unmarshal_with. destruct (cbor_wellformed raw); [|right; by eexists].
  unfold Unmarshal_Report. destruct (cbor_raw_report raw) as [r|]; simpl; [|right; by eexists].
  destruct (unmarshal_records_total (Raw_Records r)) as [[rs ->]|[e ->]]; simpl; [|right; by eexists].
  destruct (Raw_Result r) as [x|]; simpl; [|left; by eexists].
  unfold TrueOrDetailedResult_UnmarshalCBOR. destruct (cbor_bool x) as [[]|]; simpl;
    [left; by eexists|right; by eexists|].
  destruct (cbor_detailed_result x); simpl; [left|right]; by eexists.
Qed.

Lemma handle_reports_filter record l w :
  run (handle_reports record l) w = run (in_sequence record (omap accepted_report l)) w.
Proof.
  revert w. induction l as [|raw l IH]; intros w; [done|]. cbn [handle_reports omap list_omap].
  rewrite run_bind, run_try. cbn [lift run fst snd]. unfold accepted_report at 1.
  destruct (Unmarshal_Report_total raw) as [[rep ->]|[e ->]]; cbn [run_then]; [|apply IH].
  destruct (report_digest_ok rep); cbn [negb andb]; [|apply IH].
  rewrite run_bind. destruct (report_succeeded rep).
  - cbn [in_sequence]. rewrite run_bind. destruct (run (record _ _) w) as [[]]; simpl; auto.
  - rewrite run_ret. apply IH.
Qed.
End reports.

(** ** Starting a session *)

Section session.
Context `{Reliable} `{Lib}.
Implicit Types w : World.

(** The TAM's key can sign, and the codec can encode. *)
Definition can_sign (key : cose_key) : Prop :=
  (∀ l, ∃ tbs, Marshal_elements l = Some tbs) ∧
  ∃ s alg kid, key_Signer key = Some s ∧ key_AlgorithmOrDefault key = Some alg ∧
    key_Thumbprint key = Some kid ∧ ∀ tbs rnd, ∃ out, Sign1 s alg kid tbs rnd = Some out.

Lemma COSESign1Sign_total m key w :
  can_sign key → (1 ≤ TEEP_Type m ≤ 5)%Z →
  ∃ out, run (TEEPMessage_COSESign1Sign m key) w = (Ok out, tick_draw w) ∧ signed m key out.
Proof.
  intros (Hmar & s & alg & kid & Hs & Ha & Hk & Hsig) Hty.
  assert (∃ tbs, TEEPMessage_MarshalCBOR m = Ok tbs) as [tbs Hm].
  { unfold TEEPMessage_MarshalCBOR.
    repeat match goal with
    | |- context [decoded (Marshal_elements ?l)] =>
        let tbs := fresh "tbs" in destruct (Hmar l) as [tbs ->]
    end.
    repeat (case_match; [by eexists|]).
    repeat match goal with Hn : Z.eqb _ _ = false |- _ => apply Z.eqb_neq in Hn end.
    unfold TEEPTypeQueryRequest, TEEPTypeQueryResponse, TEEPTypeUpdate, TEEPTypeSuccess, TEEPTypeError in *. lia. }
  destruct (Hsig tbs (entropy (w_draws w))) as [out Hout]. exists out.
  split; [|by eexists _, _, _, _, _].
  unfold TEEPMessage_COSESign1Sign, cose_Sign1. rewrite run_bind, Hs. cbn [lift run decoded res_of_option run_then].
  rewrite run_bind, Ha. cbn [lift run decoded res_of_option run_then].
  rewrite run_bind, Hk. cbn [lift run decoded res_of_option run_then].
  rewrite run_bind, Hm. cbn [lift run run_then]. rewrite run_atomically, Hout. done.
Qed.

(** A token just generated is found again. *)
Lemma FindByToken_new wrap v d w :
  ¬ issued (R:=Token) v d → w_db w = rel_set (mkTable (rows (tokens d) ++
      [mkToken (seq (tokens d) + 1) v zero_time zero_time false]) (seq (tokens d) + 1)) d →
  run (map_err wrap (TokenRepository_FindByToken v)) w
    = (Ok (Some (mkToken (seq (tokens d) + 1) v zero_time zero_time false)), with_db (w_db w) (tick_call w)).
Proof.
  intros Hnew Hdb. rewrite run_map_err. unfold TokenRepository_FindByToken, OneTime_FindByValue.
  rewrite run_select_opt_reliable. cbn [fst snd res_map_err]. do 3 f_equal.
  unfold matching. rewrite Hdb, rel_get_set. cbn [rows].
  rewrite filter_app. replace (filter _ (rows (tokens d))) with (@nil Token).
  - rewrite filter_cons_True by (by apply eqb_bytes_eq). done.
  - symmetry. apply elem_of_nil_inv. intros r [Hv%eqb_bytes_eq Hr]%list_elem_of_filter.
    apply Hnew. by exists r.
Qed.

Lemma saveSentQueryRequest_token v items d w :
  ¬ issued (R:=Token) v d → w_db w = rel_set (mkTable (rows (tokens d) ++
      [mkToken (seq (tokens d) + 1) v zero_time zero_time false]) (seq (tokens d) + 1)) d →
  (seq (sent_query_request_messages d) < max_int64)%Z →
  ∃ w', run (saveSentQueryRequest (query_request (Some v) None items)) w = (Ok tt, w') ∧
    w_db w' = rel_set (mkTable (rows (sent_query_request_messages d) ++
      [mkSentQueryRequestMessage (seq (sent_query_request_messages d) + 1) None
         (AttestationRequested items) (TCListRequested items) (Some (seq (tokens d) + 1)%Z) None zero_time])
      (seq (sent_query_request_messages d) + 1)) (w_db w).
Proof.
  intros Hnew Hdb Hseq. unfold saveSentQueryRequest. cbn -[run AttestationRequested TCListRequested].
  unfold SentQueryRequestMessageRepository_CreateWithToken.
  rewrite run_bind, run_map_err, run_bind, (FindByToken_new _ v d) by done.
  cbn [run_then Token_Consumed Token_ID]. unfold SentQueryRequestMessageRepository_Create.
  rewrite run_map_err, run_insert_reliable, insert_row_ok.
  - cbn [fst snd res_map_err run_then]. eexists. rewrite run_ret. split; [done|].
    rewrite Hdb. done.
  - cbn. rewrite Hdb. rewrite andb_true_r. unfold references. cbn.
    rewrite existsb_app. cbn. rewrite Z.eqb_refl, orb_true_r. by destruct foreign_keys.
  - rewrite Hdb. done.
Qed.
End session.

(** ** Properties *)

Section properties.
Context `{Platform} `{Lib}.
Implicit Types w : World.

(** C6: an Update is what it should be, and on record.  It answers a QueryResponse with
    exactly the latest manifest of each component that was asked for or is installed
    and that the repository knows, each component once; it is signed by the TAM and
    carries a token never issued before; and the database links that token to the
    agent and to each of those manifests. *)
Theorem update_is_latest_and_recorded (t : TAM) (incoming : TEEPMessage) (kid : bytes)
    (sent : TEEPMessage) w resp w' :
  wf (w_db w) →
  run (processQueryResponse t incoming kid sent) w = (Ok (Some resp), w') →
  ∃ token components ms updID,
    length token = 32 ∧ ¬ issued (R:=Token) token (w_db w) ∧
    NoDup components ∧
    (∀ x, x ∈ components ↔ ∃ c,
       (c ∈ map Requested_ComponentID (slice (Opt_RequestedTCList (TEEP_Options incoming))) ∨
        c ∈ map SystemComponentID (slice (Opt_TCList (TEEP_Options incoming)))) ∧
       Marshal_component_id c = Some x) ∧
    collected (w_db w) components ms ∧ ms ≠ [] ∧
    signed (update_message token ms) (tamKey t) resp ∧
    update_recorded kid token (map SuitManifest_ID ms) updID (w_db w').
Proof.
  intros Hwf. unfold processQueryResponse. destruct (negb _); [done|]. intros Hr.
  run_inv Hr. destruct a as [token|]; [|done].
  destruct (safe_run _ _ _ (generateToken_harmless w Hwf)) as [He _]. rewrite Hrun in He. simpl in He.
  apply generateToken_Ok in Hrun as (Hlen & Hnew & Hdb).
  run_inv Hk. apply run_lift_Ok in Hrun as [H1 ->]. run_inv Hk0. apply run_lift_Ok in Hrun as [H2 ->].
  pose proof (encode_both_spec _ _ _ _ H1 H2) as [Hnd Hin].
  destruct a0 as [|c cs]; [done|]. run_inv Hk. apply collect_manifests_Ok in Hrun as [Hdb2 Hcol].
  destruct a0 as [|m ms]; [done|]. run_inv Hk0. apply run_map_err_Ok, COSESign1Sign_Ok in Hrun as [Hsig Hdb3].
  run_inv Hk. simpl in Hk0. simplify_eq. match type of Hrun with run _ _ = (Ok ?u, _) => destruct u end.
  apply run_map_err_Ok, saveSentUpdate_Ok in Hrun as [updID Hrec].
  - exists token, (c :: cs), (m :: ms), updID. split_and!; try done.
    + eapply collected_ext; [|exact Hcol]. by rewrite Hdb.
    + by rewrite map_map in Hrec.
  - rewrite Hdb3, Hdb2. by eapply evolves_wf.
Qed.

(** C23: a revoked agent gets no Update any more, whatever runs at the same time: from the
    moment the revocation is in the database, answering its QueryResponse never
    produces a message. *)
Theorem revoked_agent_gets_no_update (t : TAM) (incoming sent : TEEPMessage) (a : Agent) (time : Z)
    (others : list (M (option bytes))) w p ps w' resp :
  wf (w_db w) → a ∈ rows (agents (w_db w)) → Agent_RevokedAt a = Some time →
  Forall (λ q, harmless q w) others →
  rtc sched (processQueryResponse t incoming (Agent_KID a) sent :: others, w) (p :: ps, w') →
  p ≠ Done (Ok (Some resp)).
Proof.
  intros Hwf Ha Ht Hothers Hs ->.
  destruct (sched_rg (on_db evolves) ((λ o _, o = None) :: replicate (length others) (λ _ _, True)) _ _ Hs)
    as [_ Hall].
  - cbn [fst snd]. constructor; [by eapply processQueryResponse_revoked|].
    clear Hs. induction others as [|q qs IH]; simpl; constructor; [by inversion Hothers|].
    apply IH. by inversion Hothers.
  - apply Forall2_cons_inv_r in Hall as (Q & Qs & Hp & _ & [= <- <-]).
    by pose proof (rg_ret_inv (on_db evolves) _ _ w' Hp w' ltac:(reflexivity)).
Qed.

(** The loop over the reports of a Success or Error message acts on exactly the reports
    that decode, are for a SHA-256 digest and report success, in their order; the
    others are skipped, and no report stops the loop. *)
Theorem reports_filtered_in_order (record : option bytes → bytes → M unit) (reports : list bytes) w :
  run (handle_reports record reports) w = run (in_sequence record (omap accepted_report reports)) w.
Proof. apply handle_reports_filter. Qed.

(** Failures are never recorded.  The loop for Error messages has the condition of the
    loop for Success messages, so [RecordManifestProcessingFailure] is only called for
    reports of success: an Error message whose reports are of failures changes nothing. *)
Theorem failure_reports_are_dropped (incoming sent : TEEPMessage) (kid : bytes) w :
  (∀ raw report, raw ∈ slice (Opt_SUITReports (TEEP_Options incoming)) →
     Unmarshal_with Unmarshal_Report raw = Ok report → report_succeeded report = false) →
  run (handleReports updateAgentStatusOnManifestError incoming (Some kid) (Some sent)) w = (Ok None, w).
Proof.
  intros Hf. unfold handleReports. rewrite run_bind, handle_reports_filter.
  replace (omap accepted_report _) with (@nil (option bytes * bytes)); [done|].
  induction (slice _) as [|raw l IH]; [done|]. cbn [omap list_omap]. unfold accepted_report at 1.
  destruct (Unmarshal_with _ raw) as [rep| | |] eqn:Hu.
  - rewrite (Hf raw rep), andb_false_r by (done || left). apply IH. intros. eapply Hf; [by right|done].
  - apply IH. intros. eapply Hf; [by right|done].
  - apply IH. intros. eapply Hf; [by right|done].
  - apply IH. intros. eapply Hf; [by right|done].
Qed.

(** The components of an Update are asked for once each: of the two lists of a
    QueryResponse, every component that can be encoded is kept once, in the order of
    its first occurrence, and a component that cannot be is an error. *)
Theorem components_deduplicated (l : list ComponentID) (out : list bytes) :
  encode_components l [] = Ok out →
  NoDup out ∧ (∀ x, x ∈ out ↔ ∃ c, c ∈ l ∧ Marshal_component_id c = Some x) ∧
  ∀ c, c ∈ l → ∃ x, Marshal_component_id c = Some x.
Proof.
  intros He. apply encode_components_spec in He as (Hnd & Hin & Hall); [|constructor].
  split; [done|]. split; [|done]. intros x. rewrite Hin, elem_of_nil. naive_solver.
Qed.
End properties.

Section start.
Context `{Reliable} `{Lib}.
Implicit Types w : World.

(** A session can always be started: with a database and a random source that work, an
    empty request gets a QueryRequest, signed by the TAM and carrying a fresh token;
    the token is stored unconsumed, and the request on record asks for the list of
    installed components. *)
Theorem session_starts (t : TAM) w :
  can_sign (tamKey t) → (∀ n, entropy n ≠ None) →
  NoDup (draw <$> List.seq (w_draws w) loop_fuel) →
  length (rows (tokens (w_db w))) < loop_fuel →
  (seq (tokens (w_db w)) < max_int64)%Z → (seq (sent_query_request_messages (w_db w)) < max_int64)%Z →
  ∃ token resp w', run (ResolveTEEPMessage t []) w = (Ok (Some resp), w') ∧
    length token = 32 ∧ ¬ issued (R:=Token) token (w_db w) ∧
    signed (query_request (Some token) None (RequestDataItem false true false false)) (tamKey t) resp ∧
    rows (tokens (w_db w')) =
      rows (tokens (w_db w)) ++ [mkToken (seq (tokens (w_db w)) + 1) token zero_time zero_time false] ∧
    rows (sent_query_request_messages (w_db w')) = rows (sent_query_request_messages (w_db w)) ++
      [mkSentQueryRequestMessage (seq (sent_query_request_messages (w_db w)) + 1) None false true
         (Some (seq (tokens (w_db w)) + 1)%Z) None zero_time].
Proof.
  intros Hsign Hent Hnd Hlt Hseq Hseq2. unfold ResolveTEEPMessage, generateQueryRequest.
  destruct (GenerateUnique_run (R:=Token) loop_fuel w Hent) as (v & w1 & Hrun & Hlen & Hv & Hdb);
    [done|by apply fresh_draw|].
  assert (¬ issued (R:=Token) v (w_db w)) as Hnew.
  { intros (r & Hr & Hval). apply Hv. apply list_elem_of_fmap. exists r. split; [done|]. exact Hr. }
  destruct (COSESign1Sign_total (query_request (Some v) None (RequestDataItem false true false false))
    (tamKey t) w1 Hsign) as (resp & Hsig & Hsigned); [done|].
  destruct (saveSentQueryRequest_token v (RequestDataItem false true false false) (w_db w) (tick_draw w1) Hnew Hdb Hseq2)
    as (w2 & Hsave & Hdb2).
  exists v, resp, w2. split_and!; [|done|done|done| |].
  - unfold generateToken, TokenRepository_GenerateUniqueToken.
    rewrite !run_bind, run_try, Hrun. cbn [fst snd run_then]. rewrite run_ret. cbn [run_then].
    rewrite run_bind, run_map_err, Hsig. cbn [fst snd res_map_err run_then].
    rewrite run_bind, run_map_err, Hsave. done.
  - rewrite Hdb2. simpl. by rewrite Hdb.
  - rewrite Hdb2. done.
Qed.
End start.

(** ** Witnesses *)

Definition query_response : TEEPMessage :=
  mkTEEPMessage 2 (options_with None None
    (Some [mkSystemPropertyClaims component None 0; mkSystemPropertyClaims component None 0])
    None (Some (nth_draw 3))) None None 0 0.

Definition sent_message : TEEPMessage :=
  mkTEEPMessage 1 (options_with None None None None (Some (nth_draw 3))) None None 2 0.

Lemma update_is_latest_and_recorded_witness :
  ∃ token ms updID, @collected (w_db queried) [component_bytes] ms ∧ ms ≠ [] ∧
    update_recorded agent_kid token (map SuitManifest_ID ms) updID
      (w_db (run (@processQueryResponse calm lib tam query_response agent_kid sent_message) queried).2).
Proof.
  destruct (@update_is_latest_and_recorded calm lib tam query_response agent_kid sent_message queried
    (tam_key ++ bs [0x82]%Z)
    (run (@processQueryResponse calm lib tam query_response agent_kid sent_message) queried).2 queried_wf)
    as (token & cs & ms & id & _ & _ & Hnd & Hin & Hcol & Hms & _ & Hrec); [by vm_compute|].
  exists token, ms, id. split; [|done].
  assert (cs = [component_bytes]) as <-; [|done].
  assert (∀ x, x ∈ cs ↔ x = component_bytes) as Heq.
  { intros x. rewrite Hin. split.
    - intros (c & [Hc|Hc] & Hx); [by apply not_elem_of_nil in Hc|].
      apply list_elem_of_In in Hc. destruct Hc as [<-|[<-|[]]]; by injection Hx as <-.
    - intros ->. exists component. split; [right; left|done]. }
  destruct cs as [|c [|c2 cs]].
  - by assert (component_bytes ∈ []) as ?%not_elem_of_nil by by apply Heq.
  - f_equal. apply Heq. left.
  - apply NoDup_cons in Hnd as [Hn _]. destruct Hn.
    assert (c = component_bytes) as -> by (apply Heq; left).
    assert (c2 = component_bytes) as -> by (apply Heq; right; left). left.
Defined.

Definition revoked_world : World := (run (@revokeTEEPAgentKey calm agent_kid) queried).2.

Lemma revoked_wf : wf (w_db revoked_world).
Proof.
  unfold revoked_world, revokeTEEPAgentKey.
  exact (evolves_wf _ _ (proj1 (safe_run _ _ _ (@AgentRepository_RevokeByKID_harmless calm agent_kid queried))) queried_wf).
Qed.

Definition revoked_row : Agent :=
  default (mkAgent 0 [] None 0 0 None []) (head (rows (agents (w_db revoked_world)))).

Lemma revoked_agent_gets_no_update_witness :
  ∃ p w', rtc sched ([@processQueryResponse calm lib tam query_response (Agent_KID revoked_row) sent_message],
                     revoked_world) ([p], w') ∧ p ≠ Done (Ok (Some [])).
Proof.
  eexists _, _. match goal with |- ?P ∧ _ => assert P as Hs end.
  { exact (sched_run [] _ [] _). }
  split; [exact Hs|].
  refine (@revoked_agent_gets_no_update calm lib tam query_response sent_message revoked_row 1 [] _ _ [] _ _
    revoked_wf _ _ _ Hs).
  - vm_compute. left.
  - vm_compute. reflexivity.
  - constructor.
Defined.

Lemma failure_reports_are_dropped_witness :
  run (@handleReports lib (@updateAgentStatusOnManifestError calm)
        (mkTEEPMessage 5 (options_with None None None (Some [bad_report]) None) None None 0 1)
        (Some agent_kid) (Some sent_message)) updated = (Ok None, updated).
Proof.
  apply (@failure_reports_are_dropped calm lib). intros raw rep Hraw Hrep.
  apply list_elem_of_singleton in Hraw as ->. vm_compute in Hrep. injection Hrep as <-. reflexivity.
Defined.

Lemma components_deduplicated_witness : NoDup [component_bytes].
Proof. by apply (@components_deduplicated lib [component; component]). Defined.

Lemma session_starts_witness :
  ∃ token resp w', run (@ResolveTEEPMessage calm lib tam []) initial_world = (Ok (Some resp), w') ∧
    rows (tokens (w_db w')) = [mkToken 1 token zero_time zero_time false].
Proof.
  destruct (@session_starts calm calm_reliable lib tam initial_world) as (token & resp & w' & Hr & _ & _ & _ & Ht & _).
  - split; [by eexists|]. eexists _, _, _. split_and!; [done..|]. by eexists.
  - done.
  - apply (bool_decide_unpack _). by vm_compute.
  - vm_compute. lia.
  - by vm_compute.
  - by vm_compute.
  - exists token, resp, w'. split; [exact Hr|exact Ht].
Defined.
