(* ===== verification/Progress.v ===== *)
(** The steps of a conversation succeed: what each call the TAM makes for an honest agent
    needs, and that it returns what it should, with a database and a random source that
    work. *)

From S2P Require Import Prelude GoText Model Db Evolve Total Frame OneTime AgentRepo ManifestRepo.
From S2P Require Import SentRepo StatusRepo Wire Lib Suit Teep Rats Qvl Collateral Verifiers Tam Server.
From S2P Require Import Requests TamFrames Trust ManifestFlow UpdateFlow.

(** ** Calls that do not look at the clock *)

Definition same_clock (w w' : World) : Prop := w_reads w' = w_reads w.

#[export] Instance same_clock_preorder : PreOrder same_clock.
Proof. split; unfold same_clock; [done|congruence]. Qed.

Lemma same_clock_call d w : same_clock w (with_db d (tick_call w)).
Proof. done. Qed.
Lemma same_clock_draw w : same_clock w (tick_draw w).
Proof. done. Qed.
#[export] Hint Resolve same_clock_call same_clock_draw : stays.

Section clock.
Context `{Platform} `{Lib}.

Lemma generateToken_same_clock : stays same_clock generateToken.
Proof.
  unfold generateToken, TokenRepository_GenerateUniqueToken. stays_auto.
  generalize loop_fuel. intros fuel. induction fuel as [|fuel IH]; cbn [OneTime_GenerateUnique].
  { intros w. done. }
  unfold rand_read, OneTime_FindByValue, OneTime_Create. stays_auto.
Qed.

Lemma collect_manifests_same_clock cs : stays same_clock (collect_manifests cs).
Proof.
  induction cs as [|c cs IH]; cbn [collect_manifests]; [intros w; done|].
  unfold SuitManifestRepository_FindLatestByTrustedComponentID. stays_auto.
Qed.
End clock.

(** ** What a step needs *)

(** Enough ids are left in every table a conversation writes. *)
Definition counters (d : DB) : list Z :=
  [seq (agents d); seq (tokens d); seq (challenges d); seq (sent_query_request_messages d);
   seq (sent_update_messages d); seq (sent_manifests_in_update_messages d);
   seq (agent_holding_suit_manifests d); seq (suit_reports d)].

Definition room (n : nat) (d : DB) : Prop := Forall (λ s, (s + Z.of_nat n ≤ max_int64)%Z) (counters d).

Section needs.
Context `{Platform}.

(** The random source yields more distinct values than there are tokens, or challenges. *)
Definition random (w : World) : Prop :=
  (∀ n, entropy n ≠ None) ∧ NoDup (draw <$> List.seq (w_draws w) loop_fuel) ∧
  length (rows (tokens (w_db w))) < loop_fuel ∧ length (rows (challenges (w_db w))) < loop_fuel.

(** The agent is known, not revoked, and does not expire within the next [n] readings of
    the clock. *)
Definition in_force (n : nat) (a : Agent) (w : World) : Prop :=
  a ∈ rows (agents (w_db w)) ∧ Agent_RevokedAt a = None ∧
  ∀ i, i < n → (clock (w_reads w + i) ≤ Agent_ExpiredAt a)%Z.
End needs.

(** A token that a message of the TAM carried, and that nobody has used. *)
Definition awaiting (v : bytes) (d : DB) : Prop :=
  ∃ r, r ∈ rows (tokens d) ∧ Token_Token r = v ∧ Token_Consumed r = false ∧
    ((∃ q, q ∈ rows (sent_query_request_messages d) ∧ SentQueryRequest_TokenID q = Some (Token_ID r)) ∨
     (∃ u, u ∈ rows (sent_update_messages d) ∧ SentUpdate_TokenID u = Token_ID r)).

Section says.
Context `{Lib}.

(** The body is a COSE_Sign1 over [m] that verifies under the key stored for the agent. *)
Definition says (a : Agent) (body : bytes) (m : TEEPMessage) : Prop :=
  body ≠ [] ∧ length (Agent_KID a) = 32 ∧
  ∃ sign1 key pub alg v,
    Sign1_UnmarshalCBOR body = Some sign1 ∧
    Unmarshal_TEEPMessage (slice (Sign1_Payload sign1)) = Ok m ∧
    getKid (Sign1_Unprotected sign1) = Some (Agent_KID a) ∧
    cbor_key (Agent_PublicKey a) = Some key ∧ key_PublicKey key = Some pub ∧
    key_AlgorithmOrDefault key = Some alg ∧ NewVerifier alg pub = Some v ∧
    Sign1_Verify v sign1 = true.
End says.

(** ** Authentication and tokens *)

Section tokens.
Context `{Reliable} `{Lib}.
Implicit Types w : World.

Lemma yields_generateToken w (Q : option bytes → World → Prop) :
  random w → (seq (tokens (w_db w)) < max_int64)%Z →
  (∀ v w', length v = 32 → ¬ issued (R:=Token) v (w_db w) → same_clock w w' →
     w_db w' = rel_set (mkTable (rows (tokens (w_db w)) ++
                [mkToken (seq (tokens (w_db w)) + 1) v zero_time zero_time false])
              (seq (tokens (w_db w)) + 1)) (w_db w) → Q (Some v) w') →
  yields generateToken w Q.
Proof.
  intros (Hent & Hnd & Hlt & _) Hseq HQ.
  destruct (GenerateUnique_run (R:=Token) loop_fuel w Hent) as (v & w1 & Hrun & _);
    [done|by apply fresh_draw|].
  assert (run generateToken w = (Ok (Some v), w1)) as Hg.
  { unfold generateToken, TokenRepository_GenerateUniqueToken. rewrite run_bind, run_try, Hrun. done. }
  exists (Some v), w1. split; [done|]. pose proof (run_stays _ _ _ _ _ generateToken_same_clock Hg).
  apply generateToken_Ok in Hg as (? & ? & ?). auto.
Qed.

(** After a look-up of the agent the clock has been read once. *)
Definition looked_up w : World := tick_clock (with_db (w_db w) (tick_call w)).

Lemma yields_FindByKID a w (Q : Agent → World → Prop) :
  wf (w_db w) → in_force 1 a w → Q (fetched a) (looked_up w) →
  yields (AgentRepository_FindByKID (Agent_KID a)) w Q.
Proof.
  intros Hwf (Ha & Hrev & Hexp) HQ. unfold AgentRepository_FindByKID, select_one.
  apply yields_bind, yields_try. eapply yields_sql.
  - rewrite (head_matching_unique _ _ a); [reflexivity|done|by apply eqb_bytes_eq|].
    intros a' Ha' Hk%eqb_bytes_eq. eapply fmap_NoDup_inj; [exact (wf_kid _ Hwf)|done..].
  - cbn [snd]. rewrite bool_decide_false by (intros Hn; by apply Hn).
    apply yields_bind, yields_time_now. specialize (Hexp 0 ltac:(lia)). rewrite Nat.add_0_r in Hexp.
    rewrite bool_decide_false by (simpl; lia). by apply yields_ret.
Qed.

Lemma yields_tryAuthenticate a body m w (Q : _ → World → Prop) :
  wf (w_db w) → in_force 1 a w → says a body m →
  Q (Some m, Some (Agent_KID a), None) (looked_up w) →
  yields (tryAuthenticateTeepMessage body) w Q.
Proof.
  intros Hwf Hin (_ & Hlen & s & key & pub & alg & v & Hs & Hm & Hk & Hkey & Hpub & Halg & Hv & Hok) HQ.
  unfold tryAuthenticateTeepMessage. rewrite Hs. apply yields_bind. unfold checkSignatureWithKID.
  apply yields_bind, yields_try. eapply yields_lift; [exact Hm|]. rewrite Hk.
  apply yields_bind, yields_try. unfold getTEEPAgentKey. rewrite Hlen, Nat.eqb_refl. cbn [negb].
  apply yields_bind, yields_FindByKID; [done..|].
  eapply yields_lift; [unfold decoded; cbn; rewrite Hkey; reflexivity|].
  rewrite Hpub, Halg, Hv, Hok. by do 2 apply yields_ret.
Qed.

(** What is left of the database when a token has been used. *)
Definition token_used (v : bytes) : DB → DB :=
  update_rows (λ r : Token, eqb_bytes (value r) v && negb (consumed r)) consume.

Lemma token_used_in v r d :
  r ∈ rows (tokens d) → Token_Token r = v → Token_Consumed r = false →
  consume r ∈ rows (tokens (token_used v d)).
Proof using Type.
  intros Hr Hv Hc. simpl. apply list_elem_of_In, in_map_iff. exists r. simpl. rewrite Hc, andb_true_r.
  replace (eqb_bytes _ _) with true by (symmetry; by apply eqb_bytes_eq).
  split; [done|]. by apply list_elem_of_In.
Qed.

Lemma scan_update_row_Some rows result :
  rows ≠ [] ∨ result ≠ None → fold_left scan_update_row rows result ≠ None.
Proof using Type.
  revert result. induction rows as [|[[tok msg] sm] rows IH]; intros result Hn; simpl.
  - by destruct Hn.
  - apply IH. by right.
Qed.

Lemma update_rows_of_not_nil v t u d :
  t ∈ rows (tokens d) → Token_Token t = v → u ∈ rows (sent_update_messages d) →
  SentUpdate_TokenID u = Token_ID t → update_rows_of v d ≠ [].
Proof using Type.
  intros Ht Hv Hu Hid Hn.
  destruct (left_join_not_nil (λ l : SentManifest, Z.eqb (SentManifest_SentUpdateID l) (SentUpdate_ID u)) d)
    as [smium Hsm].
  assert (∃ o, o ∈ match smium with None => [None]
     | Some l => left_join (λ m : SuitManifest, Z.eqb (SuitManifest_ID m) (SentManifest_SuitManifestID l)) d end)
    as [sm Hsm2].
  { destruct smium; [apply left_join_not_nil|eexists; by apply list_elem_of_singleton]. }
  apply (not_elem_of_nil (t, u, sm)). rewrite <- Hn. unfold update_rows_of.
  apply list_elem_of_bind. exists t. split.
  2:{ apply list_elem_of_filter. split; [by apply eqb_bytes_eq|done]. }
  apply list_elem_of_bind. exists u. split.
  2:{ apply list_elem_of_filter. split; [by apply Z.eqb_eq|done]. }
  apply list_elem_of_bind. exists smium. split; [|done].
  apply list_elem_of_bind. exists sm. split; [by apply list_elem_of_singleton|done].
Qed.

Lemma query_rows_not_nil v t q d :
  t ∈ rows (tokens d) → Token_Token t = v → q ∈ rows (sent_query_request_messages d) →
  SentQueryRequest_TokenID q = Some (Token_ID t) →
  mkSentQueryRequestMessageWithToken q t ∈
    (t ← matching (λ t : Token, eqb_bytes (Token_Token t) v) d;
     sqrm ← join (λ m, eqb_id (SentQueryRequest_TokenID m) (Token_ID t)) d;
     [mkSentQueryRequestMessageWithToken sqrm t]).
Proof using Type.
  intros Ht Hv Hq Hid. apply list_elem_of_bind. exists t. split.
  2:{ apply list_elem_of_filter. split; [by apply eqb_bytes_eq|done]. }
  apply list_elem_of_bind. exists q. split; [by apply list_elem_of_singleton|].
  apply list_elem_of_filter. split; [|done]. unfold eqb_id. by rewrite bool_decide_true.
Qed.

(** The message the TAM sent is found again, and carries the token. *)
Lemma yields_searchToken v w (Q : option TEEPMessage → World → Prop) :
  awaiting v (w_db w) →
  (∀ m w', Opt_Token (TEEP_Options m) = Some v → same_clock w w' → w_draws w' = w_draws w →
     w_db w' = token_used v (w_db w) → Q (Some m) w') →
  yields (searchSentMessageWithToken (Some v)) w Q.
Proof.
  intros (r & Hr & Hv & Hc & Hsent) HQ. unfold searchSentMessageWithToken.
  apply yields_bind, yields_try. apply (yields_MarkConsumed (R:=Token) v r); [done..|].
  change (update_rows _ consume (w_db w)) with (token_used v (w_db w)).
  pose proof (token_used_in v r (w_db w) Hr Hv Hc) as Hr'.
  apply yields_bind, yields_try, yields_nil_if_no_rows. cbn [w_db with_db].
  destruct (head _) as [q|] eqn:Hq; [by apply yields_ret, HQ|].
  destruct Hsent as [(q & Hin & Hid)|(u & Hin & Hid)].
  { exfalso. pose proof (query_rows_not_nil v (consume r) q (token_used v (w_db w)) Hr' Hv Hin Hid) as Hn.
    destruct (_ ≫= _); [by apply not_elem_of_nil in Hn|done]. }
  apply yields_bind, yields_try. unfold SentUpdateMessageRepository_FindWithManifestsByToken.
  apply yields_bind, yields_map_err. eapply yields_sql; [reflexivity|]. cbn [snd w_db with_db].
  apply yields_ret.
  destruct (fold_left _ _ None) as [u'|] eqn:Hf; [by apply yields_ret, HQ|].
  exfalso. eapply scan_update_row_Some, Hf. left. by eapply update_rows_of_not_nil.
Qed.
End tokens.

(** ** Recording and sending an Update *)

Section update.
Context `{Reliable} `{Lib}.
Implicit Types w : World.

Lemma references_in {R} `{Relation R} (r : R) id d :
  r ∈ rows (rel_get d) → rel_id r = id → references (R:=R) id d = true.
Proof using Type.
  intros Hr Hid. unfold references. apply implb_true_iff. intros _. apply existsb_exists.
  exists r. split; [by apply list_elem_of_In|by apply Z.eqb_eq].
Qed.

(** A manifest of the repository is found by its id. *)
Lemma yields_FindByID id w (Q : option SuitManifest → World → Prop) :
  (∃ m, m ∈ rows (suit_manifests (w_db w)) ∧ SuitManifest_ID m = id) →
  (∀ m, SuitManifest_ID m = id → (∃ r, r ∈ rows (suit_manifests (w_db w)) ∧ SuitManifest_ID r = id) →
     Q (Some m) (with_db (w_db w) (tick_call w))) →
  yields (SuitManifestRepository_FindByID id) w Q.
Proof.
  intros (m & Hm & Hid) HQ. unfold SuitManifestRepository_FindByID, select_first.
  apply yields_bind, yields_nil_if_no_rows. apply yields_ret.
  destruct (head _) as [r|] eqn:Hh.
  - apply HQ; [|by exists m]. apply head_Some_elem_of in Hh. rewrite sql_order_perm in Hh.
    by apply list_elem_of_filter in Hh as [Hp%Z.eqb_eq _].
  - exfalso. apply head_sql_order_None in Hh. apply (not_elem_of_nil m). rewrite <- Hh.
    apply list_elem_of_filter. split; [by apply Z.eqb_eq|done].
Qed.

Definition in_repository (d : DB) (id : Z) : Prop :=
  ∃ m, m ∈ rows (suit_manifests d) ∧ SuitManifest_ID m = id.

Lemma yields_link_manifests updID ms w :
  (∃ u, u ∈ rows (sent_update_messages (w_db w)) ∧ SentUpdate_ID u = updID) →
  Forall (λ m, in_repository (w_db w) (SuitManifest_ID m)) ms →
  (seq (sent_manifests_in_update_messages (w_db w)) + Z.of_nat (length ms) ≤ max_int64)%Z →
  yields (link_manifests updID ms) w (λ _ _, True).
Proof.
  intros Hu. revert w Hu. induction ms as [|m ms IH]; intros w Hu Hms Hseq; cbn [link_manifests].
  { by apply yields_ret. }
  apply Forall_cons in Hms as [Hm Hms]. cbn [length] in Hseq.
  apply yields_bind. unfold link_manifest. apply yields_bind, yields_map_err, yields_FindByID; [done|].
  intros man Hid (row & Hrow & Hrid). apply yields_bind, yields_map_err, yields_insert.
  - destruct Hu as (u & Hu & Huid). cbn [w_db with_db].
    rewrite (references_in u updID), (references_in row (SuitManifest_ID man)); [done..| |done|done].
    simpl. congruence.
  - simpl. lia.
  - cbv zeta. apply yields_ret. apply IH; [exact Hu|exact Hms|simpl; lia].
Qed.

Lemma yields_saveSentUpdate m a v r ms w :
  wf (w_db w) → in_force 1 a w →
  r ∈ rows (tokens (w_db w)) → Token_Token r = v → Token_Consumed r = false →
  TEEP_Type m = TEEPTypeUpdate → Opt_Token (TEEP_Options m) = Some v →
  Forall (λ m, in_repository (w_db w) (SuitManifest_ID m)) ms →
  (seq (sent_update_messages (w_db w)) < max_int64)%Z →
  (seq (sent_manifests_in_update_messages (w_db w)) + Z.of_nat (length ms) ≤ max_int64)%Z →
  yields (saveSentUpdate m (Agent_KID a) ms) w
    (λ _ w', ∃ u, u ∈ rows (sent_update_messages (w_db w')) ∧ SentUpdate_TokenID u = Token_ID r).
Proof.
  intros Hwf Hin Hr Hv Hc Hty Htok Hms Hsu Hsm. unfold saveSentUpdate. rewrite Hty, Htok. cbn [slice negb Z.eqb].
  apply yields_bind, yields_map_err. unfold SentUpdateMessageRepository_CreateWithToken.
  apply yields_bind, yields_map_err, yields_FindByKID; [done..|].
  apply yields_bind, yields_map_err. unfold TokenRepository_FindByToken, OneTime_FindByValue.
  apply yields_select_opt. cbn [w_db with_db looked_up tick_clock].
  rewrite (head_matching_unique _ _ r); [|done|by apply eqb_bytes_eq|].
  2:{ intros r' Hr' Hv'%eqb_bytes_eq. apply (value_inj (R:=Token) (w_db w)); [done..|]. simpl in *. congruence. }
  rewrite Hc. apply yields_bind, yields_map_err, yields_map_err, yields_insert.
  - cbn [w_db with_db looked_up tick_clock]. destruct Hin as [Ha _].
    by rewrite (references_in a (Agent_ID a)), (references_in r (Token_ID r)).
  - done.
  - cbv zeta. apply yields_bind. eapply yields_Ok.
    + apply yields_link_manifests; [|exact Hms|exact Hsm].
      eexists. split; [simpl; apply elem_of_app; right; by apply list_elem_of_singleton|done].
    + intros [] w' Hrun _. do 2 apply yields_ret. exists (mkSentUpdateMessage (seq (sent_update_messages (w_db w)) + 1) (Agent_ID a) (Token_ID r) zero_time).
      split; [|done].
      assert (sent_update_messages (w_db w') = _) as -> by
        exact (run_leaves SentUpdateMessage _ _ _ _ (link_manifests_moves (same_table SentUpdateMessage) _ _) Hrun).
      simpl. apply elem_of_app. right. by apply list_elem_of_singleton.
Qed.
End update.

(** *** The manifests an Update carries *)

(** One manifest for each of the components that the repository knows, the latest. *)
Definition update_for (d : DB) (cs : list bytes) (rs : list SuitManifest) : Prop :=
  NoDup (SuitManifest_TrustedComponentID <$> rs) ∧ length rs ≤ length cs ∧
  (∀ r, r ∈ rs → SuitManifest_TrustedComponentID r ∈ cs ∧ latest_of (SuitManifest_TrustedComponentID r) d r) ∧
  ∀ c m, c ∈ cs → of_component c d m → c ∈ SuitManifest_TrustedComponentID <$> rs.

Lemma update_for_ext d d' cs rs : suit_manifests d' = suit_manifests d → update_for d' cs rs → update_for d cs rs.
Proof. intros Hd. unfold update_for, latest_of, of_component. by rewrite Hd. Qed.

Lemma collected_update_for d cs ms :
  NoDup cs → collected d cs ms → ∃ rs, ms = map without_digest rs ∧ update_for d cs rs.
Proof.
  intros Hnd Hc. induction Hc as [|c cs ms Hno _ IH|c cs r ms Hlat _ IH].
  - exists []. split; [done|]. split_and!; [constructor|done|by intros r ?%not_elem_of_nil|by intros c m ?%not_elem_of_nil].
  - apply NoDup_cons in Hnd as [Hc Hnd]. destruct (IH Hnd) as (rs & -> & Hnd' & Hlen & Hrs & Hall).
    exists rs. split; [done|]. split_and!; [done|simpl; lia| |].
    + intros r [? ?]%Hrs. split; [by right|done].
    + intros c' m [->|Hc']%elem_of_cons Hm; [by destruct (Hno m)|by eapply Hall].
  - apply NoDup_cons in Hnd as [Hc Hnd]. destruct (IH Hnd) as (rs & -> & Hnd' & Hlen & Hrs & Hall).
    pose proof Hlat as [[_ Hrc] _]. exists (r :: rs). split; [done|]. split_and!.
    + rewrite fmap_cons, NoDup_cons. split; [|done]. intros (r' & Hr' & Hin)%list_elem_of_fmap.
      apply Hc. rewrite <- Hrc, Hr'. by apply Hrs.
    + simpl. lia.
    + intros r' [->|Hr']%elem_of_cons; [rewrite Hrc; split; [by left|done]|].
      destruct (Hrs r' Hr'). split; [by right|done].
    + intros c' m [->|Hc']%elem_of_cons Hm; rewrite fmap_cons; [rewrite Hrc; by left|right; by eapply Hall].
Qed.

Section respond.
Context `{Reliable} `{Lib}.
Implicit Types w : World.

(** The components a QueryResponse names, encoded, each once. *)
Definition asks_for (m : TEEPMessage) (cs : list bytes) : Prop :=
  ∃ s, encode_components (map Requested_ComponentID (slice (Opt_RequestedTCList (TEEP_Options m)))) [] = Ok s ∧
    encode_components (map SystemComponentID (slice (Opt_TCList (TEEP_Options m)))) s = Ok cs.

(** An Update with a fresh token has been signed for the agent and put on record. *)
Definition update_sent (t : TAM) (a : Agent) (d : DB) (token : bytes) (rs : list SuitManifest)
    (resp : bytes) (d' : DB) : Prop :=
  length token = 32 ∧ ¬ issued (R:=Token) token d ∧ awaiting token d' ∧
  signed (update_message token (map without_digest rs)) (tamKey t) resp ∧
  (∃ updID, update_recorded (Agent_KID a) token (map SuitManifest_ID rs) updID d') ∧
  agents d' = agents d ∧ suit_manifests d' = suit_manifests d.

Lemma yields_collect_manifests cs w : yields (collect_manifests cs) w (λ _ _, True).
Proof.
  revert w. induction cs as [|c cs IH]; intros w; cbn [collect_manifests]; [by apply yields_ret|].
  apply yields_bind, yields_map_err. unfold SuitManifestRepository_FindLatestByTrustedComponentID, select_first.
  apply yields_bind, yields_nil_if_no_rows, yields_ret. apply yields_bind.
  eapply yields_weaken; [apply IH|]. intros ms w' _. by apply yields_ret.
Qed.

Lemma room_seq n d s : room (S n) d → s ∈ counters d → (s < max_int64)%Z ∧ (s + Z.of_nat n ≤ max_int64)%Z.
Proof using Type. unfold room. rewrite Forall_forall. intros Hr Hs. specialize (Hr s Hs). simpl in Hr. lia. Qed.

Lemma in_force_later n m a w w' :
  in_force n a w → w_reads w' = w_reads w + m → agents (w_db w') = agents (w_db w) → in_force (n - m) a w'.
Proof using Type.
  intros (Ha & Hr & Hc) Hw Hd. split_and!; [by rewrite Hd|done|]. intros i Hi.
  rewrite Hw. specialize (Hc (m + i) ltac:(lia)). by rewrite Nat.add_assoc in Hc.
Qed.

Lemma in_repository_all ms d :
  (∀ r, r ∈ ms → r ∈ rows (suit_manifests d)) →
  Forall (λ m, in_repository d (SuitManifest_ID m)) (map by_id (map without_digest ms)).
Proof using Type.
  intros Hms. rewrite map_map. apply Forall_map, Forall_forall. intros r Hr. exists r. split; [by apply Hms|done].
Qed.

(** The second half of [processQueryResponse]. *)
Lemma yields_send t a v r rs w :
  can_sign (tamKey t) → wf (w_db w) → in_force 1 a w →
  r ∈ rows (tokens (w_db w)) → Token_Token r = v → Token_Consumed r = false →
  (∀ r, r ∈ rs → r ∈ rows (suit_manifests (w_db w))) →
  (seq (sent_update_messages (w_db w)) < max_int64)%Z →
  (seq (sent_manifests_in_update_messages (w_db w)) + Z.of_nat (length rs) ≤ max_int64)%Z →
  let m := update_message v (map without_digest rs) in
  yields (response ← map_err (λ _, ErrFatal) (TEEPMessage_COSESign1Sign m (tamKey t));
          _ ← map_err (λ _, ErrFatal) (saveSentUpdate m (Agent_KID a) (map by_id (map without_digest rs)));
          mret (Some response)) w
    (λ o w', ∃ resp, o = Some resp ∧ signed m (tamKey t) resp ∧ awaiting v (w_db w') ∧
       (∃ updID, update_recorded (Agent_KID a) v (map SuitManifest_ID rs) updID (w_db w')) ∧
       agents (w_db w') = agents (w_db w) ∧ suit_manifests (w_db w') = suit_manifests (w_db w)).
Proof.
  intros Hsign Hwf Hin Hr Hv Hc Hrs Hsu Hsm m.
  destruct (COSESign1Sign_total m (tamKey t) w Hsign) as (resp & Hsg & Hsigned); [done|].
  apply yields_bind, yields_map_err. exists resp, (tick_draw w). split; [exact Hsg|].
  apply yields_bind, yields_map_err. eapply yields_Ok.
  { apply (yields_saveSentUpdate m a v r _ (tick_draw w)); try done.
    - by apply in_repository_all.
    - by rewrite !length_map. }
  intros [] w3 Hrun (u & Hu & Hut). apply yields_ret. exists resp.
  pose proof (run_leaves Agent _ _ _ _ (saveSentUpdate_moves (same_table Agent) _ _ _) Hrun) as Ha3.
  pose proof (run_leaves SuitManifest _ _ _ _ (saveSentUpdate_moves (same_table SuitManifest) _ _ _) Hrun) as Hm3.
  pose proof (run_leaves Token _ _ _ _ (saveSentUpdate_moves (same_table Token) _ _ _) Hrun) as Ht3.
  simpl in Ha3, Hm3, Ht3. apply saveSentUpdate_Ok in Hrun as [updID Hrec]; [|done].
  split_and!; [done|done| | |congruence|congruence].
  - exists r. split_and!; [by rewrite Ht3|done|done|]. right. by exists u.
  - exists updID. by rewrite !map_map in Hrec.
Qed.

Lemma yields_processQueryResponse t incoming a sent cs w (Q : option bytes → World → Prop) :
  can_sign (tamKey t) → wf (w_db w) → in_force 1 a w → random w → room (S (length cs)) (w_db w) →
  slice (Opt_Token (TEEP_Options incoming)) = slice (Opt_Token (TEEP_Options sent)) →
  asks_for incoming cs → (∃ c m, c ∈ cs ∧ of_component c (w_db w) m) →
  (∀ token rs resp w', update_for (w_db w) cs rs → update_sent t a (w_db w) token rs resp (w_db w') →
     Q (Some resp) w') →
  yields (processQueryResponse t incoming (Agent_KID a) sent) w Q.
Proof.
  intros Hsign Hwf Hin Hrand Hroom Heq (s & Hs & Hcs) (c & m & Hc & Hm) HQ. unfold processQueryResponse.
  replace (eqb_bytes _ _) with true by (symmetry; by apply eqb_bytes_eq). cbn [negb].
  assert (∀ x, x ∈ counters (w_db w) → (x < max_int64)%Z ∧ (x + Z.of_nat (length cs) ≤ max_int64)%Z) as Hsq
    by (intros x; by apply room_seq). clear Hroom.
  apply yields_bind. eapply yields_Ok.
  { apply (yields_generateToken w (λ o w1, ∃ v, o = Some v ∧ same_clock w w1)); [done| |eauto].
    apply Hsq. unfold counters. set_solver. }
  intros o w1 Hrun1 (v & -> & Hck1).
  assert (wf (w_db w1)) as Hwf1.
  { pose proof (safe_run _ _ _ (generateToken_harmless w Hwf)) as [He _]. rewrite Hrun1 in He. by eapply evolves_wf. }
  apply generateToken_Ok in Hrun1 as (Hlen & Hnew & Hdb1).
  apply yields_bind. eapply yields_lift; [exact Hs|]. apply yields_bind. eapply yields_lift; [exact Hcs|].
  destruct (encode_both_spec _ _ _ _ Hs Hcs) as [Hnd _]. destruct cs as [|c0 cs']; [by apply not_elem_of_nil in Hc|].
  set (cs := c0 :: cs') in *.
  apply yields_bind. eapply yields_Ok; [apply yields_collect_manifests|]. intros ms w2 Hrun2 _.
  pose proof (run_stays _ _ _ _ _ (collect_manifests_same_clock cs) Hrun2) as Hck2.
  apply collect_manifests_Ok in Hrun2 as [Hdb2 Hcol]. apply (collected_ext _ (w_db w)) in Hcol; [|by rewrite Hdb1].
  destruct (collected_update_for _ _ _ Hnd Hcol) as (rs & -> & Hfor).
  destruct (Hsq (seq (sent_manifests_in_update_messages (w_db w)))) as [_ Hsm]; [unfold counters; set_solver|].
  destruct (Hsq (seq (sent_update_messages (w_db w)))) as [Hsu _]; [unfold counters; set_solver|].
  pose proof Hfor as (_ & Hle & Hrs & Hall).
  assert (∃ x xs, map without_digest rs = x :: xs) as (x & xs & Hms).
  { destruct rs as [|r rs]; [|by eexists _, _]. pose proof (Hall c m Hc Hm) as Hn. by apply not_elem_of_nil in Hn. }
  rewrite Hms. cbn iota. rewrite <- Hms. clear x xs Hms. rewrite <- Hdb2 in Hdb1, Hwf1.
  eapply yields_weaken.
  - apply (yields_send t a v (mkToken (seq (tokens (w_db w)) + 1) v zero_time zero_time false)); try done.
    + apply (in_force_later 1 0 a w); [done|unfold same_clock in *; lia|by rewrite Hdb1].
    + rewrite Hdb1. simpl. apply elem_of_app. right. by apply list_elem_of_singleton.
    + intros r Hr. rewrite Hdb1. by destruct (Hrs r Hr) as [_ [[? _] _]].
    + by rewrite Hdb1.
    + rewrite Hdb1. simpl in *. lia.
  - rewrite Hdb1. intros o w3 (resp & -> & ? & ? & ? & ? & ?). by apply (HQ v rs).
Qed.
End respond.

(** ** Reports of success *)

Section reports.
Context `{Reliable} `{Lib}.
Implicit Types w : World.

Lemma yields_transaction {A} b c (m : M A) w (Q : A → World → Prop) :
  yields m (tick_call w) (λ a w', Q a (tick_call w')) → yields (transaction b c m) w Q.
Proof.
  intros (a & w1 & Hr & HQ). exists a, (tick_call w1). split; [|done].
  unfold transaction. rewrite run_atomically, no_fault, Hr. by rewrite no_fault.
Qed.

Lemma holding_ok_swap a m d :
  a ∈ rows (agents d) → m ∈ rows (suit_manifests d) →
  holding_ok (Agent_ID a) (SuitManifest_ID m)
    (update_rows (active_holding_of (Agent_ID a) (SuitManifest_TrustedComponentID m) d) delete_holding d) = true.
Proof using Type.
  intros Ha Hm. unfold holding_ok. rewrite (references_in a), (references_in m); [simpl|done..].
  unfold unique. apply negb_true_iff, not_true_iff_false. intros Hex.
  apply existsb_exists in Hex as (h & Hh & Hp). simpl in Hh. apply in_map_iff in Hh as (h0 & <- & _).
  destruct (active_holding_of _ _ _ h0) eqn:Hact; simpl in Hp.
  { by rewrite andb_false_r in Hp. }
  apply andb_true_iff in Hp as [[Ha0 Hm0%Z.eqb_eq]%andb_true_iff Hd0]. unfold active_holding_of in Hact.
  rewrite Ha0, Hd0 in Hact. simpl in Hact. apply not_true_iff_false in Hact. apply Hact, is_manifest_of_spec.
  by exists m.
Qed.

Lemma head_constant {A} (l : list A) x : x ∈ l → (∀ y, y ∈ l → y = x) → head l = Some x.
Proof using Type.
  destruct l as [|y l]; [by intros ?%not_elem_of_nil|]. intros _ Hl. simpl. f_equal. apply Hl. by left.
Qed.

(** No other manifest has the same digest. *)
Definition identified (d : DB) (m : SuitManifest) : Prop :=
  ∀ m', m' ∈ rows (suit_manifests d) → SuitManifest_Digest m' = SuitManifest_Digest m → m' = m.

Lemma yields_ReflectManifestSuccess a m rep w :
  wf (w_db w) → a ∈ rows (agents (w_db w)) → m ∈ rows (suit_manifests (w_db w)) →
  identified (w_db w) m →
  (seq (agent_holding_suit_manifests (w_db w)) < max_int64)%Z → (seq (suit_reports (w_db w)) < max_int64)%Z →
  yields (AgentStatusRepository_ReflectManifestSuccess (Agent_KID a) (Some (SuitManifest_Digest m)) rep) w
    (λ _ w', seq (agent_holding_suit_manifests (w_db w')) = (seq (agent_holding_suit_manifests (w_db w)) + 1)%Z ∧
       seq (suit_reports (w_db w')) = (seq (suit_reports (w_db w)) + 1)%Z).
Proof.
  intros Hwf Ha Hm Hid Hsh Hsr. unfold AgentStatusRepository_ReflectManifestSuccess.
  apply yields_bind, yields_try. eapply yields_sql.
  - cbn [fst]. rewrite (head_constant _ (Agent_ID a, SuitManifest_ID m, SuitManifest_TrustedComponentID m)); [reflexivity|..].
    + apply list_elem_of_bind. exists a. split.
      2:{ apply list_elem_of_filter. split; [by apply eqb_bytes_eq|done]. }
      apply list_elem_of_bind. exists m. split; [by apply list_elem_of_singleton|].
      apply list_elem_of_filter. split; [by apply bool_decide_eq_true|done].
    + intros x (a' & Hx & Ha')%list_elem_of_bind. apply list_elem_of_bind in Hx as (m' & Hx & Hm').
      apply list_elem_of_singleton in Hx as ->.
      apply list_elem_of_filter in Ha' as [Hk%eqb_bytes_eq Ha'].
      apply list_elem_of_filter in Hm' as [[= Hg]%bool_decide_eq_true Hm'].
      rewrite (Hid m' Hm' Hg). assert (a' = a) as ->; [|done].
      eapply fmap_NoDup_inj; [exact (wf_kid _ Hwf)|done..].
  - cbn [snd]. apply yields_transaction. unfold replace_holding.
    apply yields_bind, yields_map_err. eapply yields_sql; [reflexivity|]. cbn [snd w_db with_db tick_call].
    apply yields_bind. unfold current_timestamp. apply yields_bind, yields_time_now, yields_ret.
    apply yields_bind, yields_map_err, yields_insert; [by apply holding_ok_swap|done|]. cbv zeta.
    apply yields_bind, yields_bind, yields_time_now, yields_ret.
    apply yields_bind, yields_map_err, yields_insert.
    + unfold report_ok, references_opt. cbn [w_db with_db tick_clock tick_call].
      by rewrite (references_in a), (references_in m).
    + done.
    + cbv zeta. by apply yields_ret.
Qed.

(** The agent holds the manifest, and no other manifest of its component. *)
Definition installed (a : Agent) (d : DB) (m : SuitManifest) : Prop :=
  (∃ h, holds d h m ∧ Holding_AgentID h = Agent_ID a) ∧
  ∀ h m', holds d h m' → Holding_AgentID h = Agent_ID a →
    SuitManifest_TrustedComponentID m' = SuitManifest_TrustedComponentID m → m' = m.

Lemma ReflectManifestSuccess_installs a m rep w w' :
  wf (w_db w) → a ∈ rows (agents (w_db w)) → identified (w_db w) m →
  run (AgentStatusRepository_ReflectManifestSuccess (Agent_KID a) (Some (SuitManifest_Digest m)) rep) w = (Ok tt, w') →
  installed a (w_db w') m ∧
  ∀ m', SuitManifest_TrustedComponentID m' ≠ SuitManifest_TrustedComponentID m →
    installed a (w_db w) m' → installed a (w_db w') m'.
Proof using Type.
  intros Hwf Ha Hid [(_ & a' & m1 & t1 & t2 & Ha' & Hk & Hm & [= Hg] & Hok & Hs & _ & _ & Hdb)|[? _]]%ReflectManifestSuccess_run;
    [|done].
  assert (m1 = m) as -> by by apply Hid.
  assert (a' = a) as -> by (eapply fmap_NoDup_inj; [exact (wf_kid _ Hwf)|done..]). cbv zeta in Hok, Hdb.
  pose proof (replaced_exact _ _ rep t1 t2 _ Hwf Hm Hok Hs) as Hex. rewrite <- Hdb in Hex. split.
  - split; [eexists; split; [apply Hex; left; done|done]|].
    intros h m' [[-> _]|[_ Hn]]%Hex Hag Ht; [done|by destruct Hn].
  - intros m' Hne [(h & Hh & Hag) Hu]. split.
    + exists h. split; [|done]. apply Hex. right. split; [done|]. by intros [_ ?].
    + intros h' m2 [[-> _]|[Hh' _]]%Hex Hag' Ht; [by destruct Hne|]. by eapply Hu.
Qed.

(** *** All the reports of a message *)

Definition same_tables (d d' : DB) : Prop := agents d' = agents d ∧ suit_manifests d' = suit_manifests d.

Lemma yields_success a m rep w :
  wf (w_db w) → a ∈ rows (agents (w_db w)) → m ∈ rows (suit_manifests (w_db w)) → identified (w_db w) m →
  (seq (agent_holding_suit_manifests (w_db w)) < max_int64)%Z → (seq (suit_reports (w_db w)) < max_int64)%Z →
  yields (updateAgentStatusOnManifestSuccess (Agent_KID a) (Some (SuitManifest_Digest m)) rep) w
    (λ _ w', wf (w_db w') ∧ same_tables (w_db w) (w_db w') ∧
       seq (agent_holding_suit_manifests (w_db w')) = (seq (agent_holding_suit_manifests (w_db w)) + 1)%Z ∧
       seq (suit_reports (w_db w')) = (seq (suit_reports (w_db w)) + 1)%Z ∧ installed a (w_db w') m ∧
       ∀ m', SuitManifest_TrustedComponentID m' ≠ SuitManifest_TrustedComponentID m →
         installed a (w_db w) m' → installed a (w_db w') m').
Proof.
  intros Hwf Ha Hm Hid Hsh Hsr. eapply yields_Ok with
    (Q := λ _ w', ∃ u, run (AgentStatusRepository_ReflectManifestSuccess (Agent_KID a) (Some (SuitManifest_Digest m)) rep) w
        = (Ok u, w') ∧ seq (agent_holding_suit_manifests (w_db w')) = (seq (agent_holding_suit_manifests (w_db w)) + 1)%Z ∧
       seq (suit_reports (w_db w')) = (seq (suit_reports (w_db w)) + 1)%Z).
  - unfold updateAgentStatusOnManifestSuccess. apply yields_bind, yields_try.
    eapply yields_Ok; [by apply yields_ReflectManifestSuccess|].
    intros u w' Hrun [? ?]. apply yields_ret. by exists u.
  - intros [] w' Hrun ([] & Href & Hh & Hr).
    pose proof (run_leaves Agent _ _ _ _ (success_moves (same_table Agent) _ _ _) Hrun) as Hag.
    pose proof (run_leaves SuitManifest _ _ _ _ (success_moves (same_table SuitManifest) _ _ _) Hrun) as Hsm.
    pose proof (safe_run _ _ _ (ReflectManifestSuccess_safe (Agent_KID a) (Some (SuitManifest_Digest m)) rep w Hwf)) as [He _].
    rewrite Href in He. simpl in He.
    destruct (ReflectManifestSuccess_installs a m rep w w') as [? ?]; [done..|].
    split_and!; [by eapply evolves_wf|done..].
Qed.

Lemma yields_in_sequence a rs rs' l w :
  wf (w_db w) → a ∈ rows (agents (w_db w)) →
  (∀ r, r ∈ rs → r ∈ rows (suit_manifests (w_db w)) ∧ identified (w_db w) r) →
  NoDup (SuitManifest_TrustedComponentID <$> rs' ++ rs) →
  (seq (agent_holding_suit_manifests (w_db w)) + Z.of_nat (length rs) ≤ max_int64)%Z →
  (seq (suit_reports (w_db w)) + Z.of_nat (length rs) ≤ max_int64)%Z →
  l.*1 = (λ r, Some (SuitManifest_Digest r)) <$> rs →
  (∀ r, r ∈ rs' → installed a (w_db w) r) →
  yields (in_sequence (updateAgentStatusOnManifestSuccess (Agent_KID a)) l) w
    (λ _ w', ∀ r, r ∈ rs' ++ rs → installed a (w_db w') r).
Proof.
  revert rs rs' w. induction l as [|[dg rep] l IH]; intros [|r rs] rs' w Hwf Ha Hrs Hnd Hh Hr Hl Hdone;
    try done; cbn [in_sequence].
  { apply yields_ret. by rewrite app_nil_r. }
  injection Hl as -> Hl. cbn [length] in Hh, Hr.
  destruct (Hrs r) as [Hm Hid]; [by left|]. apply yields_bind.
  eapply yields_weaken; [apply yields_success; try done; lia|].
  intros _ w' (Hwf' & [Hag Hsm] & Hh' & Hr' & Hins & Hkeep).
  replace (rs' ++ r :: rs) with ((rs' ++ [r]) ++ rs) in Hnd |- * by by rewrite <- app_assoc.
  apply IH; [done|by rewrite Hag| |done|lia|lia|done|].
  - intros r' Hr0. destruct (Hrs r') as [Hm' Hid']; [by right|]. unfold identified. by rewrite Hsm.
  - intros r' [Hr0| ->%list_elem_of_singleton]%elem_of_app; [|done].
    apply Hkeep; [|by apply Hdone]. intros Heq.
    rewrite !fmap_app, <- app_assoc in Hnd. apply NoDup_app in Hnd as (_ & Hd & _).
    apply (Hd (SuitManifest_TrustedComponentID r')); [by apply list_elem_of_fmap_2|].
    rewrite Heq. simpl. by left.
Qed.
End reports.
