(* ===== verification/Session.v ===== *)
(** Whole conversations: an agent that does its part gets the latest manifests, and the TAM
    learns that it has installed them, whatever other requests the server handles between
    its messages. *)

From S2P Require Import Prelude GoText Model Db Evolve Total Frame OneTime AgentRepo ManifestRepo.
From S2P Require Import SentRepo StatusRepo Wire Lib Stub Suit Teep Rats Qvl Collateral Verifiers Tam Server.
From S2P Require Import Requests TamFrames Scenario Trust Service Meanwhile ManifestFlow UpdateFlow Progress.

(** ** Between two messages *)

Section between.
Context `{Platform} `{Lib}.
Implicit Types w : World.

Lemma awaiting_kept v d d' : wf d → evolves d d' → undisturbed v d d' → awaiting v d → awaiting v d'.
Proof.
  intros Hwf He [_ Ht] (r & Hr & Hv & Hc & Hsent). exists r. split_and!; [by apply Ht|done|done|].
  destruct Hsent as [(q & Hq & Hid)|(u & Hu & Hid)]; [left; exists q|right; exists u]; (split; [|done]).
  - assert (seen q d) as Hs by by apply seen_in. by destruct (seen_evolves q d d' Hwf He Hs) as (q' & Hq' & <-).
  - assert (seen u d) as Hs by by apply seen_in. by destruct (seen_evolves u d d' Hwf He Hs) as (u' & Hu' & <-).
Qed.

Lemma manifest_kept (m : SuitManifest) d d' :
  wf d → evolves d d' → m ∈ rows (suit_manifests d) → m ∈ rows (suit_manifests d').
Proof.
  intros Hwf He Hm. assert (seen m d) as Hs by by apply seen_in. by destruct (seen_evolves m d d' Hwf He Hs) as (m' & Hm' & <-).
Qed.

Lemma issued_token_used v v' d : issued (R:=Token) v d → issued (R:=Token) v (token_used v' d).
Proof.
  intros (r & Hr & Hv). eexists. split.
  - simpl. apply list_elem_of_In, in_map_iff. exists r. split; [reflexivity|by apply list_elem_of_In].
  - simpl. by destruct (_ && _).
Qed.

(** What [m] says and what [w] has. *)
Definition valid (n : nat) (a : Agent) (w : World) : Prop :=
  ∀ i, i < n → (clock (w_reads w + i) ≤ Agent_ExpiredAt a)%Z.

(** The agent is known and not revoked. *)
Definition known (a : Agent) (d : DB) : Prop := a ∈ rows (agents d) ∧ Agent_RevokedAt a = None.

Lemma known_valid n a w : known a (w_db w) → valid n a w → in_force n a w.
Proof. intros [? ?] ?. by split_and!. Qed.

End between.

(** ** What an honest agent sends *)

Section honest.
Context `{Lib}.

(** A QueryResponse that carries the token and names the components [cs]. *)
Definition responds (a : Agent) (token body : bytes) (cs : list bytes) : Prop :=
  ∃ m, says a body m ∧ TEEP_Type m = TEEPTypeQueryResponse ∧
    Opt_Token (TEEP_Options m) = Some token ∧ asks_for m cs.

(** A Success that carries the token and reports the installation of each of [rs], in any
    order. *)
Definition reports_success (a : Agent) (token body : bytes) (rs : list SuitManifest) : Prop :=
  ∃ m, says a body m ∧ TEEP_Type m = TEEPTypeSuccess ∧ Opt_Token (TEEP_Options m) = Some token ∧
    (omap accepted_report (slice (Opt_SUITReports (TEEP_Options m)))).*1
      ≡ₚ (λ r, Some (SuitManifest_Digest r)) <$> rs.
End honest.

(** ** The two answers *)

Section answers.
Context `{Reliable} `{Lib}.
Implicit Types w : World.

(** Both start alike: the sender is authenticated, and the token leads to the message it
    answers. *)
Lemma yields_answer t a token body m w (Q : option bytes → World → Prop) :
  wf (w_db w) → in_force 1 a w → awaiting token (w_db w) → says a body m →
  Opt_Token (TEEP_Options m) = Some token →
  (∀ sent w', Opt_Token (TEEP_Options sent) = Some token →
     w_reads w' = w_reads w + 1 → w_draws w' = w_draws w → w_db w' = token_used token (w_db w) →
     yields (if Z.eqb (TEEP_Type m) TEEPTypeQueryResponse then
               handleQueryResponse t body m (Some (Agent_KID a)) (Some sent)
             else if Z.eqb (TEEP_Type m) TEEPTypeSuccess then
               handleReports updateAgentStatusOnManifestSuccess m (Some (Agent_KID a)) (Some sent)
             else if Z.eqb (TEEP_Type m) TEEPTypeError then
               handleReports updateAgentStatusOnManifestError m (Some (Agent_KID a)) (Some sent)
             else throw ErrNotSupported) w' Q) →
  yields (ResolveTEEPMessage t body) w Q.
Proof.
  intros Hwf Hin Haw Hsays Htok HQ. unfold ResolveTEEPMessage. destruct body as [|b body]; [by destruct Hsays|].
  apply yields_bind. eapply yields_tryAuthenticate; [done..|]. cbn [fst snd].
  rewrite bool_decide_true by by left. apply yields_bind. rewrite Htok.
  apply yields_searchToken; [done|]. intros sent w' Hs Hck Hdr Hdb. apply HQ; [done| |done|done].
  unfold same_clock in Hck. simpl in *. lia.
Qed.

Lemma token_used_wf v d : wf d → wf (token_used v d).
Proof using Type. apply evolves_wf. exact (one_time_consume (R:=Token) _ d). Qed.

Lemma random_used v w w' :
  random w → w_draws w' = w_draws w → w_db w' = token_used v (w_db w) → random w'.
Proof using Type.
  intros (? & ? & ? & ?) Hdr Hdb. split_and!; [done|by rewrite Hdr| |by rewrite Hdb].
  rewrite Hdb. simpl. by rewrite length_map.
Qed.

(** A QueryResponse is answered with an Update. *)
Lemma yields_response t a token body cs w (Q : option bytes → World → Prop) :
  can_sign (tamKey t) → wf (w_db w) → in_force 2 a w → awaiting token (w_db w) →
  random w → room (S (length cs)) (w_db w) →
  responds a token body cs → (∃ c m, c ∈ cs ∧ of_component c (w_db w) m) →
  (∀ token' rs resp w', update_for (w_db w) cs rs → update_sent t a (w_db w) token' rs resp (w_db w') →
     Q (Some resp) w') →
  yields (ResolveTEEPMessage t body) w Q.
Proof.
  intros Hsign Hwf Hin Haw Hrand Hroom (m & Hsays & Hty & Htok & Hcs) Hknown HQ.
  eapply yields_answer; [done| |done..|].
  { destruct Hin as (? & ? & Hv). split_and!; [done..|]. intros i Hi. apply Hv. lia. }
  intros sent w' Hsent Hrd Hdr Hdb. rewrite Hty. cbn [Z.eqb]. unfold handleQueryResponse.
  change (Z.eqb TEEPTypeQueryResponse TEEPTypeQueryResponse) with true. cbn iota.
  apply yields_bind, yields_ret. cbn iota beta.
  eapply yields_processQueryResponse; [done| | | | | |exact Hcs| |].
  - rewrite Hdb. by apply token_used_wf.
  - apply (in_force_later 2 1 a w); [done|done|by rewrite Hdb].
  - by eapply random_used.
  - by rewrite Hdb.
  - by rewrite Htok, Hsent.
  - by rewrite Hdb.
  - rewrite Hdb. intros token' rs resp w3 Hfor (Hlen & Hnew & Haw' & Hsig & Hrec & Hag & Hsm).
    apply (HQ token' rs); [done|]. split_and!; try done. intros Hi. by apply Hnew, issued_token_used.
Qed.

(** A Success makes the TAM's records true. *)
Lemma yields_report t a token body rs w :
  wf (w_db w) → in_force 1 a w → awaiting token (w_db w) → room (length rs) (w_db w) →
  NoDup (SuitManifest_TrustedComponentID <$> rs) →
  (∀ r, r ∈ rs → r ∈ rows (suit_manifests (w_db w)) ∧ identified (w_db w) r) →
  reports_success a token body rs →
  yields (ResolveTEEPMessage t body) w (λ o w', o = None ∧ ∀ r, r ∈ rs → installed a (w_db w') r).
Proof.
  intros Hwf Hin Haw Hroom Hnd Hrs (m & Hsays & Hty & Htok & Hrep).
  eapply yields_answer; [done..|]. intros sent w' Hsent Hrd Hdr Hdb. rewrite Hty.
  change (Z.eqb TEEPTypeSuccess TEEPTypeQueryResponse) with false.
  change (Z.eqb TEEPTypeSuccess TEEPTypeSuccess) with true. cbn iota. unfold handleReports.
  apply yields_bind. eapply yields_equiv; [apply handle_reports_filter|].
  apply Permutation_map_inv in Hrep as (rs' & Hl & Hperm).
  assert (∀ x, x ∈ counters (w_db w) → (x + Z.of_nat (length rs') ≤ max_int64)%Z) as Hsq.
  { intros x. rewrite <- (Permutation_length Hperm). unfold room in Hroom. rewrite Forall_forall in Hroom. apply Hroom. }
  eapply yields_weaken; [apply (yields_in_sequence a rs' [])|].
  - rewrite Hdb. by apply token_used_wf.
  - rewrite Hdb. by destruct Hin.
  - rewrite Hdb. intros r Hr. apply Hrs. by rewrite Hperm.
  - simpl. by rewrite <- Hperm.
  - rewrite Hdb. apply Hsq. unfold counters. set_solver.
  - rewrite Hdb. apply Hsq. unfold counters. set_solver.
  - exact Hl.
  - by intros r ?%not_elem_of_nil.
  - intros [] w3 Hall. apply yields_ret. split; [done|]. intros r Hr. apply Hall. by rewrite <- Hperm.
Qed.
End answers.

(** ** An enrolled agent *)

Section enrolled.
Context `{Reliable} `{Lib}.
Implicit Types w : World.

Lemma yields_query t w :
  can_sign (tamKey t) → random w → room 1 (w_db w) →
  yields (ResolveTEEPMessage t []) w (λ o w', ∃ token query, o = Some query ∧
    length token = 32 ∧ ¬ issued (R:=Token) token (w_db w) ∧ awaiting token (w_db w') ∧
    signed (query_request (Some token) None (RequestDataItem false true false false)) (tamKey t) query).
Proof.
  intros Hsign (Hent & Hnd & Hlt & _) Hroom.
  assert (∀ x, x ∈ counters (w_db w) → (x < max_int64)%Z) as Hsq.
  { intros x Hx. by destruct (room_seq 0 (w_db w) x Hroom Hx). }
  destruct (session_starts t w) as (token & query & w' & Hrun & Hlen & Hnew & Hsig & Ht & Hq); try done;
    [apply Hsq; unfold counters; set_solver..|].
  exists (Some query), w'. split; [done|]. exists token, query. split_and!; try done.
  eexists. split; [rewrite Ht; apply elem_of_app; right; by apply list_elem_of_singleton|].
  split_and!; [done|done|]. left. eexists. split; [rewrite Hq; apply elem_of_app; right; by apply list_elem_of_singleton|done].
Qed.

Lemma empty_request_keeps_agents t w r w' :
  run (ResolveTEEPMessage t []) w = (r, w') → agents (w_db w') = agents (w_db w).
Proof using Type.
  intros Hrun. assert (leaves Agent (ResolveTEEPMessage t [])) as Hl.
  { pose proof (generateQueryRequest_moves (same_table Agent)). unfold ResolveTEEPMessage. moves_auto. }
  exact (run_leaves Agent _ _ _ _ Hl Hrun).
Qed.

(** What the TAM promises once it has sent an Update with this token: a report of success
    makes its records say that the agent has installed the manifests. *)
Definition expects_report (t : TAM) (a : Agent) (token : bytes) (rs : list SuitManifest) (w : World) : Prop :=
  ∀ w' body, meanwhile t token w w' →
    valid 1 a w' → room (length rs) (w_db w') → (∀ r, r ∈ rs → identified (w_db w') r) →
    reports_success a token body rs →
    yields (ResolveTEEPMessage t body) w' (λ o w'', o = None ∧ ∀ r, r ∈ rs → installed a (w_db w'') r).

(** What an Update for the components [cs] is, sent when the database was [d]. *)
Definition updates (t : TAM) (a : Agent) (cs : list bytes) (d : DB) (o : option bytes) (w : World) : Prop :=
  ∃ token rs update, o = Some update ∧
    length token = 32 ∧ ¬ issued (R:=Token) token d ∧ awaiting token (w_db w) ∧
    update_for d cs rs ∧ signed (update_message token (map without_digest rs)) (tamKey t) update ∧
    expects_report t a token rs w.

(** ... and what it promises once it has sent a QueryRequest. *)
Definition expects_response (t : TAM) (a : Agent) (token : bytes) (w : World) : Prop :=
  ∀ w' body cs, meanwhile t token w w' →
    valid 2 a w' → random w' → room (S (length cs)) (w_db w') →
    (∃ c m, c ∈ cs ∧ of_component c (w_db w') m) →
    responds a token body cs →
    yields (ResolveTEEPMessage t body) w' (updates t a cs (w_db w')).

Lemma update_expects_report t a cs d token rs w :
  wf (w_db w) → known a (w_db w) → update_for d cs rs → awaiting token (w_db w) →
  suit_manifests (w_db w) = suit_manifests d →
  expects_report t a token rs w.
Proof.
  intros Hwf [Ha Hrev] (Hnd & _ & Hrs & _) Haw Hsm w' body Hmw Hv Hroom Hid Hrep.
  pose proof (meanwhile_evolves t token w w' Hwf Hmw) as He. pose proof (meanwhile_undisturbed t token w w' Hmw) as Hu.
  apply (yields_report t a token); try done.
  - by eapply evolves_wf.
  - apply known_valid; [|done]. split; [by apply Hu|done].
  - by apply (awaiting_kept token (w_db w)).
  - intros r Hr. split; [|by apply Hid]. eapply manifest_kept; [exact Hwf|exact He|].
    rewrite Hsm. by destruct (Hrs r Hr) as [_ [[? _] _]].
Qed.

Lemma query_expects_response t a token w :
  can_sign (tamKey t) → wf (w_db w) → known a (w_db w) → awaiting token (w_db w) →
  expects_response t a token w.
Proof.
  intros Hsign Hwf Hkn Haw w' body cs Hmw Hv Hrand Hroom Hknown Hresp.
  pose proof (meanwhile_evolves t token w w' Hwf Hmw) as He. pose proof (meanwhile_undisturbed t token w w' Hmw) as Hu.
  assert (wf (w_db w')) as Hwf' by by eapply evolves_wf.
  assert (known a (w_db w')) as Hkn' by (destruct Hkn; split; [by apply Hu|done]).
  eapply yields_Ok.
  - apply (yields_response t a token body cs w') with (Q := λ o w3, ∃ token' rs resp, o = Some resp ∧
      update_for (w_db w') cs rs ∧ update_sent t a (w_db w') token' rs resp (w_db w3)); try done.
    + by apply known_valid.
    + by apply (awaiting_kept token (w_db w)).
    + intros token' rs resp w3 ? ?. by exists token', rs, resp.
  - intros o w3 Hrun (token' & rs & resp & -> & Hfor & Hsent).
    pose proof (safe_run _ _ _ (ResolveTEEPMessage_harmless t body w' Hwf')) as [He3 _].
    rewrite Hrun in He3. pose proof Hsent as (? & ? & ? & ? & ? & Hag & Hsm).
    exists token', rs, resp. split_and!; try done.
    eapply update_expects_report; [by eapply evolves_wf| |exact Hfor|done|done].
    destruct Hkn'. split; [by rewrite Hag|done].
Qed.
End enrolled.

(** ** Properties *)

Section properties.
Context `{Reliable} `{Lib}.
Implicit Types w : World.

(** C4: a conversation with an enrolled agent that does its part always succeeds, whatever
    other requests the server handles in between, interleaved step by step, as long as
    none of them carries the token of the conversation.  An empty request gets a signed
    QueryRequest with a fresh token; the agent's signed QueryResponse with that token gets
    an Update, signed, with another fresh token, that carries the latest manifest of each
    component it names and the TAM has; and after the Success that reports their
    installation, the TAM's records say that the agent holds exactly those manifests of
    those components. *)
Theorem honest_agent_is_updated (t : TAM) (a : Agent) w :
  can_sign (tamKey t) → wf (w_db w) → known a (w_db w) → random w → room 1 (w_db w) →
  yields (ResolveTEEPMessage t []) w (λ o w', ∃ token query,
    o = Some query ∧ length token = 32 ∧ ¬ issued (R:=Token) token (w_db w) ∧ awaiting token (w_db w') ∧
    signed (query_request (Some token) None (RequestDataItem false true false false)) (tamKey t) query ∧
    expects_response t a token w').
Proof.
  intros Hsign Hwf Hkn Hrand Hroom. eapply yields_Ok; [by apply yields_query|].
  intros o w' Hrun (token & query & -> & ? & ? & Haw & ?).
  pose proof (safe_run _ _ _ (ResolveTEEPMessage_harmless t [] w Hwf)) as [He _]. rewrite Hrun in He.
  exists token, query. split_and!; try done. apply query_expects_response; [done|by eapply evolves_wf| |done].
  destruct Hkn as [Ha Hrev]. split; [|done].
  by rewrite (empty_request_keeps_agents t w _ _ Hrun).
Qed.
End properties.

(** ** Witness *)

(** The tokens of a database that are awaited. *)
Definition awaited (d : DB) : list bytes :=
  Token_Token <$> filter (λ r : Token, negb (Token_Consumed r) &&
    (existsb (λ q, bool_decide (SentQueryRequest_TokenID q = Some (Token_ID r))) (rows (sent_query_request_messages d)) ||
     existsb (λ u, Z.eqb (SentUpdate_TokenID u) (Token_ID r)) (rows (sent_update_messages d))) = true) (rows (tokens d)).

Lemma awaiting_awaited v d l : awaited d = l → awaiting v d → v ∈ l.
Proof.
  intros <- (r & Hr & <- & Hc & Hs). apply list_elem_of_fmap_2, list_elem_of_filter. split; [|done].
  rewrite Hc. simpl. apply orb_true_iff. destruct Hs as [(q & Hq & Hid)|(u & Hu & Hid)]; [left|right].
  - apply existsb_exists. exists q. split; [by apply list_elem_of_In|by apply bool_decide_eq_true].
  - apply existsb_exists. exists u. split; [by apply list_elem_of_In|by apply Z.eqb_eq].
Qed.

(** The agent of the scenario, once the repository has a manifest; before each of its
    messages the server answers somebody else's request. *)
Definition device : Agent :=
  mkAgent 1 agent_kid None 0 (365 * 24 * hour) None agent_key.
Definition list_request : Request :=
  mkRequest "GET" "/SUITManifestService/ListManifests" "application/cbor" "" (mkBody [] false false).
Definition somebody (w : World) : World := (run (@ServeHTTP calm lib tam list_request) w).2.

Definition opened : World := (run (@ResolveTEEPMessage calm lib tam []) (with_manifest enrolled)).2.
Definition responded : World := (run (@ResolveTEEPMessage calm lib tam response_body) (somebody opened)).2.
Definition reported : World := (run (@ResolveTEEPMessage calm lib tam success_body) (somebody responded)).2.

Lemma somebody_meanwhile v w : @meanwhile calm lib tam v w (somebody w).
Proof.
  exists [list_request], [Done (run (@ServeHTTP calm lib tam list_request) w).1]. split.
  - constructor; [|constructor]. by intros [? _].
  - exact (sched_run [] (@ServeHTTP calm lib tam list_request) [] w).
Qed.

(** The only manifest of the repository. *)
Definition manifest_row : SuitManifest := mkSuitManifest 1 envelope manifest_digest 1 component_bytes 3 zero_time.

Lemma update_for_one d c r rs :
  rows (suit_manifests d) = [r] → SuitManifest_TrustedComponentID r = c → update_for d [c] rs → rs = [r].
Proof.
  intros Hd Hc (Hnd & Hlen & Hrs & Hall).
  assert (∀ r', r' ∈ rs → r' = r) as Hone.
  { intros r' Hr'. destruct (Hrs r' Hr') as [_ [[Hin _] _]]. rewrite Hd in Hin. by apply list_elem_of_singleton in Hin. }
  destruct rs as [|r1 [|r2 rs]]; [|by rewrite (Hone r1) by left|simpl in Hlen; lia].
  assert (c ∈ @nil bytes) as Hn; [|by apply not_elem_of_nil in Hn].
  apply (Hall c r); [by left|]. split; [rewrite Hd; by left|done].
Qed.

Definition success_message : TEEPMessage :=
  mkTEEPMessage 4 (options_with None None None (Some [good_report; bad_report]) (Some (nth_draw 5))) None None 0 0.

Lemma tam_can_sign : @can_sign lib tam_key.
Proof. split; [by eexists|]. eexists _, _, _. split_and!; [done..|]. by eexists. Qed.

Lemma device_says body payload m :
  body ≠ [] → Sign1_UnmarshalCBOR (Lib:=lib) body = Some (signed_by agent_key agent_kid payload) →
  @Unmarshal_TEEPMessage lib payload = Ok m → @says lib device body m.
Proof.
  intros Hb Hs Hm. split; [done|]. split; [by vm_compute|].
  eexists _, agent_key, _, _, _. split_and!; [exact Hs|exact Hm|..]; by vm_compute.
Qed.

Ltac random_solve :=
  split_and!; [by intros n|apply (bool_decide_unpack _); by vm_compute|vm_compute; lia|vm_compute; lia].
Ltac room_solve := apply (bool_decide_unpack _); by vm_compute.

Lemma honest_agent_is_updated_witness :
  ∃ m, SuitManifest_TrustedComponentID m = component_bytes ∧
    SuitManifest_Digest m = manifest_digest ∧ installed device (w_db reported) m.
Proof.
  destruct (@honest_agent_is_updated calm calm_reliable lib tam device (with_manifest enrolled))
    as (o1 & w1 & Hr1 & token & query & -> & _ & _ & Haw & _ & Hresp).
  - exact tam_can_sign.
  - apply with_manifest_wf, enrolled_wf.
  - split; [vm_compute; left|done].
  - random_solve.
  - room_solve.
  - assert (w1 = opened) as -> by (unfold opened; by rewrite Hr1). clear Hr1.
    assert (token = nth_draw 3) as ->.
    { eapply awaiting_awaited in Haw; [|vm_compute; reflexivity]. by apply list_elem_of_singleton in Haw. }
    destruct (Hresp (somebody opened) response_body [component_bytes]) as (o2 & w2 & Hr2 & token' & rs & u & -> & _ & _ & Haw' & Hfor & _ & Hrep).
    + apply somebody_meanwhile.
    + intros i Hi. destruct i as [|[|i]]; [by vm_compute..|lia].
    + random_solve.
    + room_solve.
    + eexists component_bytes, _. split; [left|]. split; [vm_compute; left|by vm_compute].
    + exists query_response. split_and!; [eapply device_says; [done|by vm_compute..]|done|by vm_compute|].
      eexists. split; by vm_compute.
    + assert (w2 = responded) as -> by (unfold responded; by rewrite Hr2). clear Hr2.
      assert (token' = nth_draw 5) as ->.
      { eapply awaiting_awaited in Haw'; [|vm_compute; reflexivity]. by apply list_elem_of_singleton in Haw'. }
      assert (rs = [manifest_row]) as ->.
      { apply (update_for_one (w_db (somebody opened)) component_bytes); [by vm_compute|done|done]. }
      destruct (Hrep (somebody responded) success_body) as (o3 & w3 & Hr3 & _ & Hins).
      * apply somebody_meanwhile.
      * intros i Hi. destruct i as [|i]; [by vm_compute|lia].
      * room_solve.
      * intros r ->%list_elem_of_singleton m Hm _. vm_compute in Hm. by apply list_elem_of_singleton in Hm.
      * exists success_message. split_and!; [eapply device_says; [done|by vm_compute..]|done|by vm_compute|by vm_compute].
      * assert (w3 = reported) as -> by (unfold reported; by rewrite Hr3).
        exists manifest_row. split_and!; [done|done|]. apply Hins. left.
Defined.
