(* ===== verification/Onboarding.v ===== *)
(** How a device the TAM has never heard of gets its software: the conversation in which it
    is asked for evidence, enrolled, and sent its first Update. *)

From S2P Require Import Prelude GoText Model Db Evolve Total Frame OneTime AgentRepo ManifestRepo.
From S2P Require Import SentRepo StatusRepo Wire Lib Stub Suit Teep Rats Qvl Collateral Verifiers Tam Server.
From S2P Require Import Requests TamFrames Scenario Trust Service Meanwhile ManifestFlow UpdateFlow Progress Session.

(** ** Challenges *)

Section challenges.
Context `{Reliable} `{Lib}.
Implicit Types w : World.

Definition new_challenge (v : bytes) (d : DB) : DB :=
  rel_set (mkTable (rows (challenges d) ++
             [mkChallenge (seq (challenges d) + 1) v zero_time zero_time false])
           (seq (challenges d) + 1)) d.

Lemma yields_generateChallenge w (Q : option bytes → World → Prop) :
  random w → (seq (challenges (w_db w)) < max_int64)%Z →
  (∀ v w', length v = 32 → ¬ issued (R:=Challenge) v (w_db w) → w_db w' = new_challenge v (w_db w) →
     Q (Some v) w') →
  yields generateChallenge w Q.
Proof.
  intros (Hent & Hnd & _ & Hlt) Hseq HQ.
  destruct (GenerateUnique_run (R:=Challenge) loop_fuel w Hent) as (v & w1 & Hrun & _);
    [done|by apply fresh_draw|].
  apply yields_bind, yields_try. exists v, w1. split; [exact Hrun|]. apply yields_ret.
  apply (GenerateUnique_Ok Challenge) in Hrun as (? & ? & ?). by apply HQ.
Qed.

Lemma yields_saveSentQueryRequest v items d w (Q : unit → World → Prop) :
  ¬ issued (R:=Challenge) v d → w_db w = new_challenge v d →
  (seq (sent_query_request_messages d) < max_int64)%Z →
  (∀ w', pending v (w_db w') → Q tt w') →
  yields (saveSentQueryRequest (query_request None (Some v) items)) w Q.
Proof.
  intros Hnew Hdb Hseq HQ. unfold saveSentQueryRequest. cbn -[AttestationRequested TCListRequested].
  set (r := mkChallenge (seq (challenges d) + 1) v zero_time zero_time false).
  assert (r ∈ rows (challenges (w_db w))) as Hr.
  { rewrite Hdb. simpl. apply elem_of_app. right. by apply list_elem_of_singleton. }
  apply yields_bind, yields_map_err. unfold SentQueryRequestMessageRepository_CreateWithChallenge.
  apply yields_bind, yields_map_err. unfold ChallengeRepository_FindByChallenge, OneTime_FindByValue.
  apply yields_select_opt. rewrite (head_matching_unique _ _ r); [|done|by apply eqb_bytes_eq|].
  2:{ intros r' Hr' Hv%eqb_bytes_eq. rewrite Hdb in Hr'. simpl in Hr'.
      apply elem_of_app in Hr' as [Hr'| ->%list_elem_of_singleton]; [|done].
      destruct Hnew. by exists r'. }
  cbn [Challenge_Consumed r]. unfold SentQueryRequestMessageRepository_Create.
  apply yields_map_err, yields_insert.
  - cbn. unfold references_opt. by rewrite (references_in r).
  - cbn [w_db with_db]. by rewrite Hdb.
  - cbv zeta. apply yields_ret, HQ. exists r. eexists. split_and!; [done|done|done| |].
    + simpl. apply elem_of_app. right. by apply list_elem_of_singleton.
    + done.
Qed.

Lemma yields_attestation_request t w (Q : bytes → World → Prop) :
  can_sign (tamKey t) → random w → room 1 (w_db w) →
  (∀ c query w', length c = 32 → ¬ issued (R:=Challenge) c (w_db w) → pending c (w_db w') →
     signed (query_request None (Some c) (RequestDataItem true false false false)) (tamKey t) query →
     Q query w') →
  yields (generateQueryRequestWithAttestation t) w Q.
Proof.
  intros Hsign Hrand Hroom HQ.
  assert (∀ x, x ∈ counters (w_db w) → (x < max_int64)%Z) as Hsq.
  { intros x Hx. by destruct (room_seq 0 (w_db w) x Hroom Hx). }
  unfold generateQueryRequestWithAttestation. apply yields_bind, yields_generateChallenge; [done| |].
  { apply Hsq. unfold counters. set_solver. }
  intros c w1 Hlen Hnew Hdb1.
  destruct (COSESign1Sign_total (query_request None (Some c) (RequestDataItem true false false false))
    (tamKey t) w1 Hsign) as (query & Hsg & Hsigned); [done|].
  apply yields_bind, yields_map_err. exists query, (tick_draw w1). split; [exact Hsg|].
  apply yields_bind, yields_map_err, (yields_saveSentQueryRequest c _ (w_db w)); [done|done| |].
  { apply Hsq. unfold counters. set_solver. }
  intros w2 Hp. by eapply yields_ret, HQ.
Qed.

(** The message that a challenge answers is found, and carries no token. *)
Lemma yields_searchChallenge c w (Q : option TEEPMessage → World → Prop) :
  pending c (w_db w) →
  (∀ m w', Opt_Token (TEEP_Options m) = None → w_reads w' = w_reads w → w_draws w' = w_draws w →
     w_db w' = update_rows (λ r : Challenge, eqb_bytes (value r) c && negb (consumed r)) consume (w_db w) →
     Q (Some m) w') →
  yields (searchSentMessageWithChallenge (Some c)) w Q.
Proof.
  intros (r & q & Hr & Hv & Hc & Hq & Hid) HQ. unfold searchSentMessageWithChallenge.
  apply yields_bind, yields_try. apply (yields_MarkConsumed (R:=Challenge) c r); [done..|].
  apply yields_bind, yields_try, yields_nil_if_no_rows. cbn [w_db with_db].
  destruct (head _) as [q'|] eqn:Hh; [by apply yields_ret, HQ|]. exfalso.
  assert (mkSentQueryRequestMessageWithChallenge q (consume r) ∈ @nil SentQueryRequestMessageWithChallenge) as Hn;
    [|by apply not_elem_of_nil in Hn].
  destruct (_ ≫= _) as [|x l] eqn:Hl; [|done]. rewrite <- Hl.
  apply list_elem_of_bind. exists (consume r). split.
  - apply list_elem_of_bind. exists q. split; [by apply list_elem_of_singleton|].
    apply list_elem_of_filter. split; [|done]. unfold eqb_id. by rewrite bool_decide_true.
  - apply list_elem_of_filter. split; [by apply eqb_bytes_eq|]. simpl. apply list_elem_of_In, in_map_iff.
    exists r. simpl. rewrite Hc, andb_true_r.
    replace (eqb_bytes _ _) with true by (symmetry; by apply eqb_bytes_eq).
    split; [done|]. by apply list_elem_of_In.
Qed.
End challenges.

(** ** Strangers *)

Section stranger.
Context `{Reliable} `{Lib}.
Implicit Types w : World.

Definition unknown (kid : bytes) (d : DB) : Prop := ¬ ∃ a, a ∈ rows (agents d) ∧ Agent_KID a = kid.

(** The body is a COSE_Sign1 over [m] that names the key id [kid]. *)
Definition claims_kid (kid body : bytes) (m : TEEPMessage) : Prop :=
  body ≠ [] ∧ ∃ sign1, Sign1_UnmarshalCBOR body = Some sign1 ∧
    Unmarshal_TEEPMessage (slice (Sign1_Payload sign1)) = Ok m ∧ getKid (Sign1_Unprotected sign1) = Some kid.

Lemma unknown_no_match kid d : unknown kid d → matching (λ a : Agent, eqb_bytes (Agent_KID a) kid) d = [].
Proof using Type.
  intros Hu. unfold matching. apply elem_of_nil_inv. intros a [Hk%eqb_bytes_eq Ha]%list_elem_of_filter.
  apply Hu. by exists a.
Qed.

(** Only the database has been asked. *)
Definition same_but_calls (w w' : World) : Prop :=
  w_db w' = w_db w ∧ w_reads w' = w_reads w ∧ w_draws w' = w_draws w ∧ w_files w' = w_files w.

Lemma yields_stranger kid body m w (Q : _ → World → Prop) :
  claims_kid kid body m → unknown kid (w_db w) →
  (∀ w', same_but_calls w w' → Q (Some m, None, Some ErrNotAuthenticated) w') →
  yields (tryAuthenticateTeepMessage body) w Q.
Proof.
  intros (_ & s & Hs & Hm & Hk) Hu HQ. unfold tryAuthenticateTeepMessage. rewrite Hs. apply yields_bind.
  unfold checkSignatureWithKID. apply yields_bind, yields_try. eapply yields_lift; [exact Hm|]. rewrite Hk.
  apply yields_bind. unfold getTEEPAgentKey. destruct (Nat.eqb _ _); cbn [negb].
  - exists (inr ErrNotFound), (with_db (w_db w) (tick_call w)). split.
    + rewrite run_try, run_bind. unfold AgentRepository_FindByKID, select_one.
      rewrite run_bind, run_try, run_sql_reliable. cbn [fst snd]. by rewrite unknown_no_match.
    + by apply yields_ret, yields_ret, HQ.
  - eexists (inr _), w. split; [reflexivity|]. by apply yields_ret, yields_ret, HQ.
Qed.

(** A QueryResponse with a token of the TAM, from a device it does not know, is answered
    with a request for evidence. *)
Lemma yields_introduction t kid token body m w (Q : option bytes → World → Prop) :
  can_sign (tamKey t) → random w → room 1 (w_db w) → awaiting token (w_db w) →
  claims_kid kid body m → unknown kid (w_db w) →
  TEEP_Type m = TEEPTypeQueryResponse → Opt_Token (TEEP_Options m) = Some token →
  (∀ c query w', length c = 32 → ¬ issued (R:=Challenge) c (w_db w) → pending c (w_db w') →
     signed (query_request None (Some c) (RequestDataItem true false false false)) (tamKey t) query →
     Q (Some query) w') →
  yields (ResolveTEEPMessage t body) w Q.
Proof.
  intros Hsign Hrand Hroom Haw Hcl Hu Hty Htok HQ. unfold ResolveTEEPMessage.
  destruct body as [|b body]; [by destruct Hcl|].
  apply yields_bind, (yields_stranger kid _ m); [done..|]. intros w1 (Hdb1 & Hrd1 & Hdr1 & _).
  rewrite bool_decide_true by by right. apply yields_bind. rewrite Htok.
  apply yields_searchToken; [by rewrite Hdb1|]. intros sent w2 _ Hck Hdr Hdb. rewrite Hty.
  change (Z.eqb TEEPTypeQueryResponse TEEPTypeQueryResponse) with true. cbn iota. unfold handleQueryResponse.
  rewrite Hdb1 in Hdb. apply yields_bind, yields_attestation_request; [done| | |].
  - apply (random_used token w); [done|congruence|done].
  - by rewrite Hdb.
  - rewrite Hdb. intros c query w3 ? ? ? ?. by eapply yields_ret, HQ.
Qed.
End stranger.

(** ** Evidence *)

Section evidence.
Context `{Reliable} `{Lib}.
Implicit Types w : World.

(** The message carries evidence for the key and the challenge, and is signed by that key;
    and a verifier affirms the evidence. *)
Definition attests (t : TAM) (body kid : bytes) (m : TEEPMessage) (challenge : bytes) (key : cose_key) (w : World) : Prop :=
  TEEP_Type m = TEEPTypeQueryResponse ∧ Opt_Token (TEEP_Options m) = None ∧
  claims_kid kid body m ∧ key_Thumbprint key = Some kid ∧ length kid = 32 ∧
  (∃ pk, Marshal_key key = Some pk) ∧ verifyCOSESignature body key = Ok tt ∧
  ∃ payload, Opt_AttestationPayload (TEEP_Options m) = Some payload ∧
    let format := Opt_AttestationPayloadFormat (TEEP_Options m) in
    ∀ w', w_db w' = w_db w → w_files w' = w_files w →
    yields (submitAttestationPayload t format payload) w' (λ '(verdict, backend) _,
      EqualFold (EarStatus verdict) "affirming" = true ∧
      (requiresAttestedAgentKey (default "" format) = true ∨ backend = VerifierBackendIntelQVL) ∧
      ∃ result, populateClaims backend (default "" format) verdict payload = Ok result ∧
        EqualFold (EarStatus result) "affirming" = true ∧
        AttestationNonce result = Some challenge ∧ AttestationKey result = Some key).

Lemma attests_same t body kid m challenge key w w' :
  same_but_calls w w' → attests t body kid m challenge key w → attests t body kid m challenge key w'.
Proof using Type.
  intros (Hdb & _ & _ & Hf) (? & ? & ? & ? & ? & ? & ? & payload & ? & Hsub). split_and!; try done.
  exists payload. split; [done|]. intros format w2 Hdb2 Hf2. apply Hsub; congruence.
Qed.

(** Submitting evidence draws no random values. *)
Definition same_draws (w w' : World) : Prop := w_draws w' = w_draws w.

#[export] Instance same_draws_preorder : PreOrder same_draws.
Proof using Type. split; unfold same_draws; [done|congruence]. Qed.

Lemma submit_same_draws t fmt payload : stays same_draws (submitAttestationPayload t fmt payload).
Proof using Type.
  unfold submitAttestationPayload, selectVerifier, resolveVerifier, IRAVerifier_Process, VerifierClient_Process,
    createSession, submitPayload, Do, IntelQVLVerifier_Process, quoteCollateral, Cache_Get, Cache_Put,
    verifyIntelQVLQuote, getIntelQVLQuoteCollateral, Fetch, fetchPCKCRL, fetchRootCACRL, fetchTCBInfo,
    fetchQEIdentity, pcs_get, getAbsolute.
  stays_auto.
  all: unfold ReadFile, Remove, Rename, Touch_file, Write_temp, CreateTemp, file_op, Do, time_now;
    apply stays_atomically; intros w; unfold same_draws.
  all: try (destruct (file_fault _); [reflexivity|]; try case_match; reflexivity).
  all: repeat case_match; reflexivity.
Qed.

Lemma yields_setTEEPAgentKey key ueid kid pk w :
  key_Thumbprint key = Some kid → length kid = 32 → Marshal_key key = Some pk → unknown kid (w_db w) →
  (seq (agents (w_db w)) < max_int64)%Z →
  yields (setTEEPAgentKey (Some key) ueid) w (λ _ w', w_reads w' = S (w_reads w) ∧ w_draws w' = w_draws w ∧
    ∃ a, w_db w' = rel_set (mkTable (rows (agents (w_db w)) ++ [a]) (seq (agents (w_db w)) + 1)) (w_db w) ∧
      Agent_KID a = kid ∧ Agent_PublicKey a = pk ∧ Agent_RevokedAt a = None ∧
      Agent_CreatedAt a = (clock (w_reads w) / second * second)%Z ∧
      Agent_ExpiredAt a = (Agent_CreatedAt a + 365 * 24 * hour)%Z).
Proof.
  intros Hth Hlen Hpk Hu Hseq. unfold setTEEPAgentKey. rewrite Hth, Hlen. cbn [Nat.eqb negb].
  apply yields_bind. eapply yields_lift; [by rewrite Hpk|]. apply yields_bind.
  unfold AgentRepository_FindByKIDIgnoreRevoked. apply yields_bind.
  eexists (inr ErrNoRows), (with_db (w_db w) (tick_call w)). split.
  { unfold select_one. rewrite run_try, run_sql_reliable. cbn [fst snd]. by rewrite unknown_no_match. }
  change (errors_Is ErrNoRows ErrNoRows) with true. cbn iota. apply yields_ret. apply yields_bind.
  assert (yields (match ueid with
      | None => mret None
      | Some u => r ← try (DeviceRepository_FindByUEID u);
                  match r with inl device => mret (Some (Device_ID device)) | inr _ => mret None end
      end) (with_db (w_db w) (tick_call w)) (λ did w', w_reads w' = w_reads w ∧ w_draws w' = w_draws w ∧
        w_db w' = w_db w ∧ references_opt (R:=Device) did (w_db w) = true)) as Hdev.
  { destruct ueid as [u|]; [|by apply yields_ret]. apply yields_bind.
    unfold DeviceRepository_FindByUEID, select_one.
    destruct (head (matching (λ x : Device, eqb_bytes (Device_UEID x) u) (w_db w))) as [dev|] eqn:Hh.
    - apply yields_try, yields_bind, yields_try. eapply yields_sql; [cbn [fst w_db with_db]; by rewrite Hh|].
      apply yields_ret, yields_ret. split_and!; [done..|]. cbn [references_opt].
      apply head_Some_elem_of, list_elem_of_filter in Hh as [_ Hh]. by apply (references_in dev).
    - eexists (inr ErrNotFound), _. split.
      + rewrite run_try, run_bind, run_try, run_sql_reliable. cbn [fst snd w_db with_db]. by rewrite Hh.
      + by apply yields_ret. }
  eapply yields_weaken; [exact Hdev|]. intros did w1 (Hrd & Hdr & Hdb & Href).
  apply yields_bind, yields_time_now. apply yields_bind. unfold AgentRepository_Create. apply yields_insert.
  - cbn [w_db tick_clock]. rewrite Hdb. cbn [Agent_KID Agent_DeviceID]. rewrite Href, andb_true_r.
    unfold unique. apply negb_true_iff, not_true_iff_false. intros (a & Ha & Hk%eqb_bytes_eq)%existsb_exists.
    apply Hu. exists a. split; [by apply list_elem_of_In|done].
  - cbn [w_db tick_clock]. by rewrite Hdb.
  - cbv zeta. apply yields_ret. split_and!; [simpl; congruence|simpl; congruence|].
    eexists. split; [cbn; rewrite Hdb; reflexivity|]. split_and!; try done. simpl. by rewrite Hrd.
Qed.

(** A new agent: its row, and what the database was when it was added. *)
Definition enrolled_in (kid : bytes) (key : cose_key) (a : Agent) (d d' : DB) : Prop :=
  enrolled_as kid key a ∧ rows (agents d') = rows (agents d) ++ [a] ∧
  tokens d' = tokens d ∧ suit_manifests d' = suit_manifests d ∧
  ∀ x, x ∈ counters d' → x ∈ counters d ∨ x = (seq (agents d) + 1)%Z.

(** No two readings of the clock in a row are a year apart. *)
Definition steady : Prop := ∀ n, (clock (S n) ≤ clock n / second * second + 365 * 24 * hour)%Z.

(** The evidence is accepted, the challenge used up and the key stored. *)
Lemma yields_verifyAttestationPayload t body kid m challenge key w :
  steady → wf (w_db w) → random w → (seq (agents (w_db w)) < max_int64)%Z →
  pending challenge (w_db w) → unknown kid (w_db w) → attests t body kid m challenge key w →
  yields (verifyAttestationPayload t body m None) w (λ '(result, k, sent) w', k = Some kid ∧
    EqualFold (EarStatus result) "affirming" = true ∧
    (∃ s, sent = Some s ∧ Opt_Token (TEEP_Options s) = None) ∧ random w' ∧
    ∃ a, enrolled_in kid key a (w_db w) (w_db w') ∧ in_force 1 a w').
Proof.
  intros Hst Hwf (Hent & Hnd & Hnt & Hnc) Hseq Hpend Hu
    (Hty & Htok & Hcl & Hth & Hlen & [pk Hpk] & Hsig & payload & Hp & Hsub).
  unfold verifyAttestationPayload. rewrite Hp. apply yields_bind.
  eapply yields_Ok; [by apply Hsub|]. intros [verdict backend] w1 Hrun (Haff & Hreq & result & Hpop & Haff2 & Hn & Hk).
  pose proof (run_reads _ _ _ _ (submit_reads _ _ _) Hrun) as Hdb1.
  pose proof (run_stays _ _ _ _ _ (submit_same_draws _ _ _) Hrun) as Hdr1. unfold same_draws in Hdr1.
  rewrite Haff. cbn [negb]. apply yields_bind. eapply yields_lift; [exact Hpop|]. rewrite Hn.
  apply yields_bind, yields_searchChallenge; [by rewrite Hdb1|]. intros sent w2 Hst2 Hrd2 Hdr2 Hdb2.
  rewrite Hdb1 in Hdb2.
  replace (negb _ && negb _) with false.
  2:{ destruct Hreq as [->| ->]; [done|]. by rewrite andb_false_r. }
  rewrite Hk. apply yields_bind, yields_map_err. eapply yields_lift; [exact Hsig|].
  apply yields_bind, yields_map_err. eapply yields_weaken.
  { apply (yields_setTEEPAgentKey key (AttestationUEID result) kid pk w2); try done; by rewrite Hdb2. }
  intros _ w3 (Hrd3 & Hdr3 & a & Hdb3 & Hkid & Hpub & Hrev & Hcr & Hexp). apply yields_ret.
  rewrite Hdb2 in Hdb3. simpl in Hdb3. split_and!; [done|done|by exists sent| |].
  - split_and!; [done|rewrite Hdr3, Hdr2, Hdr1; done|by rewrite Hdb3|].
    rewrite Hdb3. simpl. by rewrite length_map.
  - exists a. split; [split_and!|].
    + by split_and!; subst.
    + by rewrite Hdb3.
    + by rewrite Hdb3.
    + by rewrite Hdb3.
    + rewrite Hdb3. unfold counters. simpl. set_solver.
    + split_and!; [rewrite Hdb3; simpl; apply elem_of_app; right; by apply list_elem_of_singleton|done|].
      intros i Hi. assert (i = 0) as -> by lia. rewrite Nat.add_0_r, Hrd3, Hexp, Hcr. apply Hst.
Qed.

Lemma yields_evidence t body kid m challenge key cs w (Q : option bytes → World → Prop) :
  can_sign (tamKey t) → steady → wf (w_db w) → random w → room (S (S (length cs))) (w_db w) →
  pending challenge (w_db w) → unknown kid (w_db w) →
  attests t body kid m challenge key w → asks_for m cs →
  (∃ c r, c ∈ cs ∧ of_component c (w_db w) r) →
  (∀ a d token rs resp w', enrolled_in kid key a (w_db w) d → update_for (w_db w) cs rs →
     update_sent t a d token rs resp (w_db w') → Q (Some resp) w') →
  yields (ResolveTEEPMessage t body) w Q.
Proof.
  intros Hsign Hst Hwf Hrand Hroom Hpend Hu Hatt Hcs Hknown HQ.
  pose proof Hatt as (Hty & Htok & Hcl & _). unfold ResolveTEEPMessage.
  destruct body as [|b body]; [by destruct Hcl|].
  apply yields_bind, (yields_stranger kid _ m); [done..|]. intros w1 Hsame.
  apply (attests_same _ _ _ _ _ _ _ _ Hsame) in Hatt. destruct Hsame as (Hdb1 & _ & Hdr1 & _).
  rewrite bool_decide_true by by right. rewrite Htok. apply yields_bind, yields_ret. rewrite Hty.
  change (Z.eqb TEEPTypeQueryResponse TEEPTypeQueryResponse) with true. cbn iota. unfold handleQueryResponse.
  assert (random w1) as Hrand1 
    by (destruct Hrand as (? & ? & ? & ?); split_and!; [done|by rewrite Hdr1|by rewrite Hdb1..]).
  rewrite <- Hdb1 in Hwf, Hroom, Hpend, Hu.
  do 2 apply yields_bind. eapply yields_Ok.
  { apply (yields_verifyAttestationPayload t (b :: body) kid m challenge key w1); try done.
    destruct (room_seq _ _ (seq (agents (w_db w1))) Hroom); [unfold counters; set_solver|done]. }
  intros [[result k] sent] w2 Hrun (-> & Haff & (s & -> & Hs) & Hrand2 & a & Hen & Hin). rewrite Haff. cbn [negb].
  apply yields_ret. cbn [is_nil]. pose proof Hen as ((<- & _) & Hag & Htk & Hsm & Hcnt).
  assert (wf (w_db w2)) as Hwf2.
  { pose proof (safe_run _ _ _ (verifyAttestationPayload_harmless t (b :: body) m None w1 Hwf)) as [He _].
    rewrite Hrun in He. by eapply evolves_wf. }
  eapply yields_processQueryResponse; [done|done|done|done| | |exact Hcs| |].
  - apply Forall_forall. intros x Hx. unfold room in Hroom. rewrite Forall_forall in Hroom.
    destruct (Hcnt x Hx) as [Hx'| ->]; [specialize (Hroom x Hx'); lia|].
    specialize (Hroom (seq (agents (w_db w1))) ltac:(unfold counters; set_solver)). lia.
  - by rewrite Htok, Hs.
  - destruct Hknown as (c & r & Hc & Hr). exists c, r. split; [done|]. unfold of_component. by rewrite Hsm, Hdb1.
  - intros token rs resp w3 Hf Hsent. rewrite <- Hdb1 in HQ. eapply HQ; [exact Hen|by apply (update_for_ext _ (w_db w2))|exact Hsent].
Qed.
End evidence.

(** ** Property *)

Section properties.
Context `{Reliable} `{Lib}.
Implicit Types w : World.

(** Other requests have been handled, interleaved step by step. *)
Definition served (t : TAM) (w w' : World) : Prop :=
  ∃ rs ps, rtc sched (map (ServeHTTP t) rs, w) (ps, w').

Lemma pending_kept t c w w' :
  wf (w_db w) → served t w w' → ¬ spent (R:=Challenge) c (w_db w') → pending c (w_db w) → pending c (w_db w').
Proof.
  intros Hwf (rs & ps & Hs) Hns (r & q & Hr & Hv & Hc & Hq & Hid).
  pose proof (requests_sched t rs w w' ps Hwf Hs) as He.
  assert (seen r (w_db w)) as Hsr by by apply seen_in. assert (seen q (w_db w)) as Hsq by by apply seen_in.
  destruct (seen_evolves r _ _ Hwf He Hsr) as (r' & Hr' & (Hid' & Hv' & _)).
  destruct (seen_evolves q _ _ Hwf He Hsq) as (q' & Hq' & <-).
  exists r', q. split_and!; [done|congruence| |done|by rewrite Hid'].
  destruct (Challenge_Consumed r') eqn:Hc'; [|done]. destruct Hns. exists r'. by split_and!; [|simpl; congruence|].
Qed.

(** What the TAM promises once it has sent a request for evidence with this challenge. *)
Definition expects_evidence (t : TAM) (challenge : bytes) (w : World) : Prop :=
  ∀ w' body kid m key cs, served t w w' → ¬ spent (R:=Challenge) challenge (w_db w') →
    random w' → room (S (S (length cs))) (w_db w') →
    unknown kid (w_db w') → attests t body kid m challenge key w' → asks_for m cs →
    (∃ c r, c ∈ cs ∧ of_component c (w_db w') r) →
    yields (ResolveTEEPMessage t body) w' (λ o w'', ∃ a, enrolled_as kid key a ∧
      rows (agents (w_db w'')) = rows (agents (w_db w')) ++ [a] ∧ updates t a cs (w_db w') o w'').

(** ... and once it has sent a QueryRequest with this token. *)
Definition expects_introduction (t : TAM) (token : bytes) (w : World) : Prop :=
  ∀ w' body kid m, meanwhile t token w w' → random w' → room 1 (w_db w') →
    claims_kid kid body m → unknown kid (w_db w') →
    TEEP_Type m = TEEPTypeQueryResponse → Opt_Token (TEEP_Options m) = Some token →
    yields (ResolveTEEPMessage t body) w' (λ o w'', ∃ challenge query, o = Some query ∧
      length challenge = 32 ∧ ¬ issued (R:=Challenge) challenge (w_db w') ∧ pending challenge (w_db w'') ∧
      signed (query_request None (Some challenge) (RequestDataItem true false false false)) (tamKey t) query ∧
      expects_evidence t challenge w'').

Lemma pending_expects_evidence t challenge w :
  can_sign (tamKey t) → steady → wf (w_db w) → pending challenge (w_db w) → expects_evidence t challenge w.
Proof.
  intros Hsign Hst Hwf Hpend w' body kid m key cs Hserved Hns Hrand Hroom Hu Hatt Hcs Hknown.
  assert (wf (w_db w')) as Hwf'.
  { destruct Hserved as (rs & ps & Hs). pose proof (requests_sched t rs w w' ps Hwf Hs). by eapply evolves_wf. }
  pose proof (pending_kept t challenge w w' Hwf Hserved Hns Hpend) as Hpend'.
  eapply yields_Ok.
  - apply (yields_evidence t body kid m challenge key cs w') with (Q := λ o w3, ∃ a d token rs resp, o = Some resp ∧
      enrolled_in kid key a (w_db w') d ∧ update_for (w_db w') cs rs ∧ update_sent t a d token rs resp (w_db w3)); try done.
    intros a d token rs resp w3 ? ? ?. by exists a, d, token, rs, resp.
  - intros o w3 Hrun (a & d & token & rs & resp & -> & Hen & Hfor & Hsent).
    pose proof (safe_run _ _ _ (ResolveTEEPMessage_harmless t body w' Hwf')) as [He3 _]. rewrite Hrun in He3.
    pose proof Hsent as (Hlen & Hnew & Haw & Hsig & _ & Hag & Hsm).
    destruct Hen as (Henr & Hag' & Htk & Hsm' & _).
    assert (wf (w_db w3)) as Hwf3 by (eapply evolves_wf; [exact He3|done]).
    exists a. split; [done|]. split; [by rewrite Hag|]. exists token, rs, resp. split_and!; try done.
    + intros (r & Hr & Hv). apply Hnew. exists r. split; [|done]. simpl. by rewrite Htk.
    + eapply (update_expects_report t a cs (w_db w')); [done| |done|done|congruence].
      split; [|by destruct Henr as (_ & _ & ? & _)]. rewrite Hag, Hag'. apply elem_of_app. right. by apply list_elem_of_singleton.
Qed.

(** C5: an unknown device is taken on.  It shows a token of the TAM and is asked for evidence,
    with a fresh challenge; it sends evidence that names the challenge and its key, in a
    message signed by that key, and a verifier affirms it.  Then its key is enrolled, and it
    gets an Update with the latest manifests of the components it names; a report of
    success completes the conversation as in [honest_agent_is_updated].  Other requests may
    come in between, as long as they do not use the token or the challenge. *)
Theorem unknown_device_is_taken_on (t : TAM) w :
  can_sign (tamKey t) → steady → wf (w_db w) → random w → room 1 (w_db w) →
  yields (ResolveTEEPMessage t []) w (λ o w', ∃ token query,
    o = Some query ∧ length token = 32 ∧ ¬ issued (R:=Token) token (w_db w) ∧ awaiting token (w_db w') ∧
    signed (query_request (Some token) None (RequestDataItem false true false false)) (tamKey t) query ∧
    expects_introduction t token w').
Proof.
  intros Hsign Hst Hwf Hrand Hroom. eapply yields_Ok; [by apply yields_query|].
  intros o w1 Hrun (token & query & -> & ? & ? & Haw & ?).
  pose proof (safe_run _ _ _ (ResolveTEEPMessage_harmless t [] w Hwf)) as [He _]. rewrite Hrun in He.
  assert (wf (w_db w1)) as Hwf1 by (eapply evolves_wf; [exact He|done]).
  exists token, query. split_and!; try done.
  intros w2 body kid m Hmw Hrand2 Hroom2 Hcl Hu Hty Htok.
  pose proof (meanwhile_evolves t token w1 w2 Hwf1 Hmw) as He2.
  assert (wf (w_db w2)) as Hwf2 by by eapply evolves_wf.
  eapply yields_Ok.
  - apply (yields_introduction t kid token body m w2) with (Q := λ o w3, ∃ c query, o = Some query ∧ length c = 32 ∧
      ¬ issued (R:=Challenge) c (w_db w2) ∧ pending c (w_db w3) ∧
      signed (query_request None (Some c) (RequestDataItem true false false false)) (tamKey t) query); try done.
    + apply (awaiting_kept token (w_db w1)); try done. by apply (meanwhile_undisturbed t).
    + intros c q w3 ? ? ? ?. by exists c, q.
  - intros o w3 Hrun3 (c & q & -> & ? & ? & Hp & ?). exists c, q. split_and!; try done.
    apply pending_expects_evidence; try done.
    pose proof (safe_run _ _ _ (ResolveTEEPMessage_harmless t body w2 Hwf2)) as [He3 _].
    rewrite Hrun3 in He3. eapply evolves_wf; [exact He3|done].
Qed.
End properties.

(** ** Witness *)

(** Three random values have been drawn before. *)
Definition quiet : World :=
  let w := with_manifest initial_world in
  mkWorld (w_db w) (w_reads w) 3 (w_calls w) (w_net w) (w_backends w) (w_files w) (w_fops w) (w_sent w).

Definition greeted : World := (run (@ResolveTEEPMessage calm lib tam []) quiet).2.
Definition introduced : World := (run (@ResolveTEEPMessage calm lib tam response_body) (somebody greeted)).2.
Definition joined : World := (run (@ResolveTEEPMessage calm lib tam joining_body) (somebody introduced)).2.

Definition joining_message : TEEPMessage :=
  mkTEEPMessage 2 (options_with (Some joining_evidence) (Some "application/eat+cwt")
    (Some [mkSystemPropertyClaims component None 0]) None None) None None 0 0.

(** The challenges that are awaited. *)
Definition unspent (d : DB) : list bytes :=
  Challenge_Challenge <$> filter (λ r : Challenge, Challenge_Consumed r = false) (rows (challenges d)).

Lemma calm_steady : @steady calm.
Proof.
  intros n. change (clock (Platform:=calm) (S n)) with (Z.of_nat (S n) * second)%Z.
  change (clock (Platform:=calm) n) with (Z.of_nat n * second)%Z. rewrite Z.div_mul by done.
  assert (second = 1000000000)%Z as -> by done. assert (hour = 3600000000000)%Z as -> by done. lia.
Qed.

Lemma pending_unspent c d l : unspent d = l → pending c d → c ∈ l.
Proof. intros <- (r & q & Hr & <- & Hc & _). by apply list_elem_of_fmap_2, list_elem_of_filter. Qed.

Lemma device_claims body payload m :
  body ≠ [] → Sign1_UnmarshalCBOR (Lib:=lib) body = Some (signed_by agent_key agent_kid payload) →
  @Unmarshal_TEEPMessage lib payload = Ok m → @claims_kid lib agent_kid body m.
Proof. intros Hb Hs Hm. split; [done|]. eexists. split_and!; [exact Hs|exact Hm|by vm_compute]. Qed.

Lemma joining_attests w : @attests calm lib tam joining_body agent_kid joining_message (nth_draw 5) agent_key w.
Proof.
  split_and!; [done|done|eapply device_claims; [done|by vm_compute..]|by vm_compute|by vm_compute|by eexists|by vm_compute|].
  exists joining_evidence. split; [done|]. intros format w' _ _. eexists _, _. split; [reflexivity|].
  split; [by vm_compute|]. split; [left; by vm_compute|].
  eexists. split; [vm_compute; reflexivity|]. split_and!; by vm_compute.
Qed.

Lemma unknown_device_is_taken_on_witness :
  ∃ a, rows (agents (w_db joined)) = [a] ∧ @enrolled_as lib agent_kid agent_key a ∧
    ∃ token, awaiting token (w_db joined) ∧ @expects_report calm lib tam a token [manifest_row] joined.
Proof.
  destruct (@unknown_device_is_taken_on calm calm_reliable lib tam quiet)
    as (o1 & w1 & Hr1 & token & query & -> & _ & _ & Haw & _ & Hintro).
  - exact tam_can_sign.
  - exact calm_steady.
  - exact (with_manifest_wf initial_world wf_empty).
  - random_solve.
  - room_solve.
  - assert (w1 = greeted) as -> by (unfold greeted; by rewrite Hr1). clear Hr1.
    assert (token = nth_draw 3) as ->.
    { eapply awaiting_awaited in Haw; [|vm_compute; reflexivity]. by apply list_elem_of_singleton in Haw. }
    destruct (Hintro (somebody greeted) response_body agent_kid query_response)
      as (o2 & w2 & Hr2 & c & q & -> & _ & _ & Hp & _ & Hev).
    + apply somebody_meanwhile.
    + random_solve.
    + room_solve.
    + eapply device_claims; [done|by vm_compute..].
    + intros (a & Ha & _). vm_compute in Ha. by apply not_elem_of_nil in Ha.
    + done.
    + done.
    + assert (w2 = introduced) as -> by (unfold introduced; by rewrite Hr2). clear Hr2.
      assert (c = nth_draw 5) as ->.
      { eapply pending_unspent in Hp; [|vm_compute; reflexivity]. by apply list_elem_of_singleton in Hp. }
      destruct (Hev (somebody introduced) joining_body agent_kid joining_message agent_key [component_bytes])
        as (o3 & w3 & Hr3 & a & Hen & Hag & tok & rs & u & -> & _ & _ & Haw3 & Hfor & _ & Hrep).
      * destruct (somebody_meanwhile [] introduced) as (rs & ps & _ & Hs). by exists rs, ps.
      * intros (r & Hr & _ & Hc). vm_compute in Hr. by apply list_elem_of_singleton in Hr as ->.
      * random_solve.
      * room_solve.
      * intros (a & Ha & _). vm_compute in Ha. by apply not_elem_of_nil in Ha.
      * apply joining_attests.
      * eexists. split; by vm_compute.
      * eexists component_bytes, _. split; [left|]. split; [vm_compute; left|by vm_compute].
      * assert (w3 = joined) as -> by (unfold joined; by rewrite Hr3). clear Hr3.
        assert (rs = [manifest_row]) as ->
          by (apply (update_for_one (w_db (somebody introduced)) component_bytes); [by vm_compute|done|done]).
        exists a. split; [exact Hag|]. split; [exact Hen|]. exists tok. split; [exact Haw3|exact Hrep].
Defined.
