(* ===== verification/Quote.v ===== *)
(** Quotes and collateral: where the report data and the certificate chain of an Intel
    quote are read from, what binds an agent's key to a quote, when the QVL verifier
    affirms, and how long collateral is kept. *)

From Stdlib Require Import Ascii.
From S2P Require Import Prelude GoText GoUrl Model Db Evolve Frame OneTime AgentRepo ManifestRepo SentRepo.
From S2P Require Import StatusRepo Wire Lib Stub Suit Teep Rats Qvl Collateral Verifiers Tam TamFrames.


(** ** Reading at an offset *)

Definition at_offset (off n : nat) (q : bytes) : bytes := take n (drop off q).

Lemma go_slice_at {E} (q : bytes) (lo hi : Z) :
  (0 ≤ lo ≤ hi)%Z → (hi ≤ len q)%Z →
  go_slice (E:=E) q lo hi = Ok (at_offset (Z.to_nat lo) (Z.to_nat (hi - lo)) q).
Proof. intros [? ?] ?. unfold len in *. by apply go_slice_Ok. Qed.

Lemma at_offset_length off n q : off + n ≤ length q → length (at_offset off n q) = n.
Proof. intros. unfold at_offset. rewrite length_take, length_drop. lia. Qed.

Lemma at_offset_app off n a b : length a = off → at_offset off n (a ++ b) = take n b.
Proof. intros <-. unfold at_offset. by rewrite drop_app_length. Qed.

Definition uint_at (off n : nat) (q : bytes) : Z := le_uint (at_offset off n q).

Lemma uint_at_nonneg off n q : (0 ≤ uint_at off n q)%Z.
Proof. unfold uint_at. pose proof (le_uint_range (at_offset off n q)). lia. Qed.

(** ** Report data *)

(** The quotes the extraction understands: version 3 and 4 of at least 436 bytes, and
    version 5 with a complete body of a known type that holds a report. *)
Definition supported_quote (q : bytes) : bool :=
  (Z.leb 2 (len q)) &&
  let version := uint_at 0 2 q in
  if Z.eqb version 3 || Z.eqb version 4 then Z.leb 436 (len q)
  else if Z.eqb version 5 then
    Z.leb 48 (len q) && Z.leb (48 + uint_at 44 4 q) (len q) &&
    existsb (Z.eqb (uint_at 4 2 q)) [1; 2; 3; 4]%Z && Z.leb 384 (uint_at 44 4 q)
  else false.

Lemma extractQuoteReportData_cases q :
  if supported_quote q then extractQuoteReportData q = Ok (at_offset 368 64 q) ∧ 432 ≤ length q
  else ∃ e, extractQuoteReportData q = Err e.
Proof.
  unfold supported_quote, extractQuoteReportData, quoteHeaderVersionSize.
  destruct (Z.ltb_spec (len q) 2), (Z.leb_spec 2 (len q)); try lia; cbn [andb]; [by eexists|].
  rewrite (go_slice_at q 0 2) by lia. cbn [mbind res_bind].
  change (le_uint (at_offset (Z.to_nat 0) (Z.to_nat (2 - 0)) q)) with (uint_at 0 2 q).
  unfold quoteVersion3, quoteVersion4, quoteVersion5, sgxQuote3Size, sgxQuote4Size,
    sgxReportDataOffsetInQuote, quoteReportDataSize, sgxQuote5HeaderSize, sgxQuote5TypeOffset,
    sgxQuote5BodyLenOff, sgxReportBodySize, sgxReportDataOffsetInBody in *.
  destruct (Z.eqb_spec (uint_at 0 2 q) 3); cbn [orb].
  { destruct (Z.ltb_spec (len q) 436), (Z.leb_spec 436 (len q)); try lia; [by eexists|].
    rewrite go_slice_at by lia. unfold len in *. split; [done|lia]. }
  destruct (Z.eqb_spec (uint_at 0 2 q) 4).
  { destruct (Z.ltb_spec (len q) 436), (Z.leb_spec 436 (len q)); try lia; [by eexists|].
    rewrite go_slice_at by lia. unfold len in *. split; [done|lia]. }
  destruct (Z.eqb_spec (uint_at 0 2 q) 5); [|by eexists].
  destruct (Z.ltb_spec (len q) 48), (Z.leb_spec 48 (len q)); try lia; cbn [andb]; [by eexists|].
  rewrite (go_slice_at q 4 (4 + 2)), (go_slice_at q 44 (44 + 4)) by lia. cbn [mbind res_bind].
  change (le_uint (at_offset (Z.to_nat 4) (Z.to_nat (4 + 2 - 4)) q)) with (uint_at 4 2 q).
  change (le_uint (at_offset (Z.to_nat 44) (Z.to_nat (44 + 4 - 44)) q)) with (uint_at 44 4 q).
  destruct (Z.ltb_spec (len q) (48 + uint_at 44 4 q)), (Z.leb_spec (48 + uint_at 44 4 q) (len q));
    try lia; cbn [andb]; [by eexists|].
  destruct (existsb _ _); cbn [andb]; [|by eexists].
  destruct (Z.ltb_spec (uint_at 44 4 q) 384), (Z.leb_spec 384 (uint_at 44 4 q)); try lia; [by eexists|].
  rewrite go_slice_at by lia. unfold len in *. split; [done|lia].
Qed.

(** ** The certificate chain *)

Definition le_bytes (n : nat) (z : Z) : bytes :=
  map (λ i, byte_of_Z (z / 256 ^ Z.of_nat i)) (List.seq 0 n).

Lemma Z_of_byte_of_Z z : Z_of_byte (byte_of_Z z) = (z `mod` 256)%Z.
Proof.
  unfold byte_of_Z, Z_of_byte. pose proof (Z.mod_pos_bound z 256 ltac:(lia)) as Hb.
  destruct (Byte.of_N (Z.to_N (z `mod` 256))) as [b|] eqn:Hof; simpl.
  - apply Byte.to_of_N in Hof. rewrite Hof. rewrite Z2N.id by lia. done.
  - apply Byte.of_N_None_iff in Hof. lia.
Qed.

Lemma le_uint_le_bytes n z : (0 ≤ z < 256 ^ Z.of_nat n)%Z → le_uint (le_bytes n z) = z.
Proof.
  revert z. induction n as [|n IH]; intros z Hz.
  { change (256 ^ Z.of_nat 0)%Z with 1%Z in Hz. unfold le_uint, le_bytes. simpl. lia. }
  rewrite Nat2Z.inj_succ, Z.pow_succ_r in Hz by lia.
  unfold le_bytes. cbn [List.seq map]. unfold le_uint. cbn [foldr].
  rewrite <- seq_shift, map_map. fold (le_uint (map (λ x, byte_of_Z (z / 256 ^ Z.of_nat (S x))) (List.seq 0 n))).
  assert (map (λ x, byte_of_Z (z / 256 ^ Z.of_nat (S x))) (List.seq 0 n) = le_bytes n (z / 256)) as ->.
  { apply map_ext. intros i. rewrite Nat2Z.inj_succ, Z.pow_succ_r by lia. by rewrite Z.div_div by lia. }
  rewrite IH by (split; [apply Z.div_pos; lia|apply Z.div_lt_upper_bound; lia]).
  rewrite Z_of_byte_of_Z. change (256 ^ Z.of_nat 0)%Z with 1%Z. rewrite Z.div_1_r.
  pose proof (Z.div_mod z 256 ltac:(lia)). lia.
Qed.

Lemma le_bytes_length n z : length (le_bytes n z) = n.
Proof. unfold le_bytes. by rewrite length_map, length_seq. Qed.

(** A quote as the extraction expects it: 432 bytes of header and report, the length of
    the signature data, the fixed part of the signature data, the QE authentication
    data and the certification data of type 5. *)
Definition build_quote (front fixed auth chain : bytes) : bytes :=
  front ++ le_bytes 4 (576 + 2 + len auth + 6 + len chain) ++ fixed ++
  le_bytes 2 (len auth) ++ auth ++ le_bytes 2 5 ++ le_bytes 4 (len chain) ++ chain.

(** [extractQuoteReportData] never panics on any input.  It succeeds exactly on the
    quotes of version 3 and 4 of at least 436 bytes and on the complete version 5 quotes
    whose body type and size are known, and then returns the 64 bytes at offset 368; any
    other quote is an error. *)
Theorem extractQuoteReportData_exact q :
  match extractQuoteReportData q with
  | Ok d => supported_quote q = true ∧ d = at_offset 368 64 q ∧ length d = 64
  | Err _ => supported_quote q = false
  | Panic | OutOfFuel => False
  end.
Proof.
  pose proof (extractQuoteReportData_cases q) as Hc. destruct (supported_quote q).
  - destruct Hc as [-> Hl]. repeat split. apply at_offset_length. lia.
  - by destruct Hc as [e ->].
Qed.

Lemma extractIntelQVLQuotePCKCertChain_cases q :
  (∃ e, extractIntelQVLQuotePCKCertChain q = Err e) ∨
  (∃ off n, extractIntelQVLQuotePCKCertChain q = Ok (at_offset off n q) ∧ off + n ≤ length q).
Proof.
  unfold extractIntelQVLQuotePCKCertChain, sgxQuote3Size, quoteHeaderVersionSize, fixedECDSASigDataSize,
    sgxReportBodySize.
  destruct (Z.ltb_spec (len q) 436); [left; by eexists|].
  rewrite (go_slice_at q 0 2) by lia. cbn [mbind res_bind].
  case_match; [left; by eexists|].
  rewrite (go_slice_at q 432 436) by lia. cbn [mbind res_bind].
  set (sl := le_uint _). destruct (Z.ltb_spec (len q) (436 + sl)); [left; by eexists|].
  destruct (Z.ltb_spec sl (64 + 64 + 384 + 64 + 2 + 6)); [left; by eexists|].
  rewrite (go_slice_at q (436 + (64 + 64 + 384 + 64))) by lia. cbn [mbind res_bind].
  set (ads := le_uint (at_offset (Z.to_nat (436 + (64 + 64 + 384 + 64))) _ q)).
  assert (0 ≤ ads)%Z by apply uint_at_nonneg.
  destruct (Z.ltb_spec (len q) (436 + (64 + 64 + 384 + 64) + (2 + ads) + 6)); [left; by eexists|].
  set (off := (436 + (64 + 64 + 384 + 64) + (2 + ads))%Z) in *.
  assert (0 ≤ off)%Z by (subst off; lia).
  rewrite (go_slice_at q off (off + 2)), (go_slice_at q (off + 2) (off + 6)) by lia. cbn [mbind res_bind].
  set (cs := le_uint (at_offset (Z.to_nat (off + 2)) _ q)). assert (0 ≤ cs)%Z by apply uint_at_nonneg.
  destruct (Z.ltb_spec (len q) (off + 6 + cs)); [left; by eexists|].
  case_match; [left; by eexists|]. right.
  rewrite go_slice_at by lia. do 2 eexists; split; [reflexivity|]. unfold len in *. lia.
Qed.

(** C38: [extractIntelQVLQuotePCKCertChain] indexes a quote by three lengths the quote
    itself supplies, and never reads out of its bounds: on every input it returns an
    error or a contiguous part of the quote. *)
Theorem extractIntelQVLQuotePCKCertChain_in_bounds q :
  match extractIntelQVLQuotePCKCertChain q with
  | Ok chain => ∃ before after, q = before ++ chain ++ after
  | Err _ => True
  | Panic | OutOfFuel => False
  end.
Proof.
  destruct (extractIntelQVLQuotePCKCertChain_cases q) as [[e ->]|(off & n & -> & Hl)]; [done|].
  exists (take off q), (drop n (drop off q)). unfold at_offset. by rewrite !take_drop.
Qed.

Lemma at_offset_skip off n pre q :
  length pre ≤ off → at_offset off n (pre ++ q) = at_offset (off - length pre) n q.
Proof. intros. unfold at_offset. by rewrite drop_app_ge. Qed.

Lemma at_offset_here n a q : length a = n → at_offset 0 n (a ++ q) = a.
Proof. intros <-. unfold at_offset. by rewrite drop_0, take_app_length. Qed.

Lemma at_offset_all n a : length a = n → at_offset 0 n a = a.
Proof. intros <-. unfold at_offset. by rewrite drop_0, firstn_all. Qed.

Lemma at_offset_front off n pre q :
  off + n ≤ length pre → at_offset off n (pre ++ q) = at_offset off n pre.
Proof.
  intros. unfold at_offset. rewrite drop_app_le by lia. rewrite take_app_le; [done|].
  rewrite length_drop. lia.
Qed.

Lemma build_quote_length front fixed auth chain :
  length (build_quote front fixed auth chain) =
  length front + 4 + length fixed + 2 + length auth + 2 + 4 + length chain.
Proof. unfold build_quote. rewrite !length_app, !le_bytes_length. lia. Qed.

(** Skip to an offset of a built quote. *)
Ltac quote_field :=
  unfold build_quote; repeat (rewrite at_offset_skip; [|rewrite ?le_bytes_length; lia]);
  rewrite ?le_bytes_length;
  match goal with
  | |- at_offset ?o _ _ = _ => replace o with 0 by lia
  end; first [apply at_offset_here|apply at_offset_all]; rewrite ?le_bytes_length; lia.

(** Where the fields of a built quote are. *)
Lemma build_quote_layout front fixed auth chain :
  length front = 432 → length fixed = 576 →
  let q := build_quote front fixed auth chain in
  len q = (1020 + len auth + len chain)%Z ∧
  at_offset 0 2 q = at_offset 0 2 front ∧
  at_offset 432 4 q = le_bytes 4 (576 + 2 + len auth + 6 + len chain) ∧
  at_offset 1012 2 q = le_bytes 2 (len auth) ∧
  at_offset (1014 + length auth) 2 q = le_bytes 2 5 ∧
  at_offset (1016 + length auth) 4 q = le_bytes 4 (len chain) ∧
  at_offset (1020 + length auth) (length chain) q = chain.
Proof.
  intros Hfront Hfixed q. split_and!; [|apply at_offset_front; lia|subst q; quote_field..].
  subst q. unfold len. rewrite build_quote_length. lia.
Qed.

(** What [extractIntelQVLQuotePCKCertChain] finds in a quote laid out as Intel
    specifies (432 bytes of header and report, the length of the signature data, 576 bytes
    of signatures and reports, the QE authentication data with its length, the
    certification data with its type 5 and length) is the certificate chain. *)
Theorem PCKCertChain_round_trip front fixed auth chain :
  length front = 432 → uint_at 0 2 front = 3%Z ∨ uint_at 0 2 front = 4%Z →
  length fixed = 576 → (len auth < 2 ^ 16)%Z → (584 + len auth + len chain < 2 ^ 32)%Z →
  extractIntelQVLQuotePCKCertChain (build_quote front fixed auth chain) = Ok chain.
Proof.
  intros Hfront Hversion Hfixed Hauth Htotal. set (q := build_quote front fixed auth chain).
  destruct (build_quote_layout front fixed auth chain Hfront Hfixed) as (Hq & Hv & Hs & Ha & Ht & Hc & Hchain).
  fold q in Hq, Hv, Hs, Ha, Ht, Hc, Hchain.
  assert (0 ≤ len auth ∧ 0 ≤ len chain)%Z as [] by (unfold len; lia).
  unfold extractIntelQVLQuotePCKCertChain, sgxQuote3Size, quoteHeaderVersionSize, fixedECDSASigDataSize,
    sgxReportBodySize.
  rewrite (proj2 (Z.ltb_ge _ _)) by lia.
  rewrite (go_slice_at q 0 2) by lia. cbn [mbind res_bind].
  change (at_offset (Z.to_nat 0) (Z.to_nat (2 - 0)) q) with (at_offset 0 2 q). rewrite Hv.
  fold (uint_at 0 2 front).
  replace (negb (uint_at 0 2 front =? quoteVersion3)%Z && negb (uint_at 0 2 front =? quoteVersion4)%Z)
    with false by (destruct Hversion as [->| ->]; reflexivity).
  rewrite (go_slice_at q 432 436) by lia. cbn [mbind res_bind].
  change (at_offset (Z.to_nat 432) (Z.to_nat (436 - 432)) q) with (at_offset 432 4 q).
  rewrite Hs, le_uint_le_bytes by lia.
  rewrite !(proj2 (Z.ltb_ge _ _)) by lia.
  rewrite (go_slice_at q (436 + (64 + 64 + 384 + 64))) by lia. cbn [mbind res_bind].
  change (at_offset (Z.to_nat (436 + (64 + 64 + 384 + 64))) _ q) with (at_offset 1012 2 q).
  rewrite Ha, le_uint_le_bytes by lia.
  set (off := (436 + (64 + 64 + 384 + 64) + (2 + len auth))%Z) in *.
  assert (off = 1014 + len auth)%Z as Hoff by (subst off; lia). clearbody off.
  rewrite (proj2 (Z.ltb_ge _ _)) by lia.
  rewrite (go_slice_at q off (off + 2)), (go_slice_at q (off + 2) (off + 6)) by lia. cbn [mbind res_bind].
  replace (Z.to_nat off) with (1014 + length auth) by (unfold len in *; lia).
  replace (Z.to_nat (off + 2)) with (1016 + length auth) by (unfold len in *; lia).
  replace (Z.to_nat (off + 2 - off)) with 2 by lia.
  replace (Z.to_nat (off + 6 - (off + 2))) with 4 by lia.
  rewrite Ht, Hc, !le_uint_le_bytes by lia. rewrite (proj2 (Z.ltb_ge _ _)) by lia. cbn [Z.eqb Pos.eqb negb].
  rewrite go_slice_at by lia.
  replace (Z.to_nat (off + 6)) with (1020 + length auth) by (unfold len in *; lia).
  replace (Z.to_nat (off + 6 + len chain - (off + 6))) with (length chain) by (unfold len in *; lia).
  by rewrite Hchain.
Qed.

(** ** Which verifier a format goes to *)

(** The lowered text of a run of runes that fold to [p ++ q], none of [p] an s. *)
Lemma lower_prefix (p : list ascii) (q rs : list rune) :
  "s"%char ∉ p → map fold_rune rs = map RAscii p ++ q →
  ∃ rs', map fold_rune rs' = q ∧
    foldr (λ r acc, String.append (lower_rune r) acc) EmptyString rs =
    String.append (String.string_of_list_ascii p)
      (foldr (λ r acc, String.append (lower_rune r) acc) EmptyString rs').
Proof.
  revert rs. induction p as [|c p IH]; intros rs Hs Hm; [by exists rs|].
  apply not_elem_of_cons in Hs as [Hc Hs]. destruct rs as [|r rs]; [done|].
  injection Hm as Hr Hm. destruct (IH rs Hs Hm) as (rs' & Hq & Hf). exists rs'. split; [done|].
  simpl. rewrite (lower_of_fold r c), Hf by done. done.
Qed.

(** A format whose evidence carries the agent's key itself (an EAT) is never verified
    by the QVL backend, whatever its case and the white space around it: the two ways
    of obtaining an agent's key exclude each other. *)
Theorem attested_key_formats_use_veraison format :
  requiresAttestedAgentKey format = true →
  VerifierBackendForAttestationPayloadFormat format = VerifierBackendVeraison.
Proof.
  intros Hreq. unfold VerifierBackendForAttestationPayloadFormat.
  destruct (EqualFold _ _) eqn:Hfold; [|done]. exfalso.
  unfold EqualFold in Hfold. apply bool_decide_eq_true in Hfold.
  destruct (lower_prefix (String.list_ascii_of_string "application/")
    (map RAscii (String.list_ascii_of_string "sgx-quote3-teep-bundle")) (runes (TrimSpace format)))
    as ([|r rs] & Hm & Hlow).
  - by apply (bool_decide_eq_true_1 _).
  - rewrite Hfold. by vm_compute.
  - done.
  - unfold requiresAttestedAgentKey, HasPrefix, ToLower in Hreq. rewrite Hlow in Hreq.
    injection Hm as Hr _. simpl in Hreq. by destruct (lower_of_fold_s r Hr) as [Hl|Hl]; rewrite Hl in Hreq.
Qed.

(** ** The QVL verifier *)

Section qvl.
Context `{Platform} `{Lib}.

(** What the TAM takes for a trustworthy platform: collateral that has not expired, and
    one of eight results of the verification library. *)
Definition qvl_accepts (r : intelQVLNativeResult) : Prop :=
  collateralExpirationStatus r = 0%Z ∧
  verificationResult r ∈ intelQVLResultOK :: intelQVLWarnings.

Lemma isIntelQVLResultAffirmingValue_spec r :
  isIntelQVLResultAffirmingValue (verificationResult r) (collateralExpirationStatus r) = true ↔ qvl_accepts r.
Proof.
  unfold isIntelQVLResultAffirmingValue, classifyIntelQVLResult, qvl_accepts.
  destruct (Z.eqb_spec (collateralExpirationStatus r) 0) as [He|He]; cbn [negb].
  - destruct (Z.eqb_spec (verificationResult r) intelQVLResultOK) as [Hr|Hr].
    { split; [|done]. intros _. split; [done|]. rewrite Hr. left. }
    rewrite elem_of_cons. destruct (existsb _ _) eqn:Hex; cbn.
    + split; [|done]. intros _. apply existsb_exists in Hex as (x & Hx & ->%Z.eqb_eq).
      split; [done|]. right. by apply list_elem_of_In.
    + split; [done|]. intros [_ [?|Hin]]; [done|]. apply list_elem_of_In in Hin.
      assert (existsb (Z.eqb (verificationResult r)) intelQVLWarnings = true) by
        (apply existsb_exists; eexists; split; [done|apply Z.eqb_refl]). congruence.
  - split; [done|]. by intros [].
Qed.

(** There is always collateral, where there is no error. *)
Lemma getCollateral_Some c quote w o w' :
  run (getIntelQVLQuoteCollateral c quote) w = (Ok o, w') → o ≠ None.
Proof. destruct c; [|done]. intros Hr. unfold getIntelQVLQuoteCollateral in Hr. run_inv Hr. simpl in Hk. by simplify_eq. Qed.

Lemma quoteCollateral_Some v quote w o w' : run (quoteCollateral v quote) w = (Ok o, w') → o ≠ None.
Proof.
  unfold quoteCollateral. destruct (collateralCache v); [|apply getCollateral_Some].
  intros Hr. run_inv Hr. destruct a as [c|]; [simpl in Hk; by simplify_eq|].
  run_inv Hk. apply getCollateral_Some in Hrun0. destruct a; [|done]. run_inv Hk0. simpl in Hk. by simplify_eq.
Qed.

Lemma IntelQVLVerifier_Process_Ok v payload (pa : ProcessedAttestation cose_key) w w' :
  run (IntelQVLVerifier_Process v payload) w = (Ok pa, w') →
  ∃ collateral w1 native,
    run (quoteCollateral v payload) w = (Ok (Some collateral), w1) ∧
    native_verdict payload collateral (clock (w_reads w1) / second)%Z = (0%Z, native) ∧
    pa = mkProcessedAttestation None "" "" "" VerifierBackendIntelQVL
           (resultToEarStatus (isIntelQVLResultAffirmingValue (verificationResult native)
                                 (collateralExpirationStatus native)))
           false None None None "" None.
Proof.
  unfold IntelQVLVerifier_Process. destruct payload as [|b payload]; [done|]. intros Hr.
  run_inv Hr. destruct a as [c|]; [|by destruct (quoteCollateral_Some _ _ _ _ _ Hrun)].
  run_inv Hk. simpl in Hrun0. simplify_eq.
  match goal with Hk : run (let '(_, _) := ?r in _) _ = _ |- _ =>
    destruct r as [st native] eqn:Hv; destruct (Z.eqb_spec st 0) as [->|]; cbn [negb] in Hk; [|done];
    simpl in Hk; simplify_eq end.
  do 3 eexists. by split_and!.
Qed.

(** *** The call of the native library *)

Definition is_v3_1 (c : QuoteCollateral) : bool := Z.eqb (MajorVersion c) 3 && Z.eqb (MinorVersion c) 1.

Definition native_texts (c : QuoteCollateral) : list CBuffer :=
  map (native_buffer ∘ bytesWithTerminatingNUL)
    [PCKCRLIssuerChain c; TCBInfoIssuerChain c; TCBInfo c; QEIdentityIssuerChain c; QEIdentity c].

Definition native_crls (c : QuoteCollateral) : list CBuffer :=
  map (native_buffer ∘ intelQVLCRLBytesForNative (MajorVersion c) (MinorVersion c)) [RootCACRL c; PCKCRL c].

Definition in_bounds (b : CBuffer) : Prop := (0 ≤ C_size b ≤ len (default [] (C_ptr b)))%Z.
Definition c_string (b : CBuffer) : Prop := ∀ block, C_ptr b = Some block → last block = Some Byte.x00.

(** What the library says of a quote and collateral. *)
Definition library_says (quote : bytes) (c : QuoteCollateral) (now : Z) : Z * option Z * option Z :=
  let text f := native_buffer (bytesWithTerminatingNUL (f c)) in
  let crl f := native_buffer (intelQVLCRLBytesForNative (MajorVersion c) (MinorVersion c) (f c)) in
  tee_verify_quote (native_quote quote)
    (mkQveCollateral (MajorVersion c) (MinorVersion c) (TEEType c)
       (text PCKCRLIssuerChain) (crl RootCACRL) (crl PCKCRL) (text TCBInfoIssuerChain) (text TCBInfo)
       (text QEIdentityIssuerChain) (text QEIdentity))
    now (supplemental_data (native_quote quote)).

(** Success, "not expired", and one of the eight results; all three from the library. *)
Definition library_accepts (quote : bytes) (c : QuoteCollateral) (now : Z) : Prop :=
  ∃ r, library_says quote c now = (0%Z, Some 0%Z, Some r) ∧ r ∈ intelQVLResultOK :: intelQVLWarnings.

Lemma native_verdict_accepts quote c now native :
  TEE_QV_RESULT_UNSPECIFIED = intelQVLResultUnspecified →
  native_verdict quote c now = (0%Z, native) →
  qvl_accepts native ↔ library_accepts quote c now.
Proof.
  intros Hun Hv. unfold native_verdict, attestam_qvl_verify_quote_with_collateral_fields,
    attestam_qvl_verify_quote in Hv. unfold library_accepts.
  change (tee_verify_quote _ _ _ _) with (library_says quote c now) in Hv.
  destruct (library_says quote c now) as [[st e] r]. simplify_eq/=. unfold qvl_accepts. simpl. split.
  - intros [He Hr]. destruct e as [e|]; [|done]. destruct r as [r|]; simpl in *; [by subst; eauto|].
    exfalso. rewrite Hun in Hr. revert Hr. apply (bool_decide_eq_false_1 _). by vm_compute.
  - intros (r' & ? & ?). by simplify_eq.
Qed.

Lemma len_mod_bounds (b : bytes) : (0 ≤ len b `mod` 2 ^ 32 ≤ len b)%Z.
Proof. split; [by apply Z.mod_pos_bound|apply Z.mod_le; unfold len; lia]. Qed.

Lemma native_buffer_in_bounds b : in_bounds (native_buffer b).
Proof. unfold in_bounds. destruct b; [done|]. apply len_mod_bounds. Qed.

Lemma native_in_bounds quote c : Forall in_bounds (native_quote quote :: native_texts c ++ native_crls c).
Proof.
  constructor; [apply len_mod_bounds|]. apply Forall_app; split; apply Forall_fmap, Forall_true;
    intros; apply native_buffer_in_bounds.
Qed.

Lemma bytesWithTerminatingNUL_c_string b : c_string (native_buffer (bytesWithTerminatingNUL b)).
Proof.
  intros block. unfold bytesWithTerminatingNUL. destruct b as [|x b]; [done|]. case_bool_decide as Hl.
  - simpl. by intros [= <-].
  - simpl. intros [= <-]. apply (last_snoc Byte.x00 (x :: b)).
Qed.

Lemma native_texts_terminated c : Forall c_string (native_texts c).
Proof. apply Forall_fmap, Forall_true. intros. apply bytesWithTerminatingNUL_c_string. Qed.

Lemma native_crls_terminated c : is_v3_1 c = false → Forall c_string (native_crls c).
Proof.
  intros Hv. apply Forall_fmap, Forall_true. intros b. unfold intelQVLCRLBytesForNative, compose.
  unfold is_v3_1 in Hv. rewrite Hv. apply bytesWithTerminatingNUL_c_string.
Qed.

Lemma resultToEarStatus_affirming ok : EqualFold (resultToEarStatus ok) "affirming" = ok.
Proof. by destruct ok. Qed.

(** The quote and the evidence bound by it. *)
Definition evidence_bound (quote raw : bytes) : Prop :=
  supported_quote quote = true ∧ at_offset 368 64 quote = expected_report_data raw.

Lemma verifySGXQuoteReportDataBinding_Ok quote raw :
  verifySGXQuoteReportDataBinding quote raw = Ok tt → evidence_bound quote raw.
Proof.
  unfold verifySGXQuoteReportDataBinding, evidence_bound. destruct raw as [|b raw]; [done|]. intros Hv.
  apply res_bind_Ok in Hv as (actual & Ha & Hv). pose proof (extractQuoteReportData_cases quote) as Hc.
  destruct (supported_quote quote); [|destruct Hc as [e Hc]; congruence].
  destruct Hc as [Hc _]. destruct (eqb_bytes _ _) eqn:He; [|done].
  apply eqb_bytes_eq in He. split; [done|]. congruence.
Qed.

Lemma populateAttestedClaimsFromSGX_Ok verdict raw (result : ProcessedAttestation cose_key) :
  populateAttestedClaimsFromSGXRawReportData verdict raw = Ok result →
  64 ≤ length raw ∧
  AttestationKey result = NewKeyEC2 AlgorithmESP256 (at_offset 0 32 raw) (at_offset 32 32 raw) ∧
  AttestationNonce result = (if Nat.eqb (length raw) 64 then AttestationNonce verdict else Some (drop 64 raw)) ∧
  AttestationKey result ≠ None.
Proof.
  intros Hp. unfold populateAttestedClaimsFromSGXRawReportData in Hp. destruct raw as [|b raw']; [done|].
  set (raw := b :: raw') in *. clearbody raw.
  destruct (populateAttestedKeyFromSGXRawReportData verdict raw) as [r| | |] eqn:Hr; simplify_eq/=.
  unfold populateAttestedKeyFromSGXRawReportData, sgxRawReportDataEC2Size, sgxRawReportDataEC2XOffset,
    sgxRawReportDataEC2YOffset in Hr.
  destruct (Z.ltb_spec (len raw) 64); [done|].
  rewrite (go_slice_at raw 0 32), (go_slice_at raw 32 64) in Hr by lia. cbn [mbind res_bind] in Hr.
  apply res_bind_Ok in Hr as (key & Hkey%res_of_option_Ok & Hr).
  change (NewKeyEC2 AlgorithmESP256 (at_offset 0 32 raw) (at_offset 32 32 raw) = Some key) in Hkey.
  apply res_bind_Ok in Hr as (nonce & Hn & Hr). simplify_eq/=. rewrite Hkey.
  unfold len in *. split; [lia|]. split; [done|]. split; [|done].
  destruct (Z.ltb_spec 64 (Z.of_nat (length raw))), (Nat.eqb_spec (length raw) 64); try lia; [|congruence].
  rewrite go_slice_at in Hn by (unfold len; lia). simpl in Hn. injection Hn as <-. f_equal.
  unfold at_offset. apply take_ge. rewrite length_drop. lia.
Qed.

(** C37: the QVL verifier affirms a quote exactly when the native library itself returned
    success for it and wrote that its collateral has not expired and that the result is
    "ok" or one of the seven warnings: what the C wrapper puts into the result
    before the call is never affirmed, and neither is a revoked platform or a bad
    signature.  The library is given no size beyond the block it belongs to, and every
    text of the collateral ends in a NUL byte. *)
Theorem qvl_affirms_exactly v quote (pa : ProcessedAttestation cose_key) w w' :
  TEE_QV_RESULT_UNSPECIFIED = intelQVLResultUnspecified →
  run (IntelQVLVerifier_Process v quote) w = (Ok pa, w') →
  AttestationKey pa = None ∧ AttestationNonce pa = None ∧
  ∃ collateral w1,
    let now := (clock (w_reads w1) / second)%Z in
    run (quoteCollateral v quote) w = (Ok (Some collateral), w1) ∧
    (EqualFold (EarStatus pa) "affirming" = true ↔ library_accepts quote collateral now) ∧
    (∀ e r, library_says quote collateral now = (0%Z, e, Some r) →
       r = intelQVLResultRevoked ∨ r = intelQVLResultInvalidSignature →
       EqualFold (EarStatus pa) "affirming" = false) ∧
    Forall in_bounds (native_quote quote :: native_texts collateral ++ native_crls collateral) ∧
    Forall c_string (native_texts collateral) ∧
    (is_v3_1 collateral = false → Forall c_string (native_crls collateral)).
Proof.
  intros Hun (c & w1 & native & Hc & Hv & ->)%IntelQVLVerifier_Process_Ok. split_and!; [done..|].
  exists c, w1. cbn [EarStatus]. rewrite resultToEarStatus_affirming.
  assert (isIntelQVLResultAffirmingValue (verificationResult native) (collateralExpirationStatus native) = true
    ↔ library_accepts quote c (clock (w_reads w1) / second)) as Hiff.
  { rewrite isIntelQVLResultAffirmingValue_spec. by apply native_verdict_accepts. }
  split_and!; [done|done| |apply native_in_bounds|apply native_texts_terminated|apply native_crls_terminated].
  intros e r Hr Hbad. apply not_true_is_false. rewrite Hiff. intros (r' & Hr' & Hin).
  rewrite Hr in Hr'. simplify_eq. destruct Hbad as [-> | ->]; revert Hin;
    apply (bool_decide_eq_false_1 _); by vm_compute.
Qed.

(** C12: evidence that is accepted as an SGX bundle is bound end to end: the quote in the
    bundle is the one that the verification library checked and affirmed, its report
    data is the padded SHA-384 of the bundle's raw report data, and the agent's key and
    the nonce are cut out of that raw report data. *)
Theorem sgx_evidence_is_bound (t : TAM) cfg format payload verdict backend result w w1 :
  TAM_resolveVerifier t = Some cfg →
  VerifierBackendForAttestationPayloadFormat (default "" format) = VerifierBackendIntelQVL →
  run (submitAttestationPayload t format payload) w = (Ok (verdict, backend), w1) →
  EqualFold (EarStatus verdict) "affirming" = true →
  populateClaims backend (default "" format) verdict payload = Ok result →
  ∃ quote raw collateral now native,
    decodeSGXQuote3TEEPBundle payload = Ok (mkBundle quote raw) ∧
    native_verdict quote collateral (now / second)%Z = (0%Z, native) ∧
    qvl_accepts native ∧
    evidence_bound quote raw ∧
    AttestationKey result ≠ None ∧
    AttestationKey result = NewKeyEC2 AlgorithmESP256 (at_offset 0 32 raw) (at_offset 32 32 raw) ∧
    AttestationNonce result = (if Nat.eqb (length raw) 64 then None else Some (drop 64 raw)).
Proof.
  intros Ht Hback Hsub Haff Hcl. unfold submitAttestationPayload, selectVerifier in Hsub. rewrite Ht in Hsub.
  run_inv Hsub. run_inv Hrun. simpl in Hk0. injection Hk0 as <- <-. rewrite Hback in *.
  pose proof Hrun0 as Hv0. apply resolveVerifier_Ok in Hv0 as [mk Hv0]. rewrite Hback in Hv0.
  destruct (is_nil_interface a0); [done|]. run_inv Hk. run_inv Hk0. simpl in Hk. injection Hk as <- <- _.
  change (String.eqb VerifierBackendIntelQVL VerifierBackendIntelQVL) with true in Hrun. cbv iota in Hrun.
  run_inv Hrun. apply run_map_err_Ok, run_lift_Ok in Hrun2 as [Hd ->].
  simpl in Hk. injection Hk as <- <-. apply run_map_err_Ok in Hrun1.
  unfold NewVerifierForBackend in Hv0. simpl in Hv0.
  destruct (NewIntelQVLVerifier _ _) as [qvl| | |]; simplify_eq/=.
  destruct a2 as [quote raw]. cbn [Bundle_Quote] in *.
  apply IntelQVLVerifier_Process_Ok in Hrun1 as (c & w1' & native & _ & Hv & ->).
  cbn [EarStatus] in Haff. rewrite resultToEarStatus_affirming in Haff.
  apply isIntelQVLResultAffirmingValue_spec in Haff.
  unfold populateClaims in Hcl. simpl in Hcl. rewrite Hd in Hcl. cbn in Hcl.
  destruct (verifySGXQuoteReportDataBinding quote raw) as [[]| | |] eqn:Hb; simplify_eq/=.
  destruct (populateAttestedClaimsFromSGXRawReportData _ raw) as [r| | |] eqn:Hp; simplify_eq/=.
  apply populateAttestedClaimsFromSGX_Ok in Hp as (_ & Hkey & Hnonce & Hne).
  exists quote, raw, c, (clock (w_reads w1')), native. split_and!; try done. by apply verifySGXQuoteReportDataBinding_Ok.
Qed.
End qvl.

(** ** Keeping collateral *)

Section collateral.
Context (ParseRevocationList : bytes → option Z) (nextUpdate_field : bytes → option string).
Context (time_Parse : string → option Z).

(** The [nextUpdate] [t] of one of the four parts of the collateral. *)
Definition next_update_of (c : QuoteCollateral) (t : Z) : Prop :=
  intelQVLParseCRLNextUpdate ParseRevocationList (RootCACRL c) = Ok (Some t) ∨
  intelQVLParseCRLNextUpdate ParseRevocationList (PCKCRL c) = Ok (Some t) ∨
  intelQVLParseJSONNextUpdate nextUpdate_field time_Parse (TCBInfo c) = Ok (Some t) ∨
  intelQVLParseJSONNextUpdate nextUpdate_field time_Parse (QEIdentity c) = Ok (Some t).

Lemma nearer_le nearest r :
  (∀ t, r = Some t → t ≠ zero_time) → nearest = zero_time ∨ (nearer nearest r ≤ nearest ∧ nearer nearest r ≠ zero_time)%Z.
Proof.
  intros Hr. destruct (Z.eqb_spec nearest zero_time) as [|Hn]; [by left|]. right.
  destruct r as [t|]; simpl; [|lia]. specialize (Hr t eq_refl).
  rewrite (proj2 (Z.eqb_neq _ _)) by done. cbn [orb]. destruct (Z.ltb_spec t nearest); lia.
Qed.

Lemma nearer_Some nearest t :
  t ≠ zero_time → (nearer nearest (Some t) ≤ t ∧ nearer nearest (Some t) ≠ zero_time)%Z.
Proof.
  intros Ht. simpl. destruct (Z.eqb_spec nearest zero_time); cbn [orb]; [lia|].
  destruct (Z.ltb_spec t nearest); lia.
Qed.

Lemma nearest_of_le parse nearest parts n :
  (∀ raw t, raw ∈ parts → parse raw = Ok (Some t) → t ≠ zero_time) →
  nearest_of parse nearest parts = Ok n →
  (nearest = zero_time ∨ (n ≤ nearest ∧ n ≠ zero_time)%Z) ∧
  (∀ raw t, raw ∈ parts → parse raw = Ok (Some t) → (n ≤ t ∧ n ≠ zero_time)%Z).
Proof.
  revert nearest. induction parts as [|raw parts IH]; intros nearest Hz Hn.
  { simpl in Hn. simplify_eq. split; [lia|]. intros ? ? Hin. by apply not_elem_of_nil in Hin. }
  cbn [nearest_of] in Hn. apply res_bind_Ok in Hn as (r & Hr & Hn).
  apply IH in Hn as [Hacc Hrest]; [|intros; eapply Hz; [by right|done]].
  assert (∀ t, r = Some t → t ≠ zero_time) as Hzr by (intros t ->; eapply Hz; [left|done]).
  split.
  - destruct (nearer_le nearest r Hzr) as [|[]]; [by left|]. right. destruct Hacc; lia.
  - intros raw' t [->|Hin]%elem_of_cons Hp; [|by eapply Hrest].
    assert (r = Some t) as -> by congruence. destruct (nearer_Some nearest t (Hzr t eq_refl)).
    destruct Hacc; lia.
Qed.

(** How long an entry made at [now] is kept: seven days at most; and no longer than any
    [nextUpdate] in its four parts, unless one of these is the zero time, which the code
    takes for none. *)
Lemma cached_collateral_is_current (c : option QuoteCollateral) now entry later :
  newIntelQVLCollateralCacheEntry ParseRevocationList nextUpdate_field time_Parse c now = Ok entry →
  ValidAt (Some entry) later = true →
  ∃ coll, c = Some coll ∧ Collateral entry = Some coll ∧ (later < now + 7 * 24 * hour)%Z ∧
    ((∀ t, next_update_of coll t → t ≠ zero_time) → ∀ t, next_update_of coll t → (later < t)%Z).
Proof.
  intros He Hv. unfold newIntelQVLCollateralCacheEntry in He. destruct c as [coll|]; [|done].
  apply res_bind_Ok in He as (ex & He & ?). simplify_eq/=.
  rewrite !andb_true_iff in Hv. destruct Hv as [_ Hlt%Z.ltb_lt].
  exists coll. do 2 (split; [done|]).
  apply res_bind_Ok in He as (r & Hr & He). unfold intelQVLCollateralCacheTTL in He.
  split.
  { destruct r as [n|]; simplify_eq/=; [|lia]. destruct (Z.ltb_spec n (now + 7 * 24 * hour)); simplify_eq/=; lia. }
  intros Hz. cbn [intelQVLQuoteCollateralNextUpdate] in Hr.
  apply res_bind_Ok in Hr as (n1 & H1 & Hr). apply res_bind_Ok in Hr as (n2 & H2 & Hr).
  apply nearest_of_le in H1 as [_ H1];
    [|intros raw t Hin Hp; apply Hz; unfold next_update_of;
      apply elem_of_cons in Hin as [->|Hin%list_elem_of_singleton]; [|subst]; tauto].
  apply nearest_of_le in H2 as [Hacc H2];
    [|intros raw t Hin Hp; apply Hz; unfold next_update_of;
      apply elem_of_cons in Hin as [->|Hin%list_elem_of_singleton]; [|subst]; tauto].
  assert (∀ t, next_update_of coll t → (n2 ≤ t ∧ n2 ≠ zero_time)%Z) as Hall.
  { intros t [Hp|[Hp|[Hp|Hp]]].
    - destruct (H1 _ _ ltac:(left) Hp). destruct Hacc; lia.
    - destruct (H1 _ _ ltac:(right; left) Hp). destruct Hacc; lia.
    - exact (H2 _ _ ltac:(left) Hp).
    - exact (H2 _ _ ltac:(right; left) Hp). }
  intros t Ht%Hall. destruct (Z.eqb_spec n2 zero_time) as [Hn|Hn]; simplify_eq/=; [lia|].
  destruct (Z.ltb_spec n2 (now + 7 * 24 * hour)); simplify_eq/=; lia.
Qed.

(** A QE identity whose [nextUpdate] is 0001-01-01T00:00:00Z, the zero time, makes the code
    forget every other one: the entry is kept for seven days, whenever the CRLs and the
    TCB info end. *)
Theorem zero_next_update_forgets (coll : QuoteCollateral) (now : Z) n1 n2 :
  nearest_of (intelQVLParseCRLNextUpdate ParseRevocationList) zero_time [RootCACRL coll; PCKCRL coll] = Ok n1 →
  nearest_of (intelQVLParseJSONNextUpdate nextUpdate_field time_Parse) n1 [TCBInfo coll] = Ok n2 →
  intelQVLParseJSONNextUpdate nextUpdate_field time_Parse (QEIdentity coll) = Ok (Some zero_time) →
  (zero_time ≤ n2)%Z →
  newIntelQVLCollateralCacheEntry ParseRevocationList nextUpdate_field time_Parse (Some coll) now
    = Ok (mkCacheEntry (now + 7 * 24 * hour) (Some coll)).
Proof.
  intros H1 H2 Hq Hle. unfold newIntelQVLCollateralCacheEntry, intelQVLQuoteCollateralExpiry.
  cbn [intelQVLQuoteCollateralNextUpdate]. rewrite H1. cbn [mbind res_bind].
  cbn [nearest_of] in *. apply res_bind_Ok in H2 as (r & -> & [= <-]). rewrite Hq. simpl.
  replace (Z.eqb (nearer n1 r) zero_time || Z.ltb zero_time (nearer n1 r))%bool with true; [done|].
  symmetry. apply orb_true_iff. rewrite Z.eqb_eq, Z.ltb_lt. lia.
Qed.
End collateral.

(** ** Witnesses *)

Lemma PCKCertChain_round_trip_witness :
  extractIntelQVLQuotePCKCertChain
    (build_quote (bs [3; 0]%Z ++ replicate 430 Byte.x00) (replicate 576 Byte.x00) (bs [1; 2]%Z) (bs [7; 8; 9]%Z))
  = Ok (bs [7; 8; 9]%Z).
Proof. apply PCKCertChain_round_trip; [done|left|..]; by vm_compute. Defined.

Lemma attested_key_formats_use_veraison_witness :
  VerifierBackendForAttestationPayloadFormat " Application/EAT+cwt" = VerifierBackendVeraison.
Proof. apply attested_key_formats_use_veraison. by vm_compute. Defined.

(** An SGX bundle: 64 bytes of key, a nonce, and a quote whose report data binds them. *)
Definition raw_report_data : bytes := replicate 32 (byte_of_Z 1) ++ replicate 32 (byte_of_Z 2) ++ bs [7; 7]%Z.
Definition sgx_chain : bytes := bs [0xC1]%Z.
Definition bound_quote : bytes :=
  build_quote (bs [3; 0]%Z ++ replicate 366 Byte.x00 ++ pad 64 (pad 48 raw_report_data))
    (replicate 576 Byte.x00) [] sgx_chain.
Definition sgx_payload : bytes := bs [0xB0]%Z.

(** Intel's services: a PCK CRL, the CRL of the root, TCB info and a QE identity. *)
Definition root_crl_url : string := "https://certificates.trustedservices.intel.com/IntelSGXRootCA.der".
Definition pcs_answers : list (string * HttpResponse) :=
  [("https://api.trustedservices.intel.com/sgx/certification/v4/pckcrl?ca=platform&encoding=der",
     mkHttpResponse 200 [("Sgx-Pck-Crl-Issuer-Chain", "a%62+c")] (Some (bs [0xA1]%Z)));
   (root_crl_url, mkHttpResponse 200 [] (Some (bs [0xA2]%Z)));
   ("https://api.trustedservices.intel.com/sgx/certification/v4/tcb?fmspc=030000000000",
     mkHttpResponse 200 [("Tcb-Info-Issuer-Chain", "t")] (Some (bs [0xA3]%Z)));
   ("https://api.trustedservices.intel.com/sgx/certification/v4/qe/identity",
     mkHttpResponse 200 [("Sgx-Enclave-Identity-Issuer-Chain", "q")] (Some (bs [0xA4]%Z)))].

Definition answer (table : list (string * HttpResponse)) (_ : list (HttpClient * HttpRequest))
    (_ : HttpClient) (r : HttpRequest) : option HttpResponse :=
  snd <$> List.find (λ e, String.eqb e.1 (Http_URL r)) table.

Definition sgx_collateral : QuoteCollateral :=
  mkQuoteCollateral 3 1 0 (bytes_of_string "ab c") (bs [0xA2]%Z) (bs [0xA1]%Z)
    (bytes_of_string "t") (bs [0xA3]%Z) (bytes_of_string "q") (bs [0xA4]%Z).

Definition sgx_script : Script := {|
  s_sign1 := []; s_array := []; s_map := []; s_bytes := []; s_int := []; s_options := [];
  s_digest := []; s_report := []; s_bool := []; s_detailed := []; s_manifest := []; s_common := [];
  s_bundle := [(sgx_payload, (Some bound_quote, Some raw_report_data))];
  s_eat := [];
  s_http := answer pcs_answers;
  s_certificate := [(bytes_of_string "ab c", mkCertificate [root_crl_url] "Intel SGX Root CA")];
  s_certificates := [(sgx_chain, [mkCertificate [] "Intel SGX PCK Certificate";
                                  mkCertificate [] "Intel SGX PCK Platform CA"])];
  s_cache := [(bs [0xED]%Z, mkCacheEntry intelQVLCollateralCacheTTL (Some sgx_collateral))];
|}.

Definition sgx_lib : Lib := stub sgx_script.
Definition sgx_config : RAConfig := mkRAConfig "" "http://verifier" "" false 0 "" "" false "".
Definition built {A} (r : res error A) (a : A) : A := match r with Ok a => a | _ => a end.
Definition qvl_verifier (cfg : RAConfig) : IntelQVLVerifier :=
  built (@NewIntelQVLVerifier sgx_lib (λ _, Ok tt) cfg) (mkIntelQVLVerifier None None).
Definition sgx_tam : @TAM sgx_lib := @mkTAM sgx_lib NilVerifier (Some sgx_config) (bs [1]%Z).
Definition sgx_format : option string := Some "application/sgx-quote3-teep-bundle".

Definition sgx_verdict : ProcessedAttestation bytes :=
  mkProcessedAttestation None "" "" "" VerifierBackendIntelQVL "affirming" false None None None "" None.

Lemma qvl_affirms_exactly_witness :
  ∃ w1 now,
    run (@quoteCollateral calm sgx_lib (qvl_verifier sgx_config) bound_quote) initial_world
      = (Ok (Some sgx_collateral), w1) ∧ @library_accepts sgx_lib bound_quote sgx_collateral now.
Proof.
  destruct (@qvl_affirms_exactly calm sgx_lib (qvl_verifier sgx_config) bound_quote sgx_verdict initial_world
    (run (@IntelQVLVerifier_Process calm sgx_lib (qvl_verifier sgx_config) bound_quote) initial_world).2)
    as (_ & _ & c & w1 & Hc & Ha & _).
  - reflexivity.
  - by vm_compute.
  - exists w1. eexists. assert (c = sgx_collateral) as ->; [|split; [exact Hc|by apply Ha]].
    assert (fst (run (@quoteCollateral calm sgx_lib (qvl_verifier sgx_config) bound_quote) initial_world)
      = Ok (Some sgx_collateral)) as He by (by vm_compute).
    rewrite Hc in He. by injection He.
Defined.

Lemma sgx_evidence_is_bound_witness :
  ∃ quote raw, decodeSGXQuote3TEEPBundle (H:=sgx_lib) sgx_payload = Ok (mkBundle quote raw) ∧
    evidence_bound (H0:=sgx_lib) quote raw.
Proof.
  destruct (@sgx_evidence_is_bound calm sgx_lib sgx_tam sgx_config sgx_format sgx_payload sgx_verdict
    VerifierBackendIntelQVL
    (match @populateClaims sgx_lib VerifierBackendIntelQVL (default "" sgx_format) sgx_verdict sgx_payload with
     | Ok r => r | _ => sgx_verdict end) initial_world
    (run (@submitAttestationPayload calm sgx_lib sgx_tam sgx_format sgx_payload) initial_world).2)
    as (q & raw & _ & _ & _ & Hd & _ & _ & Hb & _).
  - done.
  - by vm_compute.
  - by vm_compute.
  - by vm_compute.
  - by vm_compute.
  - exists q, raw. by split.
Defined.

Lemma cached_collateral_is_current_witness :
  (10 < 0 + 7 * 24 * hour)%Z ∧ (10 < 11)%Z.
Proof.
  destruct (cached_collateral_is_current (λ _, Some 11%Z) (λ _, Some "x") (λ _, Some 12%Z)
    (Some sgx_collateral) 0 (mkCacheEntry 11 (Some sgx_collateral)) 10) as (c & [= <-] & _ & Hl & Ht).
  - by vm_compute.
  - by vm_compute.
  - split; [exact Hl|]. apply Ht; [|by left].
    intros t [Hn|[Hn|[Hn|Hn]]]; vm_compute in Hn; by simplify_eq.
Defined.
