(* ===== verification/CollateralFlow.v ===== *)
(** Where collateral comes from: what the PCS client asks for and what it makes of the
    answers, the files of the cache, and that the collateral behind a verdict is either
    fetched for it or a current entry of the cache. *)

From Stdlib Require Import Ascii.
From S2P Require Import Prelude GoText GoUrl Model Db Frame Wire Lib Stub Rats Qvl Collateral Verifiers Quote.

(** ** Requests *)

(** [add_sent], for several requests. *)
Definition add_all (rs : list (HttpClient * HttpRequest)) (w : World) : World := foldl (λ w r, add_sent r w) w rs.

Lemma add_all_sent rs w : w_sent (add_all rs w) = w_sent w ++ rs.
Proof.
  revert w. induction rs as [|r rs IH]; intros w; [by rewrite app_nil_r|].
  unfold add_all in *. cbn [foldl]. rewrite IH. simpl. by rewrite <- app_assoc.
Qed.

Lemma add_all_app rs rs' w : add_all (rs ++ rs') w = add_all rs' (add_all rs w).
Proof. unfold add_all. by rewrite foldl_app. Qed.

Lemma add_all_keeps rs w :
  w_files (add_all rs w) = w_files w ∧ w_db (add_all rs w) = w_db w ∧
  w_reads (add_all rs w) = w_reads w ∧ w_fops (add_all rs w) = w_fops w.
Proof.
  revert w. induction rs as [|r rs IH]; intros w; [done|]. unfold add_all in *. cbn [foldl].
  destruct (IH (add_sent r w)) as (-> & -> & -> & ->). done.
Qed.

Definition only_sends (w w' : World) : Prop := ∃ rs, w' = add_all rs w.

#[export] Instance only_sends_preorder : PreOrder only_sends.
Proof.
  split; [by exists []|]. intros w1 w2 w3 [r1 ->] [r2 ->]. exists (r1 ++ r2). by rewrite add_all_app.
Qed.

Lemma only_sends_one r w : only_sends w (add_sent r w).
Proof. by exists [r]. Qed.

#[export] Hint Resolve only_sends_one : stays.

(** The collateral of a quote: the four requests and what their answers become. *)
Section exchange.
Context `{Lib}.

Definition get_request (c : intelQVLPCSClient) (url : string) : HttpClient * HttpRequest :=
  (PCS_httpClient c, mkHttpRequest "GET" url (pcs_header c) []).

(** After [sent], the service answers a GET of [url] with 200, [body] and [header]. *)
Definition answers (c : intelQVLPCSClient) (sent : list (HttpClient * HttpRequest)) (url : string)
    (body : bytes) (header : list (string * string)) : Prop :=
  ∃ resp, http_Do sent (PCS_httpClient c) (get_request c url).2 = Some resp ∧
    Http_StatusCode resp = 200%Z ∧ Http_ResponseBody resp = Some body ∧ Http_ResponseHeader resp = header.

Lemma getAbsolute_Ok c url w r w' :
  run (getAbsolute c url) w = (Ok r, w') →
  answers c (w_sent w) url r.1 r.2 ∧ w' = add_sent (get_request c url) w.
Proof.
  unfold getAbsolute, NewRequest. intros Hr. destruct (url_Parse url); [|done].
  run_inv Hr. apply run_lift_Ok in Hrun as [[= <-] ->]. run_inv Hk.
  unfold Do in Hrun. rewrite run_atomically in Hrun.
  destruct (http_Do _ _ _) as [resp|] eqn:Hdo; simplify_eq/=. run_inv Hk0.
  apply run_lift_Ok in Hrun as [Hb%res_of_option_Ok ->].
  destruct (Z.eqb_spec (Http_StatusCode a) 200) as [Hs|]; [|done]. cbn [negb] in Hk. simpl in Hk.
  simplify_eq/=. split; [|done]. by exists a.
Qed.

(** The decoded issuer chain in an answer's header. *)
Definition chain_of (header : list (string * string)) (name : string) (chain : bytes) : Prop :=
  decodeIntelPCSHeader (Header_Get header name) = Ok chain.

Definition pckcrl_url (c : intelQVLPCSClient) (ca : string) : string :=
  pcs_url c "pckcrl" [("ca", [ca]); ("encoding", ["der"])].
Definition tcb_url (c : intelQVLPCSClient) (fmspc : bytes) : string :=
  pcs_url c "tcb" [("fmspc", [ToUpper_ascii (EncodeToString fmspc)])].

(** What [Fetch] asks for, in this order. *)
Definition fetch_urls (c : intelQVLPCSClient) (fmspc : bytes) (ca cdp : string) : list string :=
  [pckcrl_url c ca; rootCACRLURL c cdp; tcb_url c fmspc; pcs_url c "qe/identity" []].

(** The content of a revocation list that may be PEM. *)
Definition der_of (body : bytes) : bytes :=
  match pem_Decode body with Some (_, content, _) => content | None => body end.

Lemma fetchPCKCRL_Ok c ca w r w' :
  run (fetchPCKCRL c ca) w = (Ok r, w') →
  w' = add_sent (get_request c (pckcrl_url c ca)) w ∧
  ∃ h, answers c (w_sent w) (pckcrl_url c ca) r.1 h ∧ chain_of h intelQVLPCSHeaderPCKCRL r.2.
Proof.
  intros Hr. unfold fetchPCKCRL in Hr. run_inv Hr. apply run_map_err_Ok, getAbsolute_Ok in Hrun as [Ha ->].
  run_inv Hk. apply run_map_err_Ok, run_lift_Ok in Hrun as [Hc ->]. simpl in Hk0. simplify_eq/=. eauto.
Qed.

Lemma fetchTCBInfo_Ok c fmspc w r w' :
  run (fetchTCBInfo c fmspc) w = (Ok r, w') →
  w' = add_sent (get_request c (tcb_url c fmspc)) w ∧
  ∃ h, answers c (w_sent w) (tcb_url c fmspc) r.1 h ∧ chain_of h intelQVLPCSHeaderTCBInfo r.2.
Proof.
  intros Hr. unfold fetchTCBInfo in Hr. run_inv Hr. apply run_lift_Ok in Hrun as [Hq ->].
  unfold intelQVLFMSPCQueryValue in Hq. destruct (negb _); simplify_eq.
  run_inv Hk. apply run_map_err_Ok, getAbsolute_Ok in Hrun as [Ha ->].
  run_inv Hk0. apply run_map_err_Ok, run_lift_Ok in Hrun as [Hc ->]. simpl in Hk. simplify_eq/=. eauto.
Qed.

Lemma fetchQEIdentity_Ok c w r w' :
  run (fetchQEIdentity c) w = (Ok r, w') →
  w' = add_sent (get_request c (pcs_url c "qe/identity" [])) w ∧
  ∃ h, answers c (w_sent w) (pcs_url c "qe/identity" []) r.1 h ∧ chain_of h intelQVLPCSHeaderQEIDChain r.2.
Proof.
  intros Hr. unfold fetchQEIdentity in Hr. run_inv Hr. apply run_map_err_Ok, getAbsolute_Ok in Hrun as [Ha ->].
  run_inv Hk. apply run_map_err_Ok, run_lift_Ok in Hrun as [Hc ->]. simpl in Hk0. simplify_eq/=. eauto.
Qed.

Lemma fetchRootCACRL_Ok c chain w crl w' :
  run (fetchRootCACRL c chain) w = (Ok crl, w') →
  ∃ cert cdp rest body h,
    lastCertificateFromPEM chain = Ok cert ∧ CRLDistributionPoints cert = cdp :: rest ∧
    w' = add_sent (get_request c (rootCACRLURL c cdp)) w ∧
    answers c (w_sent w) (rootCACRLURL c cdp) body h ∧ crl = der_of body.
Proof.
  intros Hr. unfold fetchRootCACRL in Hr. run_inv Hr. apply run_map_err_Ok, run_lift_Ok in Hrun as [Hc ->].
  destruct (CRLDistributionPoints a) as [|cdp rest] eqn:Hd; [done|].
  run_inv Hk. apply run_map_err_Ok, getAbsolute_Ok in Hrun as [Ha ->]. simpl in Hk0. simplify_eq/=.
  exists a, cdp, rest, a0.1, a0.2. by split_and!.
Qed.

(** All of [Fetch]: the requests, and each part of the collateral an answer to one. *)
Lemma Fetch_Ok c quote w coll w' :
  run (Fetch c quote) w = (Ok coll, w') →
  ∃ fmspc ca cert cdp rest crl h1 h2 h3 h4,
    extractIntelQVLFMSPC quote = Ok fmspc ∧ extractIntelQVLQuotePCKCA quote = Ok ca ∧
    lastCertificateFromPEM (PCKCRLIssuerChain coll) = Ok cert ∧ CRLDistributionPoints cert = cdp :: rest ∧
    let url i := nth i (fetch_urls c fmspc ca cdp) "" in
    let before i := w_sent w ++ map (get_request c) (take i (fetch_urls c fmspc ca cdp)) in
    w' = add_all (map (get_request c) (fetch_urls c fmspc ca cdp)) w ∧
    answers c (before 0) (url 0) (PCKCRL coll) h1 ∧ answers c (before 1) (url 1) crl h2 ∧
    answers c (before 2) (url 2) (TCBInfo coll) h3 ∧ answers c (before 3) (url 3) (QEIdentity coll) h4 ∧
    chain_of h1 intelQVLPCSHeaderPCKCRL (PCKCRLIssuerChain coll) ∧
    chain_of h3 intelQVLPCSHeaderTCBInfo (TCBInfoIssuerChain coll) ∧
    chain_of h4 intelQVLPCSHeaderQEIDChain (QEIdentityIssuerChain coll) ∧
    RootCACRL coll = der_of crl ∧ MajorVersion coll = 3%Z ∧ MinorVersion coll = 1%Z ∧ TEEType coll = 0%Z.
Proof.
  intros Hr. unfold Fetch in Hr. run_inv Hr. apply run_lift_Ok in Hrun as [Hf ->].
  run_inv Hk. apply run_lift_Ok in Hrun as [Hca ->].
  run_inv Hk0. apply fetchPCKCRL_Ok in Hrun as [-> (h1 & A1 & C1)].
  run_inv Hk. apply fetchRootCACRL_Ok in Hrun as (cert & cdp & rest & crl & h2 & Hc & Hd & -> & A2 & ->).
  run_inv Hk0. apply fetchTCBInfo_Ok in Hrun as [-> (h3 & A3 & C3)].
  run_inv Hk. apply fetchQEIdentity_Ok in Hrun as [-> (h4 & A4 & C4)]. simpl in Hk0. simplify_eq/=.
  exists a, a0, cert, cdp, rest, crl, h1, h2, h3, h4. cbv zeta. cbn [nth take map fetch_urls].
  rewrite app_nil_r. rewrite <- !app_assoc in A4. rewrite <- app_assoc in A3. by split_and!.
Qed.

(** Whatever the outcome, fetching only sends requests. *)
Lemma getAbsolute_only_sends c url : stays only_sends (getAbsolute c url).
Proof. unfold getAbsolute, Do. stays_auto. Qed.

#[local] Hint Resolve getAbsolute_only_sends : stays.

Lemma getCollateral_only_sends c quote : stays only_sends (getIntelQVLQuoteCollateral c quote).
Proof.
  unfold getIntelQVLQuoteCollateral, Fetch, fetchPCKCRL, fetchRootCACRL, fetchTCBInfo, fetchQEIdentity, pcs_get.
  stays_auto.
Qed.

(** The default service. *)
Lemma hex_upper_plain b : all_chars (λ c, is_alpha c || is_digit c) (ToUpper_ascii (EncodeToString b)) = true.
Proof. induction b as [|x b IH]; [done|]. by destruct x. Qed.

Lemma newIntelQVLPCSClient_default cfg c :
  TrimSpace (IntelCollateralServiceURL cfg) = "" → newIntelQVLPCSClient cfg = Ok c →
  PCS_baseURL c = mkURL "https" "" None "api.trustedservices.intel.com" "/sgx/certification/v4" "" false false "" "" "" ∧
  Client_Insecure (PCS_httpClient c) = IntelCollateralInsecureTLS cfg.
Proof.
  intros Hu. unfold newIntelQVLPCSClient. rewrite Hu. cbn [String.eqb].
  assert (url_Parse intelQVLDefaultCollateralServiceURL =
    Some (mkURL "https" "" None "api.trustedservices.intel.com" "/sgx/certification/v4" "" false false "" "" ""))
    as -> by (by vm_compute).
  cbn. by intros [= <-].
Qed.

(** The URLs at the default service: nothing of the quote gets into one but the FMSPC, as
    twelve upper-case hexadecimal digits, and the kind of its PCK CA. *)
Lemma default_urls cfg c fmspc ca cdp :
  TrimSpace (IntelCollateralServiceURL cfg) = "" → newIntelQVLPCSClient cfg = Ok c →
  length fmspc = intelQVLFMSPCSize → ca = "processor" ∨ ca = "platform" →
  fetch_urls c fmspc ca cdp =
    [intelQVLDefaultCollateralServiceURL +++ "/pckcrl?ca=" +++ ca +++ "&encoding=der"; cdp;
     intelQVLDefaultCollateralServiceURL +++ "/tcb?fmspc=" +++ ToUpper_ascii (EncodeToString fmspc);
     intelQVLDefaultCollateralServiceURL +++ "/qe/identity"].
Proof.
  intros Hu Hc Hlen Hca. apply newIntelQVLPCSClient_default in Hc as [Hbase _]; [|done].
  unfold fetch_urls, rootCACRLURL, pckcrl_url, tcb_url, pcs_url. rewrite Hbase. f_equal; [by destruct Hca as [-> | ->]|].
  f_equal. f_equal. unfold Values_Encode.
  change (merge_sort key_le [("fmspc", [ToUpper_ascii (EncodeToString fmspc)])])
    with [("fmspc", [ToUpper_ascii (EncodeToString fmspc)])].
  cbn [map concat app String.concat]. rewrite (QueryEscape_id (ToUpper_ascii _)) by apply hex_upper_plain.
  destruct (ToUpper_ascii (EncodeToString fmspc)) as [|x s] eqn:He; [by destruct fmspc|].
  transitivity (intelQVLDefaultCollateralServiceURL +++ "/tcb?fmspc=" +++ (String x s +++ "")); [reflexivity|].
  by rewrite string_app_nil_r.
Qed.
End exchange.

Section certificates.
Context `{Lib}.

Lemma PCKCA_cases quote ca :
  extractIntelQVLQuotePCKCA quote = Ok ca → ca = "processor" ∨ ca = "platform".
Proof.
  unfold extractIntelQVLQuotePCKCA. destruct (extractIntelQVLQuotePCKCertChain quote); simpl; try done.
  destruct (parseIntelQVLQuoteCertificates a) as [[|? [|issuer ?]]| | |]; simpl; try done.
  destruct (Contains _ _); [intros [= <-]; by left|]. destruct (Contains _ _); [|done]. intros [= <-]. by right.
Qed.

Lemma FMSPC_length quote fmspc : extractIntelQVLFMSPC quote = Ok fmspc → length fmspc = intelQVLFMSPCSize.
Proof.
  unfold extractIntelQVLFMSPC. destruct quote; [done|]. destruct (extractIntelQVLFMSPCNative _); simpl; [|done..].
  destruct (Nat.eqb_spec (length a) intelQVLFMSPCSize); [by intros [= <-]|done].
Qed.

Context (Hpem : ∀ b ty content remaining,
  pem_Decode b = Some (ty, content, remaining) → length remaining < length b).

Lemma pem_certificates_total fuel rest certs :
  length rest ≤ fuel → pem_certificates fuel rest certs ≠ OutOfFuel ∧ pem_certificates fuel rest certs ≠ Panic.
Proof.
  revert rest certs. induction fuel as [|fuel IH]; intros rest certs Hl.
  - by destruct rest; [|simpl in Hl; lia].
  - destruct rest as [|b rest]; [done|]. cbn [pem_certificates].
    destruct (pem_Decode (b :: rest)) as [[[ty content] remaining]|] eqn:Hd; [|done].
    apply Hpem in Hd. simpl in Hd, Hl. destruct (negb _); [apply IH; lia|].
    destruct (x509_ParseCertificate content); simpl; [apply IH; lia|done].
Qed.

Lemma parse_certificates_total chain :
  parseIntelQVLQuoteCertificates chain ≠ OutOfFuel ∧ parseIntelQVLQuoteCertificates chain ≠ Panic.
Proof.
  unfold parseIntelQVLQuoteCertificates. destruct (x509_ParseCertificates chain) as [[|]|]; try done.
  all: destruct (pem_certificates_total (length chain) chain [] ltac:(lia)) as [H1 H2];
    destruct (pem_certificates _ _ _) as [[]| | |]; done.
Qed.
End certificates.

(** ** Properties *)

Section properties.
Context `{Lib}.

(** C14: what [Fetch] returns comes from the service, part by part.  With the default service
    it makes exactly four calls of the HTTP client (which may follow redirects to answer one),
    in this order and with the client's settings and key:
    for the PCK CRL of the CA that issued the quote's certificate, for the root CA's CRL
    where the last certificate of the chain that came with the PCK CRL says it is, for
    the TCB info of the quote's FMSPC, and for the QE identity; each answer had status
    200, the collateral consists of their bodies and of the decoded chains in their
    headers, and its version is 3.1 for SGX. *)
Theorem Fetch_exchange (cfg : RAConfig) c quote w coll w' :
  TrimSpace (IntelCollateralServiceURL cfg) = "" → newIntelQVLPCSClient cfg = Ok c →
  run (Fetch c quote) w = (Ok coll, w') →
  ∃ fmspc ca cert cdp rest crl h1 h2 h3 h4,
    extractIntelQVLFMSPC quote = Ok fmspc ∧ extractIntelQVLQuotePCKCA quote = Ok ca ∧
    lastCertificateFromPEM (PCKCRLIssuerChain coll) = Ok cert ∧ CRLDistributionPoints cert = cdp :: rest ∧
    let u1 := intelQVLDefaultCollateralServiceURL +++ "/pckcrl?ca=" +++ ca +++ "&encoding=der" in
    let u3 := intelQVLDefaultCollateralServiceURL +++ "/tcb?fmspc=" +++ ToUpper_ascii (EncodeToString fmspc) in
    let u4 := intelQVLDefaultCollateralServiceURL +++ "/qe/identity" in
    let get := get_request c in
    w' = add_all [get u1; get cdp; get u3; get u4] w ∧
    answers c (w_sent w) u1 (PCKCRL coll) h1 ∧
    answers c (w_sent w ++ [get u1]) cdp crl h2 ∧
    answers c (w_sent w ++ [get u1; get cdp]) u3 (TCBInfo coll) h3 ∧
    answers c (w_sent w ++ [get u1; get cdp; get u3]) u4 (QEIdentity coll) h4 ∧
    chain_of h1 intelQVLPCSHeaderPCKCRL (PCKCRLIssuerChain coll) ∧
    chain_of h3 intelQVLPCSHeaderTCBInfo (TCBInfoIssuerChain coll) ∧
    chain_of h4 intelQVLPCSHeaderQEIDChain (QEIdentityIssuerChain coll) ∧
    RootCACRL coll = der_of crl ∧ MajorVersion coll = 3%Z ∧ MinorVersion coll = 1%Z ∧ TEEType coll = 0%Z.
Proof.
  intros Hu Hc (fmspc & ca & cert & cdp & rest & crl & h1 & h2 & h3 & h4 & Hf & Hca & Hcert & Hd & Hall)%Fetch_Ok.
  exists fmspc, ca, cert, cdp, rest, crl, h1, h2, h3, h4. do 4 (split; [done|]). cbv zeta in Hall.
  rewrite (default_urls cfg) in Hall; [|done|done|by eapply FMSPC_length|by eapply PCKCA_cases].
  cbn [nth take map] in Hall. rewrite app_nil_r in Hall. exact Hall.
Qed.

(** A caching service (any other host) is asked for the root CA's CRL itself: the
    request's path is the service's, and its query carries the distribution point so
    that it is read back unchanged, whatever characters it has; Intel's own service is
    bypassed and the distribution point asked directly. *)
Theorem root_CRL_request (c : intelQVLPCSClient) (cdp : string) :
  if isIntelQVLIntelPCSURL (PCS_baseURL c) then rootCACRLURL c cdp = cdp
  else ∃ query, rootCACRLURL c cdp =
           URL_String (with_path_query (Join [URL_Path (PCS_baseURL c); "crl"]) query (PCS_baseURL c)) ∧
         ParseQuery query = [("uri", [cdp])].
Proof.
  unfold rootCACRLURL. destruct (isIntelQVLIntelPCSURL _); [done|].
  eexists. split; [reflexivity|]. by apply ParseQuery_Encode_single.
Qed.

(** The loop over the certificates of a quote ends on every input: where decoding a
    block of PEM consumes something, the fuel of the model is never used up, so the
    certificate authority of a quote is always a result or an error, never a panic. *)
Theorem quote_certificates_terminate (quote : bytes) :
  (∀ b ty content remaining, pem_Decode b = Some (ty, content, remaining) → length remaining < length b) →
  extractIntelQVLQuotePCKCA quote = Ok "processor" ∨ extractIntelQVLQuotePCKCA quote = Ok "platform" ∨
  ∃ e, extractIntelQVLQuotePCKCA quote = Err e.
Proof.
  intros Hpem. unfold extractIntelQVLQuotePCKCA.
  destruct (extractIntelQVLQuotePCKCertChain_cases quote) as [[e ->]|(off & n & -> & _)]; [simpl; eauto|].
  set (chain := at_offset off n quote). cbn [mbind res_bind].
  destruct (parse_certificates_total Hpem chain) as [Hfuel Hpanic].
  destruct (parseIntelQVLQuoteCertificates chain) as [[|? [|issuer ?]]|e| |]; cbn; eauto; try done.
  destruct (Contains _ "processor ca"); [by auto|]. destruct (Contains _ "platform ca"); eauto.
Qed.
End properties.

(** ** Witnesses *)

Definition pcs_client : intelQVLPCSClient :=
  built (@newIntelQVLPCSClient sgx_lib sgx_config)
    (mkPCSClient (mkURL "" "" None "" "" "" false false "" "" "") (mkHttpClient 0 false) "").

Lemma Fetch_exchange_witness :
  TCBInfo sgx_collateral = bs [0xA3]%Z ∧
  ∃ w', run (@Fetch sgx_lib pcs_client bound_quote) initial_world = (Ok sgx_collateral, w') ∧
    length (w_sent w') = 4.
Proof.
  split; [done|].
  destruct (@Fetch_exchange sgx_lib sgx_config pcs_client bound_quote initial_world sgx_collateral
    (run (@Fetch sgx_lib pcs_client bound_quote) initial_world).2)
    as (? & ? & ? & ? & ? & ? & ? & ? & ? & ? & _ & _ & _ & _ & Hw & _).
  - by vm_compute.
  - by vm_compute.
  - by vm_compute.
  - exists (run (@Fetch sgx_lib pcs_client bound_quote) initial_world).2.
    split; [by vm_compute|]. rewrite Hw. reflexivity.
Defined.

Lemma quote_certificates_terminate_witness :
  extractIntelQVLQuotePCKCA (H:=sgx_lib) bound_quote = Ok "platform".
Proof.
  destruct (@quote_certificates_terminate sgx_lib bound_quote) as [Hp|[Hp|[e He]]].
  - intros [|b l] ty content remaining Hd; [done|]. cbn in Hd. simplify_eq. simpl. lia.
  - by vm_compute in Hp.
  - exact Hp.
  - by vm_compute in He.
Defined.
