(* ===== verification/CacheFlow.v ===== *)
(** The cache of collateral as a store of files: what a look-up returns, what storing
    leaves behind wherever it stops, and that what is in the cache was fetched for the
    platform family it is filed under. *)

From Stdlib Require Import Ascii.
From stdpp Require Import pretty.
From S2P Require Import Prelude GoText GoUrl Model Db Evolve Frame Wire Lib Stub Rats Qvl Collateral Verifiers Quote.
From S2P Require Import CollateralFlow.

(** ** The key and the path *)

Lemma runes_ascii c s : N.ltb (code c) 128 = true → runes (String c s) = RAscii c :: runes s.
Proof.
  intros Hc. assert (is_code 0xC5 c = false ∧ is_code 0xC4 c = false ∧ is_code 0xE2 c = false) as (H1 & H2 & H3).
  { revert Hc. by destruct c as [[] [] [] [] [] [] [] []]. }
  assert (rune_of_byte c = RAscii c) as Hr by (unfold rune_of_byte; by rewrite Hc).
  destruct s as [|c2 [|c3 s]]; cbn [runes]; rewrite ?H1, ?H2, ?H3, Hr; done.
Qed.

Lemma ToLower_ascii c s : N.ltb (code c) 128 = true → ToLower (String c s) = String (ascii_lower c) (ToLower s).
Proof. intros Hc. unfold ToLower. by rewrite runes_ascii. Qed.

Lemma ToLower_hex b : ToLower (EncodeToString b) = EncodeToString b.
Proof.
  induction b as [|x b IH]; [done|]. cbn [EncodeToString]. rewrite !ToLower_ascii, IH by (by destruct x).
  by destruct x.
Qed.

Lemma hex_plain b : contains_code 47 (EncodeToString b) = false.
Proof. induction b as [|x b IH]; [done|]. by destruct x. Qed.

(** The names the cache uses: a platform family and one of the two kinds of PCK CA. *)
Definition cache_key (fmspc : bytes) (ca : string) : string :=
  "fmspc-" +++ EncodeToString fmspc +++ "-pckca-" +++ ca.

Lemma key_file_name fmspc ca :
  contains_code 47 ca = false → file_name (cache_key fmspc ca +++ ".bin").
Proof.
  intros Hca. unfold cache_key. split; [|done].
  rewrite !contains_code_app, Hca, hex_plain. done.
Qed.

Section keys.
Context `{Lib}.

Lemma CacheKey_Ok quote key :
  intelQVLCollateralCacheKey quote = Ok key →
  ∃ fmspc ca, extractIntelQVLFMSPC quote = Ok fmspc ∧ extractIntelQVLQuotePCKCA quote = Ok ca ∧
    key = cache_key fmspc ca ∧ contains_code 47 ca = false.
Proof.
  unfold intelQVLCollateralCacheKey. destruct quote as [|b quote]; [done|].
  destruct (extractIntelQVLFMSPC _) as [fmspc| | |] eqn:Hf; simpl; try done.
  unfold intelQVLFMSPCCacheKeyValue. destruct (negb _); simpl; [done|].
  destruct (extractIntelQVLQuotePCKCA _) as [ca| | |] eqn:Hc; simpl; try done. intros [= <-].
  exists fmspc, ca. rewrite ToLower_hex. split_and!; try done.
  by apply PCKCA_cases in Hc as [-> | ->].
Qed.
End keys.

Section entries.
Context `{Lib}.

Lemma new_cache_entry_Collateral coll now entry :
  new_cache_entry (Some coll) now = Ok entry → Collateral entry = Some coll.
Proof. intros He. apply res_bind_Ok in He as (ex & _ & He). by simplify_eq. Qed.

Lemma key_is_file quote key : intelQVLCollateralCacheKey quote = Ok key → file_name (key +++ ".bin").
Proof. intros (fmspc & ca & _ & _ & -> & Hca)%CacheKey_Ok. by apply key_file_name. Qed.

End entries.

(** The names of the entries of a directory. *)
Definition entry_path (dir : string) (p : string) : Prop :=
  ∃ key, file_name (key +++ ".bin") ∧ p = cache_path dir key.

Lemma cache_path_inj dir k k' :
  file_name (k +++ ".bin") → file_name (k' +++ ".bin") → cache_path dir k = cache_path dir k' → k = k'.
Proof.
  intros Hk Hk'. destruct (Join_dir dir) as [front Hj]. unfold cache_path. rewrite !Hj by done.
  by intros ?%string_app_inj_l%string_app_inj_r.
Qed.

Lemma temp_not_entry dir r p : entry_path dir p → temp_name dir r ≠ p.
Proof.
  intros (k & Hk & ->). destruct (Join_dir dir) as [front Hj]. unfold cache_path. rewrite Hj by done.
  unfold temp_name. rewrite <- !string_app_assoc. intros He.
  apply (f_equal String.list_ascii_of_string) in He. rewrite !list_of_app in He.
  by apply app_inj_2 in He as [_ He].
Qed.

(** ** Files *)

#[local] Arguments Remove {_} path : simpl never.
#[local] Arguments ReadFile {_} path : simpl never.
#[local] Arguments file_op {_ A} f : simpl never.
#[local] Arguments ValidAt : simpl never.

Section files.
Context `{Platform}.

Lemma run_ReadFile p w :
  run (ReadFile p) w =
    (if file_fault (w_fops w) then Err ErrIO else res_of_option ErrNotExist (w_files w !! p),
     with_files (w_files w) w).
Proof. unfold ReadFile, file_op. rewrite run_atomically. by destruct (file_fault _). Qed.

Lemma run_Remove p w :
  ∃ r fs, run (Remove p) w = (r, with_files fs w) ∧ (fs = w_files w ∨ fs = delete p (w_files w)).
Proof.
  unfold Remove, file_op. rewrite run_atomically. destruct (file_fault _); [eauto|].
  destruct (w_files w !! p); simpl; eauto.
Qed.
End files.

(** ** Looking up *)

Section cache.
Context `{Platform} `{Lib}.

(** A file that is an entry. *)
Definition decodes (b : bytes) (entry : intelQVLCollateralCacheEntry) : Prop :=
  b ≠ [] ∧ json_cache_entry b = Some entry.

Lemma Cache_Get_Ok dir quote w o w' :
  run (Cache_Get (Some dir) quote) w = (Ok o, w') →
  ∃ key, intelQVLCollateralCacheKey quote = Ok key ∧ w_sent w' = w_sent w ∧
    match o with
    | Some coll => ∃ b entry,
        w_files w !! cache_path dir key = Some b ∧ decodes b entry ∧ Collateral entry = Some coll ∧
        ValidAt (Some entry) (clock (w_reads w)) = true ∧ w_files w' = w_files w
    | None => w_files w' = w_files w ∨ w_files w' = delete (cache_path dir key) (w_files w)
    end.
Proof.
  intros Hr. cbn [Cache_Get] in Hr. run_inv Hr. apply run_lift_Ok in Hrun as [Hp ->].
  unfold pathForQuote in Hp. apply res_bind_Ok in Hp as (key & Hkey & [= <-]). exists key.
  split; [done|]. run_inv Hk. apply run_try_Ok in Hrun. rewrite run_ReadFile in Hrun. cbn [fst snd] in *.
  destruct a as [b|e].
  - destruct (file_fault _); [done|]. destruct (w_files w !! _) as [b'|] eqn:Hb; simpl in Hrun; simplify_eq.
    destruct b as [|x b]; [done|]. run_inv Hk0. simpl in Hrun.
    destruct (json_cache_entry _) as [entry|] eqn:Hd; simpl in Hrun; simplify_eq. run_inv Hk.
    simpl in Hrun. simplify_eq. destruct (ValidAt _ _) eqn:Hv; cbn [negb] in Hk0.
    + simpl in Hk0. simplify_eq. split; [done|].
      destruct (Collateral a) as [coll|] eqn:Hc; [|left; done].
      exists (x :: b), a. by split_and!.
    + run_inv Hk0. apply run_lift_Ok in Hk as [[= <-] ->]. rewrite run_try in Hrun.
      destruct (run_Remove (cache_path dir key) (tick_clock (with_files (w_files w) w))) as (r & fs & Hrm & Hfs).
      rewrite Hrm in Hrun. destruct r; simpl in Hrun; simplify_eq; auto.
  - destruct (bool_decide _); [|done]. apply run_lift_Ok in Hk0 as [[= <-] ->]. simplify_eq. auto.
Qed.

(** A file of the cache that does not decode is an error, and stays. *)
Lemma Cache_Get_corrupt dir quote key b w :
  intelQVLCollateralCacheKey quote = Ok key → w_files w !! cache_path dir key = Some b →
  (b = [] ∨ json_cache_entry b = None) →
  ∃ e, run (Cache_Get (Some dir) quote) w = (Err e, with_files (w_files w) w).
Proof.
  intros Hkey Hb Hbad. cbn [Cache_Get]. rewrite run_bind. unfold pathForQuote. rewrite Hkey.
  change (run (lift _) w) with (Ok (E:=error) (cache_path dir key, key), w). cbn [run_then fst].
  rewrite run_bind, run_try, run_ReadFile.
  destruct (file_fault _); [eexists; reflexivity|]. rewrite Hb.
  cbn [fst snd res_of_option run_then]. destruct b as [|x b]; [eexists; reflexivity|].
  destruct Hbad as [?|Hbad]; [done|]. rewrite run_bind, run_map_err. simpl. rewrite Hbad. eexists. reflexivity.
Qed.
End cache.

(** ** Operations on files only add up *)

Definition more_ops (w w' : World) : Prop := w_fops w ≤ w_fops w'.

#[export] Instance more_ops_preorder : PreOrder more_ops.
Proof. split; unfold more_ops; [intros w; lia|intros ???; lia]. Qed.

Section count.
Context `{Platform} `{Lib}.

Lemma Process_more_ops v quote : every_step more_ops (IntelQVLVerifier_Process v quote).
Proof.
  unfold IntelQVLVerifier_Process, quoteCollateral, Cache_Get, Cache_Put, verifyIntelQVLQuote,
    getIntelQVLQuoteCollateral, Fetch, fetchPCKCRL, fetchRootCACRL, fetchTCBInfo, fetchQEIdentity, pcs_get,
    getAbsolute.
  every_step_auto.
  all: unfold ReadFile, Remove, Rename, Touch_file, Write_temp, CreateTemp, file_op, Do, time_now;
    (apply every_atomically; [apply _|intros w; unfold more_ops]).
  all: repeat case_match; simpl; lia.
Qed.
End count.

(** ** Verifications side by side

    A goroutine owns the temporary files whose names were drawn at one operation [own];
    up to operation [hi], with which the run ends, draws at different operations differ.
    [conc own Q p w]: whatever others do to the
    files it does not own, each step of [p] keeps the cache sound and leaves alone what
    others own, and a value it returns satisfies [Q]. *)

Section concurrent.
Context `{Platform} `{Lib}.
Context (c : intelQVLPCSClient) (dir : string) (hi : nat).

(** The collateral of [quote], part by part from answers of the service. *)
Definition fetched_for (quote : bytes) (coll : QuoteCollateral) : Prop :=
  ∃ fmspc ca cert cdp rest crl s1 h1 s2 h2 s3 h3 s4 h4,
    extractIntelQVLFMSPC quote = Ok fmspc ∧ extractIntelQVLQuotePCKCA quote = Ok ca ∧
    lastCertificateFromPEM (PCKCRLIssuerChain coll) = Ok cert ∧ CRLDistributionPoints cert = cdp :: rest ∧
    answers c s1 (pckcrl_url c ca) (PCKCRL coll) h1 ∧ answers c s2 (rootCACRLURL c cdp) crl h2 ∧
    answers c s3 (tcb_url c fmspc) (TCBInfo coll) h3 ∧
    answers c s4 (pcs_url c "qe/identity" []) (QEIdentity coll) h4 ∧ RootCACRL coll = der_of crl.

(** What may be in the file of [key]. *)
Definition stored_for (key : string) (b : bytes) : Prop :=
  ∃ quote coll t entry,
    intelQVLCollateralCacheKey quote = Ok key ∧ fetched_for quote coll ∧
    new_cache_entry (Some coll) (clock t) = Ok entry ∧ Marshal_cache_entry entry = Some b.

Definition cache_sound (w : World) : Prop :=
  ∀ key b, file_name (key +++ ".bin") → w_files w !! cache_path dir key = Some b → stored_for key b.

Definition name_at (o : nat) (nm : string) : Prop := o < hi ∧ ∃ t, nm = temp_name dir (temp_random o t).

Definition owned (own : option nat) (nm : string) : Prop := ∃ o, own = Some o ∧ name_at o nm.
Definition bound (own : option nat) (w : World) : Prop := ∀ o, own = Some o → o < w_fops w.

Definition later (w w' : World) : Prop := w_fops w ≤ w_fops w' ∧ w_reads w ≤ w_reads w'.

Definition rely (own : option nat) (w w' : World) : Prop :=
  later w w' ∧ ∀ nm, owned own nm → w_files w' !! nm = w_files w !! nm.

(** One step of a goroutine that owns [own]. *)
Record step_ok (own own' : option nat) (w w' : World) : Prop := {
  step_later : later w w';
  step_entries : ∀ key b, file_name (key +++ ".bin") → w_files w' !! cache_path dir key = Some b →
    w_files w !! cache_path dir key = Some b ∨ stored_for key b;
  step_others : ∀ o nm, name_at o nm → o < w_fops w → own ≠ Some o → w_files w' !! nm = w_files w !! nm;
  step_own : own' = own ∨ ∃ o, own' = Some o ∧ w_fops w ≤ o < w_fops w';
}.

Inductive concs {A} (own : option nat) (Q : res error A → option nat → World → Prop) : M A → World → Prop :=
  | concs_done r w : (∀ w', rely own w w' → Q r own w') → concs own Q (Done r) w
  | concs_step upd k w :
      (∀ w', rely own w w' → cache_sound w' → bound own w' → w_fops (upd w') ≤ hi →
         ∃ own', step_ok own own' w' (upd w') ∧ concs own' Q (k w') (upd w')) →
      concs own Q (Step upd k) w.

Lemma rely_refl own w : rely own w w.
Proof. by split; [split|]. Qed.

Lemma rely_trans own w1 w2 w3 : rely own w1 w2 → rely own w2 w3 → rely own w1 w3.
Proof.
  intros [[F1 R1] E1] [[F2 R2] E2]. split; [split; by etrans|]. intros nm Hnm. by rewrite E2, E1.
Qed.

Lemma concs_rely {A} own (Q : res error A → option nat → World → Prop) p w w' :
  rely own w w' → concs own Q p w → concs own Q p w'.
Proof.
  intros Hr Hc. destruct Hc as [r w Hq|upd k w Hk]; constructor; intros w2 Hr2; [apply Hq|apply Hk];
    by eapply rely_trans.
Qed.

Lemma step_bound own own' w w' : bound own w → step_ok own own' w w' → bound own' w'.
Proof.
  intros Hb [[Hf _] _ _ [-> | (o & -> & Ho)]] o' Ho'; [specialize (Hb o' Ho'); lia|]. injection Ho' as <-. lia.
Qed.

Lemma step_sound own own' w w' : cache_sound w → step_ok own own' w w' → cache_sound w'.
Proof. intros Hs Hok key b Hk Hb. destruct (step_entries _ _ _ _ Hok key b Hk Hb); eauto. Qed.

(** *** Rules *)

(** What a failed first call means for the sequence. *)
Definition failed {A B} (r : res error A) (Q : res error B → Prop) : Prop :=
  match r with Ok _ => True | Err e => Q (Err e) | Panic => Q Panic | OutOfFuel => Q OutOfFuel end.

Lemma concs_bind {A B} own (Q : res error A → option nat → World → Prop)
    (Q' : res error B → option nat → World → Prop) (p : M A) (f : A → M B) w :
  bound own w → concs own Q p w →
  (∀ a own' w', Q (Ok a) own' w' → later w w' → bound own' w' → concs own' Q' (f a) w') →
  (∀ r own' w', Q r own' w' → failed r (λ r, Q' r own' w')) →
  concs own Q' (p ≫= f) w.
Proof.
  unfold mbind, prog_mbind. intros Hb Hc. revert own w Hb Hc.
  induction p as [r|upd k IH]; intros own w Hb Hc Hf Hfail; inversion Hc as [? ? Hr|? ? ? Hk]; subst.
  - destruct r as [a| | |]; [apply Hf; [by apply Hr, rely_refl|by split|done]|..];
      constructor; intros w' Hw'; exact (Hfail _ _ _ (Hr _ Hw')).
  - constructor. intros w' Hrel Hs Hb' Hhi. destruct (Hk w' Hrel Hs Hb' Hhi) as (own' & Hok & Hc').
    exists own'. split; [done|]. apply IH; [by eapply step_bound|done| |done].
    intros a own2 w2 Ha [] Hb2. apply Hf; [done| |done].
    destruct Hrel as [[] _], (step_later _ _ _ _ Hok). split; lia.
Qed.

Lemma concs_weaken {A} own (Q Q' : res error A → option nat → World → Prop) p w :
  (∀ r own' w', Q r own' w' → Q' r own' w') → concs own Q p w → concs own Q' p w.
Proof.
  intros HQ. revert own w. induction p as [r|upd k IH]; intros own w Hc; inversion Hc as [? ? Hr|? ? ? Hk]; subst.
  - constructor. eauto.
  - constructor. intros w' Hrel Hs Hb Hhi. destruct (Hk w' Hrel Hs Hb Hhi) as (own' & Hok & Hc'). eauto.
Qed.

Lemma concs_map_err {A} own (Q : res error A → option nat → World → Prop) g p w :
  concs own (λ r, Q (res_map_err g r)) p w → concs own Q (map_err g p) w.
Proof.
  revert own w. induction p as [r|upd k IH]; intros own w Hc; inversion Hc as [? ? Hr|? ? ? Hk]; subst.
  - by constructor.
  - constructor. intros w' Hrel Hs Hb Hhi. destruct (Hk w' Hrel Hs Hb Hhi) as (own' & Hok & Hc'). eauto.
Qed.

Definition tried {A} (r : res error A) : res error (A + error) :=
  match r with Ok a => Ok (inl a) | Err e => Ok (inr e) | Panic => Panic | OutOfFuel => OutOfFuel end.

Lemma concs_try {A} own (Q : res error (A + error) → option nat → World → Prop) p w :
  concs own (λ r, Q (tried r)) p w → concs own Q (try p) w.
Proof.
  revert own w. induction p as [r|upd k IH]; intros own w Hc; inversion Hc as [? ? Hr|? ? ? Hk]; subst.
  - destruct r; by constructor.
  - constructor. intros w' Hrel Hs Hb Hhi. destruct (Hk w' Hrel Hs Hb Hhi) as (own' & Hok & Hc'). eauto.
Qed.

Lemma concs_atomically {A} own (Q : res error A → option nat → World → Prop)
    (f : World → res error A * World) w :
  (∀ w', rely own w w' → cache_sound w' → bound own w' → w_fops (f w').2 ≤ hi →
     ∃ own', step_ok own own' w' (f w').2 ∧ ∀ w2, rely own' (f w').2 w2 → Q (f w').1 own' w2) →
  concs own Q (atomically f) w.
Proof.
  intros Hf. constructor. intros w' Hr Hs Hb Hhi. destruct (Hf w' Hr Hs Hb Hhi) as (own' & Hok & Ha).
  exists own'. split; [done|]. by constructor.
Qed.

(** Where only the value matters. *)
Definition returns {A} (Q : A → Prop) : res error A → option nat → World → Prop :=
  λ r _ _, ∀ a, r = Ok a → Q a.
Definition conc {A} (own : option nat) (Q : A → Prop) : M A → World → Prop := concs own (returns Q).

Lemma concs_bind_conc {A B} own (Q : res error A → option nat → World → Prop) (Q' : B → Prop)
    (p : M A) (f : A → M B) w :
  bound own w → concs own Q p w →
  (∀ a own' w', Q (Ok a) own' w' → later w w' → bound own' w' → conc own' Q' (f a) w') →
  conc own Q' (p ≫= f) w.
Proof. intros Hb Hp Hf. eapply concs_bind; [done..|]. intros [] ? ? _; [exact I|by intros ?..]. Qed.

Lemma conc_bind {A B} own (Q : A → Prop) (Q' : B → Prop) (p : M A) (f : A → M B) w :
  bound own w → conc own Q p w →
  (∀ a own' w', Q a → later w w' → bound own' w' → conc own' Q' (f a) w') →
  conc own Q' (p ≫= f) w.
Proof. intros Hb Hp Hf. eapply concs_bind_conc; [done..|]. intros a own' w' Ha. by apply Hf, Ha. Qed.

Lemma conc_weaken {A} own (Q Q' : A → Prop) p w : (∀ a, Q a → Q' a) → conc own Q p w → conc own Q' p w.
Proof. intros HQ. apply concs_weaken. unfold returns. auto. Qed.

Lemma conc_map_err {A} own (Q : A → Prop) g p w : conc own Q p w → conc own Q (map_err g p) w.
Proof.
  intros Hp. apply concs_map_err. eapply concs_weaken; [|exact Hp]. intros r ? ? Hr a Ha.
  destruct r; simpl in Ha; simplify_eq. auto.
Qed.

Lemma conc_try {A} own (Q : A → Prop) p w :
  conc own Q p w → conc own (λ r, match r with inl a => Q a | inr _ => True end) (try p) w.
Proof.
  intros Hp. apply concs_try. eapply concs_weaken; [|exact Hp]. intros r ? ? Hr a Ha.
  destruct r; simpl in Ha; simplify_eq; auto.
Qed.

Lemma conc_atomically {A} own (Q : A → Prop) (f : World → res error A * World) w :
  (∀ w', rely own w w' → cache_sound w' → bound own w' →
     ∃ own', step_ok own own' w' (f w').2 ∧ ∀ a, (f w').1 = Ok a → Q a) →
  conc own Q (atomically f) w.
Proof.
  intros Hf. apply concs_atomically. intros w' Hr Hs Hb _. destruct (Hf w' Hr Hs Hb) as (own' & Hok & Ha). eauto.
Qed.

(** A step that leaves the files alone. *)
Lemma step_quiet own w w' : later w w' → w_files w' = w_files w → step_ok own own w w'.
Proof. intros Hl Hf. split; [done|rewrite Hf; auto|by rewrite Hf|by left]. Qed.

Lemma conc_quiet {A} own (Q : A → Prop) (f : World → res error A * World) w :
  (∀ w', later w w' → later w' (f w').2 ∧ w_files (f w').2 = w_files w' ∧ ∀ a, (f w').1 = Ok a → Q a) →
  conc own Q (atomically f) w.
Proof.
  intros Hf. apply conc_atomically. intros w' [Hl _] _ _. destruct (Hf w' Hl) as (H1 & H2 & H3).
  exists own. split; [by apply step_quiet|done].
Qed.

Lemma conc_lift {A} own (Q : A → Prop) r w : (∀ a, r = Ok a → Q a) → conc own Q (lift r) w.
Proof. intros Hq. constructor. intros ? ?. exact Hq. Qed.

Lemma conc_throw {A} own (Q : A → Prop) e w : conc own Q (throw e) w.
Proof. by apply conc_lift. Qed.

Lemma conc_ret {A} own (Q : A → Prop) a w : Q a → conc own Q (mret a) w.
Proof. intros Ha. apply conc_lift. by intros ? [= <-]. Qed.
(** *** The calls of a verification *)

Lemma later_refl w : later w w.
Proof. by split. Qed.
#[local] Hint Resolve later_refl : core.

Lemma conc_time_now own w : conc own (λ n, ∃ i, w_reads w ≤ i ∧ n = clock i) time_now w.
Proof.
  apply conc_quiet. intros w' [_ Hr]. split_and!; [split; simpl; lia|done|]. intros n [= <-]. eauto.
Qed.

Lemma conc_Do own client req w :
  conc own (λ resp, ∃ sent, http_Do sent client req = Some resp) (Do client req) w.
Proof.
  apply conc_quiet. intros w' _. split_and!; [done|done|]. intros resp Hr%res_of_option_Ok. eauto.
Qed.

Lemma conc_getAbsolute own url w :
  bound own w → conc own (λ r, ∃ s, answers c s url r.1 r.2) (getAbsolute c url) w.
Proof.
  intros Hb. unfold getAbsolute, NewRequest. destruct (url_Parse url); [|by apply conc_throw].
  apply conc_bind with (Q := λ req, req = (get_request c url).2); [done|apply conc_lift; by intros ? [= <-]|].
  intros req own1 w1 -> _ Hb1. eapply conc_bind; [done|apply conc_Do|]. intros resp own2 w2 [sent Hs] _ Hb2.
  apply conc_bind with (Q := λ body, Http_ResponseBody resp = Some body);
    [done|apply conc_lift; by intros ? ?%res_of_option_Ok|].
  intros body own3 w3 Hbody _ _. destruct (Z.eqb_spec (Http_StatusCode resp) 200); [|by apply conc_throw].
  apply conc_ret. exists sent, resp. by split_and!.
Qed.

(** [x, err := c.get(...)] followed by the decoding of a header. *)
Lemma conc_with_chain own url name wrap wrap' w :
  bound own w →
  conc own (λ r, ∃ s h, answers c s url r.1 h ∧ chain_of h name r.2)
    (r ← map_err wrap (getAbsolute c url);
     chain ← map_err wrap' (lift (decodeIntelPCSHeader (Header_Get r.2 name)));
     mret (r.1, chain)) w.
Proof.
  intros Hb. eapply conc_bind; [done|by apply conc_map_err, conc_getAbsolute|].
  intros r own1 w1 [s Hs] _ Hb1.
  apply conc_bind with (Q := chain_of r.2 name); [done|by apply conc_map_err, conc_lift|].
  intros chain own2 w2 Hc _ _. apply conc_ret. simpl. eauto.
Qed.

Lemma conc_Fetch own quote w : bound own w → conc own (fetched_for quote) (Fetch c quote) w.
Proof.
  intros Hb. unfold Fetch.
  apply conc_bind with (Q := λ f, extractIntelQVLFMSPC quote = Ok f); [done|by apply conc_lift|].
  intros fmspc own1 w1 Hf _ Hb1.
  apply conc_bind with (Q := λ f, extractIntelQVLQuotePCKCA quote = Ok f); [done|by apply conc_lift|].
  intros ca own2 w2 Hca _ Hb2. eapply conc_bind; [done|by apply conc_with_chain|].
  intros [crl chain] own3 w3 (s1 & h1 & A1 & C1) _ Hb3.
  apply conc_bind with (Q := λ crl, ∃ cert cdp rest body s h, lastCertificateFromPEM chain = Ok cert ∧
    CRLDistributionPoints cert = cdp :: rest ∧ answers c s (rootCACRLURL c cdp) body h ∧ crl = der_of body); [done|..].
  { unfold fetchRootCACRL.
    apply conc_bind with (Q := λ cert, lastCertificateFromPEM chain = Ok cert);
      [done|by apply conc_map_err, conc_lift|].
    intros cert own4 w4 Hcert _ Hb4. destruct (CRLDistributionPoints cert) as [|cdp rest] eqn:Hd;
      [by apply conc_throw|].
    eapply conc_bind; [done|by apply conc_map_err, conc_getAbsolute|].
    intros r own5 w5 [s Hs] _ _. apply conc_ret. exists cert, cdp, rest, r.1, s, r.2. by split_and!. }
  intros root own4 w4 (cert & cdp & rest & body & s2 & h2 & Hcert & Hd & A2 & Hroot) _ Hb4.
  apply conc_bind with (Q := λ r, ∃ s h, answers c s (tcb_url c fmspc) r.1 h ∧ chain_of h intelQVLPCSHeaderTCBInfo r.2);
    [done|..].
  { unfold fetchTCBInfo, intelQVLFMSPCQueryValue. destruct (negb _); [by apply conc_throw|].
    apply conc_bind with (Q := λ q, q = ToUpper_ascii (EncodeToString fmspc));
      [done|apply conc_lift; by intros ? [= <-]|].
    intros q own5 w5 -> _ Hb5. by apply conc_with_chain. }
  intros [tcb tchain] own5 w5 (s3 & h3 & A3 & _) _ Hb5.
  eapply conc_bind; [done|by apply conc_with_chain|]. intros [qe qchain] own6 w6 (s4 & h4 & A4 & _) _ _.
  apply conc_ret. exists fmspc, ca, cert, cdp, rest, body, s1, h1, s2, h2, s3, h3, s4, h4. by split_and!.
Qed.

(** Collateral that may stand behind a verdict on [quote] of a call that began when the
    clock had been read [n0] times. *)
Definition good_collateral (quote : bytes) (n0 : nat) (coll : QuoteCollateral) : Prop :=
  fetched_for quote coll ∨
  ∃ quote0 key t n entry,
    intelQVLCollateralCacheKey quote = Ok key ∧ intelQVLCollateralCacheKey quote0 = Ok key ∧
    fetched_for quote0 coll ∧ new_cache_entry (Some coll) (clock t) = Ok entry ∧
    n0 ≤ n ∧ ValidAt (Some entry) (clock n) = true.

Context (json_rt : ∀ e b, Marshal_cache_entry e = Some b → json_cache_entry b = Some e).
Context (fresh_names : ∀ o t o' t', o < hi → o' < hi → temp_random o t = temp_random o' t' → o = o').

Lemma later_with_files fs w : later w (with_files fs w).
Proof. split; simpl; lia. Qed.
#[local] Hint Resolve later_with_files : core.

Lemma name_at_inj o o' nm : name_at o nm → name_at o' nm → o = o'.
Proof.
  intros [Ho [t ->]] [Ho' [t' He]]. unfold temp_name in He.
  apply string_app_inj_l in He. apply string_app_inj_l in He. apply string_app_inj_r in He. eauto.
Qed.

Lemma name_not_entry o nm key : name_at o nm → file_name (key +++ ".bin") → nm ≠ cache_path dir key.
Proof. intros [_ [t ->]] Hk. apply temp_not_entry. by exists key. Qed.

(** Changing one's own file. *)
Lemma step_own_file o nm fs w :
  name_at o nm → (∀ p, p ≠ nm → fs !! p = w_files w !! p) → step_ok (Some o) (Some o) w (with_files fs w).
Proof.
  intros Hnm Hfs. split; [done|..|by left]; cbn [w_files with_files].
  - intros key b Hk. rewrite Hfs; [by left|]. intros He. by eapply name_not_entry.
  - intros o' nm' Hnm' _ Hne. apply Hfs. intros ->. destruct Hne. f_equal. by eapply name_at_inj.
Qed.

(** Reading an entry, and removing it. *)
Lemma conc_ReadFile own key w :
  file_name (key +++ ".bin") → conc own (stored_for key) (ReadFile (cache_path dir key)) w.
Proof.
  intros Hk. apply conc_atomically. intros w' _ Hs _. exists own.
  destruct (file_fault _); cbn [fst snd]; (split; [by apply step_quiet|]); [done|].
  intros b Hb%res_of_option_Ok. by apply Hs.
Qed.

Lemma conc_Remove_entry own key w :
  file_name (key +++ ".bin") → conc own (λ _, True) (Remove (cache_path dir key)) w.
Proof.
  intros Hk. apply conc_atomically. intros w' _ Hs _. exists own. split; [|done].
  destruct (file_fault _); cbn [snd]; [by apply step_quiet|].
  destruct (w_files w' !! cache_path dir key) as [b|] eqn:Hb; cbn [snd]; [|by apply step_quiet].
  split; [done|..|by left]; cbn [w_files with_files].
  - intros key' b' _ Hd. apply lookup_delete_Some in Hd as [_ Hd]. by left.
  - intros o nm Hnm _ _. rewrite lookup_delete_ne; [done|]. intros He. by eapply name_not_entry.
Qed.

(** Removing one's own file. *)
Lemma conc_Remove_own o nm w : name_at o nm → conc (Some o) (λ _, True) (Remove nm) w.
Proof.
  intros Hnm. apply conc_atomically. intros w' _ _ _. exists (Some o). split; [|done].
  destruct (file_fault _); cbn [snd]; [by apply step_quiet|].
  destruct (w_files w' !! nm); cbn [snd]; [|by apply step_quiet].
  apply step_own_file with nm; [done|]. intros p Hp. by rewrite lookup_delete_ne.
Qed.

(** What one knows of one's own file lasts. *)
Definition own_file (nm : string) (b : bytes) (own : option nat) (w : World) : Prop :=
  ∃ o, own = Some o ∧ name_at o nm ∧ w_files w !! nm = Some b.

Lemma own_file_rely nm b own w w' : own_file nm b own w → rely own w w' → own_file nm b own w'.
Proof.
  intros (o & -> & Hnm & Hb) [_ Hr]. exists o. split_and!; [done..|]. rewrite Hr; [done|]. by exists o.
Qed.

Lemma new_temp_name op tries fs nm : op < hi → new_temp dir op tries fs = Some nm → name_at op nm ∧ fs !! nm = None.
Proof.
  intros Hop. induction tries as [|tries IH]; [done|]. cbn [new_temp]. case_bool_decide; [|done].
  intros [= <-]. split; [split; [done|by eexists]|done].
Qed.

Lemma concs_CreateTemp own w :
  concs own (λ r own w, ∀ nm, r = Ok nm → own_file nm [] own w) (CreateTemp dir) w.
Proof.
  apply concs_atomically. intros w' _ Hs Hb Hhi.
  destruct (file_fault _); cbn [fst snd] in *; [exists own; split; [by apply step_quiet|done]|].
  destruct (new_temp dir (w_fops w') _ (w_files w')) as [nm|] eqn:Hn; cbn [fst snd] in *;
    [|exists own; split; [by apply step_quiet|done]].
  simpl in Hhi. apply new_temp_name in Hn as [Hnm Hnone]; [|lia]. exists (Some (w_fops w')). split.
  - split; [done|..|right; exists (w_fops w'); split; [done|simpl; lia]]; cbn [w_files with_files].
    + intros key b Hk. rewrite lookup_insert_ne; [by left|]. by eapply name_not_entry.
    + intros o nm' Hnm' Ho _. rewrite lookup_insert_ne; [done|]. intros ->.
      assert (w_fops w' = o) by (by eapply name_at_inj). lia.
  - intros w2 Hrel nm' [= <-]. eapply own_file_rely; [|exact Hrel]. exists (w_fops w'). split_and!; [done..|].
    cbn [w_files with_files]. by rewrite lookup_insert_eq.
Qed.

(** Inside the deferred removal the owner never changes. *)
Definition owner_keeps {A} (own : option nat) (P : option nat → World → Prop) :
    res error A → option nat → World → Prop :=
  λ r own' w, own' = own ∧ ∀ a, r = Ok a → P own' w.

Lemma concs_Write own nm b0 b w :
  own_file nm b0 own w → concs own (owner_keeps own (own_file nm b)) (Write_temp nm b) w.
Proof.
  intros Hof. apply concs_atomically. intros w' Hrel _ _ _. exists own.
  destruct (own_file_rely _ _ _ _ w' Hof Hrel) as (o & -> & Hnm & Hb0).
  assert (∀ x, step_ok (Some o) (Some o) w' (with_files (alter (λ _, x) nm (w_files w')) w')) as Hok.
  { intros x. apply step_own_file with nm; [done|]. intros p Hp. by rewrite lookup_alter_ne. }
  destruct (file_fault _); cbn [fst snd]; (split; [apply Hok|]); [done|].
  intros w2 Hrel2. split; [done|]. intros _ _. eapply own_file_rely; [|exact Hrel2].
  exists o. split_and!; [done..|]. cbn [w_files with_files]. by rewrite lookup_alter_eq, Hb0.
Qed.

Lemma concs_Touch own nm b w :
  own_file nm b own w → concs own (owner_keeps own (own_file nm b)) Touch_file w.
Proof.
  intros Hof. apply concs_atomically. intros w' Hrel _ _ _. exists own.
  split; [destruct (file_fault _); cbn [snd]; by apply step_quiet|].
  intros w2 Hrel2. split; [done|]. intros _ _. eapply own_file_rely; [|exact Hrel2].
  destruct (own_file_rely _ _ _ _ w' Hof Hrel) as (o & ? & ? & ?). destruct (file_fault _); by exists o.
Qed.

(** Committing what is fit to be stored. *)
Lemma concs_Rename own nm b key w :
  own_file nm b own w → file_name (key +++ ".bin") → stored_for key b →
  concs own (owner_keeps own (λ _ _, True)) (Rename nm (cache_path dir key)) w.
Proof.
  intros Hof Hk Hst. apply concs_atomically. intros w' Hrel _ _ _. exists own. split; [|done].
  destruct (own_file_rely _ _ _ _ w' Hof Hrel) as (o & -> & Hnm & Hb).
  destruct (file_fault _); cbn [snd]; [by apply step_quiet|]. rewrite Hb. cbn [snd].
  split; [done|..|by left]; cbn [w_files with_files].
  - intros key' b'. rewrite lookup_insert_Some. intros Hk' [[Hp <-]|[_ Hd]].
    + right. apply cache_path_inj in Hp as ->; [done..|]. done.
    + apply lookup_delete_Some in Hd as [_ Hd]. by left.
  - intros o' nm' Hnm' _ Hne. rewrite lookup_insert_ne by (intros He; by eapply name_not_entry).
    rewrite lookup_delete_ne; [done|]. intros ->. destruct Hne. f_equal. by eapply name_at_inj.
Qed.

(** A call of the body, with its error wrapped. *)
Lemma concs_then {A B} own P P' g (p : M A) (f : A → M B) w :
  bound own w → concs own (owner_keeps own P) p w →
  (∀ a w', P own w' → bound own w' → concs own (owner_keeps own P') (f a) w') →
  concs own (owner_keeps own P') (map_err g p ≫= f) w.
Proof.
  intros Hb Hp Hf. eapply concs_bind with (Q := owner_keeps own P); [done|..].
  - apply concs_map_err. eapply concs_weaken; [|exact Hp]. intros r own' w' [-> HP]. split; [done|].
    intros a Ha. destruct r; simpl in Ha; simplify_eq. by eapply HP.
  - intros a own' w' [-> HP] _ Hb'. by apply Hf; [eapply HP|].
  - intros r own' w' [-> _]. by destruct r.
Qed.

(** *** A whole verification *)

Lemma pathForQuote_Ok quote pk :
  pathForQuote dir quote = Ok pk →
  intelQVLCollateralCacheKey quote = Ok pk.2 ∧ file_name (pk.2 +++ ".bin") ∧ pk.1 = cache_path dir pk.2.
Proof.
  intros Hp. apply res_bind_Ok in Hp as (key & Hk & [= <-]). split_and!; [done| |done]. by eapply key_is_file.
Qed.

Lemma conc_Get own quote w :
  bound own w →
  conc own (λ o, ∀ coll, o = Some coll → good_collateral quote (w_reads w) coll) (Cache_Get (Some dir) quote) w.
Proof.
  intros Hb. cbn [Cache_Get].
  apply conc_bind with (Q := λ pk, pathForQuote dir quote = Ok pk); [done|by apply conc_lift|].
  intros pk own1 w1 (Hk & Hfile & Hp)%pathForQuote_Ok [_ Hr1] Hb1. rewrite Hp.
  eapply conc_bind; [done|by apply conc_try, conc_ReadFile|]. intros [b|e] own2 w2 Hst [_ Hr2] Hb2.
  2:{ destruct (bool_decide _); [by apply conc_ret|by apply conc_throw]. }
  destruct b as [|x b]; [by apply conc_throw|].
  destruct Hst as (quote0 & coll & t & entry & Hk0 & Hf & He & Hm).
  apply conc_bind with (Q := λ decoded, decoded = entry); [done|..].
  { apply conc_map_err, conc_lift. intros decoded. simpl. rewrite (json_rt _ _ Hm). by intros [= <-]. }
  intros decoded own3 w3 -> [_ Hr3] Hb3.
  eapply conc_bind; [done|apply conc_time_now|]. intros now own4 w4 (i & Hi & ->) _ Hb4.
  destruct (ValidAt _ _) eqn:Hv; cbn [negb].
  - apply conc_ret. rewrite (new_cache_entry_Collateral _ _ _ He). intros ? [= <-]. right.
    exists quote0, pk.2, t, i, entry. split_and!; try done. lia.
  - eapply conc_bind; [done|by apply conc_try, conc_Remove_entry|]. intros. by apply conc_ret.
Qed.

Lemma conc_Put own quote coll w :
  bound own w → fetched_for quote coll → conc own (λ _, True) (Cache_Put (Some dir) quote (Some coll)) w.
Proof.
  intros Hb Hf. cbn [Cache_Put].
  eapply conc_bind; [done|apply conc_time_now|]. intros now own1 w1 (t & _ & ->) _ Hb1.
  apply conc_bind with (Q := λ entry, new_cache_entry (Some coll) (clock t) = Ok entry); [done|by apply conc_lift|].
  intros entry own2 w2 He _ Hb2.
  apply conc_bind with (Q := λ b, Marshal_cache_entry entry = Some b);
    [done|apply conc_lift; simpl; by intros ? ?%res_of_option_Ok|].
  intros b own3 w3 Hm _ Hb3.
  apply conc_bind with (Q := λ pk, pathForQuote dir quote = Ok pk); [done|by apply conc_lift|].
  intros pk own4 w4 (Hk & Hfile & Hp)%pathForQuote_Ok _ Hb4. rewrite Hp.
  assert (stored_for pk.2 b) as Hst by (exists quote, coll, t, entry; by split_and!).
  eapply concs_bind_conc with (Q := λ r own w, ∀ nm, r = Ok nm → own_file nm [] own w); [done|..].
  { apply concs_map_err. eapply concs_weaken; [|apply concs_CreateTemp].
    intros r ? ? Hr nm Hnm. apply Hr. by destruct r; simplify_eq/=. }
  intros nm own5 w5 Hof _ Hb5. specialize (Hof nm eq_refl).
  assert (∃ o, own5 = Some o ∧ name_at o nm) as (o & -> & Hnm) by (destruct Hof as (o & ? & ? & _); eauto).
  eapply concs_bind_conc with (Q := λ _ own _, own = Some o); [done|..].
  - apply concs_try. eapply concs_weaken with (Q := owner_keeps (Some o) (λ _ _, True)); [by intros ? ? ? []|].
    eapply concs_then; [done|by eapply concs_Write|]. intros _ w6 H6 Hb6.
    eapply concs_then; [done|by eapply concs_Touch|]. intros _ w7 H7 Hb7.
    eapply concs_then; [done|by eapply concs_Touch|]. intros _ w8 H8 Hb8.
    apply concs_map_err. eapply concs_weaken; [|by eapply concs_Rename].
    intros r own' w' [-> _]. by split.
  - intros r own6 w6 -> _ Hb6. eapply conc_bind; [done|by apply conc_try, conc_Remove_own|].
    intros _ own7 w7 _ _ _. destruct r; [by apply conc_ret|by apply conc_throw].
Qed.

Definition cached_verifier : IntelQVLVerifier := mkIntelQVLVerifier (Some dir) (Some c).

Lemma good_collateral_later quote n n' coll : n ≤ n' → good_collateral quote n' coll → good_collateral quote n coll.
Proof.
  intros Hn [Hf|(q & k & t & i & e & ? & ? & ? & ? & ? & ?)]; [by left|]. right.
  exists q, k, t, i, e. split_and!; try done. lia.
Qed.

Lemma conc_quoteCollateral own quote w :
  bound own w →
  conc own (λ o, ∀ coll, o = Some coll → good_collateral quote (w_reads w) coll)
    (quoteCollateral cached_verifier quote) w.
Proof.
  intros Hb. cbn [quoteCollateral cached_verifier collateralCache pcsClient].
  eapply conc_bind; [done|by apply conc_Get|]. intros [coll|] own1 w1 Hgood [_ Hr1] Hb1; [by apply conc_ret|].
  apply conc_bind with (Q := λ o, ∃ coll, o = Some coll ∧ fetched_for quote coll); [done|..].
  { cbn [getIntelQVLQuoteCollateral]. eapply conc_bind; [done|by apply conc_Fetch|].
    intros coll own2 w2 Hf _ _. apply conc_ret. eauto. }
  intros o own2 w2 (coll & -> & Hf) _ Hb2.
  eapply conc_bind; [done|by apply conc_try, conc_Put|]. intros _ own3 w3 _ _ _.
  apply conc_ret. intros ? [= <-]. by left.
Qed.

(** What stands behind the verdict [pa] on [quote]. *)
Definition supported_verdict (quote : bytes) (n0 : nat) (pa : ProcessedAttestation cose_key) : Prop :=
  ∃ coll i native,
    good_collateral quote n0 coll ∧ n0 ≤ i ∧
    native_verdict quote coll (clock i / second)%Z = (0%Z, native) ∧
    (EqualFold (EarStatus pa) "affirming" = true ↔ qvl_accepts native).

Lemma conc_Process own quote w :
  TEE_ERROR_INVALID_PARAMETER ≠ 0%Z → bound own w →
  conc own (supported_verdict quote (w_reads w)) (IntelQVLVerifier_Process cached_verifier quote) w.
Proof.
  intros Htee Hb. unfold IntelQVLVerifier_Process. destruct quote as [|b0 q]; [by apply conc_throw|].
  set (quote := b0 :: q). eapply conc_bind; [done|by apply conc_quoteCollateral|].
  intros o own1 w1 Hgood [_ Hr1] Hb1.
  apply conc_bind with (Q := λ r, r.1 ≠ 0%Z ∨ ∃ coll i, o = Some coll ∧ w_reads w ≤ i ∧
    native_verdict quote coll (clock i / second)%Z = r); [done|..].
  { destruct o as [coll|]; cbn [verifyIntelQVLQuote]; [|apply conc_ret; by left].
    eapply conc_bind; [done|apply conc_time_now|]. intros now own2 w2 (i & Hi & ->) _ _.
    apply conc_ret. right. exists coll, i. split_and!; [done|lia|done]. }
  intros [st native] own2 w2 Hv _ _. destruct (Z.eqb_spec st 0) as [->|]; cbn [negb]; [|by apply conc_throw].
  destruct Hv as [?|(coll & i & -> & Hi & Hv)]; [done|]. apply conc_ret.
  exists coll, i, native. split_and!; [by apply Hgood|done|done|].
  cbn [EarStatus]. rewrite resultToEarStatus_affirming. apply isIntelQVLResultAffirmingValue_spec.
Qed.

(** *** The pool *)

Record pool_ok {A} (Q : nat → res error A → option nat → World → Prop) (owns : list (option nat))
    (ps : list (M A)) (w : World) : Prop := {
  po_conc : ∀ i p, ps !! i = Some p → ∃ own, owns !! i = Some own ∧ concs own (Q i) p w;
  po_bound : ∀ i own, owns !! i = Some own → bound own w;
  po_distinct : ∀ i j o, owns !! i = Some (Some o) → owns !! j = Some (Some o) → i = j;
  po_sound : cache_sound w;
}.

Lemma others_rely own_i own_i' own_j w w' :
  step_ok own_i own_i' w w' → bound own_j w → (∀ o, own_j = Some o → own_i ≠ Some o) → rely own_j w w'.
Proof.
  intros Hok Hb Hne. split; [by apply Hok|]. intros nm (o & -> & Hnm).
  eapply step_others; [done|done|by apply Hb|by apply Hne].
Qed.

Lemma pool_step {A} (Q : nat → res error A → option nat → World → Prop) owns ps w ps' w' :
  sched (ps, w) (ps', w') → w_fops w' ≤ hi → pool_ok Q owns ps w → ∃ owns', pool_ok Q owns' ps' w'.
Proof.
  intros Hs Hhi [Hc Hb Hd Hsnd]. inversion Hs as [ps1 upd k ps2 s]; subst.
  set (i := length ps1) in *.
  assert ((ps1 ++ Step upd k :: ps2) !! i = Some (Step upd k)) as Hi by (by apply list_lookup_middle).
  destruct (Hc i _ Hi) as (own & Hown & Hconc). inversion Hconc as [|? ? ? Hk]; subst.
  destruct (Hk w (rely_refl own w) Hsnd (Hb i own Hown) Hhi) as (own' & Hok & Hck). clear Hk Hconc.
  assert (∀ j, j ≠ i → (ps1 ++ k w :: ps2) !! j = (ps1 ++ Step upd k :: ps2) !! j) as Hsame.
  { intros j Hj. destruct (decide (j < i)); [by rewrite !lookup_app_l by done|].
    rewrite !lookup_app_r by lia. destruct (j - length ps1) eqn:He; [lia|done]. }
  assert (∀ j own_j, j ≠ i → owns !! j = Some own_j → rely own_j w (upd w)) as Hrely.
  { intros j own_j Hj Hoj. eapply others_rely; [done|by eapply Hb|]. intros o -> ->. by destruct Hj, (Hd i j o). }
  assert (∀ j own_j, <[i:=own']> owns !! j = Some own_j →
    j = i ∧ own_j = own' ∨ j ≠ i ∧ owns !! j = Some own_j) as Hlk.
  { intros j own_j. rewrite list_lookup_insert_Some. intros [(-> & -> & _)|[]]; auto. }
  exists (<[i:=own']> owns). split.
  - intros j p Hp. destruct (decide (j = i)) as [->|Hj].
    + rewrite list_lookup_middle in Hp by done. simplify_eq. exists own'. split; [|done].
      apply list_lookup_insert_eq. by eapply lookup_lt_Some.
    + rewrite Hsame in Hp by done. destruct (Hc j p Hp) as (oj & Hoj & Hcj). exists oj.
      rewrite list_lookup_insert_ne by done. split; [done|]. eapply concs_rely; [|done]. by eapply Hrely.
  - intros j oj [[-> ->]|[Hj Hoj]]%Hlk; [by eapply step_bound, Hok; eapply Hb|].
    intros o Ho. destruct (Hrely j oj Hj Hoj) as [[] _]. pose proof (Hb j oj Hoj o Ho). lia.
  - assert (∀ j o, j ≠ i → owns !! j = Some (Some o) → own' = Some o → False) as Hcross.
    { intros j o Hj Hoj ->. destruct (step_own _ _ _ _ Hok) as [He|(o' & [= <-] & Ho)].
      - subst own. by destruct Hj, (Hd i j o).
      - pose proof (Hb j _ Hoj o eq_refl). lia. }
    intros j1 j2 o [[-> H1]|[Hj1 H1]]%Hlk [[-> H2]|[Hj2 H2]]%Hlk; try done;
      [by destruct (Hcross j2 o)|by destruct (Hcross j1 o)|by eapply Hd].
  - by eapply step_sound.
Qed.

Lemma pool_run {A} (Q : nat → res error A → option nat → World → Prop) owns ps w ps' w' :
  rtc sched (ps, w) (ps', w') → w_fops w' ≤ hi → Forall (λ p, rg more_ops (λ _ _, True) p w) ps →
  pool_ok Q owns ps w → ∃ owns', pool_ok Q owns' ps' w'.
Proof.
  intros Hr Hhi. remember (ps, w) as x eqn:Hx. remember (ps', w') as y eqn:Hy.
  revert owns ps w Hx. induction Hr as [x|x [ps2 w2] y Hs Hr IH]; intros owns ps w -> Hm Hok; simplify_eq; [eauto|].
  destruct (pool_rg more_ops _ _ _ _ (rtc_once _ _ Hs) Hm) as [_ Hm2].
  destruct (pool_rg more_ops _ _ _ _ Hr Hm2) as [Hle _]. unfold more_ops in Hle.
  apply (pool_step _ _ _ _ _ _ Hs) in Hok as [owns2 Hok]; [by eapply IH|lia].
Qed.
End concurrent.

(** ** Alone *)

Section alone.
Context `{Platform} `{Lib}.
Context (no_file_fault : ∀ n, file_fault n = false).

Lemma run_lift {A} (r : res error A) (w : World) : run (lift r) w = (r, w).
Proof using Type. done. Qed.

Lemma run_CreateTemp dir w :
  (∀ r, w_files w !! temp_name dir r = None) →
  ∃ nm, run (CreateTemp dir) w = (Ok nm, with_files (<[nm := []]> (w_files w)) w) ∧
    w_files w !! nm = None ∧ ∃ r, nm = temp_name dir r.
Proof.
  intros Hno. unfold CreateTemp. rewrite run_atomically, no_file_fault.
  assert (∃ tries, Z.to_nat 10000 = S tries) as [tries ->] by (exists (Z.to_nat 9999); lia).
  cbn [new_temp]. rewrite bool_decide_true by apply Hno.
  eexists. split_and!; [reflexivity|apply Hno|by eexists].
Qed.

Lemma run_Write_temp nm b w :
  run (Write_temp nm b) w = (Ok tt, with_files (alter (λ _, b) nm (w_files w)) w).
Proof. unfold Write_temp. by rewrite run_atomically, no_file_fault. Qed.

Lemma run_Touch w : run Touch_file w = (Ok tt, with_files (w_files w) w).
Proof. unfold Touch_file, file_op. by rewrite run_atomically, no_file_fault. Qed.

Lemma run_Rename nm p b w :
  w_files w !! nm = Some b → run (Rename nm p) w = (Ok tt, with_files (<[p := b]> (delete nm (w_files w))) w).
Proof. intros Hb. unfold Rename, file_op. by rewrite run_atomically, no_file_fault, Hb. Qed.

(** Storing puts the encoded entry in its file, and leaves nothing else behind. *)
Lemma Cache_Put_run dir quote coll key entry b w :
  intelQVLCollateralCacheKey quote = Ok key →
  new_cache_entry (Some coll) (clock (w_reads w)) = Ok entry → Marshal_cache_entry entry = Some b →
  (∀ r, w_files w !! temp_name dir r = None) →
  (run (Cache_Put (Some dir) quote (Some coll)) w).1 = Ok key ∧
  w_files (run (Cache_Put (Some dir) quote (Some coll)) w).2 = <[cache_path dir key := b]> (w_files w).
Proof.
  intros Hk He Hm Hno. cbn [Cache_Put].
  rewrite run_bind. change (run time_now w) with (Ok (E:=error) (clock (w_reads w)), tick_clock w).
  cbn [run_then]. rewrite He, run_bind. change (run (lift (Ok entry)) ?w) with (Ok (E:=error) entry, w).
  cbn [run_then]. rewrite run_bind. cbn [marshalIntelQVLCollateralCacheEntry]. rewrite Hm.
  change (run (lift _) ?w) with (Ok (E:=error) b, w). cbn [run_then]. rewrite run_bind.
  unfold pathForQuote. rewrite Hk. change (run (lift _) ?w) with (Ok (E:=error) (cache_path dir key, key), w).
  cbn [run_then fst snd]. rewrite run_bind, run_map_err.
  destruct (run_CreateTemp dir (tick_clock w) Hno) as (nm & -> & Hnew & Hnm). cbn [fst snd res_map_err run_then].
  rewrite run_bind, run_try, run_bind, run_map_err, run_Write_temp. cbn [fst snd res_map_err run_then].
  rewrite run_bind, run_map_err, run_Touch. cbn [fst snd res_map_err run_then].
  rewrite run_bind, run_map_err, run_Touch. cbn [fst snd res_map_err run_then]. rewrite run_map_err.
  rewrite (run_Rename nm (cache_path dir key) b).
  2:{ cbn [w_files with_files]. by rewrite lookup_alter_eq, lookup_insert_eq. }
  cbn [fst snd res_map_err run_then]. rewrite run_bind, run_try.
  assert (file_name (key +++ ".bin")) as Hfile.
  { apply CacheKey_Ok in Hk as (? & ? & _ & _ & -> & ?). by apply key_file_name. }
  assert (nm ≠ cache_path dir key) as Hne by (destruct Hnm as [r ->]; apply temp_not_entry; by exists key).
  unfold Remove, file_op. rewrite run_atomically, no_file_fault. cbn [fst snd w_files with_files].
  rewrite lookup_insert_ne by done. rewrite lookup_delete_eq. cbn. split; [done|].
  f_equal. apply map_eq. intros p. destruct (decide (p = nm)) as [->|Hp].
  - by rewrite lookup_delete_eq.
  - by rewrite lookup_delete_ne, lookup_alter_ne, lookup_insert_ne by done.
Qed.

Lemma Cache_Get_hit dir quote key b entry coll w :
  intelQVLCollateralCacheKey quote = Ok key → w_files w !! cache_path dir key = Some b →
  b ≠ [] → json_cache_entry b = Some entry → Collateral entry = Some coll →
  ValidAt (Some entry) (clock (w_reads w)) = true →
  run (Cache_Get (Some dir) quote) w = (Ok (Some coll), tick_clock (with_files (w_files w) w)).
Proof.
  intros Hk Hb Hne Hd Hc Hv. cbn [Cache_Get]. rewrite run_bind. unfold pathForQuote. rewrite Hk.
  change (run (lift _) w) with (Ok (E:=error) (cache_path dir key, key), w). cbn [run_then fst].
  rewrite run_bind, run_try, run_ReadFile, no_file_fault, Hb. cbn [fst snd res_of_option run_then].
  destruct b as [|x b]; [done|]. rewrite run_bind, run_map_err, run_lift. cbn [unmarshalIntelQVLCollateralCacheEntry]. rewrite Hd.
  cbn [fst snd res_of_option res_map_err run_then]. rewrite run_bind.
  change (run time_now ?w) with (Ok (E:=error) (clock (w_reads w)), tick_clock w). cbn [run_then w_reads with_files].
  rewrite Hv. cbn [negb]. by rewrite Hc.
Qed.

Lemma Cache_Get_miss dir quote key w :
  intelQVLCollateralCacheKey quote = Ok key → w_files w !! cache_path dir key = None →
  run (Cache_Get (Some dir) quote) w = (Ok None, with_files (w_files w) w).
Proof.
  intros Hk Hb. cbn [Cache_Get]. rewrite run_bind. unfold pathForQuote. rewrite Hk.
  change (run (lift _) w) with (Ok (E:=error) (cache_path dir key, key), w). cbn [run_then fst].
  by rewrite run_bind, run_try, run_ReadFile, no_file_fault, Hb.
Qed.
End alone.

(** ** Properties *)

Section properties.
Context `{Platform} `{Lib}.

(** C13: every verdict of a QVL verifier with a cache rests on right collateral, however many
    verifications run at once and wherever a file operation fails, as long as no two of the
    temporary files made during the run get the same random name.  Started with a sound
    cache (an empty one is), the cache stays sound: each of its files is a complete entry
    of collateral fetched for the platform family and CA in the file's name.  And each
    verdict is the native library's on the quote and collateral that was either fetched
    for this quote, or taken from a cache entry for the same family and CA that, when the
    call read the clock, was less than seven days old and, unless one [nextUpdate] in it is
    the zero time (see [zero_next_update_forgets]), before every [nextUpdate] in it. *)
Theorem verdicts_rest_on_current_collateral c dir (quotes : list bytes) w ps w' :
  (∀ e b, Marshal_cache_entry e = Some b → json_cache_entry b = Some e) →
  (∀ o t o' t', o < w_fops w' → o' < w_fops w' → temp_random o t = temp_random o' t' → o = o') →
  TEE_ERROR_INVALID_PARAMETER ≠ 0%Z →
  cache_sound c dir w →
  rtc sched (map (IntelQVLVerifier_Process (mkIntelQVLVerifier (Some dir) (Some c))) quotes, w) (ps, w') →
  cache_sound c dir w' ∧
  ∀ i quote pa, quotes !! i = Some quote → ps !! i = Some (Done (Ok pa)) →
    ∃ coll n native,
      w_reads w ≤ n ∧
      native_verdict quote coll (clock n / second)%Z = (0%Z, native) ∧
      (EqualFold (EarStatus pa) "affirming" = true ↔ qvl_accepts native) ∧
      (fetched_for c quote coll ∨
       ∃ quote0 key t m,
         intelQVLCollateralCacheKey quote = Ok key ∧ intelQVLCollateralCacheKey quote0 = Ok key ∧
         fetched_for c quote0 coll ∧ w_reads w ≤ m ∧ (clock m < clock t + 7 * 24 * hour)%Z ∧
         let next_update := next_update_of x509_ParseRevocationList json_nextUpdate time_Parse_RFC3339 coll in
         ((∀ u, next_update u → u ≠ zero_time) → ∀ u, next_update u → (clock m < u)%Z)).
Proof.
  intros Hrt Hnames Htee Hsound Hrun.
  set (Q := λ i, returns (λ pa, ∀ quote, quotes !! i = Some quote → supported_verdict c quote (w_reads w) pa)).
  destruct (pool_run c dir (w_fops w') Hrt Hnames Q (replicate (length quotes) None) _ _ _ _ Hrun)
    as [owns [Hconc _ _ Hs]]; [done| |split|].
  { apply Forall_map, Forall_true. intros quote. apply Process_more_ops. }
  { intros i p Hp. rewrite list_lookup_fmap in Hp. destruct (quotes !! i) as [quote|] eqn:Hq; simplify_eq/=.
    exists None. split; [apply lookup_replicate; split; [done|by eapply lookup_lt_Some]|].
    eapply concs_weaken; [|by apply conc_Process]. intros r ? ? Hr pa Hpa quote' Hq'.
    simplify_eq. by apply Hr. }
  { by intros i own [-> _]%lookup_replicate. }
  { by intros i j o [? _]%lookup_replicate. }
  { done. }
  split; [done|]. intros i quote pa Hq Hp. destruct (Hconc i _ Hp) as (own & _ & Hc).
  inversion Hc as [? ? Hv|]; subst. specialize (Hv w' (rely_refl _ _ _ _) pa eq_refl quote Hq).
  destruct Hv as (coll & n & native & Hgood & Hn & Hv & Haff). exists coll, n, native.
  do 3 (split; [done|]). destruct Hgood as [|(q0 & key & t & m & entry & ? & ? & Hf & He & ? & Hval)]; [by left|].
  right. destruct (cached_collateral_is_current _ _ _ _ _ _ (clock m) He Hval) as (coll' & [= <-] & _ & ? & ?).
  exists q0, key, t, m. by split_and!.
Qed.

(** C40: a file of the cache that is empty or does not decode disables attestation of its whole
    platform family: every verification of such a quote fails, without asking the
    service and without changing any file, so the next one fails in the same way.  Only
    an expired entry is removed. *)
Theorem corrupt_entry_blocks_platform dir client quote key b w :
  intelQVLCollateralCacheKey quote = Ok key →
  w_files w !! cache_path dir key = Some b → (b = [] ∨ json_cache_entry b = None) →
  ∃ e w', run (IntelQVLVerifier_Process (mkIntelQVLVerifier (Some dir) client) quote) w = (Err e, w') ∧
    w_files w' = w_files w ∧ w_sent w' = w_sent w.
Proof.
  intros Hk Hb Hbad. destruct (Cache_Get_corrupt dir quote key b w Hk Hb Hbad) as [e He].
  unfold IntelQVLVerifier_Process. destruct quote as [|x q]; [done|].
  exists e, (with_files (w_files w) w). split; [|done].
  rewrite run_bind. cbn [quoteCollateral collateralCache]. by rewrite run_bind, He.
Qed.

(** C39: what has been fetched is used again.  After a verification had to fetch collateral for
    its quote, any quote of the same family and CA gets that very collateral, as long as
    the entry's expiry has not come, and the service is not asked again. *)
Theorem fetched_collateral_is_reused dir c quote key coll entry b w w1 quote' w2 :
  (∀ n, file_fault n = false) → (∀ r, w_files w !! temp_name dir r = None) →
  intelQVLCollateralCacheKey quote = Ok key → w_files w !! cache_path dir key = None →
  run (quoteCollateral (mkIntelQVLVerifier (Some dir) (Some c)) quote) w = (Ok (Some coll), w1) →
  new_cache_entry (Some coll) (clock (w_reads w)) = Ok entry →
  Marshal_cache_entry entry = Some b → b ≠ [] → json_cache_entry b = Some entry →
  intelQVLCollateralCacheKey quote' = Ok key → w_files w2 = w_files w1 →
  ValidAt (Some entry) (clock (w_reads w2)) = true →
  w_files w1 = <[cache_path dir key := b]> (w_files w) ∧
  ∃ w3, run (quoteCollateral (mkIntelQVLVerifier (Some dir) (Some c)) quote') w2 = (Ok (Some coll), w3) ∧
    w_sent w3 = w_sent w2 ∧ w_files w3 = w_files w2.
Proof.
  intros Hff Hno Hk Hnone Hr He Hm Hne Hd Hk' Hf2 Hval.
  cbn [quoteCollateral collateralCache pcsClient] in *.
  rewrite run_bind, (Cache_Get_miss Hff dir quote key w) in Hr by done. cbn [run_then] in Hr.
  run_inv Hr. unfold getIntelQVLQuoteCollateral in Hrun. run_inv Hrun. apply run_lift_Ok in Hk1 as [[= <-] ->].
  pose proof (getCollateral_only_sends (Some c) quote (with_files (w_files w) w)) as [rs Hrs].
  unfold getIntelQVLQuoteCollateral in Hrs. rewrite run_bind, Hrun0 in Hrs. simpl in Hrs. subst s0.
  destruct (add_all_keeps rs (with_files (w_files w) w)) as (Ff & _ & Fr & _).
  run_inv Hk0. apply run_lift_Ok in Hk1 as [[= <-] ->].
  destruct (Cache_Put_run Hff dir quote a0 key entry b (add_all rs (with_files (w_files w) w)))
    as [_ Hput]; [done|by rewrite Fr|done|by rewrite Ff|].
  rewrite run_try in Hrun.
  destruct (run (Cache_Put _ _ _) _) as [pr pw]. cbn [fst snd] in Hrun, Hput. injection Hrun as _ <-.
  rewrite Ff in Hput. cbn [w_files with_files] in Hput.
  split; [done|]. eexists. split.
  - rewrite run_bind, (Cache_Get_hit Hff dir quote' key b entry a0 w2); [reflexivity|done| |done..| |done].
    + by rewrite Hf2, Hput, lookup_insert_eq.
    + by eapply new_cache_entry_Collateral.
  - done.
Qed.
End properties.

(** ** Witnesses *)

Definition cache_dir : string := "/var/cache".
Definition sgx_key : string := "fmspc-030000000000-pckca-platform".
Definition sgx_entry : intelQVLCollateralCacheEntry :=
  mkCacheEntry intelQVLCollateralCacheTTL (Some sgx_collateral).
Abbreviation cached := (cached_verifier pcs_client cache_dir).

Lemma sgx_json_rt e b :
  @Marshal_cache_entry sgx_lib e = Some b → @json_cache_entry sgx_lib b = Some e.
Proof.
  cbn. destruct (bool_decide _) eqn:He; cbn; [|done]. intros [= <-]. apply bool_decide_eq_true in He.
  by rewrite <- He.
Qed.

Lemma calm_names o t o' t' :
  @temp_random calm o t = @temp_random calm o' t' → o = o'.
Proof. cbn. apply (inj pretty). Qed.

(** Two verifications of one quote, the second from the cache. *)
Lemma verdicts_rest_on_current_collateral_witness :
  ∃ w', rtc sched (map (@IntelQVLVerifier_Process calm sgx_lib cached) [bound_quote; bound_quote], initial_world)
          ([Done (Ok sgx_verdict); Done (Ok sgx_verdict)], w') ∧
    length (w_sent w') = 4 ∧ @cache_sound calm sgx_lib pcs_client cache_dir w'.
Proof.
  set (p := @IntelQVLVerifier_Process calm sgx_lib cached bound_quote).
  set (w1 := (run p initial_world).2).
  assert (rtc sched ([p; p], initial_world) ([Done (Ok sgx_verdict); Done (Ok sgx_verdict)], (run p w1).2)) as Hs.
  { assert ((run p initial_world).1 = Ok sgx_verdict) as H1 by (by vm_compute).
    assert ((run p w1).1 = Ok sgx_verdict) as H2 by (by vm_compute).
    pose proof (sched_run [] p [p] initial_world) as S1. rewrite H1 in S1.
    pose proof (sched_run (A:=ProcessedAttestation (@cose_key sgx_lib)) [Done (Ok sgx_verdict)] p [] w1) as S2. rewrite H2 in S2.
    etrans; [exact S1|exact S2]. }
  exists (run p w1).2. split; [exact Hs|]. split; [by vm_compute|].
  refine (proj1 (@verdicts_rest_on_current_collateral calm sgx_lib pcs_client cache_dir
    [bound_quote; bound_quote] initial_world _ _ sgx_json_rt (λ o t o' t' _ _, calm_names o t o' t') _ _ Hs)).
  - done.
  - intros key b _ Hb. cbn in Hb. by rewrite lookup_empty in Hb.
Defined.

Definition corrupted : World := with_files {[ cache_path cache_dir sgx_key := bs [0x00]%Z ]} initial_world.

Lemma corrupt_entry_blocks_platform_witness :
  ∃ e w', run (@IntelQVLVerifier_Process calm sgx_lib cached bound_quote) corrupted = (Err e, w') ∧
    w_files w' = w_files corrupted.
Proof.
  destruct (@corrupt_entry_blocks_platform calm sgx_lib cache_dir (Some pcs_client) bound_quote sgx_key
    (bs [0x00]%Z) corrupted) as (e & w' & Hr & Hf & _).
  - by vm_compute.
  - by vm_compute.
  - right. by vm_compute.
  - exists e, w'. by split.
Defined.

Lemma result_pair {A B} (x : A * B) a : x.1 = a → x = (a, x.2).
Proof. destruct x. by intros <-. Qed.

Lemma fetched_collateral_is_reused_witness :
  ∃ w3, run (@quoteCollateral calm sgx_lib cached bound_quote)
              (run (@quoteCollateral calm sgx_lib cached bound_quote) initial_world).2
          = (Ok (Some sgx_collateral), w3) ∧ length (w_sent w3) = 4.
Proof.
  destruct (@fetched_collateral_is_reused calm sgx_lib cache_dir pcs_client bound_quote sgx_key sgx_collateral
    sgx_entry (bs [0xED]%Z) initial_world
    (run (@quoteCollateral calm sgx_lib cached bound_quote) initial_world).2 bound_quote
    (run (@quoteCollateral calm sgx_lib cached bound_quote) initial_world).2) as (_ & w3 & Hr & Hs & _).
  { done. }
  { intros r. apply lookup_empty. }
  { by vm_compute. }
  { by vm_compute. }
  { apply result_pair. by vm_compute. }
  1-5: by vm_compute.
  { done. }
  { by vm_compute. }
  exists w3. split; [exact Hr|]. rewrite Hs. by vm_compute.
Defined.
