(* ===== verification/ChallengeFlow.v ===== *)
(** The exchange with a Veraison verifier: which requests [VerifierClient.Process] sends,
    to whom evidence is disclosed, and what a result rests on. *)

From S2P Require Import Prelude GoText GoUrl Model Db Wire Lib Stub Rats Qvl Collateral Verifiers Quote.
From S2P Require Import CollateralFlow.

Section exchange.
Context `{Platform} `{Lib}.

(** The URL at which a session is opened: scheme, user and host of the configured URL. *)
Definition session_endpoint (base : URL) : URL :=
  mkURL (URL_Scheme base) "" (URL_User base) (URL_Host base) newSessionPath "" false false
    "nonce=QUp8F0FBs9DpodKK8xUg8NQimf6sQAfe2J1ormzZLxk%3D" "" "".

Lemma new_session_url_eq v : new_session_url v = Some (session_endpoint (Client_baseURL v)).
Proof. reflexivity. Qed.

Definition session_request (v : VerifierClient) : HttpClient * HttpRequest :=
  (Client_httpClient v,
   mkHttpRequest "POST" (URL_String (session_endpoint (Client_baseURL v))) session_header []).

Definition evidence_request (v : VerifierClient) (session : URL) (payload : bytes) : HttpClient * HttpRequest :=
  (Client_httpClient v, mkHttpRequest "POST" (URL_String session) (payload_header v) payload).

(** The verifier opened a session at [session]. *)
Definition session_opened (v : VerifierClient) (sent : list (HttpClient * HttpRequest)) (session : URL) : Prop :=
  ∃ resp, http_Do sent (Client_httpClient v) (session_request v).2 = Some resp ∧
    Http_StatusCode resp = 201%Z ∧ Header_Get (Http_ResponseHeader resp) "Location" ≠ "" ∧
    URL_Parse url_bracketed_host (session_endpoint (Client_baseURL v))
      (Header_Get (Http_ResponseHeader resp) "Location") = Some session.

Lemma createSession_run v w :
  ∃ r w', run (createSession v) w = (r, w') ∧
    match r with
    | Ok session => w' = add_sent (session_request v) w ∧ session_opened v (w_sent w) session
    | Err _ => w' = w ∨ w' = add_sent (session_request v) w
    | _ => False
    end.
Proof.
  unfold createSession. rewrite new_session_url_eq. change (run (lift (res_of_option ?e (Some ?u)) ≫= ?f) w) with (run (f u) w).
  cbv beta. unfold NewRequest. rewrite run_bind, run_map_err.
  destruct (url_Parse _); [|do 2 eexists; split; [reflexivity|by left]].
  change (run (lift ?r) w) with (r, w). cbn [fst snd res_map_err run_then].
  rewrite run_bind, run_map_err. unfold Do. rewrite run_atomically. cbn [fst snd].
  change (?c, mkHttpRequest _ _ _ _) with (session_request v).
  destruct (http_Do _ _ _) as [resp|] eqn:Hdo; [|do 2 eexists; split; [reflexivity|by right]].
  cbn [res_of_option res_map_err run_then].
  destruct (Z.eqb_spec (Http_StatusCode resp) 201); cbn [negb]; [|do 2 eexists; split; [reflexivity|by right]].
  destruct (String.eqb_spec (Header_Get (Http_ResponseHeader resp) "Location") "") as [|Hl];
    [do 2 eexists; split; [reflexivity|by right]|].
  destruct (URL_Parse _ _ _) as [session|] eqn:Hp; do 2 eexists; (split; [reflexivity|]); [|by right].
  split; [done|]. by exists resp.
Qed.

Lemma submitPayload_run v session payload w :
  ∃ r w', run (submitPayload v session payload) w = (r, w') ∧
    match r with
    | Ok body => w' = add_sent (evidence_request v session payload) w ∧
        ∃ resp, http_Do (w_sent w) (Client_httpClient v) (evidence_request v session payload).2 = Some resp ∧
          (200 ≤ Http_StatusCode resp < 300)%Z ∧ Http_ResponseBody resp = Some body
    | Err _ => w' = w ∨ w' = add_sent (evidence_request v session payload) w
    | _ => False
    end.
Proof.
  unfold submitPayload, NewRequest. rewrite run_bind, run_map_err.
  destruct (url_Parse _); [|do 2 eexists; split; [reflexivity|by left]].
  change (run (lift ?r) w) with (r, w). cbn [fst snd res_map_err run_then].
  rewrite run_bind, run_map_err. unfold Do. rewrite run_atomically. cbn [fst snd].
  change (?c, mkHttpRequest _ _ _ _) with (evidence_request v session payload).
  destruct (http_Do _ _ _) as [resp|] eqn:Hdo; [|do 2 eexists; split; [reflexivity|by right]].
  cbn [res_of_option res_map_err run_then].
  destruct (Z.ltb_spec (Http_StatusCode resp) 200); [do 2 eexists; split; [reflexivity|by right]|].
  destruct (Z.leb_spec 300 (Http_StatusCode resp)); [do 2 eexists; split; [reflexivity|by right]|].
  cbn [orb]. destruct (Http_ResponseBody resp) as [body|] eqn:Hb; do 2 eexists; (split; [reflexivity|]); [|by right].
  split; [done|]. exists resp. split_and!; [done|lia|lia|done].
Qed.

(** *** On the wire *)

(** The requests that carry the body of [first]: itself, and where a 307 or 308 answer to one
    of them leads. *)
Inductive handed_on (before : list (HttpClient * HttpRequest)) (client : HttpClient) (first : HttpRequest) :
    list HttpRequest → HttpRequest → Prop :=
  | handed_first : handed_on before client first [] first
  | handed_redirect via q resp u :
      handed_on before client first via q →
      http_RoundTrip before via client q = Some resp →
      Http_StatusCode resp = 307%Z ∨ Http_StatusCode resp = 308%Z → location q resp = Some u →
      handed_on before client first (via ++ [q])
        (mkHttpRequest (Http_Method q) (URL_String u)
           (http_redirect_header (via ++ [q]) (URL_String u)) (Http_Body first)).

(** A request without a body, or one that is handed on. *)
Definition carried before client first (q : HttpRequest) : Prop :=
  Http_Body q = [] ∨ ∃ via, handed_on before client first via q.

Lemma redirectBehavior_Some method code m keep :
  redirectBehavior method code = Some (m, keep) →
  keep = false ∨ (keep = true ∧ m = method ∧ (code = 307%Z ∨ code = 308%Z)).
Proof.
  unfold redirectBehavior. destruct (_ || _ || _); [intros [= _ <-]; by left|].
  destruct (_ || _) eqn:Hc; [|done]. intros [= <- <-]. right.
  rewrite orb_true_iff, !Z.eqb_eq in Hc. by split_and!.
Qed.

Lemma follow_carried before client first turns body via req :
  (body = [] ∧ Http_Body req = []) ∨ (body = Http_Body first ∧ handed_on before client first via req) →
  Forall (carried before client first) via →
  Forall (carried before client first) (follow turns before client body via req).1 ∧
  length (follow turns before client body via req).1 ≤ length via + S turns.
Proof.
  assert (∀ l (q : HttpRequest) n, length (l ++ [q]) ≤ length l + S n) as Hlen
    by (intros; rewrite length_app; simpl; lia).
  revert body via req. induction turns as [|turns IH]; intros body via req Hreq Hvia; cbn [follow];
    (assert (Forall (carried before client first) (via ++ [req])) as Hsent by
      (apply Forall_app; split; [done|]; apply Forall_singleton; destruct Hreq as [[_ ?]|[_ ?]];
        [by left|right; by exists via]));
    (destruct (http_RoundTrip before via client req) as [resp|] eqn:Hrt; [|by split; [|apply Hlen]]);
    (destruct (redirectBehavior _ _) as [[m keep]|] eqn:Hrb; [|by split; [|apply Hlen]]);
    (destruct (String.eqb _ _); [by split; [|apply Hlen]|]);
    (destruct (location req resp) as [u|] eqn:Hloc; [|by split; [|apply Hlen]]); [by split; [|apply Hlen]|].
  match goal with |- context [follow turns _ _ ?b ?v ?q] => destruct (IH b v q) as [H1 H2]; [|done|] end.
  - destruct keep; [|by left]. destruct Hreq as [[-> _]|[-> Hh]]; [by left|right]. split; [done|].
    apply redirectBehavior_Some in Hrb as [?|(_ & -> & Hcode)]; [done|].
    by apply handed_redirect with resp.
  - split; [exact H1|]. rewrite length_app in H2. simpl in H2. lia.
Qed.

Lemma http_wire_carried before client req :
  Forall (carried before client req) (http_wire before client req) ∧ length (http_wire before client req) ≤ 10.
Proof.
  apply (follow_carried before client req max_redirects (Http_Body req) [] req); [|done].
  right. split; [done|]. constructor.
Qed.

(** A body is not made up on the way. *)
Lemma handed_on_body before client first via q : handed_on before client first via q → Http_Body q = Http_Body first.
Proof. by induction 1. Qed.

(** What two calls send, one after the other. *)
Definition wire_of (sent : list (HttpClient * HttpRequest)) (call : HttpClient * HttpRequest) : list HttpRequest :=
  http_wire sent call.1 call.2.

Lemma session_wire v sent :
  Forall (λ q, Http_Body q = []) (wire_of sent (session_request v)) ∧ length (wire_of sent (session_request v)) ≤ 10.
Proof.
  destruct (http_wire_carried sent (Client_httpClient v) (session_request v).2) as [Hc Hl]. split; [|exact Hl].
  eapply Forall_impl; [exact Hc|]. intros q [?|[via Hh]]; [done|]. by rewrite (handed_on_body _ _ _ _ _ Hh).
Qed.

(** C15: to whom evidence is disclosed.  Processing a payload makes at most two calls: an
    empty POST to [newSession] on the configured host, always with the same nonce and
    without the path or query of the configured URL; and, only if that was answered 201
    with a Location, one POST of the payload to that location, resolved against the first
    URL.  A result is the decoding of the body of a 2xx answer to the second.  Redirects
    are followed: each call sends at most ten requests, those of the first without a body,
    and a request of the second that has a body is the POST to the session or where
    an unbroken chain of 307 and 308 answers leads from it. *)
Theorem evidence_goes_to_the_session (v : VerifierClient) (payload : bytes) w r w' :
  run (VerifierClient_Process (Some v) payload) w = (r, w') →
  let first_wire := wire_of (w_sent w) (session_request v) in
  (w' = w ∧ ∃ e, r = Err e) ∨
  Forall (λ q, Http_Body q = []) first_wire ∧ length first_wire ≤ 10 ∧
  ((w' = add_sent (session_request v) w ∧ ∃ e, r = Err e) ∨
   ∃ session, payload ≠ [] ∧ session_opened v (w_sent w) session ∧
    w' = add_sent (evidence_request v session payload) (add_sent (session_request v) w) ∧
    let before := w_sent w ++ [session_request v] in
    let wire := wire_of before (evidence_request v session payload) in
    Forall (carried before (Client_httpClient v) (evidence_request v session payload).2) wire ∧ length wire ≤ 10 ∧
    ∀ pa, r = Ok pa → ∃ resp body,
      http_Do before (Client_httpClient v) (evidence_request v session payload).2 = Some resp ∧
      (200 ≤ Http_StatusCode resp < 300)%Z ∧ Http_ResponseBody resp = Some body ∧
      DecodeAttestationResponse body = Ok pa).
Proof.
  unfold VerifierClient_Process. destruct payload as [|b p]; [intros [= <- <-]; left; eauto|].
  set (payload := b :: p). rewrite run_bind, run_map_err.
  destruct (createSession_run v w) as (r1 & w1 & -> & H1). cbn [fst snd].
  destruct (session_wire v (w_sent w)) as [Hw1 Hl1].
  destruct r1 as [session|e| |]; [|by destruct H1 as [-> | ->]; intros [= <- <-]; eauto 7|done..].
  destruct H1 as [-> Hopen]. cbn [res_map_err run_then]. rewrite run_bind, run_map_err.
  destruct (submitPayload_run v session payload (add_sent (session_request v) w)) as (r2 & w2 & -> & H2).
  destruct (http_wire_carried (w_sent w ++ [session_request v]) (Client_httpClient v)
    (evidence_request v session payload).2) as [Hw2 Hl2].
  cbn [fst snd]. destruct r2 as [body|e| |]; [| |done..].
  - destruct H2 as (-> & resp & Hdo & Hcode & Hbody). cbn [res_map_err run_then].
    intros [= <- <-]. right. do 2 (split; [done|]). right. exists session. split_and!; [done..|]. intros pa Hpa.
    exists resp, body. split_and!; [done|lia|lia|done|]. by destruct (DecodeAttestationResponse body); simplify_eq/=.
  - cbn [res_map_err run_then]. destruct H2 as [-> | ->]; intros [= <- <-]; right; do 2 (split; [done|]); [eauto|].
    right. exists session. split_and!; done.
Qed.

(** A client is built as configured: TLS certificates go unchecked only where the
    configuration says so and the URL is https, the timeout is never zero, no URL means
    a nil client and a URL that does not parse an error. *)
Theorem NewVerifierClient_as_configured (cfg : RAConfig) :
  match NewVerifierClient cfg with
  | Ok None => BaseURL cfg = ""
  | Ok (Some v) => url_Parse (BaseURL cfg) = Some (Client_baseURL v) ∧
      Client_contentType v = ContentType cfg ∧ Client_Timeout (Client_httpClient v) ≠ 0%Z ∧
      (Client_Insecure (Client_httpClient v) = true ↔
       URL_Scheme (Client_baseURL v) = "https" ∧ InsecureTLS cfg = true)
  | Err _ => BaseURL cfg ≠ "" ∧ url_Parse (BaseURL cfg) = None
  | _ => False
  end.
Proof.
  unfold NewVerifierClient. destruct (String.eqb_spec (BaseURL cfg) ""); [done|].
  destruct (url_Parse (BaseURL cfg)) as [base|]; [|done]. cbn.
  split_and!; [done|done| |].
  - by destruct (Z.eqb_spec (RA_Timeout cfg) 0).
  - by rewrite andb_true_iff, String.eqb_eq.
Qed.
End exchange.

(** ** Witnesses *)

Definition veraison_answers : list (string * HttpResponse) :=
  [("https://verifier.example:8443/challenge-response/v1/newSession?nonce=QUp8F0FBs9DpodKK8xUg8NQimf6sQAfe2J1ormzZLxk%3D",
     mkHttpResponse 201 [("location", "session/1b4")] (Some []));
   ("https://verifier.example:8443/challenge-response/v1/session/1b4",
     mkHttpResponse 200 [] (Some (bs [0x7B; 0x7D]%Z)))].

Definition answering (answers : list (string * HttpResponse)) : Lib := stub {|
  s_sign1 := []; s_array := []; s_map := []; s_bytes := []; s_int := []; s_options := [];
  s_digest := []; s_report := []; s_bool := []; s_detailed := []; s_manifest := []; s_common := [];
  s_bundle := []; s_eat := []; s_http := answer answers; s_certificate := []; s_certificates := [];
  s_cache := [];
|}.
Definition veraison_lib : Lib := answering veraison_answers.

Definition veraison_client : VerifierClient :=
  mkVerifierClient (mkURL "https" "" None "verifier.example:8443" "/ignored" "" false false "also=ignored" "" "")
    (mkHttpClient 60 false) "".

Lemma evidence_goes_to_the_session_witness :
  ∃ session, @session_opened veraison_lib veraison_client [] session ∧
    URL_String session = "https://verifier.example:8443/challenge-response/v1/session/1b4".
Proof.
  set (w' := (run (@VerifierClient_Process veraison_lib (Some veraison_client) (bs [1; 2]%Z)) initial_world).2).
  destruct (@evidence_goes_to_the_session veraison_lib veraison_client (bs [1; 2]%Z) initial_world _ w'
    (surjective_pairing _)) as [[Hw _]|(_ & _ & [[Hw _]|(session & _ & Ho & _)])].
  - apply (f_equal (λ w, length (w_sent w))) in Hw. by vm_compute in Hw.
  - apply (f_equal (λ w, length (w_sent w))) in Hw. by vm_compute in Hw.
  - exists session. split; [exact Ho|]. destruct Ho as (resp & Hdo & _ & _ & Hp).
    vm_compute in Hdo. injection Hdo as <-. vm_compute in Hp. by injection Hp as <-.
Defined.

(** ** Evidence that is redirected

    A verifier whose session answers 307 has the evidence sent to another host, in a POST with
    the same body. *)
Definition redirecting_answers : list (string * HttpResponse) :=
  [("https://verifier.example:8443/challenge-response/v1/session/1b4",
     mkHttpResponse 307 [("Location", "https://elsewhere.example/collect")] (Some []));
   ("https://elsewhere.example/collect", mkHttpResponse 200 [] (Some (bs [0x7B; 0x7D]%Z)))].

Theorem evidence_follows_redirects :
  ∀ session, URL_String session = "https://verifier.example:8443/challenge-response/v1/session/1b4" →
  map (λ q, (Http_Method q, Http_URL q, Http_Body q))
    (@wire_of (answering redirecting_answers) [] (evidence_request veraison_client session (bs [1; 2]%Z))) =
  [("POST", "https://verifier.example:8443/challenge-response/v1/session/1b4", bs [1; 2]%Z);
   ("POST", "https://elsewhere.example/collect", bs [1; 2]%Z)].
Proof. intros session Hs. unfold evidence_request. rewrite Hs. by vm_compute. Qed.
