(* ===== verification/Credits.v ===== *)
(** What an enrolment costs: an accounting argument over all interleavings.  A program that
    has consumed a challenge holds a credit; storing the key of a new agent spends one.
    No credit is ever made otherwise, so the agents enrolled never outnumber the
    challenges used up. *)

From S2P Require Import Prelude GoText Model Db Evolve Frame OneTime AgentRepo ManifestRepo.
From S2P Require Import SentRepo StatusRepo Wire Lib Stub Suit Teep Rats Qvl Collateral Verifiers Tam Server TamFrames.
From S2P Require Import Requests Scenario.

(** ** Programs that pay *)

Section pays.
Context {E S : Type} (balance : S → Z).

(** [pays Q p n]: started with [n] credits, [p] never lets the balance fall by more than the
    credits it gives up, whatever other programs do between its steps, and holds
    [Q a] credits when it returns [a]. *)
Fixpoint pays {A} (Q : A → nat) (p : Prog E S A) (n : nat) : Prop :=
  match p with
  | Done (Ok a) => Q a ≤ n
  | Done _ => True
  | Step upd k => ∀ s, ∃ n', (Z.of_nat n' - Z.of_nat n ≤ balance (upd s) - balance s)%Z ∧ pays Q (k s) n'
  end.

Lemma pays_mono {A} (Q : A → nat) p n m : n ≤ m → pays Q p n → pays Q p m.
Proof.
  destruct p as [[a|e| |]|upd k]; simpl; [lia|done..|]. intros Hle Hp s.
  destruct (Hp s) as (n' & Hn & Hk). exists n'. split; [lia|done].
Qed.

Lemma pays_weaken {A} (Q Q' : A → nat) p n : (∀ a, Q' a ≤ Q a) → pays Q p n → pays Q' p n.
Proof.
  intros HQ. revert n. induction p as [[a|e| |]|upd k IH]; intros n; simpl; [specialize (HQ a); lia|done..|].
  intros Hp s. destruct (Hp s) as (n' & Hn & Hk). exists n'. split; [done|]. by apply IH.
Qed.

Lemma pays_bind {A B} (Q : A → nat) (Q' : B → nat) (p : Prog E S A) (f : A → Prog E S B) n :
  pays Q p n → (∀ a, pays Q' (f a) (Q a)) → pays Q' (p ≫= f) n.
Proof.
  intros Hp Hf. unfold mbind, prog_mbind. revert n Hp.
  induction p as [[a|e| |]|upd k IH]; intros n Hp; simpl; try done.
  - simpl in Hp. eapply pays_mono; [exact Hp|apply Hf].
  - intros s. destruct (Hp s) as (n' & Hn & Hk). exists n'. split; [done|]. by apply IH.
Qed.

Lemma pays_try {A} (Q : A → nat) (p : Prog E S A) n :
  pays Q p n → pays (λ r, match r with inl a => Q a | inr _ => 0 end) (try p) n.
Proof.
  revert n. induction p as [[a|e| |]|upd k IH]; intros n Hp; simpl in *; try done; [lia|].
  intros s. destruct (Hp s) as (n' & Hn & Hk). exists n'. split; [done|]. by apply IH.
Qed.

Lemma pays_map_err {A} (Q : A → nat) f (p : Prog E S A) n : pays Q p n → pays Q (map_err f p) n.
Proof.
  revert n. induction p as [[a|e| |]|upd k IH]; intros n Hp; simpl in *; try done.
  intros s. destruct (Hp s) as (n' & Hn & Hk). exists n'. split; [done|]. by apply IH.
Qed.

Lemma pays_atomically {A} (Q : A → nat) (f : S → res E A * S) n :
  (∀ s, ∃ n', (Z.of_nat n' - Z.of_nat n ≤ balance (f s).2 - balance s)%Z ∧
     ∀ a, (f s).1 = Ok a → Q a ≤ n') →
  pays Q (atomically f) n.
Proof.
  intros Hf s. destruct (Hf s) as (n' & Hn & HQ). exists n'. split; [done|].
  simpl. destruct (f s).1 as [a|e| |]; try done. by apply HQ.
Qed.

(** ** Many programs at once *)

Lemma sched_pays {A} (c c' : list (Prog E S A) * S) ns :
  rtc sched c c' → Forall2 (λ p n, pays (λ _, 0) p n) c.1 ns →
  ∃ ns', Forall2 (λ p n, pays (λ _, 0) p n) c'.1 ns' ∧
    (Z.of_nat (sum_list ns') - Z.of_nat (sum_list ns) ≤ balance c'.2 - balance c.2)%Z.
Proof.
  intros Hs. revert ns. induction Hs as [c|c1 c2 c3 Hstep _ IH]; intros ns Hall; [exists ns; split; [done|lia]|].
  inversion Hstep as [ps1 upd k ps2 s]; subst; simpl in *.
  apply Forall2_app_inv_l in Hall as (n1 & n2' & H1 & H2 & ->).
  apply Forall2_cons_inv_l in H2 as (n & n2 & Hp & H2 & ->).
  destruct (Hp s) as (n' & Hn & Hk).
  destruct (IH (n1 ++ n' :: n2)) as (ns' & Hns & Hsum).
  { apply Forall2_app; [done|]. by constructor. }
  exists ns'. split; [done|]. rewrite !sum_list_with_app in *. simpl in *. lia.
Qed.
End pays.

(** ** Challenges used up, and agents enrolled *)

Definition used_challenges (d : DB) : nat :=
  length (filter (λ c : Challenge, Challenge_Consumed c = true) (rows (challenges d))).
Definition enrolled_agents (d : DB) : nat := length (rows (agents d)).

Definition balance (d : DB) : Z := (Z.of_nat (used_challenges d) - Z.of_nat (enrolled_agents d))%Z.
Definition wbalance (w : World) : Z := balance (w_db w).

Definition no_dearer (d d' : DB) : Prop := (balance d ≤ balance d')%Z.

#[export] Instance no_dearer_preorder : PreOrder no_dearer.
Proof. split; unfold no_dearer; [intros d; lia|intros d1 d2 d3; lia]. Qed.

Lemma balance_same d d' : same_table Agent d d' → same_table Challenge d d' → no_dearer d d'.
Proof.
  unfold same_table, no_dearer, balance, used_challenges, enrolled_agents. simpl. intros -> ->. lia.
Qed.

Lemma used_challenges_map (f : Challenge → Challenge) l :
  (∀ c, Challenge_Consumed c = true → Challenge_Consumed (f c) = true) →
  length (filter (λ c, Challenge_Consumed c = true) l)
    ≤ length (filter (λ c, Challenge_Consumed c = true) (map f l)).
Proof.
  intros Hf. induction l as [|c l IH]; simpl; [lia|]. rewrite !filter_cons.
  destruct (decide (Challenge_Consumed c = true)) as [Hc|Hc].
  - rewrite decide_True by auto. simpl. lia.
  - case_decide; simpl; lia.
Qed.

Lemma balance_insert_challenge ok (mk : Z → Challenge) d : no_dearer d (insert_row ok mk d).2.
Proof.
  unfold insert_row. case_match; simpl; [|reflexivity].
  unfold no_dearer, balance, used_challenges, enrolled_agents. simpl.
  rewrite filter_app, length_app. lia.
Qed.

(** Consuming the challenges that match raises the balance by their number. *)
Lemma balance_consume v d :
  let p := λ r : Challenge, eqb_bytes (value r) v && negb (consumed r) in
  balance (update_rows p consume d) = (balance d + Z.of_nat (length (matching p d)))%Z.
Proof.
  intros p. unfold balance, used_challenges, enrolled_agents, matching, update_rows. simpl.
  induction (rows (challenges d)) as [|c l IH]; simpl; [lia|]. rewrite !filter_cons.
  unfold p in *. simpl in *. destruct (eqb_bytes (Challenge_Challenge c) v); simpl in *.
  2: { destruct (Challenge_Consumed c) eqn:Hc; simpl in *; rewrite ?Hc; simpl; lia. }
  destruct (Challenge_Consumed c) eqn:Hc; simpl in *; rewrite ?Hc; simpl; lia.
Qed.

#[export] Hint Extern 1 (Inserts _ no_dearer) =>
  intros ???; apply balance_same; apply same_table_insert; intros; reflexivity : typeclass_instances.
#[export] Hint Extern 1 (Updates _ no_dearer) =>
  intros ???; apply balance_same; apply same_table_update; intros; reflexivity : typeclass_instances.
#[export] Instance challenge_inserts : Inserts Challenge no_dearer.
Proof. intros ok mk d. apply balance_insert_challenge. Qed.

(** ** The calls of the program *)

Abbreviation Pays := (pays wbalance).

(** A program that never lowers the balance keeps its credits. *)
Lemma steady_keeps {A} (p : M A) n : moves no_dearer p → Pays (λ _, n) p n.
Proof.
  induction p as [[a|e| |]|upd k IH]; simpl; try done. intros Hp w. exists n.
  destruct (Hp w) as [Hs Hk]. unfold no_dearer in Hs. unfold wbalance. split; [lia|]. by apply IH.
Qed.

Lemma steady_pays {A} (p : M A) n : moves no_dearer p → Pays (λ _, 0) p n.
Proof. intros Hp. eapply pays_weaken; [|by apply steady_keeps]. intros; simpl; lia. Qed.

Section program.
Context `{Platform} `{Lib}.
Implicit Types w : World.

(** *** Earning a credit *)

Definition one_if_some {A} (o : option A) : nat := match o with Some _ => 1 | None => 0 end.

Lemma MarkConsumed_pays v : Pays (λ _, 1) (ChallengeRepository_MarkConsumed v) 0.
Proof.
  unfold ChallengeRepository_MarkConsumed, OneTime_MarkConsumed.
  apply (pays_bind _ (λ n, if Z.eqb n 0 then 0 else 1)).
  - apply pays_map_err. unfold update, sql. apply pays_atomically. intros w. unfold wbalance.
    destruct (db_fault _); simpl; [exists 0; split; [lia|done]|].
    pose proof (balance_consume v (w_db w)) as Hb. cbv zeta in Hb. simpl in Hb. rewrite Hb.
    set (n := length _). exists n. split; [lia|]. intros a [= <-].
    destruct (Z.eqb_spec (Z.of_nat n) 0); lia.
  - intros n. destruct (Z.eqb n 0); [exact I|]. simpl. lia.
Qed.

Lemma searchChallenge_pays o : Pays one_if_some (searchSentMessageWithChallenge o) 0.
Proof.
  unfold searchSentMessageWithChallenge. destruct o as [c|]; [|simpl; lia].
  eapply pays_bind; [apply pays_try, MarkConsumed_pays|]. intros [u|e]; [|simpl; lia].
  apply (pays_bind _ (λ _, 1)).
  - apply steady_keeps. unfold SentQueryRequestMessageRepository_FindByChallenge, nil_if_no_rows. moves_auto.
  - intros [[q|]|e]; simpl; lia.
Qed.

(** *** Spending it *)

Lemma AgentRepository_Create_pays a : Pays (λ _, 0) (AgentRepository_Create a) 1.
Proof.
  unfold AgentRepository_Create. repeat first [apply pays_map_err | apply pays_bind with (λ _, 0); [|by intros; simpl; lia]].
  unfold insert, sql. apply pays_atomically. intros w. exists 0. split; [|intros; lia].
  unfold wbalance. destruct (db_fault _); simpl; [lia|]. unfold insert_row. case_match; simpl; [|lia].
  unfold balance, used_challenges, enrolled_agents. simpl. rewrite length_app. simpl. lia.
Qed.

Lemma setTEEPAgentKey_pays key ueid : Pays (λ _, 0) (setTEEPAgentKey key ueid) 1.
Proof.
  unfold setTEEPAgentKey. destruct key as [key|]; [|exact I].
  destruct (key_Thumbprint key) as [kid|]; [|simpl; lia]. destruct (negb _); [simpl; lia|].
  apply pays_bind with (λ _, 1); [by apply steady_keeps|]. intros pk.
  apply pays_bind with (λ _, 1).
  { apply steady_keeps. unfold AgentRepository_FindByKIDIgnoreRevoked. moves_auto. }
  intros [a|]; [simpl; lia|]. apply pays_bind with (λ _, 1).
  { apply steady_keeps. unfold DeviceRepository_FindByUEID. moves_auto. }
  intros dev. apply pays_bind with (λ _, 1); [apply steady_keeps; moves_auto|]. intros now.
  cbv zeta. apply pays_bind with (λ _, 0); [apply AgentRepository_Create_pays|]. intros; simpl; lia.
Qed.

(** *** The only program that does both *)

Lemma verifyAttestationPayload_pays t body m kid : Pays (λ _, 0) (verifyAttestationPayload t body m kid) 0.
Proof.
  unfold verifyAttestationPayload. destruct (Opt_AttestationPayload _) as [payload|]; [|exact I].
  apply pays_bind with (λ _, 0); [apply steady_keeps; moves_auto|]. intros [verdict backend].
  destruct (negb _); [simpl; lia|]. apply pays_bind with (λ _, 0); [apply steady_keeps; moves_auto|].
  intros result. apply pays_bind with one_if_some; [apply searchChallenge_pays|].
  intros [sent|]; [|exact I]. destruct kid as [kid|]; [simpl; lia|].
  destruct (negb _ && negb _); [exact I|]. destruct (AttestationKey result) as [key|]; [|exact I].
  apply pays_bind with (λ _, 1); [apply steady_keeps; moves_auto|]. intros u.
  apply pays_bind with (λ _, 0); [apply pays_map_err, setTEEPAgentKey_pays|]. intros; simpl; lia.
Qed.

Lemma handleQueryResponse_pays t body m kid sent : Pays (λ _, 0) (handleQueryResponse t body m kid sent) 0.
Proof.
  pose proof (processQueryResponse_moves no_dearer).
  pose proof (generateQueryRequestWithAttestation_moves no_dearer).
  unfold handleQueryResponse. destruct sent as [sent|], kid as [kid|];
    try (apply steady_pays; moves_auto; fail).
  all: eapply pays_bind; [eapply pays_bind; [apply verifyAttestationPayload_pays|]|].
  all: try (intros [[pa k] s2]; apply steady_pays; moves_auto; fail).
  all: intros [k s2]; apply steady_pays; moves_auto.
Qed.

Lemma ResolveTEEPMessage_pays t body : Pays (λ _, 0) (ResolveTEEPMessage t body) 0.
Proof.
  pose proof (generateQueryRequest_moves no_dearer). pose proof (searchToken_moves no_dearer).
  unfold ResolveTEEPMessage. destruct body as [|b body]; [apply steady_pays; moves_auto|].
  apply pays_bind with (λ _, 0); [apply steady_keeps; moves_auto|]. intros [[msg kid] err].
  destruct msg as [m|]; [destruct (bool_decide _)|]; [|apply steady_pays; moves_auto..].
  apply pays_bind with (λ _, 0); [apply steady_keeps; moves_auto|]. intros sent.
  destruct (Z.eqb _ _); [apply handleQueryResponse_pays|].
  pose proof (λ m k s, handleReports_moves no_dearer _ m k s (success_moves no_dearer)).
  pose proof (λ m k s, handleReports_moves no_dearer _ m k s (failure_moves no_dearer)).
  apply steady_pays. moves_auto.
Qed.

(** *** The handlers *)

Lemma ServeHTTP_pays t r : Pays (λ _, 0) (ServeHTTP t r) 0.
Proof.
  unfold ServeHTTP. destruct (String.eqb _ _).
  { unfold tamOverHttp. do 3 (destruct (negb _); [simpl; lia|]).
    destruct (ReadAll _ _); [|simpl; lia..]. destruct (Body_CloseFails _); [simpl; lia|].
    eapply pays_bind; [apply pays_try, ResolveTEEPMessage_pays|]. intros r0. apply steady_pays. moves_auto. }
  pose proof (registerManifest_moves no_dearer). apply steady_pays. unfold_handlers. moves_auto.
Qed.
End program.

(** ** Property *)

Section properties.
Context `{Platform} `{Lib}.

(** C2: enrolments are paid for.  Whatever requests the server handles, and however it
    interleaves them, it never enrols more agents than it uses up challenges: two
    QueryResponses that answer the same challenge at the same moment enrol one agent
    at most. *)
Theorem enrolments_cost_challenges (t : TAM) (rs : list Request) w w' ps :
  rtc sched (map (ServeHTTP t) rs, w) (ps, w') →
  (Z.of_nat (enrolled_agents (w_db w')) - Z.of_nat (enrolled_agents (w_db w))
   ≤ Z.of_nat (used_challenges (w_db w')) - Z.of_nat (used_challenges (w_db w)))%Z.
Proof.
  intros Hs. destruct (sched_pays wbalance _ _ (replicate (length rs) 0) Hs) as (ns & _ & Hsum).
  { clear Hs. induction rs as [|r rs IH]; simpl; [constructor|]. constructor; [apply ServeHTTP_pays|done]. }
  assert (sum_list (replicate (length rs) 0) = 0) as Hzero by (rewrite sum_list_replicate; lia).
  rewrite Hzero in Hsum. unfold wbalance, balance in Hsum. simpl in Hsum. lia.
Qed.
End properties.

(** ** Witness *)

(** The same QueryResponse, twice. *)
Definition post_evidence : Request :=
  mkRequest "POST" "/tam" "application/teep+cbor" "application/teep+cbor" (mkBody evidence_body false false).

Definition both_served : World :=
  (run (@ServeHTTP calm lib tam post_evidence) (run (@ServeHTTP calm lib tam post_evidence) asked).2).2.

Lemma enrolments_cost_challenges_witness :
  (Z.of_nat (enrolled_agents (w_db both_served)) - 0 ≤ 1)%Z ∧ enrolled_agents (w_db both_served) = 1.
Proof.
  split; [|by vm_compute].
  pose proof (@enrolments_cost_challenges calm lib tam [post_evidence; post_evidence] asked both_served
    [Done (run (@ServeHTTP calm lib tam post_evidence) asked).1;
     Done (run (@ServeHTTP calm lib tam post_evidence) (run (@ServeHTTP calm lib tam post_evidence) asked).2).1]) as Hc.
  assert (enrolled_agents (w_db asked) = 0) as Ha by (by vm_compute).
  assert (used_challenges (w_db asked) = 0) as Hu by (by vm_compute).
  assert (used_challenges (w_db both_served) = 1) as Hu' by (by vm_compute).
  rewrite Ha, Hu, Hu' in Hc. apply Hc. simpl map.
  etrans; [apply (sched_run [] (@ServeHTTP calm lib tam post_evidence) [_])|].
  apply (sched_run [_] (@ServeHTTP calm lib tam post_evidence) []).
Defined.
