(* ===== verification/DemoFlow.v ===== *)
(** Starting in demo mode, again and again: what seeding establishes, that a restart finds
    its data and changes nothing, and when it fails. *)

From S2P Require Import Prelude GoText Model Db Evolve Frame AgentRepo ManifestRepo StatusRepo.
From S2P Require Import Wire Lib Stub Rats Verifiers Demo Tam Server Logger Startup Requests TamFrames Trust.
From S2P Require Import ManifestFlow Registry.

(** ** First rows *)

Section first_rows.
Context `{Platform}.
Implicit Types w : World.

(** What a lookup by [p] finds first stays first. *)
Lemma first_kept {R} `{Relation R} (p : R → bool) d d' r :
  grows R eq d d' → head (matching p d) = Some r → head (matching p d') = Some r.
Proof.
  intros (olds & news & Hrows & Hsame). unfold matching. rewrite Hrows, filter_app.
  apply list_eq_Forall2 in Hsame as <-. by destruct (filter _ (rows _)).
Qed.

Lemma run_select_opt_Ok {R} `{Relation R} wrap (p : R → bool) w o w' :
  run (select_opt wrap p) w = (Ok o, w') → o = head (matching p (w_db w)) ∧ w_db w' = w_db w.
Proof.
  unfold select_opt, nil_if_no_rows. intros Hr. run_inv Hr. apply run_try_Ok in Hrun.
  destruct a as [r|e].
  - apply run_select_one_Ok in Hrun as (_ & _ & Hh & Hdb). simpl in Hk. by simplify_eq/=.
  - unfold select_one in Hrun. rewrite run_sql in Hrun.
    case_bool_decide as He; [|done]. simpl in Hk. subst e. injection Hk as <- <-.
    destruct (db_fault _); [done|]. simpl in Hrun.
    destruct (head _) eqn:Hh; simpl in Hrun; [done|]. by injection Hrun as <-.
Qed.

(** A row inserted because a lookup found none is what it finds from then on. *)
Lemma first_inserted {R} `{Relation R} (p : R → bool) ok (mk : Z → R) w id w' :
  head (matching p (w_db w)) = None → (∀ id, p (mk id) = true) →
  run (insert ok mk) w = (Ok id, w') → head (matching p (w_db w')) = Some (mk id).
Proof.
  intros Hno Hp Hr. apply run_insert_Ok in Hr as (_ & _ & ->). unfold matching in *.
  rewrite rel_get_set. simpl. rewrite filter_app. destruct (filter _ (rows _)) as [|r l]; [|done].
  rewrite filter_cons_True by apply Hp. done.
Qed.

Lemma harmless_evolves {A} (p : M A) w r w' :
  harmless p w → run p w = (r, w') → evolves (w_db w) (w_db w').
Proof. intros Hp Hr. apply safe_run in Hp as [He _]. by rewrite Hr in He. Qed.

(** The only agent with its key id. *)
Lemma matching_kid d a kid :
  wf d → a ∈ rows (agents d) → Agent_KID a = kid →
  head (matching (λ a : Agent, eqb_bytes (Agent_KID a) kid) d) = Some a.
Proof.
  intros Hwf Ha Hk. unfold matching. destruct (filter _ _) as [|x l] eqn:Hf.
  - exfalso. apply (not_elem_of_nil a). rewrite <- Hf. apply list_elem_of_filter.
    split; [by apply eqb_bytes_eq|done].
  - assert (x ∈ x :: l) as Hx by left. rewrite <- Hf in Hx.
    apply list_elem_of_filter in Hx as [Hx%eqb_bytes_eq Hin]. simpl. f_equal.
    eapply fmap_NoDup_inj; [exact (wf_kid _ Hwf)|done|done|congruence].
Qed.
End first_rows.

(** ** What seeding establishes *)

Section seeded.
Context `{Platform} `{Lib}.
Implicit Types w : World.

Definition named (name : string) (id : Z) (d : DB) : Prop :=
  ∃ e, head (matching (λ e : Entity, bool_decide (Entity_Name e = name)) d) = Some e ∧ Entity_ID e = id.

Definition keyed (kid : bytes) (id : Z) (d : DB) : Prop :=
  ∃ k, head (matching (λ k : ManifestSigningKey, eqb_bytes (ManifestSigningKey_KID k) kid) d) = Some k ∧
    ManifestSigningKey_ID k = id.

Lemma named_evolves name id d d' : wf d → evolves d d' → named name id d → named name id d'.
Proof.
  intros Hwf He (e & Hh & Hid). exists e. split; [|done]. eapply first_kept; [|exact Hh].
  destruct (He Hwf) as [K _]. exact (kept (R:=Entity) _ _ K).
Qed.

Lemma keyed_evolves kid id d d' : wf d → evolves d d' → keyed kid id d → keyed kid id d'.
Proof.
  intros Hwf He (k & Hh & Hid). exists k. split; [|done]. eapply first_kept; [|exact Hh].
  destruct (He Hwf) as [K _]. exact (kept (R:=ManifestSigningKey) _ _ K).
Qed.

Lemma ensureEntity_Ok e w id w' :
  run (ensureEntity e) w = (Ok id, w') → named (Entity_Name e) id (w_db w').
Proof.
  unfold ensureEntity, EntityRepository_FindByName. intros Hr. run_inv Hr.
  apply run_select_opt_Ok in Hrun as [-> Hdb]. destruct (head _) as [e'|] eqn:Hh.
  - simpl in Hk. simplify_eq/=. exists e'. by rewrite Hdb.
  - apply run_map_err_Ok in Hk. rewrite <- Hdb in Hh.
    eexists. split; [eapply first_inserted; [exact Hh| |exact Hk]|done].
    intros. by apply bool_decide_eq_true.
Qed.

Lemma ensureManifestSigningKey_Ok k w id w' :
  run (ensureManifestSigningKey k) w = (Ok id, w') → keyed (ManifestSigningKey_KID k) id (w_db w').
Proof.
  unfold ensureManifestSigningKey, ManifestSigningKeyRepository_FindByKID. intros Hr. run_inv Hr.
  apply run_select_opt_Ok in Hrun as [-> Hdb]. destruct (head _) as [k'|] eqn:Hh.
  - simpl in Hk. simplify_eq/=. exists k'. by rewrite Hdb.
  - apply run_map_err_Ok in Hk. rewrite <- Hdb in Hh.
    eexists. split; [eapply first_inserted; [exact Hh| |exact Hk]|done].
    intros. by apply eqb_bytes_eq.
Qed.

Lemma ensureEntity_harmless e w : harmless (ensureEntity e) w.
Proof. unfold ensureEntity, EntityRepository_FindByName. harmless_auto. Qed.

Lemma ensureManifestSigningKey_harmless k w : harmless (ensureManifestSigningKey k) w.
Proof. unfold ensureManifestSigningKey, ManifestSigningKeyRepository_FindByKID. harmless_auto. Qed.

Record entities_seeded (refs : SeedRefs) (d : DB) : Prop := {
  seeded_admin : named DefaultTAMAdminName (AdminID refs) d;
  seeded_admin_key : ∃ id, keyed (bytes_of_string "key-1") id d;
  seeded_developer : named DefaultDeveloperName (DeveloperID refs) d;
  seeded_developer_key : ∃ k, defaultDeveloperManifestKey = Ok k ∧
    keyed (ManifestSigningKey_KID k) (DeveloperSigningKeyID refs) d;
  seeded_device_admin : named DefaultDeviceAdminName (DeviceAdminID refs) d;
}.

Lemma entities_seeded_evolves refs d d' :
  wf d → evolves d d' → entities_seeded refs d → entities_seeded refs d'.
Proof.
  intros Hwf He [? (i & Hk) ? (k & Hd & Hdk) ?].
  split; eauto using named_evolves, keyed_evolves.
Qed.

Lemma SeedEntities_harmless w : harmless SeedEntities w.
Proof.
  pose proof ensureEntity_harmless. pose proof ensureManifestSigningKey_harmless.
  pose proof @harmless_lift. unfold SeedEntities. harmless_auto.
Qed.

(** One call of a sequence: its world, and that the database has evolved. *)
Lemma run_bind_evolves {A B} (p : M A) (f : A → M B) w b w' :
  wf (w_db w) → harmless p w → run (p ≫= f) w = (Ok b, w') →
  ∃ a w1, run p w = (Ok a, w1) ∧ evolves (w_db w) (w_db w1) ∧ wf (w_db w1) ∧ run (f a) w1 = (Ok b, w').
Proof.
  intros Hwf Hp (a & w1 & Hr & Hk)%run_bind_Ok. pose proof (harmless_evolves _ _ _ _ Hp Hr) as He.
  exists a, w1. split_and!; try done. by eapply evolves_wf.
Qed.

Lemma SeedEntities_Ok w refs w' :
  wf (w_db w) → run SeedEntities w = (Ok refs, w') → entities_seeded refs (w_db w').
Proof.
  intros Hwf Hr. unfold SeedEntities in Hr.
  pose proof ensureEntity_harmless as He. pose proof ensureManifestSigningKey_harmless as Hek.
  apply run_bind_evolves in Hr as (t1 & w1 & _ & E1 & Hwf1 & Hr); [|done|apply safe_time_now].
  apply run_bind_evolves in Hr as (i1 & w2 & R2%run_map_err_Ok & E2 & Hwf2 & Hr); [|done|by apply safe_map_err].
  apply run_bind_evolves in Hr as (i2 & w3 & R3%run_map_err_Ok & E3 & Hwf3 & Hr); [|done|by apply safe_map_err].
  apply run_bind_evolves in Hr as (t4 & w4 & _ & E4 & Hwf4 & Hr); [|done|apply safe_time_now].
  apply run_bind_evolves in Hr as (i5 & w5 & R5%run_map_err_Ok & E5 & Hwf5 & Hr); [|done|by apply safe_map_err].
  apply run_bind_evolves in Hr as (k & w6 & [R6 _]%run_lift_Ok & E6 & Hwf6 & Hr); [|done|apply harmless_lift].
  apply run_bind_evolves in Hr as (i7 & w7 & R7%run_map_err_Ok & E7 & Hwf7 & Hr); [|done|by apply safe_map_err].
  apply run_bind_evolves in Hr as (t8 & w8 & _ & E8 & Hwf8 & Hr); [|done|apply safe_time_now].
  apply run_bind_evolves in Hr as (i9 & w9 & R9%run_map_err_Ok & E9 & Hwf9 & Hr); [|done|by apply safe_map_err].
  injection Hr as <- <-.
  apply ensureEntity_Ok in R2, R5, R9. apply ensureManifestSigningKey_Ok in R3, R7. simpl in *.
  assert (evolves (w_db w7) (w_db w9)) as E79 by (by etrans).
  assert (evolves (w_db w5) (w_db w9)) as E59 by (etrans; [done|by etrans]).
  assert (evolves (w_db w3) (w_db w9)) as E39 by (etrans; [done|by etrans]).
  assert (evolves (w_db w2) (w_db w9)) as E29 by (by etrans).
  split; simpl; [exact (named_evolves _ _ _ _ Hwf2 E29 R2)| |exact (named_evolves _ _ _ _ Hwf5 E59 R5)| |done].
  - exists i2. exact (keyed_evolves _ _ _ _ Hwf3 E39 R3).
  - exists k. split; [done|]. exact (keyed_evolves _ _ _ _ Hwf7 E79 R7).
Qed.

(** The rest of the demo data.  The trusted key is stored unless its id is unusable. *)
Definition trusted_kid (kid : bytes) : Prop := TrustedAgentKeyKID = Ok kid ∧ length kid = 32.

Record seeded (d : DB) : Prop := {
  seeded_entities : ∃ refs, entities_seeded refs d;
  seeded_manifest : ∃ m, of_component TrustedComponentHelloText d m ∧ SuitManifest_SequenceNumber m = 0%Z;
  seeded_device : ∃ x, x ∈ rows (devices d) ∧ Device_UEID x = DefaultDeviceUEID;
  seeded_agent : ∃ a, a ∈ rows (agents d) ∧ Agent_KID a = DefaultAgentKID;
  seeded_trusted : ∃ key kid, cbor_key DefaultTrustedAgentKey = Some key ∧ key_Thumbprint key = Some kid ∧
    (length kid = 32 → ∃ a, a ∈ rows (agents d) ∧ Agent_KID a = kid ∧
       (cbor_key (Agent_PublicKey a) ≠ None ∨ Marshal_key key ≠ None));
}.

Lemma row_evolves {R} `{Kept R} d d' r :
  wf d → evolves d d' → r ∈ rows (rel_get (R:=R) d) → ∃ r', r' ∈ rows (rel_get d') ∧ step r r'.
Proof. intros Hwf He Hr. by apply (seen_evolves r d d' Hwf He), seen_in. Qed.

Lemma seeded_evolves d d' : wf d → evolves d d' → seeded d → seeded d'.
Proof.
  intros Hwf He [(refs & Hrefs) (m & [Hm ?] & ?) (x & Hx & ?) (a & Ha & Hk) (key & kid & Hck & Hth & Ht)]. split.
  - exists refs. by eapply entities_seeded_evolves.
  - destruct (row_evolves (R:=SuitManifest) d d' m) as (m' & ? & <-); [done..|]. by exists m.
  - destruct (row_evolves (R:=Device) d d' x) as (x' & ? & <-); [done..|]. by exists x.
  - destruct (row_evolves (R:=Agent) d d' a) as (a' & ? & _ & Hk' & _); [done..|]. exists a'. split; [done|congruence].
  - exists key, kid. split; [done|]. split; [done|]. intros Hl. destruct (Ht Hl) as (b & Hb & Hbk & Hor).
    destruct (row_evolves (R:=Agent) d d' b) as (b' & ? & _ & Hk' & Hpk & _); [done..|]. exists b'.
    split; [done|]. split; [congruence|]. by rewrite Hpk.
Qed.

(** *** Establishing it *)

Lemma SeedHelloTextManifest_harmless key w : wf (w_db w) → harmless (SeedHelloTextManifest key) w.
Proof.
  intros Hwf. unfold SeedHelloTextManifest.
  apply harmless_bind; [by eapply safe_map_err, safe_true, FindLatest_safe|]. intros o w' _.
  destruct (bool_decide _); [apply safe_done|]. harmless_auto.
Qed.

Lemma SeedHelloTextManifest_Ok key w w' :
  run (SeedHelloTextManifest key) w = (Ok tt, w') →
  ∃ m, of_component TrustedComponentHelloText (w_db w') m ∧ SuitManifest_SequenceNumber m = 0%Z.
Proof.
  unfold SeedHelloTextManifest. intros Hr. run_inv Hr. apply run_map_err_Ok, FindLatest_Ok in Hrun as [Hdb Ho].
  case_bool_decide as Hz.
  - simpl in Hk. injection Hk as <-. destruct a as [m|]; [|done]. simpl in Hz. injection Hz as Hz.
    destruct Ho as (r & [Hr _] & ->). exists r. by rewrite Hdb.
  - run_inv Hk. injection Hk0 as <-. apply run_map_err_Ok in Hrun.
    unfold SuitManifestRepository_Create in Hrun. change (Z.leb max_int64 _) with false in Hrun.
    apply run_insert_Ok in Hrun as (_ & _ & ->). eexists.
    split; [split; [simpl; apply elem_of_app; right; left|]|]; reflexivity.
Qed.

Lemma ensureTrustedDemoAgentKey_harmless w : wf (w_db w) → harmless ensureTrustedDemoAgentKey w.
Proof.
  intros Hwf. unfold ensureTrustedDemoAgentKey.
  apply harmless_bind; [apply harmless_lift|]. intros key w1 E1.
  apply harmless_bind; [apply harmless_lift|]. intros kid w2 E2.
  apply harmless_bind; [apply harmless_try, getTEEPAgentKey_harmless; eauto with attestam|].
  intros [k|e] w3 E3; [apply safe_done|]. apply safe_map_err, setTEEPAgentKey_harmless.
Qed.

Lemma ensureTrustedDemoAgentKey_Ok w w' :
  run ensureTrustedDemoAgentKey w = (Ok tt, w') →
  ∃ key kid, cbor_key DefaultTrustedAgentKey = Some key ∧ key_Thumbprint key = Some kid ∧
    (length kid = 32 → ∃ a, a ∈ rows (agents (w_db w')) ∧ Agent_KID a = kid ∧
       (cbor_key (Agent_PublicKey a) ≠ None ∨ Marshal_key key ≠ None)).
Proof.
  unfold ensureTrustedDemoAgentKey. intros Hr.
  run_inv Hr. apply run_lift_Ok in Hrun as [Hkey%res_of_option_Ok ->].
  run_inv Hk. apply run_lift_Ok in Hrun as [Hkid%res_of_option_Ok ->].
  exists a, a0. split; [done|]. split; [done|]. intros Hlen. run_inv Hk0. apply run_try_Ok in Hrun.
  destruct a1 as [k|e].
  - pose proof (run_reads _ _ _ _ (getTEEPAgentKey_reads _) Hrun) as Hdb.
    apply getTEEPAgentKey_Ok in Hrun as (r & Hin & Hk' & _ & _ & _ & Hck). injection Hk as <-.
    exists r. rewrite Hdb. split_and!; [done|done|]. left. by rewrite Hck.
  - apply run_map_err_Ok in Hk. destruct (setTEEPAgentKey_stores _ _ _ _ _ Hkid Hlen Hk) as (r & ? & ?).
    exists r. split_and!; [done|done|]. right. unfold setTEEPAgentKey in Hk. rewrite Hkid, Hlen in Hk.
    cbn [Nat.eqb negb] in Hk. run_inv Hk. apply run_lift_Ok in Hrun0 as [Hm%res_of_option_Ok _]. by rewrite Hm.
Qed.

Lemma nil_if_not_found_harmless {A} wrap (m : M A) w : harmless m w → harmless (nil_if_not_found wrap m) w.
Proof using H. intros Hm. unfold nil_if_not_found. apply harmless_bind; [by apply harmless_try|]. harmless_auto. Qed.

Lemma nil_if_not_found_Ok {A} wrap (m : M A) w o w' :
  run (nil_if_not_found wrap m) w = (Ok o, w') →
  match o with Some x => run m w = (Ok x, w') | None => ∃ e, run m w = (Err e, w') ∧ errors_Is e ErrNotFound = true end.
Proof.
  unfold nil_if_not_found. intros Hr. run_inv Hr. apply run_try_Ok in Hrun. destruct a as [x|e].
  - simpl in Hk. by injection Hk as <- <-.
  - destruct (errors_Is e ErrNotFound) eqn:He; [|done]. simpl in Hk. injection Hk as <- <-. by exists e.
Qed.

Lemma run_insert_row {R} `{Relation R} ok (mk : Z → R) w id w' :
  run (insert ok mk) w = (Ok id, w') → mk id ∈ rows (rel_get (w_db w')).
Proof.
  intros (_ & _ & ->)%run_insert_Ok. rewrite rel_get_set. simpl. apply elem_of_app. right. by left.
Qed.

Lemma demo_device_harmless wrap w :
  harmless (nil_if_not_found wrap (DeviceRepository_FindByUEID DefaultDeviceUEID)) w.
Proof. apply nil_if_not_found_harmless. harmless_auto. Qed.

Lemma demo_agent_harmless wrap w :
  wf (w_db w) → harmless (nil_if_not_found wrap (AgentRepository_FindByKID DefaultAgentKID)) w.
Proof. intros Hwf. by eapply nil_if_not_found_harmless, safe_true, AgentRepository_FindByKID_safe. Qed.

(** What [SeedAgentScenario] does once device and agent are there. *)
Definition seed_status (withStatus : bool) : M unit :=
  if negb withStatus then mret tt
  else
    agentStatus ← map_err (Wrapped "find demo agent status")
                    (AgentStatusRepository_GetAgentStatus DefaultAgentKID);
    match agentStatus with
    | Some (mkAgentStatus _ _ (_ :: _) _) => mret tt
    | _ => map_err (Wrapped "create demo agent status")
             (AgentStatusRepository_ReflectManifestSuccess DefaultAgentKID
                (Some HelloTextManifestDigest) (bytes_of_string "report1"))
    end.

Lemma seed_status_harmless b w : wf (w_db w) → harmless (seed_status b) w.
Proof.
  intros Hwf. unfold seed_status. destruct (negb b); [apply safe_done|].
  apply harmless_bind; [apply safe_map_err, GetAgentStatus_harmless|]. intros o w1 E1.
  assert (wf (w_db w1)) by eauto with attestam.
  assert (∀ e, harmless (map_err e (AgentStatusRepository_ReflectManifestSuccess DefaultAgentKID
                (Some HelloTextManifestDigest) (bytes_of_string "report1"))) w1)
    by (intros; by eapply safe_map_err, safe_true, ReflectManifestSuccess_safe).
  destruct o as [[? ? [|? ?] ?]|]; [done|apply safe_done|done].
Qed.

Lemma SeedAgentScenario_Ok id b w w' :
  wf (w_db w) → run (SeedAgentScenario id b) w = (Ok tt, w') →
  (∃ x, x ∈ rows (devices (w_db w')) ∧ Device_UEID x = DefaultDeviceUEID) ∧
  (∃ a, a ∈ rows (agents (w_db w')) ∧ Agent_KID a = DefaultAgentKID).
Proof.
  intros Hwf Hr. unfold SeedAgentScenario in Hr.
  apply run_bind_evolves in Hr as (t & w1 & _ & E1 & Hwf1 & Hr); [|done|apply safe_time_now].
  apply run_bind_evolves in Hr as (dev & w2 & R2%nil_if_not_found_Ok & E2 & Hwf2 & Hr);
    [|done|apply demo_device_harmless].
  apply run_bind_evolves in Hr as (did & w3 & R3 & E3 & Hwf3 & Hr); [|done|destruct dev; harmless_auto].
  apply run_bind_evolves in Hr as (ag & w4 & R4%nil_if_not_found_Ok & E4 & Hwf4 & Hr);
    [|done|by apply demo_agent_harmless].
  apply run_bind_evolves in Hr as (aid & w5 & R5 & E5 & Hwf5 & Hr); [|done|destruct ag; harmless_auto].
  change (run (seed_status b) w5 = (Ok tt, w')) in Hr.
  pose proof (harmless_evolves _ _ _ _ (seed_status_harmless b w5 Hwf5) Hr) as E6.
  assert (∃ x, x ∈ rows (devices (w_db w3)) ∧ Device_UEID x = DefaultDeviceUEID) as (x & Hx & Hu).
  { destruct dev as [x|].
    - simpl in R3. injection R3 as <- <-. unfold DeviceRepository_FindByUEID in R2. run_inv R2.
      apply run_try_Ok in Hrun. destruct a as [y|e]; [|done]. simpl in Hk. injection Hk as <- <-.
      apply run_select_one_Ok in Hrun as (Hin & Hu%eqb_bytes_eq & _ & Hdb). exists y. by rewrite Hdb.
    - apply run_map_err_Ok, run_insert_row in R3. by eexists. }
  assert (∃ a, a ∈ rows (agents (w_db w5)) ∧ Agent_KID a = DefaultAgentKID) as (a & Ha & Hk).
  { destruct ag as [a|].
    - simpl in R5. injection R5 as <- <-.
      assert (w_db w4 = w_db w3) as Hdb
        by (eapply run_reads, R4; unfold AgentRepository_FindByKID; moves_auto).
      apply FindByKID_Ok in R4 as (r & Hin & Hk & _). exists r. by rewrite Hdb.
    - apply run_map_err_Ok, run_insert_row in R5. by eexists. }
  assert (evolves (w_db w3) (w_db w')) as E36 by (etrans; [done|by etrans]).
  destruct (row_evolves (R:=Device) (w_db w3) (w_db w') x) as (x' & ? & <-); [done..|].
  destruct (row_evolves (R:=Agent) (w_db w5) (w_db w') a) as (a' & ? & _ & Hk' & _); [done..|].
  split; [by exists x|]. exists a'. split; [done|congruence].
Qed.

Lemma SeedAgentScenario_harmless id b w : wf (w_db w) → harmless (SeedAgentScenario id b) w.
Proof.
  intros Hwf. unfold SeedAgentScenario.
  apply harmless_bind; [apply safe_time_now|]. intros t w1 E1.
  apply harmless_bind; [apply demo_device_harmless|]. intros dev w2 E2.
  apply harmless_bind; [destruct dev; harmless_auto|]. intros did w3 E3.
  apply harmless_bind; [apply demo_agent_harmless; eauto with attestam|]. intros ag w4 E4.
  apply harmless_bind; [destruct ag; harmless_auto|]. intros aid w5 E5.
  apply (seed_status_harmless b w5). eauto 6 with attestam.
Qed.

Lemma SeedDemoEntities_harmless b w : wf (w_db w) → harmless (SeedDemoEntities b) w.
Proof.
  intros Hwf. unfold SeedDemoEntities. apply harmless_bind; [apply SeedEntities_harmless|]. intros refs w1 E1.
  destruct (negb b); [apply safe_done|]. apply SeedHelloTextManifest_harmless. eauto with attestam.
Qed.

Lemma SeedDemoAgent_harmless b w : wf (w_db w) → harmless (SeedDemoAgent b) w.
Proof.
  intros Hwf. unfold SeedDemoAgent. apply harmless_bind; [by apply ensureTrustedDemoAgentKey_harmless|].
  intros [] w1 E1. apply harmless_bind; [apply SeedEntities_harmless|]. intros refs w2 E2.
  apply SeedAgentScenario_harmless. eauto with attestam.
Qed.

Lemma SeedDemoData_harmless w : wf (w_db w) → harmless SeedDemoData w.
Proof.
  intros Hwf. unfold SeedDemoData. apply harmless_bind; [by apply SeedDemoEntities_harmless|].
  intros [] w1 E1. apply SeedDemoAgent_harmless. eauto with attestam.
Qed.

Lemma SeedDemoData_Ok w w' : wf (w_db w) → run SeedDemoData w = (Ok tt, w') → seeded (w_db w').
Proof.
  intros Hwf Hr. unfold SeedDemoData in Hr.
  apply run_bind_evolves in Hr as ([] & w1 & R1 & E1 & Hwf1 & Hr); [|done|by apply SeedDemoEntities_harmless].
  unfold SeedDemoEntities in R1.
  apply run_bind_evolves in R1 as (refs1 & v1 & _ & _ & Hv1 & R1); [|done|apply SeedEntities_harmless].
  apply SeedHelloTextManifest_Ok in R1 as (m & [Hm Hc] & Hz).
  unfold SeedDemoAgent in Hr.
  apply run_bind_evolves in Hr as ([] & w2 & R2 & E2 & Hwf2 & Hr);
    [|done|by apply ensureTrustedDemoAgentKey_harmless].
  apply ensureTrustedDemoAgentKey_Ok in R2 as (key & kid & Hck & Hth & Ht).
  apply run_bind_evolves in Hr as (refs & w3 & R3 & E3 & Hwf3 & Hr); [|done|apply SeedEntities_harmless].
  apply SeedEntities_Ok in R3; [|done].
  pose proof (harmless_evolves _ _ _ _ (SeedAgentScenario_harmless _ _ _ Hwf3) Hr) as E4.
  apply SeedAgentScenario_Ok in Hr as [Hdev Hag]; [|done].
  assert (evolves (w_db w2) (w_db w')) as E24 by (by etrans).
  assert (evolves (w_db w1) (w_db w')) as E14 by (etrans; [done|by etrans]).
  split; [exists refs; by eapply (entities_seeded_evolves refs (w_db w3))| |done|done|].
  - destruct (row_evolves (R:=SuitManifest) (w_db w1) (w_db w') m) as (m' & ? & <-); [done..|]. by exists m.
  - exists key, kid. split; [done|]. split; [done|]. intros Hl. destruct (Ht Hl) as (b & Hb & Hbk & Hor).
    destruct (row_evolves (R:=Agent) (w_db w2) (w_db w') b) as (b' & ? & _ & Hk' & Hpk & _); [done..|].
    exists b'. split; [done|]. split; [congruence|]. by rewrite Hpk.
Qed.
End seeded.

(** ** Running without a write *)

Section quiet.
Context `{Platform} `{Lib} (d : DB) (lo hi : nat).

(** [quiet k p Q]: on the database [d], with the clock in a window, [p] returns a value
    in [Q], reads the clock [k] times at most and leaves the database as it was. *)
Definition quiet {A} (k : nat) (p : M A) (Q : A → Prop) : Prop :=
  ∀ w, w_db w = d → lo ≤ w_reads w → w_reads w + k ≤ hi →
    ∃ a w', run p w = (Ok a, w') ∧ w_db w' = d ∧ w_reads w ≤ w_reads w' ≤ w_reads w + k ∧ Q a.

Lemma quiet_ret {A} (a : A) (Q : A → Prop) : Q a → quiet 0 (mret a) Q.
Proof using Type. intros HQ w Hd _ _. exists a, w. split_and!; try done; lia. Qed.

Lemma quiet_bind {A B} i j (p : M A) (f : A → M B) (Q : A → Prop) (Q' : B → Prop) :
  quiet i p Q → (∀ a, Q a → quiet j (f a) Q') → quiet (i + j) (p ≫= f) Q'.
Proof using Type.
  intros Hp Hf w Hd Hlo Hhi. destruct (Hp w) as (a & w1 & Hr & Hd1 & Hn & HQ); [done..|lia|].
  destruct (Hf a HQ w1) as (b & w2 & Hr2 & Hd2 & Hn2 & HQ'); [done|lia|lia|].
  exists b, w2. rewrite run_bind, Hr. cbn [run_then]. split_and!; try done; lia.
Qed.

Lemma quiet_more {A} i j (p : M A) (Q : A → Prop) : i ≤ j → quiet i p Q → quiet j p Q.
Proof using Type.
  intros Hle Hp w Hd Hlo Hhi. destruct (Hp w) as (a & w1 & ? & ? & ? & ?); [done..|lia|].
  exists a, w1. split_and!; try done; lia.
Qed.

Lemma quiet_map_err {A} i f (p : M A) (Q : A → Prop) : quiet i p Q → quiet i (map_err f p) Q.
Proof using Type.
  intros Hp w Hd Hlo Hhi. destruct (Hp w) as (a & w1 & Hr & ? & ? & ?); [done..|].
  exists a, w1. by rewrite run_map_err, Hr.
Qed.

Lemma quiet_try {A} i (p : M A) (Q : A → Prop) :
  quiet i p Q → quiet i (try p) (λ r, ∃ a, r = inl a ∧ Q a).
Proof using Type.
  intros Hp w Hd Hlo Hhi. destruct (Hp w) as (a & w1 & Hr & ? & ? & ?); [done..|].
  exists (inl a), w1. rewrite run_try, Hr. split_and!; try done; try lia. by exists a.
Qed.

Lemma quiet_lift {A} (r : res error A) a (Q : A → Prop) : r = Ok a → Q a → quiet 0 (lift r) Q.
Proof using Type. intros -> HQ. by apply quiet_ret. Qed.

Lemma quiet_time_now : quiet 1 time_now (λ t, ∃ n, lo ≤ n < hi ∧ t = clock n).
Proof using Type.
  intros w Hd Hlo Hhi. exists (clock (w_reads w)), (tick_clock w). simpl.
  split_and!; try done; try lia. exists (w_reads w). split; [lia|done].
Qed.

Context `{!Reliable}.

Lemma quiet_select {A} (f : DB → res error A) a : f d = Ok a → quiet 0 (sql (λ d, (f d, d))) (λ x, x = a).
Proof using Type*.
  intros Hf w Hd _ _. rewrite run_sql_reliable. simpl. rewrite Hd, Hf.
  eexists _, _. split_and!; try done; simpl; lia.
Qed.

Lemma quiet_select_opt {R} `{Relation R} wrap (p : R → bool) :
  quiet 0 (select_opt wrap p) (λ o, o = head (matching p d)).
Proof using Type*.
  intros w Hd _ _. rewrite run_select_opt_reliable, Hd.
  eexists _, _. split_and!; try done; simpl; lia.
Qed.
End quiet.

(** ** A second start *)

Section restart.
Context `{Platform} `{Lib} `{!Reliable} (d : DB) (lo hi : nat).
Local Abbreviation Quiet := (quiet d lo hi).

Lemma ensureEntity_quiet e id : named (Entity_Name e) id d → Quiet 0 (ensureEntity e) (λ i, i = id).
Proof using Type*.
  intros (e' & Hh & Hid). unfold ensureEntity, EntityRepository_FindByName.
  eapply (quiet_bind d lo hi 0 0); [apply quiet_select_opt; apply _|]. intros o ->. rewrite Hh. by apply quiet_ret.
Qed.

Lemma ensureManifestSigningKey_quiet k id :
  keyed (ManifestSigningKey_KID k) id d → Quiet 0 (ensureManifestSigningKey k) (λ i, i = id).
Proof using Type*.
  intros (k' & Hh & Hid). unfold ensureManifestSigningKey, ManifestSigningKeyRepository_FindByKID.
  eapply (quiet_bind d lo hi 0 0); [apply quiet_select_opt; apply _|]. intros o ->. rewrite Hh. by apply quiet_ret.
Qed.

Lemma SeedEntities_quiet refs : entities_seeded refs d → Quiet 3 SeedEntities (λ r, r = refs).
Proof using Type*.
  intros [Ha (ka & Hka) Hd (k & Hk & Hkd) Hda]. unfold SeedEntities.
  eapply (quiet_bind d lo hi 1 2); [apply quiet_time_now|]. intros t1 _.
  eapply (quiet_bind d lo hi 0 2); [by apply quiet_map_err, ensureEntity_quiet|]. intros i1 ->.
  eapply (quiet_bind d lo hi 0 2); [by apply quiet_map_err, ensureManifestSigningKey_quiet|]. intros i2 ->.
  eapply (quiet_bind d lo hi 1 1); [apply quiet_time_now|]. intros t2 _.
  eapply (quiet_bind d lo hi 0 1); [by apply quiet_map_err, ensureEntity_quiet|]. intros i3 ->.
  eapply (quiet_bind d lo hi 0 1); [by apply (quiet_lift d lo hi _ k (λ x, x = k))|]. intros k' ->.
  eapply (quiet_bind d lo hi 0 1); [by apply quiet_map_err, ensureManifestSigningKey_quiet|]. intros i4 ->.
  eapply (quiet_bind d lo hi 1 0); [apply quiet_time_now|]. intros t3 _.
  eapply (quiet_bind d lo hi 0 0); [by apply quiet_map_err, ensureEntity_quiet|]. intros i5 ->.
  apply quiet_ret. by destruct refs.
Qed.

Lemma SeedHelloTextManifest_quiet key :
  (∃ m, of_component TrustedComponentHelloText d m ∧ SuitManifest_SequenceNumber m = 0%Z) →
  (∀ m, of_component TrustedComponentHelloText d m → (SuitManifest_SequenceNumber m ≤ 0)%Z) →
  Quiet 0 (SeedHelloTextManifest key) (λ _, True).
Proof using Type*.
  intros (m & Hm & Hz) Hle. unfold SeedHelloTextManifest.
  eapply (quiet_bind d lo hi 0 0).
  - apply quiet_map_err. intros w Hd _ _.
    destruct (FindLatest_total TrustedComponentHelloText w) as (o & w' & Hr).
    exists o, w'. split; [done|]. pose proof (FindLatest_Ok _ _ _ _ Hr) as [Hdb Ho].
    split; [congruence|]. split.
    + unfold SuitManifestRepository_FindLatestByTrustedComponentID, nil_if_no_rows in Hr.
      rewrite run_bind, run_bind, run_try, run_select_first_reliable in Hr. cbn [fst snd run_then] in Hr.
      destruct (head _); simpl in Hr; injection Hr as <- <-; simpl; lia.
    + instantiate (1 := λ o, fmap (M:=option) SuitManifest_SequenceNumber o = Some 0%Z). simpl.
      destruct o as [m'|]; [|by destruct (Ho m); rewrite Hd].
      destruct Ho as (r & [Hr1 Hr2] & ->). simpl. f_equal. rewrite Hd in *.
      apply Z.le_antisymm; [by apply Hle|]. rewrite <- Hz. by apply Hr2.
  - intros o Ho. rewrite bool_decide_true by done. by apply quiet_ret.
Qed.

(** An agent of the demo: the one with a status, and the one with the trusted key. *)
Definition demo_agent (a : Agent) : Prop :=
  Agent_KID a = DefaultAgentKID ∨ trusted_kid (Agent_KID a).

Definition in_force (a : Agent) : Prop :=
  Agent_RevokedAt a = None ∧ ∀ n, lo ≤ n < hi → (clock n ≤ Agent_ExpiredAt a)%Z.

Lemma select_kid_quiet a :
  wf d → a ∈ rows (agents d) →
  Quiet 0 (select_one (λ x : Agent, eqb_bytes (Agent_KID x) (Agent_KID a))) (λ x, x = a).
Proof using Type*.
  intros Hwf Ha. apply quiet_select; [apply _|]. by rewrite (matching_kid d a (Agent_KID a)).
Qed.

Lemma FindByKID_quiet a :
  wf d → a ∈ rows (agents d) → in_force a →
  Quiet 1 (AgentRepository_FindByKID (Agent_KID a)) (λ x, x = fetched a).
Proof using Type*.
  intros Hwf Ha [Hrev Hexp]. unfold AgentRepository_FindByKID.
  eapply (quiet_bind d lo hi 0 1); [by apply quiet_try, select_kid_quiet|]. intros r (x & -> & ->).
  rewrite Hrev, bool_decide_false by (intros Hn; by apply Hn).
  eapply (quiet_bind d lo hi 1 0); [apply quiet_time_now|]. intros t (n & Hn & ->).
  rewrite bool_decide_false by (specialize (Hexp n Hn); lia). by apply quiet_ret.
Qed.

Lemma FindByKIDIgnoreRevoked_quiet a :
  wf d → a ∈ rows (agents d) → in_force a →
  Quiet 1 (AgentRepository_FindByKIDIgnoreRevoked (Agent_KID a)) (λ o, o = Some (fetched a)).
Proof using Type*.
  intros Hwf Ha [_ Hexp]. unfold AgentRepository_FindByKIDIgnoreRevoked.
  eapply (quiet_bind d lo hi 0 1); [by apply quiet_try, select_kid_quiet|]. intros r (x & -> & ->).
  eapply (quiet_bind d lo hi 1 0); [apply quiet_time_now|]. intros t (n & Hn & ->).
  rewrite bool_decide_false by (specialize (Hexp n Hn); lia). by apply quiet_ret.
Qed.

Lemma ensureTrustedDemoAgentKey_quiet :
  wf d → seeded d → (∀ a, a ∈ rows (agents d) → demo_agent a → in_force a) →
  Quiet 2 ensureTrustedDemoAgentKey (λ _, True).
Proof using Type*.
  intros Hwf [_ _ _ _ (key & kid & Hck & Hth & Ht)] Hforce. unfold ensureTrustedDemoAgentKey. rewrite Hck.
  eapply (quiet_bind d lo hi 0 2); [by apply (quiet_lift d lo hi _ key (λ x, x = key))|]. intros ? ->. rewrite Hth.
  eapply (quiet_bind d lo hi 0 2); [by apply (quiet_lift d lo hi _ kid (λ x, x = kid))|]. intros ? ->.
  unfold getTEEPAgentKey. destruct (Nat.eqb_spec (length kid) 32) as [Hlen|Hlen]; cbn [negb].
  - destruct (Ht Hlen) as (a & Ha & <- & Hor).
    assert (in_force a) as Hin.
    { apply Hforce; [done|]. right. split; [|done]. unfold TrustedAgentKeyKID. rewrite Hck.
      unfold mbind, res_bind. simpl. by rewrite Hth. }
    eapply (quiet_bind d lo hi 1 1) with (Q := λ r, match r with inl _ => True | inr _ => cbor_key (Agent_PublicKey a) = None end).
    + intros w Hd Hlo Hhi. destruct (FindByKID_quiet a Hwf Ha Hin w) as (x & w' & Hr & Hd' & Hn & ->); [done..|].
      rewrite run_try, run_bind, Hr. cbn [run_then]. unfold decoded. cbn [Agent_PublicKey fetched].
      destruct (cbor_key (Agent_PublicKey a)) eqn:Hc; simpl; eexists _, w'; split_and!; try done; lia.
    + intros [k|e] Hc; [by apply (quiet_more d lo hi 0 1); [lia|apply quiet_ret]|].
      destruct Hor as [Hor|Hm]; [done|]. apply quiet_map_err. unfold setTEEPAgentKey. rewrite Hth, Hlen.
      cbn [Nat.eqb negb]. destruct (Marshal_key key) as [pk|] eqn:Hpk; [|done].
      eapply (quiet_bind d lo hi 0 1); [by apply (quiet_lift d lo hi _ pk (λ x, x = pk))|]. intros ? ->.
      eapply (quiet_bind d lo hi 1 0); [by apply FindByKIDIgnoreRevoked_quiet|]. intros ? ->. by apply quiet_ret.
  - eapply (quiet_bind d lo hi 0 2) with (Q := λ r, ∃ e, r = inr e).
    + intros w Hd Hlo Hhi. simpl. eexists _, w. split_and!; try done; try lia. by eexists.
    + intros ? (e & ->). apply (quiet_more d lo hi 0 2); [lia|]. apply quiet_map_err.
      unfold setTEEPAgentKey. rewrite Hth. destruct (Nat.eqb_spec (length kid) 32); [done|]. by apply quiet_ret.
Qed.

Lemma nil_if_not_found_quiet {A} k wrap (m : M A) (Q : A → Prop) :
  Quiet k m Q → Quiet k (nil_if_not_found wrap m) (λ o, ∃ a, o = Some a ∧ Q a).
Proof using Type*.
  intros Hm. unfold nil_if_not_found. rewrite <- (Nat.add_0_r k).
  eapply quiet_bind; [by apply quiet_try|]. intros r (a & -> & HQ). apply quiet_ret. by exists a.
Qed.

Lemma SeedAgentScenario_quiet id st :
  wf d → seeded d → (∀ a, a ∈ rows (agents d) → demo_agent a → in_force a) →
  scan_status (any_order (status_rows DefaultAgentKID d)) = Some st → AgentStatus_SuitManifests st ≠ [] →
  Quiet 2 (SeedAgentScenario id true) (λ _, True).
Proof using Type*.
  intros Hwf [_ _ (x & Hx & Hu) (a & Ha & Hk) _] Hforce Hst Hne. unfold SeedAgentScenario.
  eapply (quiet_bind d lo hi 1 1); [apply quiet_time_now|]. intros t _. cbv zeta.
  eapply (quiet_bind d lo hi 0 1).
  { apply nil_if_not_found_quiet. unfold DeviceRepository_FindByUEID.
    instantiate (1 := λ _, True).
    destruct (head (matching (λ x : Device, eqb_bytes (Device_UEID x) DefaultDeviceUEID) d)) as [y|] eqn:Hh.
    - eapply (quiet_bind d lo hi 0 0); [apply quiet_try, quiet_select; [apply _|by rewrite Hh]|].
      intros r (y' & -> & _). by apply quiet_ret.
    - exfalso. unfold matching in Hh. destruct (filter _ _) eqn:Hf; [|done].
      apply (not_elem_of_nil x). rewrite <- Hf. apply list_elem_of_filter. split; [by apply eqb_bytes_eq|done]. }
  intros dev (y & -> & _).
  eapply (quiet_bind d lo hi 0 1); [by apply (quiet_ret d lo hi (Device_ID y) (λ _, True))|]. intros did _.
  eapply (quiet_bind d lo hi 1 0).
  { apply nil_if_not_found_quiet. rewrite <- Hk. apply FindByKID_quiet; [done..|]. apply Hforce; [done|by left]. }
  intros ag (a' & -> & _).
  eapply (quiet_bind d lo hi 0 0); [by apply (quiet_ret d lo hi 0%Z (λ _, True))|]. intros aid _. cbn [negb].
  eapply (quiet_bind d lo hi 0 0) with (Q := λ o, o = Some st).
  { apply quiet_map_err. intros w Hd _ _. rewrite GetAgentStatus_run, Hd, Hst.
    eexists _, _. split_and!; try done; simpl; lia. }
  intros o ->. destruct st as [? ? [|? ?] ?]; [done|]. by apply quiet_ret.
Qed.

Lemma SeedDemoData_quiet st :
  wf d → seeded d → (∀ a, a ∈ rows (agents d) → demo_agent a → in_force a) →
  (∀ m, of_component TrustedComponentHelloText d m → (SuitManifest_SequenceNumber m ≤ 0)%Z) →
  scan_status (any_order (status_rows DefaultAgentKID d)) = Some st → AgentStatus_SuitManifests st ≠ [] →
  Quiet 10 SeedDemoData (λ _, True).
Proof using Type*.
  intros Hwf Hs Hforce Hle Hst Hne. destruct (seeded_entities _ Hs) as (refs & Hrefs).
  unfold SeedDemoData, SeedDemoEntities, SeedDemoAgent. cbn [negb].
  eapply (quiet_bind d lo hi 3 7).
  { eapply (quiet_bind d lo hi 3 0); [by apply SeedEntities_quiet|]. intros ? ->.
    apply SeedHelloTextManifest_quiet; [|done]. apply Hs. }
  intros _ _.
  eapply (quiet_bind d lo hi 2 5); [by apply ensureTrustedDemoAgentKey_quiet|]. intros _ _.
  eapply (quiet_bind d lo hi 3 2); [by apply SeedEntities_quiet|]. intros ? ->.
  by eapply SeedAgentScenario_quiet.
Qed.
End restart.

(** ** A start that fails *)

Section stale.
Context `{Platform} `{Lib}.
Implicit Types w : World.

(** Revoked, or expired at every reading of the clock from [n0] on. *)
Definition expired_from (n0 : nat) (a : Agent) : Prop := ∀ n, n0 ≤ n → (Agent_ExpiredAt a < clock n)%Z.

Lemma FindByKID_stale a w r w' :
  wf (w_db w) → a ∈ rows (agents (w_db w)) → (Agent_RevokedAt a ≠ None ∨ expired_from (w_reads w) a) →
  run (AgentRepository_FindByKID (Agent_KID a)) w = (r, w') →
  ∃ e, r = Err e ∧ errors_Is e ErrNotFound = false.
Proof.
  intros Hwf Ha Hs. unfold AgentRepository_FindByKID, select_one. rewrite run_bind, run_try, run_sql.
  destruct (db_fault _); cbn [fst snd run_then]; [intros [= <- _]; by eexists|].
  rewrite (matching_kid _ a) by done. cbn [res_of_option run_then].
  case_bool_decide as Hrev; [intros [= <- _]; by eexists|].
  destruct Hs as [Hs|Hs]; [done|]. rewrite run_bind. unfold time_now. rewrite run_atomically. cbn [run_then].
  rewrite bool_decide_true by (apply Hs; simpl; lia). intros [= <- _]. by eexists.
Qed.

Lemma FindByKIDIgnoreRevoked_stale a w o w' :
  wf (w_db w) → a ∈ rows (agents (w_db w)) → expired_from (w_reads w) a →
  run (AgentRepository_FindByKIDIgnoreRevoked (Agent_KID a)) w ≠ (Ok o, w').
Proof.
  intros Hwf Ha Hs. unfold AgentRepository_FindByKIDIgnoreRevoked, select_one. rewrite run_bind, run_try, run_sql.
  destruct (db_fault _); cbn [fst snd run_then]; [done|].
  rewrite (matching_kid _ a) by done. cbn [res_of_option run_then].
  rewrite run_bind. unfold time_now. rewrite run_atomically. cbn [run_then].
  by rewrite bool_decide_true by (apply Hs; simpl; lia).
Qed.

(** The trusted key cannot be stored again once it has expired. *)
Lemma ensureTrustedDemoAgentKey_stale a w w' :
  wf (w_db w) → a ∈ rows (agents (w_db w)) → trusted_kid (Agent_KID a) → expired_from (w_reads w) a →
  run ensureTrustedDemoAgentKey w ≠ (Ok tt, w').
Proof.
  intros Hwf Ha [Hkid Hlen] Hexp Hr. unfold ensureTrustedDemoAgentKey in Hr.
  unfold TrustedAgentKeyKID in Hkid. apply res_bind_Ok in Hkid as (key & Hck%res_of_option_Ok & Hth%res_of_option_Ok).
  rewrite Hck in Hr. run_inv Hr. apply run_lift_Ok in Hrun as [[= <-] ->]. rewrite Hth in Hk.
  run_inv Hk. apply run_lift_Ok in Hrun as [[= <-] ->]. run_inv Hk0. apply run_try_Ok in Hrun.
  destruct a0 as [k|e].
  - unfold getTEEPAgentKey in Hrun. rewrite Hlen in Hrun. cbn [Nat.eqb negb] in Hrun. run_inv Hrun.
    apply (FindByKID_stale a) in Hrun0 as (e & He & _); [done..|by right].
  - assert (passed w s) as Hreads
      by (eapply run_stays, Hrun; unfold getTEEPAgentKey, AgentRepository_FindByKID; stays_auto).
    assert (w_db s = w_db w) as Hdb by (eapply run_reads, Hrun; apply getTEEPAgentKey_reads).
    apply run_map_err_Ok in Hk. unfold setTEEPAgentKey in Hk. rewrite Hth, Hlen in Hk. cbn [Nat.eqb negb] in Hk.
    run_inv Hk. apply run_lift_Ok in Hrun0 as [_ ->]. run_inv Hk0.
    apply FindByKIDIgnoreRevoked_stale in Hrun0; [done|by rewrite Hdb..|].
    intros n Hn. apply Hexp. unfold passed in Hreads. lia.
Qed.

Lemma SeedAgentScenario_stale id b a w w' :
  wf (w_db w) → a ∈ rows (agents (w_db w)) → Agent_KID a = DefaultAgentKID →
  (Agent_RevokedAt a ≠ None ∨ expired_from (w_reads w) a) →
  run (SeedAgentScenario id b) w ≠ (Ok tt, w').
Proof.
  intros Hwf Ha Hk Hs Hr. unfold SeedAgentScenario in Hr.
  apply run_bind_evolves in Hr as (t & w1 & R1 & E1 & Hwf1 & Hr); [|done|apply safe_time_now].
  apply run_bind_evolves in Hr as (dev & w2 & R2 & E2 & Hwf2 & Hr); [|done|apply demo_device_harmless].
  apply run_bind_evolves in Hr as (did & w3 & R3 & E3 & Hwf3 & Hr); [|done|destruct dev; harmless_auto].
  run_inv Hr. apply nil_if_not_found_Ok in Hrun.
  assert (evolves (w_db w) (w_db w3)) as E03 by (etrans; [done|by etrans]).
  assert (passed w w3) as Hreads.
  { etrans; [eapply run_stays, R1; stays_auto|etrans; [eapply run_stays, R2|eapply run_stays, R3]].
    - unfold nil_if_not_found, DeviceRepository_FindByUEID. stays_auto.
    - unfold DeviceRepository_Create. stays_auto. }
  destruct (row_evolves (R:=Agent) (w_db w) (w_db w3) a) as (a' & Ha' & _ & Hk' & _ & _ & Hexp & Hrev); [done..|].
  assert (Agent_RevokedAt a' ≠ None ∨ expired_from (w_reads w3) a') as Hs'.
  { destruct Hs as [Hs|Hs]; [left|right].
    - destruct (Agent_RevokedAt a) as [t'|] eqn:Ht; [|done]. by rewrite (Hrev t').
    - intros n Hn. rewrite Hexp. apply Hs. unfold passed in Hreads. lia. }
  rewrite <- Hk, <- Hk' in Hrun. destruct a0 as [x|].
  - by apply (FindByKID_stale a') in Hrun as (e & ? & _).
  - destruct Hrun as (e & Hrun & He). apply (FindByKID_stale a') in Hrun as (e' & [= <-] & He'); [|done..].
    by rewrite He in He'.
Qed.

(** *** The whole start *)

Lemma SeedEntities_passed : stays passed SeedEntities.
Proof.
  unfold SeedEntities, ensureEntity, ensureManifestSigningKey, EntityRepository_FindByName,
    EntityRepository_Create, ManifestSigningKeyRepository_FindByKID, ManifestSigningKeyRepository_Create.
  stays_auto.
Qed.

Lemma SeedDemoEntities_passed b : stays passed (SeedDemoEntities b).
Proof.
  pose proof SeedEntities_passed.
  unfold SeedDemoEntities, SeedHelloTextManifest, SuitManifestRepository_FindLatestByTrustedComponentID,
    SuitManifestRepository_Create.
  stays_auto.
Qed.

Lemma ensureTrustedDemoAgentKey_passed : stays passed ensureTrustedDemoAgentKey.
Proof.
  unfold ensureTrustedDemoAgentKey, getTEEPAgentKey, AgentRepository_FindByKID, setTEEPAgentKey,
    AgentRepository_FindByKIDIgnoreRevoked, DeviceRepository_FindByUEID, AgentRepository_Create.
  stays_auto.
Qed.

Lemma InitDB_passed : stays passed InitDB.
Proof. unfold InitDB, sqlite_InitDB, exec_statement. stays_auto. Qed.

(** The agent as it is now, after the database has evolved. *)
Lemma stale_evolves a d d' :
  wf d → evolves d d' → a ∈ rows (agents d) →
  ∃ a', a' ∈ rows (agents d') ∧ Agent_KID a' = Agent_KID a ∧ Agent_ExpiredAt a' = Agent_ExpiredAt a ∧
    (Agent_RevokedAt a ≠ None → Agent_RevokedAt a' ≠ None).
Proof.
  intros Hwf He Ha.
  destruct (row_evolves (R:=Agent) d d' a) as (a' & Ha' & _ & Hk' & _ & _ & Hexp & Hrev); [done..|].
  exists a'. split_and!; try done. intros Hr. destruct (Agent_RevokedAt a) as [t|] eqn:Ht; [|done].
  by rewrite (Hrev t).
Qed.

Lemma SeedDemoData_stale a w w' :
  wf (w_db w) → a ∈ rows (agents (w_db w)) →
  (Agent_KID a = DefaultAgentKID ∧ Agent_RevokedAt a ≠ None) ∨ (demo_agent a ∧ expired_from (w_reads w) a) →
  run SeedDemoData w ≠ (Ok tt, w').
Proof.
  intros Hwf Ha Hs Hr. unfold SeedDemoData in Hr.
  apply run_bind_evolves in Hr as ([] & w1 & R1 & E1 & Hwf1 & Hr); [|done|by apply SeedDemoEntities_harmless].
  unfold SeedDemoAgent in Hr.
  apply run_bind_evolves in Hr as ([] & w2 & R2 & E2 & Hwf2 & Hr);
    [|done|by apply ensureTrustedDemoAgentKey_harmless].
  apply run_bind_evolves in Hr as (refs & w3 & R3 & E3 & Hwf3 & Hr); [|done|apply SeedEntities_harmless].
  assert (passed w w1) as P1 by by eapply run_stays, R1; apply SeedDemoEntities_passed.
  assert (passed w1 w2) as P2 by by eapply run_stays, R2; apply ensureTrustedDemoAgentKey_passed.
  assert (passed w2 w3) as P3 by by eapply run_stays, R3; apply SeedEntities_passed.
  unfold passed in *. destruct Hs as [[Hk Hrev]|[[Hk|Hk] Hexp]].
  - destruct (stale_evolves a (w_db w) (w_db w3)) as (a' & Ha' & Hk' & _ & Hrev');
      [done|by etrans; [|etrans]|done|].
    eapply (SeedAgentScenario_stale _ _ a'), Hr; [done|done|congruence|left; auto].
  - destruct (stale_evolves a (w_db w) (w_db w3)) as (a' & Ha' & Hk' & Hx & _);
      [done|by etrans; [|etrans]|done|].
    eapply (SeedAgentScenario_stale _ _ a'), Hr; [done|done|congruence|right].
    intros n Hn. rewrite Hx. apply Hexp. lia.
  - destruct (stale_evolves a (w_db w) (w_db w1)) as (a' & Ha' & Hk' & Hx & _); [done..|].
    eapply (ensureTrustedDemoAgentKey_stale a'), R2; [done|done|by rewrite Hk'|].
    intros n Hn. rewrite Hx. apply Hexp. lia.
Qed.
End stale.

(** ** Properties *)

Section properties.
Context `{Platform} `{Lib}.
Implicit Types w : World.

(** C27: restarting in demo mode keeps the database.  After a first seeding, and whatever
    requests did since, seeding again succeeds and changes nothing, as long as neither demo
    agent is revoked or expires before the start is over, no newer hello.txt manifest has
    been registered, and the demo agent's status lists something. *)
Theorem restart_keeps_database `{!Reliable} (st : AgentStatus) w w1 w2 :
  wf (w_db w) → run SeedDemoData w = (Ok tt, w1) → evolves (w_db w1) (w_db w2) →
  (∀ a, a ∈ rows (agents (w_db w2)) → demo_agent a →
     Agent_RevokedAt a = None ∧
     ∀ n, w_reads w2 ≤ n < w_reads w2 + 10 → (clock n ≤ Agent_ExpiredAt a)%Z) →
  (∀ m, m ∈ rows (suit_manifests (w_db w2)) → SuitManifest_TrustedComponentID m = TrustedComponentHelloText →
     (SuitManifest_SequenceNumber m ≤ 0)%Z) →
  (run (AgentStatusRepository_GetAgentStatus DefaultAgentKID) w2).1 = Ok (Some st) →
  AgentStatus_SuitManifests st ≠ [] →
  ∃ w3, run SeedDemoData w2 = (Ok tt, w3) ∧ w_db w3 = w_db w2.
Proof.
  intros Hwf Hr He Hforce Hle Hst Hne.
  pose proof (harmless_evolves _ _ _ _ (SeedDemoData_harmless w Hwf) Hr) as He1.
  assert (wf (w_db w1)) as Hwf1 by by eapply evolves_wf.
  assert (wf (w_db w2)) as Hwf2 by by eapply evolves_wf.
  assert (seeded (w_db w2)) as Hs 
    by exact (seeded_evolves _ _ Hwf1 He (SeedDemoData_Ok _ _ Hwf Hr)).
  rewrite GetAgentStatus_run in Hst. simpl in Hst. injection Hst as Hst.
  destruct (SeedDemoData_quiet (w_db w2) (w_reads w2) (w_reads w2 + 10) st) with w2
    as ([] & w3 & ? & ? & _); try done.
  - intros m [Hm Hc]. by apply Hle.
  - by exists w3.
Qed.

(** C28: a demo server cannot be started on a database whose demo agents have gone stale.
    Once the demo agent is revoked, or either demo agent's key is past its expiry, every
    later start fails: the key is never renewed, and seeding treats "revoked" and "expired"
    as errors.  The trusted key lives one year, so a demo database can be served for a year
    at most. *)
Theorem stale_demo_agent_blocks_start (cfg : TAMConfig) (a : Agent) w w2 s w3 :
  InsecureDemoMode cfg = true → wf (w_db w) → a ∈ rows (agents (w_db w)) → evolves (w_db w) (w_db w2) →
  (Agent_KID a = DefaultAgentKID ∧ Agent_RevokedAt a ≠ None) ∨
  (demo_agent a ∧ ∀ n, w_reads w2 ≤ n → (Agent_ExpiredAt a < clock n)%Z) →
  run (New cfg) w2 ≠ (Ok s, w3).
Proof.
  intros Hdemo Hwf Ha He Hs Hr. unfold New in Hr. rewrite Hdemo in Hr. cbn [negb andb] in Hr.
  run_inv Hr. apply run_lift_Ok in Hrun as [_ ->]. run_inv Hk. run_inv Hk0. destruct a1, a2.
  assert (w_db s0 = w_db w2) as Hdb by (eapply run_reads, Hrun; apply InitDB_reads).
  assert (passed w2 s0) as Hp by (eapply run_stays, Hrun; apply InitDB_passed).
  destruct (stale_evolves a (w_db w) (w_db s0)) as (a' & Ha' & Hk' & Hx & Hrev); [done|by rewrite Hdb|done|].
  assert (wf (w_db s0)) as Hwf1 by (rewrite Hdb; by eapply evolves_wf).
  eapply (SeedDemoData_stale a'), Hrun0; [done|done|]. destruct Hs as [[Hkid Hr0]|[Hd Hexp]].
  - left. split; [congruence|auto].
  - right. split; [unfold demo_agent in *; by rewrite Hk'|]. intros n Hn. rewrite Hx. apply Hexp.
    unfold passed in Hp. lia.
Qed.

(** Every restart stores the demo manifest again once a newer one has been registered: the
    test is for the latest having sequence number 0, not for there being one.  The
    repository, which registrations keep in order, no longer is. *)
Theorem newer_manifest_is_reseeded `{!Reliable} (key : Z) (m : SuitManifest) w :
  latest_of TrustedComponentHelloText (w_db w) m → (0 < SuitManifest_SequenceNumber m)%Z →
  references (R:=ManifestSigningKey) key (w_db w) = true → (seq (suit_manifests (w_db w)) < max_int64)%Z →
  ∃ id w', run (SeedHelloTextManifest key) w = (Ok tt, w') ∧
    rows (suit_manifests (w_db w')) = rows (suit_manifests (w_db w)) ++
      [mkSuitManifest id HelloTextManifestV0 HelloTextManifestDigest key TrustedComponentHelloText 0 zero_time] ∧
    ¬ ordered (w_db w').
Proof.
  intros [Hm Hmax] Hpos Href Hseq. unfold SeedHelloTextManifest.
  destruct (FindLatest_total TrustedComponentHelloText w) as (o & w1 & Hr).
  rewrite run_bind, run_map_err, Hr. cbn [fst snd res_map_err run_then].
  apply FindLatest_Ok in Hr as [Hdb Ho].
  rewrite bool_decide_false.
  2:{ destruct o as [m'|]; [|done]. destruct Ho as (r & [Hr1 Hr2] & ->). simpl. intros [= Hz].
      specialize (Hr2 m Hm). lia. }
  rewrite run_bind, run_map_err. unfold SuitManifestRepository_Create. change (Z.leb max_int64 _) with false.
  cbv iota. rewrite run_insert_reliable, Hdb, insert_row_ok by done. cbn [fst snd res_map_err run_then].
  eexists _, _. split; [done|]. split; [done|]. simpl. destruct Hm as [[i Hi]%list_elem_of_lookup Hc].
  intros Hord. edestruct (Hord i (length (rows (suit_manifests (w_db w)))) m) as [Hlt _]; simpl.
  - by apply lookup_app_l_Some.
  - by apply list_lookup_middle.
  - by eapply lookup_lt_Some.
  - done.
  - simpl in Hlt. lia.
Qed.
End properties.

(** ** Witnesses *)

Lemma forallb_in {A} (f : A → bool) l x : forallb f l = true → x ∈ l → f x = true.
Proof. rewrite forallb_forall. intros Hf Hx. by apply Hf, list_elem_of_In. Qed.

Lemma existsb_in {A} (f : A → bool) l : existsb f l = true → ∃ x, x ∈ l ∧ f x = true.
Proof. rewrite existsb_exists. intros (x & Hx%list_elem_of_In & Hf). by exists x. Qed.

(** Libraries that decode and hash, and a reliable platform. *)
Definition toy : Lib := stub empty_script.

Definition started : World := (run (@SeedDemoData calm toy) initial_world).2.

Lemma started_ok : run (@SeedDemoData calm toy) initial_world = (Ok tt, started).
Proof.
  assert ((run (@SeedDemoData calm toy) initial_world).1 = Ok tt) as Hok by (vm_compute; reflexivity).
  unfold started. by destruct (run (@SeedDemoData calm toy) initial_world); simpl in *; subst.
Qed.

Lemma initial_wf : wf (w_db initial_world).
Proof. exact wf_empty. Qed.

Lemma started_wf : wf (w_db started).
Proof.
  exact (evolves_wf _ _ (proj1 (safe_run _ _ _ (@SeedDemoData_harmless calm toy initial_world initial_wf))) initial_wf).
Qed.

Definition hello_status : AgentStatus :=
  mkAgentStatus DefaultAgentKID (Some DefaultDeviceUEID)
    [mkSuitManifestOverview TrustedComponentHelloText 0] (7 * second).

Lemma restart_keeps_database_witness :
  ∃ w3, run (@SeedDemoData calm toy) started = (Ok tt, w3) ∧ w_db w3 = w_db started.
Proof.
  apply (@restart_keeps_database calm toy calm_reliable hello_status initial_world started started).
  - exact initial_wf.
  - exact started_ok.
  - reflexivity.
  - intros a Ha _.
    assert (forallb (λ a, match Agent_RevokedAt a with None => Z.leb (20 * second) (Agent_ExpiredAt a) | _ => false end)
              (rows (agents (w_db started))) = true) as Hall by (vm_compute; reflexivity).
    pose proof (forallb_in _ _ _ Hall Ha) as Hin. cbv beta in Hin.
    destruct (Agent_RevokedAt a); [done|]. split; [done|]. intros n Hn.
    assert (w_reads started = 10) as Hreads by (vm_compute; reflexivity).
    apply Z.leb_le in Hin. change (Z.of_nat n * second ≤ Agent_ExpiredAt a)%Z. unfold second in *. lia.
  - intros m Hm _.
    assert (forallb (λ m, Z.leb (SuitManifest_SequenceNumber m) 0) (rows (suit_manifests (w_db started))) = true)
      as Hall by (vm_compute; reflexivity).
    pose proof (forallb_in _ _ _ Hall Hm) as Hin. by apply Z.leb_le in Hin.
  - vm_compute. reflexivity.
  - done.
Defined.

Definition demo_config : TAMConfig :=
  mkTAMConfig "localhost:8080" "tam_state.db" true "" None "https://localhost:8443" "application/eat+cwt"
    true (60 * second) "./" "" false "".

(** The demo agent is revoked; from then on the server does not start. *)
Definition after_revocation : World := (run (@AgentRepository_RevokeByKID calm DefaultAgentKID) started).2.

Lemma stale_demo_agent_blocks_start_witness :
  ¬ ∃ s w3, run (@New calm toy demo_config) after_revocation = (Ok s, w3).
Proof.
  intros (s & w3 & Hr).
  assert (∃ a, a ∈ rows (agents (w_db after_revocation)) ∧
    Agent_KID a = DefaultAgentKID ∧ Agent_RevokedAt a ≠ None) as (a & Ha & Hs).
  { assert (existsb (λ a, eqb_bytes (Agent_KID a) DefaultAgentKID && bool_decide (Agent_RevokedAt a ≠ None))
      (rows (agents (w_db after_revocation))) = true) as Hex by (vm_compute; reflexivity).
    apply existsb_in in Hex as (a & Ha & [Hk%eqb_bytes_eq Hrev%bool_decide_eq_true]%andb_true_iff). exact (ex_intro _ a (conj Ha (conj Hk Hrev))). }
  assert (wf (w_db after_revocation)) as Hwf.
  { exact (evolves_wf _ _ (proj1 (safe_run _ _ _
      (@AgentRepository_RevokeByKID_harmless calm DefaultAgentKID started))) started_wf). }
  refine (@stale_demo_agent_blocks_start calm toy demo_config a after_revocation after_revocation s w3
            _ Hwf Ha _ (or_introl Hs) Hr); reflexivity.
Defined.

(** A newer hello.txt manifest is registered, and the next start stores the old one again. *)
Definition newer_manifest : World :=
  (run (@SuitManifestRepository_Create calm
     (mkSuitManifest 0 (bytes_of_string "m") (bytes_of_string "d") 2 TrustedComponentHelloText 5 0%Z)) started).2.

Lemma newer_manifest_is_reseeded_witness :
  ∃ id w', run (@SeedHelloTextManifest calm 2) newer_manifest = (Ok tt, w') ∧
    rows (suit_manifests (w_db w')) = rows (suit_manifests (w_db newer_manifest)) ++
      [mkSuitManifest id HelloTextManifestV0 HelloTextManifestDigest 2 TrustedComponentHelloText 0 zero_time] ∧
    ¬ ordered (w_db w').
Proof.
  destruct (rows (suit_manifests (w_db newer_manifest))) as [|m0 [|m l]] eqn:Hrows; [by vm_compute in Hrows..|].
  rewrite <- Hrows.
  assert (map (λ m, (SuitManifest_TrustedComponentID m, SuitManifest_SequenceNumber m))
    (rows (suit_manifests (w_db newer_manifest))) =
    [(TrustedComponentHelloText, 0%Z); (TrustedComponentHelloText, 5%Z)]) as Hmap by (vm_compute; reflexivity).
  rewrite Hrows in Hmap. simpl in Hmap. injection Hmap as Hc0 Hs0 Hc Hs Hl. destruct l; [|done].
  apply (@newer_manifest_is_reseeded calm calm_reliable 2 m newer_manifest).
  - split; [split; [rewrite Hrows; by right; left|done]|]. intros m' [Hm' _]. rewrite Hrows in Hm'.
    apply elem_of_cons in Hm' as [->|Hm']; [lia|]. apply list_elem_of_singleton in Hm' as ->. lia.
  - lia.
  - vm_compute. reflexivity.
  - vm_compute. reflexivity.
Defined.
