(* ===== verification/StartupFlow.v ===== *)
(** From the command line to the running server: where its settings come from, and what a
    production server can and cannot do. *)

From S2P Require Import Prelude GoText GoUrl Model Db Evolve Frame AgentRepo ManifestRepo.
From S2P Require Import Wire Lib Stub Suit Teep Rats Verifiers Demo Tam Server Logger Startup Requests TamFrames.
From S2P Require Import Scenario Service.

(** ** Without signing keys, nothing is registered *)

Section barren.
Context `{Platform} `{Lib}.
Implicit Types w : World.

(** The entities and their keys are fixed, and so are the manifests while there is no key. *)
Definition barren (d d' : DB) : Prop :=
  entities d' = entities d ∧ manifest_signing_keys d' = manifest_signing_keys d ∧
  (rows (manifest_signing_keys d) = [] → suit_manifests d' = suit_manifests d).

#[local] Instance barren_preorder : PreOrder barren.
Proof.
  split; unfold barren; [done|]. intros d1 d2 d3 (E1 & K1 & M1) (E2 & K2 & M2).
  split_and!; [congruence..|]. intros Hk. rewrite M2, M1; congruence.
Qed.

#[local] Hint Extern 1 (Inserts _ barren) =>
  intros ok mk d; unfold insert_row; case_match; [by repeat split|reflexivity] : typeclass_instances.
#[local] Hint Extern 1 (Updates _ barren) => intros p f d; by repeat split : typeclass_instances.

Lemma rg_moves (G : DB → DB → Prop) `{!PreOrder G} {A} (p : M A) w :
  moves G p → rg (on_db G) (λ _ _, True) p w.
Proof using Type.
  revert w. induction p as [r|upd k IH]; intros w; simpl.
  - intros _. destruct r as [a| | |]; [by apply (rg_ret (on_db G))|by constructor..].
  - intros Hp. constructor; intros w' _; destruct (Hp w'); [done|auto].
Qed.

(** No key is found while there is none. *)
Lemma GetEntityKey_none kid w :
  rows (manifest_signing_keys (w_db w)) = [] →
  rg (on_db barren) (λ o _, o = None) (GetEntityKey kid) w.
Proof.
  intros Hno. unfold GetEntityKey, ManifestSigningKeyRepository_FindByKID, select_opt, nil_if_no_rows.
  destruct (negb _); [apply (rg_throw (on_db barren))|].
  refine (rg_bind (on_db barren) (λ o _, o = None) _ _ _ _ _ _); [|intros o w' _ Ho; rewrite (Ho w') by done; by apply (rg_ret (on_db barren))].
  refine (rg_bind (on_db barren) (λ r _, ∃ e, r = inr e) _ _ _ _ _ _).
  - unfold select_one, sql. constructor; intros w' Hw;
      [unfold on_db; destruct (db_fault _); simpl; reflexivity|].
    assert (head (matching (λ k : ManifestSigningKey, eqb_bytes (ManifestSigningKey_KID k) kid) (w_db w')) = None)
      as Hnone by (unfold matching; destruct Hw as (_ & Hk & _); simpl; by rewrite Hk, Hno).
    destruct (db_fault _); simpl; rewrite ?Hnone; simpl; apply (rg_ret (on_db barren) _ (inr _)); by eexists.
  - intros r w' _ Hr. destruct (Hr w') as (e & ->); [done|].
    case_bool_decide; [by apply (rg_ret (on_db barren))|apply (rg_throw (on_db barren))].
Qed.

Lemma registerManifest_barren body w :
  rows (manifest_signing_keys (w_db w)) = [] → rg (on_db barren) (λ _ _, True) (registerManifest body) w.
Proof.
  intros Hno. unfold registerManifest.
  refine (rg_bind (on_db barren) (λ _ _, True) _ _ _ _ _ _); [apply rg_moves; [apply _|moves_auto]|].
  intros [env|e] w1 Hw1 _; [|apply rg_moves; [apply _|moves_auto]].
  refine (rg_bind (on_db barren) (λ _ _, True) _ _ _ _ _ _); [apply rg_moves; [apply _|moves_auto]|].
  intros [tag raw] w2 Hw2 _.
  refine (rg_bind (on_db barren) (λ r _, match r with inl o => o = None | inr _ => True end) _ _ _ _ _ _).
  - apply (rg_try (on_db barren)), GetEntityKey_none. destruct Hw1 as (_ & K1 & _), Hw2 as (_ & K2 & _). by rewrite K2, K1.
  - intros [o|e] w3 _ Hr; [rewrite (Hr w3) by done|]; apply rg_moves; [apply _|moves_auto|apply _|moves_auto].
Qed.

Lemma ServeHTTP_barren t r w :
  rows (manifest_signing_keys (w_db w)) = [] → rg (on_db barren) (λ _ _, True) (ServeHTTP t r) w.
Proof.
  intros Hno. destruct (String.eqb_spec (Req_Path r) register_path) as [Hp|Hp].
  - unfold ServeHTTP. rewrite Hp. simpl.
    unfold addTCManifest. repeat case_match; try (apply rg_moves; [apply _|exact I]).
    by apply registerManifest_barren.
  - apply rg_moves; [apply _|]. apply other_requests_moves; try apply _. done.
Qed.

Lemma requests_barren t rs w w' ps :
  rows (manifest_signing_keys (w_db w)) = [] →
  rtc sched (map (ServeHTTP t) rs, w) (ps, w') → barren (w_db w) (w_db w').
Proof.
  intros Hno Hs.
  destruct (sched_rg (on_db barren) (replicate (length rs) (λ _ _, True)) _ _ Hs) as [He _]; [|done].
  clear Hs. simpl. induction rs as [|r rs IH]; simpl; constructor; [by apply ServeHTTP_barren|done].
Qed.
End barren.

(** ** Settings *)

Section settings.
Context `{Lib} (env : string → option string).

Lemma main_config_Ok args cfg :
  main_config env args = Ok cfg →
  ∃ f level demo tls timeout ctls,
    Parse_flags args main_flags = Ok f ∧
    resolveLogLevel env f (flag_string f "log-level") "log-level" envLogLevel = Ok level ∧
    boolFromEnv env envInsecureDemoMode (flag_bool f "insecure-demo-mode") = Ok demo ∧
    boolFromEnv env envChallengeInsecureTLS (flag_bool f "challenge-insecure-tls") = Ok tls ∧
    durationFromEnv env envChallengeTimeout (flag_duration f "challenge-timeout") = Ok timeout ∧
    boolFromEnv env envIntelCollateralInsecureTLS (flag_bool f "intel-collateral-service-insecure-tls")
      = Ok ctls ∧
    cfg = mkTAMConfig
      (stringFromEnv env envAddr (flag_string f "addr"))
      (stringFromEnv env envDBPath (flag_string f "db-path")) demo
      (stringFromEnv env envTAMTEEPPrivateKeyPath (flag_string f "tam-teep-private-key-path"))
      (Some (NewNamed "attestam" level))
      (stringFromEnv env envChallengeServer (flag_string f "challenge-server"))
      (stringFromEnv env envChallengeContentType (flag_string f "challenge-content-type")) tls timeout
      (stringFromEnv env envIntelCollateralCacheDir (flag_string f "intel-collateral-cache-dir"))
      (stringFromEnv env envIntelCollateralServiceURL (flag_string f "intel-collateral-service-url")) ctls
      (stringFromEnv env envIntelCollateralSubscriptionKey
         (flag_string f "intel-collateral-subscription-key")).
Proof.
  unfold main_config. intros (f & Hf & Hr)%res_bind_Ok. apply res_bind_Ok in Hr as (level & Hl & Hr).
  apply res_bind_Ok in Hr as (demo & ? & Hr). apply res_bind_Ok in Hr as (tls & ? & Hr).
  apply res_bind_Ok in Hr as (timeout & ? & Hr). apply res_bind_Ok in Hr as (ctls & ? & [= <-]).
  exists f, level, demo, tls, timeout, ctls. split_and!; try done.
  by destruct (resolveLogLevel _ _ _ _ _); simplify_eq/=.
Qed.

(** Where the variable is set, the flag's value does not matter. *)
Lemma stringFromEnv_set v x y : is_Some (env v) → stringFromEnv env v x = stringFromEnv env v y.
Proof. unfold stringFromEnv. by intros [s ->]. Qed.
Lemma boolFromEnv_set v x y : is_Some (env v) → boolFromEnv env v x = boolFromEnv env v y.
Proof. unfold boolFromEnv. by intros [s ->]. Qed.
Lemma durationFromEnv_set v x y : is_Some (env v) → durationFromEnv env v x = durationFromEnv env v y.
Proof. unfold durationFromEnv. by intros [s ->]. Qed.

(** Where the flag is given, the variable does not matter. *)
Lemma resolveLogLevel_set env' f value name v :
  flagWasSet f name = true → resolveLogLevel env f value name v = resolveLogLevel env' f value name v.
Proof. unfold resolveLogLevel. by intros ->. Qed.
End settings.

(** ** Properties *)

Section properties.
Context `{Platform} `{Lib}.
Implicit Types w : World.

(** C26: a production server signs with the key in the configured file, and starts without
    trusting anybody: on a new database it has no TC Developer, no administrator and no
    signing key, and no request, in any interleaving, ever adds one.  So no manifest can
    be registered, and every request for the list of agents panics, for as long as it
    runs. *)
Theorem production_server_trusts_nobody `{!Reliable} (cfg : TAMConfig) (s : Server) (rs : list Request) w w1 w2 ps :
  InsecureDemoMode cfg = false → w_db w = empty_DB →
  run (New cfg) w = (Ok s, w1) → rtc sched (map (serve s) rs, w1) (ps, w2) →
  TAMTEEPPrivateKeyPath cfg ≠ "" ∧
  (∃ content, w_files w !! TAMTEEPPrivateKeyPath cfg = Some content ∧
     cbor_key content = Some (tamKey (handler_tam s))) ∧
  suit_manifests (w_db w2) = empty_table ∧ manifest_signing_keys (w_db w2) = empty_table ∧
  entities (w_db w2) = empty_table ∧
  ∀ r, Req_Path r = "/AgentService/ListAgents" → Req_Method r = "GET" → Req_Accept r = "application/cbor" →
    (run (serve s r) w2).1 = Panic.
Proof.
  intros Hprod Hdb Hr Hs. unfold New in Hr. rewrite Hprod in Hr. cbn [negb andb] in Hr.
  destruct (String.eqb_spec (TAMTEEPPrivateKeyPath cfg) "") as [|Hpath]; [done|].
  run_inv Hr. run_inv Hk. run_inv Hk0. injection Hk as <- <-. injection Hrun1 as _ <-.
  unfold NewTAMWithRAConfig in Hrun. destruct (String.eqb_spec (TAMTEEPPrivateKeyPath cfg) ""); [done|].
  run_inv Hrun. apply run_map_err_Ok in Hrun1. apply run_lift_Ok in Hk as [Hk ->].
  unfold ReadFile, file_op in Hrun1. rewrite run_atomically in Hrun1.
  destruct (file_fault _); [done|]. injection Hrun1 as Hfile <-.
  apply res_of_option_Ok in Hfile. apply res_bind_Ok in Hk as (key & Hkey%res_of_option_Ok & [= <-]).
  pose proof (run_reads _ _ _ _ InitDB_reads Hrun0) as Hdb1.
  simpl in Hdb1. rewrite Hdb in Hdb1.
  apply requests_barren in Hs as (He & Hk & Hm); [|by rewrite Hdb1]. rewrite Hdb1 in *.
  split_and!; [done|by eexists|by apply Hm|done|done|]. intros r Hp Hme Ha.
  unfold serve, ServeHTTP. rewrite Hp. simpl. apply getAgentList_panics; [done..|].
  intros e Hin. rewrite He in Hin. by apply not_elem_of_nil in Hin.
Qed.

(** The settings by the variable they are read from, all but the log level. *)
Definition settings (cfg : TAMConfig) : list (string * flag_value) :=
  [(envAddr, FString (Addr cfg)); (envDBPath, FString (DBPath cfg));
   (envInsecureDemoMode, FBool (InsecureDemoMode cfg));
   (envTAMTEEPPrivateKeyPath, FString (TAMTEEPPrivateKeyPath cfg));
   (envChallengeServer, FString (ChallengeServerURL cfg));
   (envChallengeContentType, FString (ChallengeContentType cfg));
   (envChallengeInsecureTLS, FBool (ChallengeInsecureTLS cfg));
   (envChallengeTimeout, FDuration (ChallengeTimeout cfg));
   (envIntelCollateralCacheDir, FString (Config_IntelCollateralCacheDir cfg));
   (envIntelCollateralServiceURL, FString (Config_IntelCollateralServiceURL cfg));
   (envIntelCollateralInsecureTLS, FBool (Config_IntelCollateralInsecureTLS cfg));
   (envIntelCollateralSubscriptionKey, FString (Config_IntelCollateralSubscriptionKey cfg))].

Definition setting (cfg : TAMConfig) (v : string) : option flag_value :=
  flag_lookup (mkFlagSet (settings cfg) []) v.

(** C29: for every setting but one the environment overrides the command line: where its
    variable is set, no flag makes a difference to it.  For the log level it is the other
    way round: where the flag is given, the environment makes no difference. *)
Theorem environment_overrides_flags (env : string → option string) (args args' : list string) cfg cfg' :
  main_config env args = Ok cfg →
  (main_config env args' = Ok cfg' →
     ∀ v, is_Some (env v) → setting cfg' v = setting cfg v) ∧
  (∀ f env', Parse_flags args main_flags = Ok f → flagWasSet f "log-level" = true →
     main_config env' args = Ok cfg' → Config_Logger cfg' = Config_Logger cfg).
Proof.
  intros (f & lvl & b1 & b2 & d & b3 & Hf & Hl & H1 & H2 & H3 & H4 & ->)%main_config_Ok. split.
  - intros (f' & lvl' & b1' & b2' & d' & b3' & Hf' & Hl' & H1' & H2' & H3' & H4' & ->)%main_config_Ok v Hv.
    unfold setting, flag_lookup, settings. simpl.
    repeat (match goal with |- context [String.eqb v ?x] => destruct (String.eqb_spec v x) as [->|_] end; simpl;
      [do 2 f_equal; first
         [by apply stringFromEnv_set
         |erewrite boolFromEnv_set in H1' by done; rewrite H1 in H1'; by simplify_eq
         |erewrite boolFromEnv_set in H2' by done; rewrite H2 in H2'; by simplify_eq
         |erewrite boolFromEnv_set in H4' by done; rewrite H4 in H4'; by simplify_eq
         |erewrite durationFromEnv_set in H3' by done; rewrite H3 in H3'; by simplify_eq]|]).
    done.
  - intros f0 env' Hf0 Hset (f' & lvl' & b1' & b2' & d' & b3' & Hf' & Hl' & _ & _ & _ & _ & ->)%main_config_Ok.
    rewrite Hf in Hf0, Hf'. simplify_eq. rewrite (resolveLogLevel_set env' env), Hl in Hl' by done. by simplify_eq/=.
Qed.
End properties.

(** ** Witnesses *)

Definition production : TAMConfig :=
  mkTAMConfig "localhost:8080" "tam_state.db" false "tam.key" None "https://verifier.example"
    "application/eat+cwt" false (60 * second) "" "https://pccs.example" false "".

(** A new database, and the key file. *)
Definition machine : World := mkWorld empty_DB 0 0 0 0 [] {["tam.key" := tam_key]} 0 [].

Definition launched : World := (run (@New calm lib production) machine).2.
Definition server : @Server lib :=
  @mkServer lib production (@mkTAM lib (@NilVerifier lib) (Some (ra_config production)) tam_key).

Lemma launched_ok : run (@New calm lib production) machine = (Ok server, launched).
Proof.
  assert ((run (@New calm lib production) machine).1 = Ok server) as Hok by (vm_compute; reflexivity).
  unfold launched. by destruct (run _ machine); simpl in *; subst.
Qed.

(** A registration is under way; then the agents are asked for. *)
Definition registration : Request :=
  mkRequest "POST" register_path "" "application/suit-envelope+cose" (mkBody envelope false false).

Lemma production_server_trusts_nobody_witness :
  ∃ ps w2, rtc sched (map (@serve calm lib server) [registration], launched) (ps, w2) ∧
    suit_manifests (w_db w2) = empty_table ∧
    (run (@serve calm lib server (get "/AgentService/ListAgents")) w2).1 = Panic.
Proof.
  eexists _, _. match goal with |- ?P ∧ _ => assert P as Hs end.
  { eapply rtc_l; [refine (sched_step [] _ _ [] _)|]. apply rtc_refl. }
  split; [exact Hs|].
  destruct (@production_server_trusts_nobody calm lib calm_reliable production server _ machine _ _ _
              eq_refl eq_refl launched_ok Hs) as (_ & _ & Hm & _ & _ & Hpanic).
  split; [exact Hm|]. by apply Hpanic.
Defined.

Definition environment (v : string) : option string :=
  if String.eqb v envAddr then Some "0.0.0.0:80" else None.

Lemma environment_overrides_flags_witness :
  ∃ cfg cfg', @main_config lib environment ["-addr"; "localhost:1"; "-log-level=debug"] = Ok cfg ∧
    @main_config lib environment [] = Ok cfg' ∧ setting cfg' envAddr = setting cfg envAddr.
Proof.
  eexists _, _. split; [vm_compute; reflexivity|]. split; [vm_compute; reflexivity|].
  refine (proj1 (@environment_overrides_flags lib environment
    ["-addr"; "localhost:1"; "-log-level=debug"] [] _ _ _) _ envAddr _).
  - vm_compute. reflexivity.
  - vm_compute. reflexivity.
  - by eexists.
Defined.
