(* ===== verification/DiagFlow.v ===== *)
(** What diagnostic text gives away: the private key in the record of a start, text of an
    agent that is logged as it came, and component ids that look alike. *)

From stdpp Require Import pretty.
From S2P Require Import Prelude GoText GoUrl GoFormat Model Db Wire Lib Stub Suit Teep Rats Verifiers Demo Tam.
From S2P Require Import Logger Diag.
From Stdlib Require Import Ascii.

(** ** Parts of a text *)

(** [t] occurs in [s]. *)
Definition infix (t s : string) : Prop := ∃ a b, s = a +++ t +++ b.

Lemma infix_refl t : infix t t.
Proof. exists "", "". by rewrite string_app_nil_r. Qed.

Lemma infix_l t s s' : infix t s → infix t (s +++ s').
Proof. intros (a & b & ->). exists a, (b +++ s'). by rewrite !string_app_assoc. Qed.

Lemma infix_r t s s' : infix t s → infix t (s' +++ s).
Proof. intros (a & b & ->). exists (s' +++ a), b. by rewrite !string_app_assoc. Qed.

Lemma infix_join t s sep l : s ∈ l → infix t s → infix t (strings_Join sep l).
Proof.
  intros Hs Ht. induction l as [|x l IH]; [by apply not_elem_of_nil in Hs|].
  apply elem_of_cons in Hs as [->|Hs].
  - destruct l; [done|]. simpl. by apply infix_l.
  - destruct l; [by apply not_elem_of_nil in Hs|]. change (infix t (x +++ sep +++ strings_Join sep (s0 :: l))).
    apply infix_r, infix_r. by apply IH.
Qed.

#[local] Hint Resolve infix_refl infix_l infix_r : infix.

(** A character below 128 is a token of its own wherever it stands. *)
Lemma low_not_in_range lo hi c : (128 ≤ lo)%N → (code c < 128)%N → in_range lo hi c = false.
Proof. intros Hlo Hc. unfold in_range. apply andb_false_iff. left. apply N.leb_gt. lia. Qed.

Lemma valid_low c1 c2 c3 c4 :
  ((code c2 < 128)%N → valid2 c1 c2 = false) ∧
  ((code c2 < 128)%N ∨ (code c3 < 128)%N → valid3 c1 c2 c3 = false) ∧
  ((code c2 < 128)%N ∨ (code c3 < 128)%N ∨ (code c4 < 128)%N → valid4 c1 c2 c3 c4 = false).
Proof.
  unfold valid2, valid3, valid4, continuation. split_and!; intros Hc.
  - by rewrite (low_not_in_range 0x80 0xBF c2), andb_false_r by done.
  - destruct Hc as [Hc|Hc]; [|by rewrite (low_not_in_range 0x80 0xBF c3) by done].
    by rewrite (low_not_in_range 0xA0 0xBF c2), (low_not_in_range 0x80 0xBF c2), (low_not_in_range 0x80 0x9F c2),
      !andb_false_r by done.
  - destruct Hc as [Hc|[Hc|Hc]];
      [|by rewrite (low_not_in_range 0x80 0xBF c3) by done
       |by rewrite (low_not_in_range 0x80 0xBF c4), andb_false_r by done].
    by rewrite (low_not_in_range 0x90 0xBF c2), (low_not_in_range 0x80 0xBF c2), (low_not_in_range 0x80 0x8F c2),
      !andb_false_r by done.
Qed.

(** The first token, and how many bytes follow its first. *)
Definition head_token (c1 : ascii) (l1 : list ascii) : utf8_token * nat :=
  if N.ltb (code c1) 0x80 then (TRune (code c1) [c1], 0)
  else match l1 with
       | c2 :: l2 =>
           if valid2 c1 c2 then (TRune (code c1 mod 32 * 64 + bits6 c2) [c1; c2], 1)
           else match l2 with
                | c3 :: l3 =>
                    if valid3 c1 c2 c3
                    then (TRune ((code c1 mod 16 * 64 + bits6 c2) * 64 + bits6 c3) [c1; c2; c3], 2)
                    else match l3 with
                         | c4 :: _ =>
                             if valid4 c1 c2 c3 c4
                             then (TRune (((code c1 mod 8 * 64 + bits6 c2) * 64 + bits6 c3) * 64 + bits6 c4)
                                     [c1; c2; c3; c4], 3)
                             else (TInvalid c1, 0)
                         | [] => (TInvalid c1, 0)
                         end
                | [] => (TInvalid c1, 0)
                end
       | [] => (TInvalid c1, 0)
       end.

Lemma utf8_cons c1 l1 : utf8 (c1 :: l1) = (head_token c1 l1).1 :: utf8 (drop (head_token c1 l1).2 l1).
Proof. unfold head_token. cbn [utf8]. by repeat case_match. Qed.

Lemma head_token_app c1 l1 c l' :
  (code c < 128)%N →
  head_token c1 (l1 ++ c :: l') = head_token c1 l1 ∧ (head_token c1 l1).2 ≤ length l1.
Proof.
  intros Hc. unfold head_token. destruct (N.ltb _ _); [by split; [|simpl; lia]|].
  destruct l1 as [|c2 [|c3 [|c4 l4]]]; cbn [app].
  - rewrite (proj1 (valid_low c1 c c c)) by done. split; [|simpl; lia]. destruct l' as [|x l'']; [done|].
    rewrite (proj1 (proj2 (valid_low c1 c x c))) by auto. destruct l'' as [|y l'']; [done|].
    by rewrite (proj2 (proj2 (valid_low c1 c x y))) by auto.
  - destruct (valid2 c1 c2); [by split; [|simpl; lia]|]. split; [|simpl; lia].
    rewrite (proj1 (proj2 (valid_low c1 c2 c c))) by auto. destruct l' as [|y l'']; [done|].
    by rewrite (proj2 (proj2 (valid_low c1 c2 c y))) by auto.
  - rewrite (proj2 (proj2 (valid_low c1 c2 c3 c))) by auto. repeat case_match; by split; [|simpl; lia].
  - repeat case_match; by split; [|simpl; lia].
Qed.

Lemma utf8_app_low l c l' :
  (code c < 128)%N → utf8 (l ++ c :: l') = utf8 l ++ TRune (code c) [c] :: utf8 l'.
Proof.
  intros Hc. enough (∀ n l, length l ≤ n → utf8 (l ++ c :: l') = utf8 l ++ TRune (code c) [c] :: utf8 l') as Hn
    by by apply (Hn (length l)).
  clear l. intros n. induction n as [|n IH]; intros [|c1 l1] Hl; simpl in Hl; try lia.
  1,2: simpl; change 0x80%N with 128%N; by rewrite (proj2 (N.ltb_lt _ _) Hc).
  rewrite <- app_comm_cons, !utf8_cons. destruct (head_token_app c1 l1 c l' Hc) as [-> Hle].
  rewrite drop_app_le by done. rewrite IH by (rewrite length_drop; lia). done.
Qed.

(** Letters, digits and the like: what [Quote] leaves alone. *)
Definition harmless_char (c : ascii) : bool :=
  (N.leb 0x20 (code c) && N.leb (code c) 0x7E && negb (N.eqb (code c) 34) && negb (N.eqb (code c) 92))%bool.

Lemma utf8_harmless t l : forallb harmless_char t = true →
  utf8 (t ++ l) = map (λ c, TRune (code c) [c]) t ++ utf8 l.
Proof.
  induction t as [|c t IH]; [done|]. simpl. intros [Hc Ht]%andb_true_iff. rewrite IH by done.
  unfold harmless_char in Hc. repeat apply andb_true_iff in Hc as [Hc ?]. apply N.leb_le in H1.
  change 0x80%N with 128%N. by rewrite (proj2 (N.ltb_lt _ 128)) by lia.
Qed.

Section quoting.
Context `{Formats}.

Lemma quote_harmless t : forallb harmless_char t = true →
  concat (map quote_token (map (λ c, TRune (code c) [c]) t)) = t.
Proof using Type.
  induction t as [|c t IH]; [done|]. simpl. intros [Hc Ht]%andb_true_iff. rewrite IH by done.
  unfold harmless_char in Hc. repeat apply andb_true_iff in Hc as [Hc ?].
  apply negb_true_iff in H0, H1. unfold IsPrint. change 0x80%N with 128%N.
  rewrite H0, H1. simpl. apply N.leb_le in Hc, H2.
  by rewrite (proj2 (N.ltb_lt _ 128)), (proj2 (N.leb_le _ _) Hc), (proj2 (N.leb_le _ _) H2) by lia.
Qed.

Lemma infix_list t s a b :
  String.list_ascii_of_string s = a ++ String.list_ascii_of_string t ++ b → infix t s.
Proof using Type.
  intros Hs. exists (String.string_of_list_ascii a), (String.string_of_list_ascii b).
  apply list_of_inj. by rewrite !list_of_app, !String.list_ascii_of_string_of_list_ascii.
Qed.

(** [Quote] hides none of it. *)
Lemma infix_Quote t s :
  forallb harmless_char (String.list_ascii_of_string t) = true → infix t s → infix t (Quote s).
Proof using Type.
  intros Ht (a & b & ->). unfold Quote. rewrite !list_of_app.
  destruct (String.list_ascii_of_string t) as [|c l] eqn:Hl.
  { destruct t; [|done]. eexists "", _. reflexivity. }
  pose proof Ht as Hc. simpl in Hc. apply andb_true_iff in Hc as [Hc _].
  rewrite <- app_comm_cons, utf8_app_low.
  2:{ unfold harmless_char in Hc. repeat apply andb_true_iff in Hc as [Hc ?]. apply N.leb_le in H2. lia. }
  assert (TRune (code c) [c] :: utf8 (l ++ String.list_ascii_of_string b) =
    map (λ c, TRune (code c) [c]) (c :: l) ++ utf8 (String.list_ascii_of_string b)) as ->.
  { simpl. rewrite utf8_harmless; [done|]. simpl in Ht. by apply andb_true_iff in Ht as [_ ?]. }
  rewrite !map_app, !concat_app, (quote_harmless (c :: l)) by done.
  generalize (concat (map quote_token (utf8 (String.list_ascii_of_string a)))). intros A.
  generalize (concat (map quote_token (utf8 (String.list_ascii_of_string b)))). intros B.
  apply (infix_list t _ (double_quote :: A) (B ++ [double_quote])).
  rewrite String.list_ascii_of_string_of_list_ascii, Hl. by rewrite <- !app_assoc.
Qed.

Lemma infix_quoteIfNeeded t s :
  forallb harmless_char (String.list_ascii_of_string t) = true → t ≠ "" → infix t s → infix t (quoteIfNeeded s).
Proof using Type.
  intros Ht Hne Hs. unfold quoteIfNeeded. destruct (String.eqb_spec s "") as [->|_].
  - destruct Hs as ([] & b & He); [|done]. by destruct t.
  - destruct (existsb _ _); [by apply infix_Quote|done].
Qed.
End quoting.

(** ** Hexadecimal digits *)

Lemma hex_upper_harmless b : forallb harmless_char (String.list_ascii_of_string (hex_upper b)) = true.
Proof.
  unfold hex_upper. induction b as [|x b IH]; [done|]. simpl. rewrite IH.
  by destruct x.
Qed.

(** ** Fields of a key *)

Section keys.
Context `{Formats} `{KeyFields}.

Lemma appendField_mono f name value fields : f ∈ fields → f ∈ appendField name value fields.
Proof using Type. intros Hf. unfold appendField. case_match; [done|]. apply elem_of_app. by left. Qed.
Lemma appendDiagString_mono f name value fields : f ∈ fields → f ∈ appendDiagString name value fields.
Proof using Type. intros Hf. unfold appendDiagString. case_match; [done|]. by apply appendField_mono. Qed.
Lemma appendBytes_mono f name value fields : f ∈ fields → f ∈ appendBytes name value fields.
Proof using Type. intros Hf. unfold appendBytes. case_match; [done|]. by apply appendField_mono. Qed.
#[local] Hint Resolve appendField_mono appendDiagString_mono appendBytes_mono : fields.

(** Once written, a field stays. *)
Lemma key_fields_mono key f fields :
  f ∈ key_material key fields → fields = appendDiagString "kty" (KeyType_String (key_Type key)) [] →
  f ∈ key_fields key.
Proof using Type.
  intros Hf ->. unfold key_fields. cbv zeta.
  assert (∀ l fields, f ∈ fields → f ∈ fold_left (λ fields (e : string * string), appendField e.1 e.2 fields) l fields)
    as Hfold by (induction l; simpl; auto with fields).
  apply Hfold, appendBytes_mono. repeat case_match; auto with fields.
Qed.

Lemma appendBytes_shows name value fields :
  value ≠ [] → length value ≤ 32 → ∃ f, f ∈ appendBytes name value fields ∧ infix (hex_upper value) f.
Proof using Type.
  intros Hne Hlen. destruct value as [|x value]; [done|]. unfold appendBytes, appendField.
  unfold BytesHexMax32_CBORDiagString. rewrite (proj2 (Nat.ltb_ge 32 _)) by done.
  eexists. split; [apply elem_of_app; right; apply list_elem_of_singleton; reflexivity|].
  do 5 apply infix_r. apply infix_l, infix_refl.
Qed.
End keys.

(** ** Attributes of a record *)

Section records.
Context `{Formats}.

Lemma appendLeaf_mono f out prefix key v : f ∈ out → f ∈ appendLeaf out prefix key v.
Proof using Type. intros Hf. unfold appendLeaf. repeat case_match; rewrite ?elem_of_app; auto. Qed.

Lemma appendAttr_mono f v : ∀ calls out prefix key, f ∈ out → f ∈ appendAttr calls out prefix key v.
Proof using Type.
  revert v. fix IH 1. intros v [|calls] out prefix key Hf; [clear IH; destruct v; by apply appendLeaf_mono|].
  destruct v as [| | | | | | | |l|v']; try (clear IH; by apply appendLeaf_mono).
  - simpl. generalize (if String.eqb key "" then prefix else prefix ++ [key]). intros g.
    revert out Hf. induction l as [|[k c] l IHl]; intros out Hf; [exact Hf|]. simpl. apply IHl. exact (IH c _ _ _ _ Hf).
  - exact (IH v' _ _ _ _ Hf).
Qed.

Lemma append_attrs_mono f prefix attrs out : f ∈ out → f ∈ append_attrs prefix attrs out.
Proof using Type.
  revert out. induction attrs as [|a l IH]; intros out Hf; [done|]. simpl. by apply IH, appendAttr_mono.
Qed.

(** A string attribute ends up in the text. *)
Lemma infix_attr t h r key v :
  (key, VString v) ∈ Record_Attrs r → key ≠ "" → infix t (quoteIfNeeded v) → infix t (Handle h r).
Proof using Type.
  intros Hin Hkey Ht.
  assert (∃ f, f ∈ formatRecordAttrs h r ∧ infix t f) as (f & Hf & Hif).
  { unfold formatRecordAttrs. generalize (append_attrs (Handler_groups h) (Handler_attrs h) []). revert Hin.
    induction (Record_Attrs r) as [|a l IH]; intros Hin out; [by apply not_elem_of_nil in Hin|].
    apply elem_of_cons in Hin as [<-|Hin]; [|by apply IH].
    exists (strings_Join "." (Handler_groups h ++ [key]) +++ "=" +++ quoteIfNeeded v). split; [|by apply infix_r, infix_r].
    apply (append_attrs_mono _ (Handler_groups h) l (appendAttr 100 out (Handler_groups h) key (VString v))).
    cbn [appendAttr]. unfold appendLeaf. rewrite (proj2 (String.eqb_neq _ _) Hkey).
    destruct (Handler_groups h ++ [key]) eqn:Hk; [by apply app_nil in Hk as [_ ?]|].
    apply elem_of_app. right. by left. }
  unfold Handle. destruct (formatRecordAttrs h r) as [|x l] eqn:Hl; [by apply not_elem_of_nil in Hf|].
  apply infix_r, infix_l, infix_r. by eapply infix_join.
Qed.

Lemma infix_message t h r : infix t (Record_Message r) → infix t (Handle h r).
Proof using Type. intros Ht. unfold Handle. apply infix_l. do 5 apply infix_r. exact Ht. Qed.
End records.

(** ** Properties *)

Section properties.
Context `{Platform} `{Formats} `{KeyFields}.

(** C21: the private key of the TAM is written to the log.  At level debug a server prints, of
    an EC2 key it has loaded, the private field as well, in hexadecimal, if it has at most 32
    bytes: a P-256 key can be read off the line. *)
Theorem private_key_is_logged (h : Handler) (t : TAM) (keyBytes : bytes) verifier resolver now crv x y d :
  newTAMFromKeyBytes keyBytes verifier resolver = Ok t → (Handler_level h ≤ LevelDebug)%Z →
  key_Type (tamKey t) = KeyTypeEC2 → key_EC2 (tamKey t) = (crv, x, y, d) → d ≠ [] → length d ≤ 32 →
  ∃ text, text ∈ newTAM_log h now keyBytes ∧ infix (hex_upper d) text.
Proof using Type.
  unfold newTAMFromKeyBytes, newTAM_log, logged. intros (key & Hkey%res_of_option_Ok & [= <-])%res_bind_Ok.
  rewrite Hkey. cbn [tamKey Enabled Record_Level loaded_key_record]. intros Hl Hty HEC2 Hne Hlen.
  rewrite (proj2 (Z.leb_le _ _) Hl). eexists. split; [by left|].
  eapply (infix_attr _ _ _ "cose_key"); [by left|done|].
  apply infix_quoteIfNeeded; [apply hex_upper_harmless|by destruct d|].
  destruct (appendBytes_shows "d" d (appendBytes "y" y (appendBytes "x" x
      (appendDiagString "crv" (Curve_String crv) (appendDiagString "kty" (KeyType_String (key_Type key)) [])))))
    as (f & Hf & Hif); [done..|].
  unfold PrintCOSEKey. apply infix_r, infix_l. eapply infix_join; [|exact Hif].
  eapply key_fields_mono; [|reflexivity]. unfold key_material. rewrite Hty in Hf |- *. rewrite HEC2. exact Hf.
Qed.

(** Text of an agent in a message. *)
Definition agent_text (o : TEEPOptions) (text : string) : Prop :=
  Opt_Msg o = Some text ∨ Opt_ErrMsg o = Some text ∨ Opt_AttestationPayloadFormat o = Some text ∨
  Opt_ErrLang o = Some text.

Lemma option_line_in {T} pad name (render : T → string) o x :
  o = Some x → (pad +++ "/ " +++ name +++ ": " +++ render x) ∈ option_line pad name render o.
Proof using Type. intros ->. by left. Qed.

(** C31: text of an agent is logged as it came.  The strings of a message, which need not be
    signed, are part of the text of the record, without the quoting that the values of
    attributes get: whoever can send a message can write any lines to a debug log. *)
Theorem agent_text_is_logged_verbatim (h : Handler) (m : TEEPMessage) (text : string) now :
  agent_text (TEEP_Options m) text → (Handler_level h ≤ LevelDebug)%Z →
  ∃ line, logged h (received_record now m) = Some line ∧ infix text line.
Proof using Type.
  intros Ht Hl. unfold logged. cbn [Enabled Record_Level received_record]. rewrite (proj2 (Z.leb_le _ _) Hl).
  eexists. split; [done|]. apply infix_message. cbn [received_record Record_Message].
  unfold TEEPMessage_CBORDiagString. apply infix_l.
  eapply infix_join; [apply elem_of_app; left; right; left|]. do 2 apply infix_r.
  unfold TEEPOptions_CBORDiagString, braces. do 2 apply infix_r. apply infix_l.
  assert (∀ pad name i, infix text (pad +++ "/ " +++ name +++ ": " +++ DiagString_CBORDiagString i text)) as Hline
    by (intros; unfold DiagString_CBORDiagString; do 5 apply infix_r; apply infix_l, infix_refl).
  destruct Ht as [Ht|[Ht|[Ht|Ht]]]; (eapply infix_join; [|apply Hline]);
    repeat first [apply elem_of_app; left; by apply option_line_in | apply elem_of_app; right].
Qed.
End properties.

(** Two ids of components that look alike: a quote in a part is not escaped. *)
Lemma component_names_collide `{Formats} :
  let one : ComponentID := Some [Some (bytes_of_string "a', 'b")] in
  let two : ComponentID := Some [Some (bytes_of_string "a"); Some (bytes_of_string "b")] in
  one ≠ two ∧ ComponentID_CBORDiagString 0 one = ComponentID_CBORDiagString 0 two.
Proof. split; [done|reflexivity]. Qed.

(** ** Witnesses *)

#[local] Instance ascii_formats : Formats := {|
  unicode_IsPrint := λ _, false;
  Format_RFC3339Nano := λ _, "2026-01-01T00:00:00Z";
  Duration_String := λ _, "1s";
  FormatFloat := λ _, "1.5";
|}.

(** Keys that are their private half. *)
Definition private_half (k : bytes) : Z * bytes * bytes * bytes := (1%Z, [], [], k).

#[local] Instance toy_keys : @KeyFields (stub empty_script) :=
  @Build_KeyFields (stub empty_script)
    (λ _, KeyTypeEC2) (λ _, []) (λ _, (-9)%Z) (λ _, []) (λ _, []) (λ _, []) private_half
    (λ _, (0%Z, [], [])) (λ _, []) (λ _, "EC2") (λ _, "P-256") (λ _, "ESP256") (λ _, "").

Definition debug_log : Handler := NewHandler LevelDebug "attestam".

Lemma private_key_is_logged_witness :
  ∃ text, text ∈ @newTAM_log _ (stub empty_script) toy_keys debug_log 0 (bs [0xA; 0xB]%Z) ∧ infix "0A0B" text.
Proof.
  apply (@private_key_is_logged _ (stub empty_script) toy_keys debug_log
    (@mkTAM (stub empty_script) (@NilVerifier (stub empty_script)) None (bs [0xA; 0xB]%Z))
    (bs [0xA; 0xB]%Z) (@NilVerifier (stub empty_script)) None 0 1 [] [] (bs [0xA; 0xB]%Z)); try done.
  simpl. lia.
Defined.

(** The message of an agent makes up a record. *)
Definition forged : string := newline_text +++ "2026-01-01T00:00:00Z [INFO] attestam: agent trusted" +++ newline_text.
Definition forging : TEEPMessage :=
  mkTEEPMessage TEEPTypeError
    (mkTEEPOptions None None None None None None None None None None (Some forged) None None None None None None None None)
    None None 0 1.

Lemma agent_text_is_logged_verbatim_witness :
  ∃ line, logged debug_log (@received_record _ (stub empty_script) 0 forging) = Some line ∧ infix forged line.
Proof. apply (@agent_text_is_logged_verbatim _ (stub empty_script)); [right; by left|done]. Defined.
