(* ===== verification/ConsoleFlow.v ===== *)
(** The console and the server together: what the console shows is what the TAM has, and
    what it reports as registered is registered. *)

From stdpp Require Import pretty.
From S2P Require Import Prelude GoText GoUrl GoFormat Model Db Evolve Frame AgentRepo ManifestRepo StatusRepo.
From S2P Require Import Wire Lib Stub Suit Teep Rats Qvl Collateral Verifiers Tam Server Logger Startup Diag Console ConsoleDebug.
From S2P Require Import Ends Requests TamFrames Scenario ManifestFlow Registry.

(** ** Putting the two together *)

(** [net/http] ends the connection of a handler that panics: an error for the client. *)
Fixpoint recover {E S A} (e : E) (p : Prog E S A) : Prog E S A :=
  match p with
  | Done Panic => Done (Err e)
  | Done r => Done r
  | Step upd k => Step upd (λ s, recover e (k s))
  end.

Lemma run_recover {E S A} (e : E) (p : Prog E S A) s :
  run (recover e p) s = (match (run p s).1 with Panic => Err e | r => r end, (run p s).2).
Proof. revert s. induction p as [[]|upd k IH]; intros s; simpl; done. Qed.

Lemma try_Ok {E S A} (p : Prog E S A) s a s' : run p s = (Ok a, s') → run (try p) s = (Ok (inl a), s').
Proof. rewrite run_try. by intros ->. Qed.

Lemma try_Err {E S A} (p : Prog E S A) s e s' : run p s = (Err e, s') → run (try p) s = (Ok (inr e), s').
Proof. rewrite run_try. by intros ->. Qed.

Section exchange.
Context `{Platform} `{Lib}.

(** An exchange over a working connection: the request reaches the TAM's handler, whose steps
    are the steps of the exchange, and its response comes back, within the 12 seconds the
    client of the console waits. *)
Definition tam_exchange (t : TAM) (filename : option string) (client : HttpClient) (req : HttpRequest) : M HttpResponse :=
  match url_Parse (Http_URL req) with
  | None => throw ErrLib
  | Some u =>
      resp ← recover ErrLib
        (ServeHTTP t (mkRequest (Http_Method req) (URL_Path u) (Header_Get (Http_Header req) "Accept")
                        (Header_Get (Http_Header req) "Content-Type") (mkBody (Http_Body req) false false)));
      mret (mkHttpResponse (Resp_Status resp) (Resp_Headers resp) (Some (Resp_Body resp)))
  end.

Definition list_agents_path : string := "/AgentService/ListAgents".
Definition agent_status_path : string := "/AgentService/GetAgentStatus".
Definition list_manifests_path : string := "/SUITManifestService/ListManifests".
Definition register_manifest_path : string := "/SUITManifestService/RegisterManifest".
Definition api_paths : list string :=
  [list_agents_path; agent_status_path; list_manifests_path; register_manifest_path].

(** A base that is a host, maybe with a slash. *)
Definition host_base (base : string) : Prop :=
  base ≠ "" ∧ ∀ path, path ∈ api_paths →
    ∃ u, url_Parse (TrimRight_slash base +++ path) = Some u ∧ URL_Path u = path.
End exchange.

(** ** What the two programs exchange *)

(** The longest array the decoder takes. *)
Definition fits {A} (l : list A) : Prop := (Z.of_nat (length l) ≤ 131072)%Z.
Definition overviews_fit (l : list SuitManifestOverview) : Prop :=
  fits l ∧ Forall (λ o, (0 ≤ Overview_SequenceNumber o < 2 ^ 64)%Z) l.
Definition records_fit (l : list AgentStatusRecord) : Prop :=
  fits l ∧ Forall (λ r, overviews_fit (slice r.2.2)) l.

(** A time travels in seconds; an empty device identifier is left out. *)
Definition whole_seconds (t : Z) : Z := (t / second * second)%Z.
Definition sent_record (r : AgentStatusRecord) : AgentStatusRecord := (r.1, (appended (slice r.2.1), r.2.2)).

(** Encoders and decoders of the two programs fit, no encoding is empty, and that of byte
    strings has room for them. *)
Class Codecs `{Lib} `{ConsoleLib} : Prop := {
  overviews_codec l : overviews_fit (slice l) →
    ∃ b, Marshal_overviews l = Some b ∧ b ≠ [] ∧ cbor_overviews b = Some (slice l);
  status_keys_codec l : fits l →
    ∃ b, Marshal_status_keys l = Some b ∧ b ≠ [] ∧
      cbor_status_keys b = Some (map (λ key, (key.1, whole_seconds key.2)) l);
  status_records_codec l : records_fit (slice l) →
    ∃ b, Marshal_status_records l = Some b ∧ b ≠ [] ∧ cbor_status_records b = Some (map sent_record (slice l));
  kids_codec kids : fits kids →
    ∃ b, Marshal_kids kids = Some b ∧ cbor_bytes_list b = Some kids;
  kids_size kids b : Marshal_kids kids = Some b → (len (concat kids) ≤ len b)%Z;
}.

Ltac in_list := apply list_elem_of_In; simpl; tauto.

Section calls.
Context `{Platform} `{Formats} `{Lib} `{ConsoleLib} (t : TAM).
Implicit Types s : System.

(** What an exchange with the TAM returns. *)
Definition server_answers (r : Request) (w : World) (resp : Response) (w' : World) : Prop :=
  run (ServeHTTP t r) w = (Ok resp, w').

Lemma client_Do_any base path method header body filename client s r w' :
  host_base base →
  path ∈ api_paths →
  run (ServeHTTP t (mkRequest method path (Header_Get header "Accept") (Header_Get header "Content-Type")
                      (mkBody body false false))) (sys_world s) = (r, w') →
  NewRequest method (TrimRight_slash base +++ path) header body
    = Ok (mkHttpRequest method (TrimRight_slash base +++ path) header body) ∧
  run (client_Do (tam_exchange t) filename client (mkHttpRequest method (TrimRight_slash base +++ path) header body)) s
    = (res_map (λ resp, mkHttpResponse (Resp_Status resp) (Resp_Headers resp) (Some (Resp_Body resp)))
         match r with Panic => Err ErrLib | r => r end, with_world w' s).
Proof.
  intros [_ Hbase] Hpath Hs. destruct (Hbase path Hpath) as (u & Hu & Hp). unfold NewRequest. rewrite Hu.
  split; [done|]. unfold client_Do, tam_exchange. rewrite run_zoom. cbn [Http_URL Http_Method Http_Header Http_Body].
  rewrite Hu, Hp, run_bind, run_recover, Hs. by destruct r.
Qed.

Lemma client_Do_run base path method header body filename client s resp w' :
  host_base base →
  path ∈ api_paths →
  server_answers (mkRequest method path (Header_Get header "Accept") (Header_Get header "Content-Type")
                    (mkBody body false false)) (sys_world s) resp w' →
  NewRequest method (TrimRight_slash base +++ path) header body
    = Ok (mkHttpRequest method (TrimRight_slash base +++ path) header body) ∧
  run (client_Do (tam_exchange t) filename client (mkHttpRequest method (TrimRight_slash base +++ path) header body)) s
    = (Ok (mkHttpResponse (Resp_Status resp) (Resp_Headers resp) (Some (Resp_Body resp))), with_world w' s).
Proof. intros Hb Hp Hs. exact (client_Do_any base path method header body filename client s (Ok resp) w' Hb Hp Hs). Qed.

(** A CBOR answer of the TAM. *)
Lemma fetch_run {A} base path method header body client s b w' (k : bytes → CM A) :
  host_base base →
  path ∈ api_paths → b ≠ [] →
  server_answers (mkRequest method path (Header_Get header "Accept") (Header_Get header "Content-Type")
                    (mkBody body false false)) (sys_world s)
    (writeResponse (mkResponseSpec StatusOK (Some b) "application/cbor")) w' →
  run (req ← lift (NewRequest method (TrimRight_slash base +++ path) header body);
       answer ← fetch_cbor (tam_exchange t) client req; k answer) s = run (k b) (with_world w' s).
Proof.
  intros Hb Hpath Hne Hs. destruct (client_Do_run _ _ _ _ _ None client _ _ _ Hb Hpath Hs) as [Hreq Hdo].
  rewrite run_bind, Hreq. cbn [lift run run_then]. unfold fetch_cbor.
  rewrite run_bind, run_bind, Hdo. cbn [run_then]. by destruct b as [|x b].
Qed.

(** Any other status. *)
Lemma fetch_refused {A} base path method header body client s resp w' (k : bytes → CM A) :
  host_base base →
  path ∈ api_paths → (300 ≤ Resp_Status resp)%Z →
  server_answers (mkRequest method path (Header_Get header "Accept") (Header_Get header "Content-Type")
                    (mkBody body false false)) (sys_world s) resp w' →
  run (req ← lift (NewRequest method (TrimRight_slash base +++ path) header body);
       answer ← fetch_cbor (tam_exchange t) client req; k answer) s
    = (Err (ErrorString ("status " +++ pretty (Resp_Status resp) +++ " from TAM API")), with_world w' s).
Proof.
  intros Hb Hpath Hst Hs. destruct (client_Do_run _ _ _ _ _ None client _ _ _ Hb Hpath Hs) as [Hreq Hdo].
  rewrite run_bind, Hreq. cbn [lift run run_then]. unfold fetch_cbor.
  rewrite run_bind, run_bind, Hdo. cbn [run_then]. unfold success. cbn [Http_StatusCode].
  destruct (Z.ltb_spec (Resp_Status resp) 300); [lia|]. by rewrite andb_false_r.
Qed.
End calls.

(** ** Trusted components *)

Lemma slice_appended {A} (l : list A) : slice (appended l) = l.
Proof. by destruct l. Qed.

Section manifests.
Context `{Platform} `{!Reliable} `{Formats} `{Lib} `{ConsoleLib} `{!Codecs} (t : TAM).
Implicit Types s : System.

(** One manifest as the console shows it; none when its component cannot be decoded. *)
Definition shown_component (encoded : bytes) (version : Z) : option TrustedComponent :=
  match cbor_component_id encoded with
  | Some (Some (part :: rest)) => Some (mkTrustedComponent (Some (part :: rest)) version)
  | _ => None
  end.
Definition shown_manifest (m : SuitManifest) : option TrustedComponent :=
  shown_component (SuitManifest_TrustedComponentID m) (SuitManifest_SequenceNumber m).

Lemma component_of_overview_shown o :
  component_of_overview o = shown_component (Overview_TrustedComponentID o) (Overview_SequenceNumber o).
Proof using Type.
  unfold component_of_overview, decodeCBORComponentID, shown_component.
  by destruct (cbor_component_id _) as [[[|part rest]|]|].
Qed.

Lemma shown_components (l : list SuitManifestOverview) :
  omap component_of_overview l
    = omap (λ o, shown_component (Overview_TrustedComponentID o) (Overview_SequenceNumber o)) l.
Proof using Type. apply list_omap_ext, Forall_Forall2_diag, Forall_forall. intros o _. apply component_of_overview_shown. Qed.

Lemma shown_manifests ms : omap component_of_overview (map overview_of ms) = omap shown_manifest ms.
Proof using Type. induction ms as [|m ms IH]; [done|]. cbn. by rewrite IH, component_of_overview_shown. Qed.

Lemma getManifests_answer r ms w w' :
  Req_Method r = "GET" → Req_Accept r = "application/cbor" → overviews_fit (map overview_of ms) →
  run GetManifests w = (Ok ms, w') →
  ∃ b, b ≠ [] ∧ cbor_overviews b = Some (map overview_of ms) ∧
    run (getManifests r) w = (Ok (writeResponse (mkResponseSpec StatusOK (Some b) "application/cbor")), w').
Proof.
  intros Hm Ha Hfit Hr.
  destruct (overviews_codec (appended (map overview_of ms))) as (b & Hb & Hne & Hd); [by rewrite slice_appended|].
  rewrite slice_appended in Hd. exists b. split; [done|]. split; [done|].
  unfold getManifests. rewrite Hm, Ha, !String.eqb_refl. cbn [negb]. rewrite run_bind, run_try, Hr.
  cbn [fst snd run_then]. by rewrite Hb.
Qed.

Lemma fetchTAMManifests_run base ms s w' :
  host_base base → overviews_fit (map overview_of ms) → run GetManifests (sys_world s) = (Ok ms, w') →
  run (fetchTAMManifests (tam_exchange t) base) s = (Ok (omap shown_manifest ms), with_world w' s).
Proof.
  intros Hb Hfit Hr.
  destruct (getManifests_answer (mkRequest "GET" "/SUITManifestService/ListManifests" "application/cbor" ""
    (mkBody [] false false)) ms (sys_world s) w' eq_refl eq_refl Hfit Hr) as (b & Hne & Hd & Hrun).
  unfold fetchTAMManifests. etrans; [apply (fetch_run t base list_manifests_path _ _ _ _ _ b w'); [done|in_list|done|exact Hrun]|].
  unfold decodeManifestsFromCBOR. rewrite Hd. cbn [res_of_option res_map lift run].
  by rewrite shown_manifests.
Qed.

(** The repository can be sent: no more rows than an array takes, and numbers as in Go. *)
Definition sendable (d : DB) : Prop :=
  fits (rows (suit_manifests d)) ∧
  Forall (λ m, (0 ≤ SuitManifest_SequenceNumber m < 2 ^ 64)%Z) (rows (suit_manifests d)).

Lemma registry_row d tc e :
  registry d !! tc = Some e →
  ∃ m, m ∈ rows (suit_manifests d) ∧ SuitManifest_TrustedComponentID m = tc ∧ e = entry_of m.
Proof using Type.
  intros (i & m & Hi & Hc & He & _)%registry_of_last. exists m.
  split; [by eapply list_elem_of_lookup_2|]. by split.
Qed.

Lemma listed_fit d ms :
  sendable d → NoDup (SuitManifest_TrustedComponentID <$> ms) →
  (∀ tc e, registry d !! tc = Some e ↔ ∃ m, m ∈ ms ∧ SuitManifest_TrustedComponentID m = tc ∧ entry_of m = e) →
  overviews_fit (map overview_of ms).
Proof using Type.
  intros [Hfit Hnum] Hnd Hreg.
  assert (∀ m, m ∈ ms → ∃ m', m' ∈ rows (suit_manifests d) ∧
    SuitManifest_TrustedComponentID m' = SuitManifest_TrustedComponentID m ∧ entry_of m = entry_of m') as Hrow.
  { intros m Hm. apply registry_row. apply Hreg. by exists m. }
  split.
  - unfold fits in *. rewrite length_map.
    assert (length (SuitManifest_TrustedComponentID <$> ms)
      ≤ length (SuitManifest_TrustedComponentID <$> rows (suit_manifests d))) as Hle.
    { apply submseteq_length, NoDup_submseteq; [done|]. intros tc (m & -> & Hm)%list_elem_of_fmap.
      destruct (Hrow m Hm) as (m' & Hm' & <- & _). by apply list_elem_of_fmap_2. }
    rewrite !length_fmap in Hle. lia.
  - apply Forall_map, Forall_forall. intros m Hm. destruct (Hrow m Hm) as (m' & Hm' & _ & He).
    rewrite Forall_forall in Hnum. simpl. replace (SuitManifest_SequenceNumber m) with (Entry_SequenceNumber (entry_of m)) by done.
    rewrite He. by apply Hnum.
Qed.
End manifests.

(** ** Agents *)

Section cache.
Implicit Types (agents : list ConsoleAgent) (kid : bytes).

Definition cache_agents (lu : gmap bytes Z) agents (c : gmap bytes cachedAgent) : gmap bytes cachedAgent :=
  fold_left (λ c a, <[Console_KID a := mkCachedAgent a (default zero_time (lu !! Console_KID a))]> c) agents c.

(** What was fetched is what is found afterwards. *)
Lemma cache_agents_lookup f lu agents c kid a :
  Forall (λ a, f (Console_KID a) = Some a) agents → kid ∈ map Console_KID agents → f kid = Some a →
  cached_agent <$> cache_agents lu agents c !! kid = Some a.
Proof.
  unfold cache_agents. intros Hf Hin Ha. induction agents as [|x l IH] using rev_ind.
  { by apply not_elem_of_nil in Hin. }
  apply Forall_app in Hf as [Hf [Hx _]%Forall_cons]. rewrite fold_left_app. cbn [fold_left].
  rewrite map_app in Hin. destruct (decide (kid = Console_KID x)) as [->|Hne].
  - rewrite lookup_insert_eq, <- Ha, Hx. done.
  - rewrite lookup_insert_ne by done. apply IH; [done|].
    apply elem_of_app in Hin as [Hin|Hin%list_elem_of_singleton]; done.
Qed.

Definition times_of (keys : list (bytes * Z)) : gmap bytes Z := fold_left (λ m key, <[key.1 := key.2]> m) keys ∅.

Lemma times_of_lookup g keys kid :
  Forall (λ key, key.2 = g key.1) keys →
  times_of keys !! kid = if decide (kid ∈ map fst keys) then Some (g kid) else None.
Proof.
  unfold times_of. intros Hg. induction keys as [|x l IH] using rev_ind; [done|].
  apply Forall_app in Hg as [Hg [Hx _]%Forall_cons]. rewrite fold_left_app. cbn [fold_left].
  rewrite map_app. destruct (decide (kid = x.1)) as [->|Hne].
  - rewrite lookup_insert_eq, Hx. rewrite decide_True; [done|]. apply elem_of_app. right. by left.
  - rewrite lookup_insert_ne, (IH Hg) by done. apply decide_ext.
    rewrite elem_of_app. cbn [map]. rewrite list_elem_of_singleton. naive_solver.
Qed.
End cache.

Section agents.
Context `{Platform} `{!Reliable}.
Implicit Types (d : DB) (w : World).

(** The status of an agent, as [GetAgentStatus] reads it. *)
Definition status_of (d : DB) (kid : bytes) : option AgentStatus := scan_status (any_order (status_rows kid d)).

Lemma status_of_kid d kid st : status_of d kid = Some st → AgentStatus_AgentKID st = kid.
Proof using Type.
  unfold status_of, scan_status. destruct (any_order _) as [|row l] eqn:Hl; [done|]. intros [= <-]. simpl.
  assert (row ∈ status_rows kid d) as Hin by (rewrite <- (sql_order_perm (λ _ _, true)); fold (any_order (status_rows kid d)); rewrite Hl; left).
  unfold status_rows in Hin. repeat (apply list_elem_of_bind in Hin as (? & Hin & ?)).
  apply list_elem_of_singleton in Hin as ->. simpl.
  match goal with Hm : _ ∈ matching _ _ |- _ => apply list_elem_of_filter in Hm as [Hk%eqb_bytes_eq _] end. done.
Qed.

Lemma status_of_agent d a : a ∈ rows (agents d) → is_Some (status_of d (Agent_KID a)).
Proof using Type.
  intros Ha. unfold status_of, scan_status. pose proof (status_rows_not_nil (Agent_KID a) d a Ha eq_refl) as Hne.
  pose proof (sql_order_perm (λ _ _, true) (status_rows (Agent_KID a) d)) as Hp. fold (any_order (status_rows (Agent_KID a) d)) in Hp.
  destruct (any_order _); [|by eexists]. by apply Permutation_nil in Hp.
Qed.

Definition status_key (st : AgentStatus) : bytes * Z := (AgentStatus_AgentKID st, AgentStatus_UpdatedAt st).

Lemma status_keys_run l w :
  ∃ w', run (status_keys l) w = (Ok (omap (λ a, status_key <$> status_of (w_db w) (Agent_KID a)) l), w') ∧
    w_db w' = w_db w.
Proof.
  revert w. induction l as [|a l IH]; intros w; [by eexists|]. cbn [status_keys].
  rewrite run_bind, run_map_err, GetAgentStatus_run. cbn [fst snd res_map_err run_then]. rewrite run_bind.
  destruct (IH (with_db (w_db w) (tick_call w))) as (w' & -> & Hdb). exists w'. split; [|done].
  cbn [run_then fst snd omap list_omap w_db with_db]. fold (status_of (w_db w) (Agent_KID a)).
  by destruct (status_of _ _).
Qed.

Lemma collect_statuses_run `{Lib} kids w :
  ∃ w', run (collect_statuses kids) w = (Ok (omap (λ kid, FromModel <$> status_of (w_db w) kid) kids), w') ∧
    w_db w' = w_db w.
Proof.
  revert w. induction kids as [|kid l IH]; intros w; [by eexists|]. cbn [collect_statuses]. unfold GetAgentStatus.
  rewrite run_bind, run_bind, run_map_err, GetAgentStatus_run. cbn [fst snd res_map_err run_then].
  fold (status_of (w_db w) kid).
  destruct (IH (with_db (w_db w) (tick_call w))) as (w' & Hr & Hdb). exists w'. split; [|done].
  cbn [w_db with_db] in Hr. destruct (status_of _ kid) as [st|] eqn:Hst; rewrite run_ret; cbn [run_then];
    rewrite run_bind, Hr; cbn [run_then fst snd]; rewrite run_ret; cbn [omap list_omap]; by rewrite Hst.
Qed.
End agents.

Section devices.
Context `{Platform} `{!Reliable} `{Formats} `{Lib} `{ConsoleLib} `{!Codecs} (t : TAM).
Implicit Types (d : DB) (w : World) (s : System).

(** The agents the console asks about: those with a key id. *)
Definition managed d : list bytes := filter (λ kid, kid ≠ []) (map Agent_KID (rows (agents d))).

(** The time the TAM reports for an agent, and the agent as the console shows it. *)
Definition updated_at d (kid : bytes) : Z :=
  match status_of d kid with Some st => whole_seconds (AgentStatus_UpdatedAt st) | None => zero_time end.
Definition asked_records d (kids : list bytes) : list AgentStatusRecord :=
  omap (λ kid, FromModel <$> status_of d kid) kids.
Definition shown_agent d (kid : bytes) : option ConsoleAgent :=
  st ← status_of d kid;
  Some (mkConsoleAgent kid (whole_seconds (AgentStatus_UpdatedAt st)) (slice (AgentStatus_DeviceUEID st))
    match AgentStatus_SuitManifests st with
    | [] => None
    | l => Some (omap (λ o, shown_component (Overview_TrustedComponentID o) (Overview_SequenceNumber o)) l)
    end).

Lemma shown_agent_status d kid st :
  status_of d kid = Some st →
  shown_agent d kid
    = Some (with_last_update (whole_seconds (AgentStatus_UpdatedAt st)) (agent_of_record (sent_record (FromModel st)))).
Proof using Type.
  intros Hst. unfold shown_agent. rewrite Hst. simpl. f_equal. unfold with_last_update, sent_record, FromModel. simpl.
  rewrite (status_of_kid d kid st Hst), slice_appended. f_equal.
  destruct (AgentStatus_SuitManifests st) as [|o l]; [done|]. exact (f_equal Some (eq_sym (shown_components (o :: l)))).
Qed.

(** The administrator the handlers look for. *)
Definition has_admin d : Prop :=
  ∃ e, head (matching (λ e : Entity, bool_decide (Entity_Name e = adminName)) d) = Some e ∧ IsTAMAdmin e = true.

(** The lists can be sent: to the console, and from it within the limit of a request. *)
Definition agents_sendable d : Prop :=
  fits (rows (agents d)) ∧ records_fit (asked_records d (managed d)) ∧
  ∀ b, Marshal_kids (managed d) = Some b → (len b ≤ maxRequestBodyBytes)%Z.

Definition listed_keys d : list (bytes * Z) := map (λ kid, (kid, updated_at d kid)) (map Agent_KID (rows (agents d))).

Lemma agent_keys d l :
  (∀ a, a ∈ l → a ∈ rows (agents d)) →
  map (λ key, (key.1, whole_seconds key.2)) (omap (λ a, status_key <$> status_of d (Agent_KID a)) (map fetched l))
    = map (λ kid, (kid, updated_at d kid)) (map Agent_KID l).
Proof using Type.
  induction l as [|a l IH]; intros Hl; [done|]. cbn.
  destruct (status_of_agent d a) as [st Hst]; [apply Hl; left|]. unfold updated_at at 1.
  rewrite Hst. cbn. rewrite IH by (intros; apply Hl; by right). f_equal. by rewrite (status_of_kid d (Agent_KID a) st Hst).
Qed.

Lemma getAgentList_answer r w :
  Req_Method r = "GET" → Req_Accept r = "application/cbor" → has_admin (w_db w) → fits (rows (agents (w_db w))) →
  ∃ b w', b ≠ [] ∧ cbor_status_keys b = Some (listed_keys (w_db w)) ∧ w_db w' = w_db w ∧
    run (getAgentList r) w = (Ok (writeResponse (mkResponseSpec StatusOK (Some b) "application/cbor")), w').
Proof.
  intros Hm Ha (e & He & Hadm) Hfit. unfold getAgentList. rewrite Hm, Ha, !String.eqb_refl. cbn [negb].
  unfold FindEntity, EntityRepository_FindByName. rewrite run_bind, run_try, run_select_opt_reliable.
  cbn [fst snd run_then]. rewrite He, Hadm. cbn [orb]. unfold GetAgentStatuses, AgentRepository_GetAll, query.
  rewrite run_bind, run_try, run_bind, run_map_err, run_sql_reliable. cbn [fst snd res_map_err run_then w_db with_db tick_call].
  destruct (status_keys_run (map fetched (rows (agents (w_db w)))) (with_db (w_db w) (tick_call (with_db (w_db w) (tick_call w)))))
    as (w' & Hr & Hdb).
  cbn [w_db with_db tick_call] in Hr, Hdb. rewrite Hr. cbn [fst snd run_then].
  set (keys := omap _ _) in *.
  destruct (status_keys_codec keys) as (b & Hb & Hne & Hd).
  { unfold fits in *. pose proof (length_map (λ key, (key.1, whole_seconds key.2)) keys) as Hlen.
    unfold keys in Hlen at 1. rewrite (agent_keys (w_db w) _ (λ _ Hin, Hin)), !length_map in Hlen. lia. }
  rewrite Hb. exists b, w'. split_and!; [done| |done|done].
  rewrite Hd. f_equal. by apply agent_keys.
Qed.

Lemma fetchTAMListAgents_run base client s :
  host_base base → has_admin (w_db (sys_world s)) → fits (rows (agents (w_db (sys_world s)))) →
  ∃ w', run (fetchTAMListAgents (tam_exchange t) base client) s = (Ok (listed_keys (w_db (sys_world s))), with_world w' s) ∧
    w_db w' = w_db (sys_world s).
Proof.
  intros Hb Hadm Hfit.
  destruct (getAgentList_answer (mkRequest "GET" list_agents_path "application/cbor" "" (mkBody [] false false))
    (sys_world s) eq_refl eq_refl Hadm Hfit) as (b & w' & Hne & Hd & Hdb & Hrun).
  exists w'. split; [|done].
  unfold fetchTAMListAgents. etrans; [apply (fetch_run t base list_agents_path _ _ _ _ _ b w'); [done|in_list|done|exact Hrun]|].
  cbv beta. by rewrite Hd.
Qed.

(** Asking for too much. *)
Lemma getAgentStatus_too_large r w :
  Req_Method r = "POST" → Req_Accept r = "application/cbor" → Req_ContentType r = "application/cbor" →
  (maxRequestBodyBytes < len (Body_Bytes (Req_Body r)))%Z →
  run (getAgentStatus r) w = (Ok (http_Error "request body is too large" StatusRequestEntityTooLarge), w).
Proof using Type.
  intros Hm Ha Hc Hl. unfold getAgentStatus. rewrite Hm, Ha, Hc, !String.eqb_refl. cbn [negb].
  unfold ReadAll. apply Z.ltb_lt in Hl. by rewrite Hl.
Qed.

Lemma getAgentStatus_answer method path body kids w :
  method = "POST" → cbor_bytes_list body = Some kids → (len body ≤ maxRequestBodyBytes)%Z →
  records_fit (asked_records (w_db w) kids) →
  ∃ b w', b ≠ [] ∧ cbor_status_records b = Some (map sent_record (asked_records (w_db w) kids)) ∧ w_db w' = w_db w ∧
    run (getAgentStatus (mkRequest method path "application/cbor" "application/cbor" (mkBody body false false))) w
      = (Ok (writeResponse (mkResponseSpec StatusOK (Some b) "application/cbor")), w').
Proof.
  intros -> Hk Hl Hfit. unfold getAgentStatus, ReadAll.
  cbn [Req_Method Req_Accept Req_ContentType Req_Body Body_Bytes Body_ReadFails Body_CloseFails].
  rewrite !String.eqb_refl. cbn [negb]. apply Z.ltb_ge in Hl. rewrite Hl, Hk.
  unfold FindEntity, EntityRepository_FindByName. rewrite run_bind, run_try, run_select_opt_reliable.
  cbn [fst snd run_then]. rewrite run_bind, run_try.
  destruct (collect_statuses_run kids (with_db (w_db w) (tick_call w))) as (w' & Hr & Hdb).
  cbn [w_db with_db] in Hr, Hdb. unfold AgentStatusRecord in Hr; rewrite Hr. cbn [fst snd run_then].
  destruct (status_records_codec (appended (asked_records (w_db w) kids))) as (b & Hb & Hne & Hd);
    [by rewrite slice_appended|].
  rewrite slice_appended in Hd. exists b, w'. split_and!; try done.
  unfold asked_records, AgentStatusRecord in *. by rewrite Hb.
Qed.

Lemma fetchTAMGetAgentStatus_run base client kids s :
  host_base base → fits kids →
  (∀ b, Marshal_kids kids = Some b → (len b ≤ maxRequestBodyBytes)%Z) →
  records_fit (asked_records (w_db (sys_world s)) kids) →
  ∃ w', run (fetchTAMGetAgentStatus (tam_exchange t) base client kids) s
      = (Ok (map agent_of_record (map sent_record (asked_records (w_db (sys_world s)) kids))), with_world w' s) ∧
    w_db w' = w_db (sys_world s).
Proof.
  intros Hb Hfit Hl Hrec. destruct (kids_codec kids Hfit) as (body & Hbody & Hk).
  destruct (getAgentStatus_answer "POST" agent_status_path body kids (sys_world s) eq_refl Hk (Hl _ Hbody) Hrec)
    as (b & w' & Hne & Hd & Hdb & Hrun).
  exists w'. split; [|done]. unfold fetchTAMGetAgentStatus. rewrite run_bind, Hbody. cbn [res_of_option lift run run_then].
  etrans; [apply (fetch_run t base agent_status_path _ _ _ _ _ b w'); [done|in_list|done|exact Hrun]|].
  unfold decodeAgentsFromCBOR. by rewrite Hd.
Qed.

Lemma filter_map_fst (g : bytes → Z) kids :
  map fst (filter (λ key : bytes * Z, key.1 ≠ []) (map (λ kid, (kid, g kid)) kids)) = filter (λ kid, kid ≠ []) kids.
Proof using Type.
  induction kids as [|kid l IH]; [done|]. simpl. rewrite !filter_cons. simpl.
  destruct (decide (kid ≠ [])); simpl; by rewrite IH.
Qed.

Lemma updated_filter (g : bytes → Z) kids :
  Forall (λ key, key.2 = g key.1) (filter (λ key : bytes * Z, key.1 ≠ []) (map (λ kid, (kid, g kid)) kids)).
Proof using Type. apply Forall_forall. intros key (_ & (kid & -> & _)%list_elem_of_fmap)%list_elem_of_filter. done. Qed.

Lemma managed_status d kid : kid ∈ managed d → is_Some (status_of d kid).
Proof using Type. intros [_ (a & -> & Ha)%list_elem_of_fmap]%list_elem_of_filter. by apply status_of_agent. Qed.

Lemma managed_fits d : fits (rows (agents d)) → fits (managed d).
Proof using Type.
  unfold fits, managed. pose proof (length_filter (λ kid, kid ≠ []) (map Agent_KID (rows (agents d)))) as Hle.
  rewrite length_map in Hle. lia.
Qed.

(** The agents that come back, with the times that came with the list. *)
Lemma fetched_agents d (lu : gmap bytes Z) kids :
  (∀ kid, kid ∈ kids → is_Some (status_of d kid) ∧ lu !! kid = Some (updated_at d kid)) →
  map (λ a, with_last_update (default zero_time (lu !! Console_KID a)) a)
      (map agent_of_record (map sent_record (asked_records d kids))) = omap (shown_agent d) kids ∧
  map Console_KID (omap (shown_agent d) kids) = kids ∧
  Forall (λ a, shown_agent d (Console_KID a) = Some a) (omap (shown_agent d) kids).
Proof using Type.
  induction kids as [|kid l IH]; intros Hk; [done|].
  destruct IH as (IH1 & IH2 & IH3); [intros; apply Hk; by right|].
  destruct (Hk kid) as [[st Hst] Hlu]; [left|]. pose proof (status_of_kid d kid st Hst) as Hkid.
  assert (asked_records d (kid :: l) = FromModel st :: asked_records d l) as -> by (unfold asked_records; cbn; by rewrite Hst).
  set (a := agent_of_record (sent_record (FromModel st))).
  set (a' := with_last_update (whole_seconds (AgentStatus_UpdatedAt st)) a).
  assert (shown_agent d kid = Some a') as Hs by (by apply shown_agent_status).
  assert (Console_KID a = kid) as Hc by done.
  assert (omap (shown_agent d) (kid :: l) = a' :: omap (shown_agent d) l) as -> by (cbn; by rewrite Hs).
  cbn [map]. fold a. rewrite IH1, IH2, Hc, Hlu. unfold updated_at. rewrite Hst. split_and!; [done|by f_equal|].
  constructor; [|done]. by change (Console_KID a') with (Console_KID a); rewrite Hc.
Qed.

(** The cache afterwards: the listed agents as they were shown, and no others. *)
Definition refreshed d (c : gmap bytes cachedAgent) : Prop :=
  ∀ kid, cached_agent <$> c !! kid = if decide (kid ∈ managed d) then shown_agent d kid else None.

Lemma refresh_refreshed d c :
  let lu := times_of (filter (λ key, key.1 ≠ []) (listed_keys d)) in
  refreshed d (refresh lu (omap (shown_agent d) (managed d)) c).
Proof using Type.
  intros lu kid.
  assert (∀ kid, lu !! kid = if decide (kid ∈ managed d) then Some (updated_at d kid) else None) as Hlu.
  { intros k. unfold lu. rewrite (times_of_lookup (updated_at d)) by apply updated_filter.
    unfold listed_keys. by rewrite filter_map_fst. }
  destruct (fetched_agents d lu (managed d)) as (_ & Hk & Hs).
  { intros k Hin. split; [by apply managed_status|]. rewrite Hlu. by rewrite decide_True. }
  unfold refresh. fold (cache_agents lu (omap (shown_agent d) (managed d)) c).
  destruct (decide (kid ∈ managed d)) as [Hin|Hnin].
  - destruct (managed_status d kid Hin) as [st Hst].
    destruct (shown_agent d kid) as [a|] eqn:Ha; [|unfold shown_agent in Ha; by rewrite Hst in Ha].
    pose proof (cache_agents_lookup (shown_agent d) lu _ c kid a Hs) as Hc. rewrite Hk in Hc. specialize (Hc Hin Ha).
    rewrite map_lookup_filter. destruct (cache_agents _ _ _ !! kid) as [e|]; [|done]. cbn.
    rewrite option_guard_True; [done|]. rewrite Hlu, decide_True by done. by eexists.
  - rewrite map_lookup_filter. destruct (cache_agents _ _ _ !! kid) as [e|]; [|done]. cbn.
    rewrite option_guard_False; [done|]. rewrite Hlu, decide_False by done. by intros [].
Qed.

Lemma fetchTAMDevices_run base s :
  host_base base → has_admin (w_db (sys_world s)) → agents_sendable (w_db (sys_world s)) →
  let d := w_db (sys_world s) in
  ∃ w' c, run (fetchTAMDevices (tam_exchange t) base) s
      = (Ok (omap (shown_agent d) (managed d)), mkSystem w' (<[base := c]> (sys_caches s))) ∧
    w_db w' = d ∧ refreshed d c.
Proof.
  intros Hb Hadm (Hfit & Hrec & Hlen) d. unfold fetchTAMDevices. rewrite run_bind.
  destruct (fetchTAMListAgents_run base newTAMAPIClient s Hb Hadm Hfit) as (w1 & -> & Hdb1). fold d in Hdb1 |- *.
  cbn [run_then]. rewrite run_bind. unfold getTAMDevicesCache. rewrite run_locked. cbn [run_then fst snd].
  fold (times_of (filter (λ key, key.1 ≠ []) (listed_keys d))).
  pose proof (refresh_refreshed d) as Hrefresh. cbn zeta in Hrefresh.
  replace (map fst (filter (λ key : bytes * Z, key.1 ≠ []) (listed_keys d))) with (managed d)
    by (unfold listed_keys; by rewrite filter_map_fst).
  set (lu := times_of _) in *. set (s1 := with_caches _ (with_world w1 s)).
  assert (∀ c, <[base := c]> (sys_caches s1) = <[base := c]> (sys_caches s)) as Hins.
  { intros c. unfold s1. simpl. destruct (sys_caches s !! base); [done|]. apply insert_insert_eq. }
  destruct (managed d) as [|kid0 l0] eqn:Hm.
  { rewrite run_bind, run_locked. cbn [run_then fst snd]. eexists w1, ∅. split; [|split; [done|]].
    - unfold with_caches. cbn. by rewrite Hins.
    - intros kid. rewrite Hm, lookup_empty. rewrite decide_False; [done|apply not_elem_of_nil]. }
  rewrite <- Hm in *. clear Hm. rewrite run_bind.
  destruct (fetchTAMGetAgentStatus_run base newTAMAPIClient (managed d) s1) as (w2 & -> & Hdb2).
  { done. }
  { by apply managed_fits. }
  { done. }
  { cbn. by rewrite Hdb1. }
  assert (sys_world s1 = w1) as Hw1 by done. rewrite Hw1, Hdb1 in *. cbn [run_then].
  destruct (fetched_agents d lu (managed d)) as (-> & _).
  { intros k Hin. split; [by apply managed_status|]. unfold lu. rewrite (times_of_lookup (updated_at d)) by apply updated_filter.
    unfold listed_keys. rewrite filter_map_fst. fold (managed d). by rewrite decide_True. }
  rewrite run_bind, run_locked. cbn [run_then fst snd]. rewrite run_locked. cbn [fst snd].
  eexists w2, _. split; [|split; [exact Hdb2|apply Hrefresh]].
  unfold with_caches, with_world. cbn [sys_world sys_caches]. rewrite Hins. do 2 f_equal.
  unfold Caches. rewrite lookup_insert_eq. cbn [default]. apply list_omap_ext, Forall_Forall2_diag, Forall_forall.
  intros k Hin. fold lu. rewrite <- (decide_True (P:=k ∈ managed d) (shown_agent d k) None Hin). apply Hrefresh.
Qed.

(** More key ids than the TAM reads. *)
Lemma too_long_request base s (d := w_db (sys_world s)) :
  host_base base → has_admin d → fits (rows (agents d)) →
  (maxRequestBodyBytes < len (concat (managed d)))%Z →
  ∃ s', run (fetchTAMDevices (tam_exchange t) base) s = (Err (ErrorString "status 413 from TAM API"), s') ∧
    w_db (sys_world s') = d.
Proof.
  intros Hb Hadm Hfit Hlong. unfold fetchTAMDevices. rewrite run_bind.
  destruct (fetchTAMListAgents_run base newTAMAPIClient s Hb Hadm Hfit) as (w1 & -> & Hdb1). fold d in Hdb1 |- *.
  cbn [run_then]. rewrite run_bind. unfold getTAMDevicesCache. rewrite run_locked. cbn [run_then fst snd].
  replace (map fst (filter (λ key : bytes * Z, key.1 ≠ []) (listed_keys d))) with (managed d)
    by (unfold listed_keys; by rewrite filter_map_fst).
  set (s1 := with_caches _ (with_world w1 s)). destruct (managed d) as [|kid0 l0] eqn:Hm; [done|]. rewrite <- Hm in *. clear Hm.
  destruct (kids_codec (managed d)) as (body & Hbody & _); [by apply managed_fits|].
  assert (run (getAgentStatus (mkRequest "POST" agent_status_path "application/cbor" "application/cbor" (mkBody body false false)))
    (sys_world s1) = (Ok (http_Error "request body is too large" StatusRequestEntityTooLarge), sys_world s1)) as Hrun.
  { apply getAgentStatus_too_large; [done..|]. apply kids_size in Hbody. simpl. lia. }
  exists (with_world (sys_world s1) s1). split; [|done].
  rewrite run_bind. unfold fetchTAMGetAgentStatus. rewrite run_bind, Hbody. cbn [res_of_option lift run run_then].
  erewrite (fetch_refused t base agent_status_path); [|done|in_list| |exact Hrun]; [|done]. done.
Qed.
End devices.

(** ** The console as a whole *)

Section console.
Context `{Platform} `{Formats} `{Lib} `{ConsoleLib} (t : TAM) (cfg : AppConfig).
Implicit Types s : System.

(** A request for a page, and the page as it is sent. *)
Definition asks (method path : string) (r : Request) : Prop := Req_Method r = method ∧ Req_Path r = path.
Definition shows (v : json) : Response := with_headers cors_headers (respondJSON v).

Lemma tam_exchange_readable filename client req w resp w' :
  run (tam_exchange t filename client req) w = (Ok resp, w') → Http_ResponseBody resp ≠ None.
Proof using Type.
  unfold tam_exchange. destruct (url_Parse _); [|done]. rewrite run_bind.
  destruct (run (recover _ _) w) as [[a|e| |] w1]; [|done..]. by intros [= <- _].
Qed.

Lemma Console_plain r s :
  run (Console_ServeHTTP (tam_exchange t) cfg r) s = run (withCORS (console_routes (tam_exchange t) (TAMAPIBase cfg)) r) s.
Proof using Type. by rewrite (Console_exact _ _ _ _ tam_exchange_readable). Qed.

Lemma console_run method r s (p : CM Response) a s' :
  method ≠ "OPTIONS" → Req_Method r = method →
  console_routes (tam_exchange t) (TAMAPIBase cfg) r = p → run p s = (Ok a, s') →
  run (Console_ServeHTTP (tam_exchange t) cfg r) s = (Ok (with_headers cors_headers a), s').
Proof.
  intros Hne Hm Hp Hr. rewrite Console_plain. unfold withCORS. rewrite Hm.
  destruct (String.eqb_spec method "OPTIONS"); [done|]. by rewrite run_bind, Hp, Hr.
Qed.

Lemma view_route r s a s' (base := TAMAPIBase cfg) (p := fetchTAMManifests (tam_exchange t) base) :
  host_base base → asks "GET" "/console/view-managed-tcs" r → run p s = (Ok a, s') →
  run (Console_ServeHTTP (tam_exchange t) cfg r) s = (Ok (shows (JArray (map TrustedComponent_MarshalJSON a))), s').
Proof.
  intros [Hne _] [Hm Hp] Hr. eapply console_run; [|exact Hm| |]; [done| |].
  { unfold console_routes. by rewrite Hp. }
  cbn [String.eqb Ascii.eqb Bool.eqb andb]. unfold handleListManifestsService. rewrite Hm. cbn [negb String.eqb Ascii.eqb Bool.eqb andb].
  destruct (String.eqb_spec (TAMAPIBase cfg) ""); [done|]. rewrite run_bind, run_try. fold base p. by rewrite Hr.
Qed.

Lemma devices_route r s res s' (base := TAMAPIBase cfg) :
  host_base base → asks "GET" "/console/view-managed-devices" r →
  run (try (fetchTAMDevices (tam_exchange t) base)) s = (Ok res, s') →
  run (Console_ServeHTTP (tam_exchange t) cfg r) s = (Ok (with_headers cors_headers match res with
    | inl a => respondJSON (JArray (map Agent_MarshalJSON a))
    | inr err => fetch_failed err
    end), s').
Proof.
  intros [Hne _] [Hm Hp] Hr. eapply console_run; [|exact Hm| |]; [done| |].
  { unfold console_routes. by rewrite Hp. }
  cbn [String.eqb Ascii.eqb Bool.eqb andb]. unfold handleListAgents. rewrite Hm. cbn [negb String.eqb Ascii.eqb Bool.eqb andb].
  destruct (String.eqb_spec (TAMAPIBase cfg) ""); [done|]. rewrite run_bind. fold base. rewrite Hr.
  cbn [run_then]. by destruct res.
Qed.
End console.

Section registration.
Context `{Platform} `{Formats} `{Lib} `{ConsoleLib} (t : TAM).
Implicit Types s : System.

Definition success_page : Response := respondJSON (JObject [("success", JBool true)]).

(** Uploading a file registers it, or fails and changes nothing. *)
Lemma postTAMManifest_run base r s res s' :
  host_base base → run (postTAMManifest (tam_exchange t) r base) s = (res, s') →
  sys_caches s' = sys_caches s ∧
  ((res = Ok success_page ∧ ∃ name content, multipart_file r = Some (Some (name, Some content)) ∧
      registers content (w_db (sys_world s)) (w_db (sys_world s'))) ∨
   ((∃ e, res = Err e) ∧ w_db (sys_world s') = w_db (sys_world s))).
Proof.
  intros Hb. unfold postTAMManifest. rewrite run_bind.
  destruct (multipart_file r) as [[[name [content|]]|]|]; cbn [lift res_of_option run run_then];
    try (rewrite run_bind; cbn [lift res_of_option run run_then snd]);
    try (rewrite run_bind; cbn [lift res_of_option run run_then snd]);
    try (intros [= <- <-]; split; [done|]; right; split; [by eexists|done]).
  destruct (run (ServeHTTP t (mkRequest "POST" register_manifest_path ""
    "application/suit-envelope+cose" (mkBody content false false))) (sys_world s)) as [rs w'] eqn:Hs.
  assert (register_manifest_path ∈ api_paths) as Hin by in_list.
  destruct (client_Do_any t base register_manifest_path "POST" [("Content-Type", "application/suit-envelope+cose")]
    content (Some name) newTAMAPIClient s rs w' Hb Hin Hs) as [Hreq Hdo].
  assert (run (addTCManifest (mkRequest "POST" register_manifest_path ""
    "application/suit-envelope+cose" (mkBody content false false))) (sys_world s) = (rs, w')) as Hreg by exact Hs.
  pose proof (ServeHTTP_ends t (mkRequest "POST" register_manifest_path ""
    "application/suit-envelope+cose" (mkBody content false false)) ltac:(done) (sys_world s)) as Hends.
  rewrite Hs in Hends. apply addTCManifest_run in Hreg. cbn [Req_Body Body_Bytes] in Hreg.
  unfold register_manifest_path in Hreq, Hdo. rewrite run_bind, Hreq. cbn [lift run run_then].
  rewrite run_bind. cbn [fst]. rewrite Hdo. clear Hreq Hdo Hs.
  destruct rs as [resp|e| |]; cbn [res_map run_then].
  2-4: try (by destruct (Hends eq_refl)); intros [= <- <-]; (split; [done|]; right; split; [by eexists|]);
    destruct Hreg as [[_ Hdb]|[(? & ? & _) _]]; done.
  rewrite run_bind. cbn [Http_ResponseBody res_of_option lift run run_then]. unfold success. cbn [Http_StatusCode].
  destruct Hreg as [[Href Hdb]|[(resp' & [= <-] & Hst) Hreg]].
  - specialize (Href resp eq_refl). destruct (Z.ltb_spec (Resp_Status resp) 300); [lia|]. rewrite andb_false_r.
    intros [= <- <-]. split; [done|]. right. split; [by eexists|done].
  - rewrite Hst. intros [= <- <-]. split; [done|]. left. split; [done|]. by exists name, content.
Qed.
End registration.

(** ** The console always answers *)

Section answers.
Context `{Platform} `{Formats} `{Lib} `{ConsoleLib} (t : TAM).
Implicit Types s : System.

(** A value or an error, wherever it starts. *)
Definition returns {A} (p : CM A) : Prop :=
  ∀ s, (∃ a s', run p s = (Ok a, s')) ∨ ∃ e s', run p s = (Err e, s').

Lemma returns_bind {A B} (p : CM A) (f : A → CM B) : returns p → (∀ a, returns (f a)) → returns (p ≫= f).
Proof using Type.
  intros Hp Hf s. rewrite run_bind. destruct (Hp s) as [(a & s' & ->)|(e & s' & ->)]; [apply Hf|]. right. by eexists _, _.
Qed.

Lemma returns_ret {A} (a : A) : returns (mret a).
Proof using Type. intros s. left. by eexists _, _. Qed.
Lemma returns_throw {A} e : returns (throw e : CM A).
Proof using Type. intros s. right. by eexists _, _. Qed.
Lemma returns_of_option {A} e (o : option A) : returns (lift (res_of_option e o)).
Proof using Type. destruct o; [apply returns_ret|apply returns_throw]. Qed.
Lemma returns_locked {A} (f : Caches → A * Caches) : returns (locked f).
Proof using Type. intros s. left. rewrite run_locked. by eexists _, _. Qed.

Lemma returns_call {A} base path method header body (k : HttpRequest → CM A) :
  host_base base → path ∈ api_paths →
  returns (k (mkHttpRequest method (TrimRight_slash base +++ path) header body)) →
  returns (req ← lift (NewRequest method (TrimRight_slash base +++ path) header body); k req).
Proof using Type.
  intros [_ Hb] Hpath Hk s. destruct (Hb path Hpath) as (u & Hu & _). unfold NewRequest. rewrite Hu. apply Hk.
Qed.

Lemma returns_client base path method header body filename client :
  host_base base → path ∈ api_paths →
  returns (client_Do (tam_exchange t) filename client (mkHttpRequest method (TrimRight_slash base +++ path) header body)).
Proof using Type.
  intros Hb Hpath s.
  assert (path ≠ "/tam") as Hne.
  { intros ->. unfold api_paths in Hpath. repeat (apply elem_of_cons in Hpath as [?|Hpath]; [done|]).
    by apply not_elem_of_nil in Hpath. }
  set (r := mkRequest method path (Header_Get header "Accept") (Header_Get header "Content-Type") (mkBody body false false)).
  pose proof (ServeHTTP_ends t r Hne (sys_world s)) as Hends. destruct (run (ServeHTTP t r) (sys_world s)) as [rs w'] eqn:Hs.
  destruct (client_Do_any t base path method header body filename client s rs w' Hb Hpath Hs) as [_ ->].
  destruct rs as [resp|e| |]; [left|right|right|by destruct (Hends eq_refl)]; by eexists _, _.
Qed.

Lemma returns_fetch base path method header body client :
  host_base base → path ∈ api_paths →
  returns (fetch_cbor (tam_exchange t) client (mkHttpRequest method (TrimRight_slash base +++ path) header body)).
Proof using Type.
  intros Hb Hpath. unfold fetch_cbor. apply returns_bind; [by apply returns_client|]. intros resp.
  repeat case_match; first [apply returns_throw|apply returns_of_option].
Qed.

Lemma returns_devices base : host_base base → returns (fetchTAMDevices (tam_exchange t) base).
Proof using Type.
  intros Hb. unfold fetchTAMDevices. apply returns_bind.
  { apply (returns_call base list_agents_path); [done|in_list|]. apply returns_bind; [|intros; apply returns_of_option].
    apply (returns_fetch base list_agents_path); [done|in_list]. }
  intros keys. apply returns_bind; [apply returns_locked|]. intros _. case_match.
  { apply returns_bind; [apply returns_locked|]. intros. apply returns_ret. }
  apply returns_bind; [|intros; apply returns_bind; intros; apply returns_locked].
  apply returns_bind; [apply returns_of_option|]. intros body.
  apply (returns_call base agent_status_path); [done|in_list|]. apply returns_bind.
  { apply (returns_fetch base agent_status_path); [done|in_list]. }
  intros raw. unfold decodeAgentsFromCBOR. destruct (cbor_status_records raw); [apply returns_ret|apply returns_throw].
Qed.

Lemma returns_manifests base : host_base base → returns (fetchTAMManifests (tam_exchange t) base).
Proof using Type.
  intros Hb. apply (returns_call base list_manifests_path); [done|in_list|]. apply returns_bind.
  { apply (returns_fetch base list_manifests_path); [done|in_list]. }
  intros raw. unfold decodeManifestsFromCBOR. destruct (cbor_overviews raw); [apply returns_ret|apply returns_throw].
Qed.

Lemma returns_post r base : host_base base → returns (postTAMManifest (tam_exchange t) r base).
Proof using Type.
  intros Hb s. destruct (run (postTAMManifest (tam_exchange t) r base) s) as [res s'] eqn:Hr.
  destruct (postTAMManifest_run t _ _ _ _ _ Hb Hr) as (_ & [(-> & _)|[[e ->] _]]); [left|right]; by eexists _, _.
Qed.

(** Trying what returns, and answering either way. *)
Lemma returns_try {A} (p : CM A) (f : A + error → CM Response) s :
  returns p → (∀ res, ∃ resp, f res = mret resp) → ∃ resp s', run (res ← try p; f res) s = (Ok resp, s').
Proof using Type.
  intros Hp Hf. rewrite run_bind, run_try.
  destruct (Hp s) as [(a & s' & ->)|(e & s' & ->)]; cbn [fst snd run_then];
    [destruct (Hf (inl a)) as [resp ->]|destruct (Hf (inr e)) as [resp ->]]; by eexists _, _.
Qed.
End answers.

(** ** Properties *)

Section properties.
Context `{Platform} `{Formats} `{Lib} `{ConsoleLib} (t : TAM) (cfg : AppConfig).
Implicit Types (s : System) (r : Request).

Lemma view_tcs `{!Reliable} `{!Codecs} r s (d := w_db (sys_world s)) :
  host_base (TAMAPIBase cfg) → ordered d → sendable d → asks "GET" "/console/view-managed-tcs" r →
  ∃ ms s', run (Console_ServeHTTP (tam_exchange t) cfg r) s
      = (Ok (shows (JArray (map TrustedComponent_MarshalJSON (omap shown_manifest ms)))), s') ∧
    w_db (sys_world s') = d ∧ sys_caches s' = sys_caches s ∧
    NoDup (SuitManifest_TrustedComponentID <$> ms) ∧
    (∀ tc e, registry d !! tc = Some e ↔
       ∃ m, m ∈ ms ∧ SuitManifest_TrustedComponentID m = tc ∧ entry_of m = e) ∧
    StronglySorted (λ a b, blob_le (SuitManifest_TrustedComponentID a) (SuitManifest_TrustedComponentID b) = true) ms.
Proof.
  intros Hb Ho Hs Hr. destruct (GetManifests_lists_registry (sys_world s) Ho) as (ms & w' & Hrun & Hdb & Hnd & Hreg & Hsort).
  exists ms, (with_world w' s). split; [|by split_and!].
  eapply view_route; [done..|]. apply fetchTAMManifests_run; [done| |done]. by eapply listed_fit.
Qed.

(** C17: the console shows the repository.  With a working database the page of trusted
    components is the list of the newest manifests, one per component, in the order of the
    components' bytes; a manifest whose component does not decode is left out.  Looking
    changes neither the database nor the console's caches. *)
Theorem console_shows_registry `{!Reliable} `{!Codecs} r s (d := w_db (sys_world s)) :
  host_base (TAMAPIBase cfg) → ordered d → sendable d → asks "GET" "/console/view-managed-tcs" r →
  ∃ ms s', run (Console_ServeHTTP (tam_exchange t) cfg r) s
      = (Ok (shows (JArray (map TrustedComponent_MarshalJSON (omap shown_manifest ms)))), s') ∧
    w_db (sys_world s') = d ∧ sys_caches s' = sys_caches s ∧
    NoDup (SuitManifest_TrustedComponentID <$> ms) ∧
    (∀ tc e, registry d !! tc = Some e ↔
       ∃ m, m ∈ ms ∧ SuitManifest_TrustedComponentID m = tc ∧ entry_of m = e) ∧
    StronglySorted (λ a b, blob_le (SuitManifest_TrustedComponentID a) (SuitManifest_TrustedComponentID b) = true) ms.
Proof. apply view_tcs. Qed.

(** C18: the console shows the agents as they are.  Whatever its cache held before, the page
    of devices lists every agent that has a key id, in the TAM's order and with the status
    the TAM has now and the time it reports; afterwards the cache of this TAM holds exactly
    these agents, the caches of other TAMs and the database are as before. *)
Theorem console_shows_agents `{!Reliable} `{!Codecs} r s (d := w_db (sys_world s)) (base := TAMAPIBase cfg) :
  host_base base → has_admin d → agents_sendable d → asks "GET" "/console/view-managed-devices" r →
  ∃ shown w' c, run (Console_ServeHTTP (tam_exchange t) cfg r) s
      = (Ok (shows (JArray (map Agent_MarshalJSON shown))), mkSystem w' (<[base := c]> (sys_caches s))) ∧
    w_db w' = d ∧
    map Console_KID shown = managed d ∧ Forall (λ a, shown_agent d (Console_KID a) = Some a) shown ∧
    refreshed d c.
Proof.
  intros Hb Hadm Hsend Hr. destruct (fetchTAMDevices_run t base s Hb Hadm Hsend) as (w' & c & Hrun & Hdb & Hc).
  exists (omap (shown_agent d) (managed d)), w', c. split; [|split; [done|]].
  - apply (devices_route t cfg r s _ _ Hb Hr (try_Ok _ _ _ _ Hrun)).
  - destruct (fetched_agents d (times_of (filter (λ key, key.1 ≠ []) (listed_keys d))) (managed d)) as (_ & Hk & Hs); [|done].
    intros k Hin. split; [by apply managed_status|]. rewrite (times_of_lookup (updated_at d)) by apply updated_filter.
    unfold listed_keys. rewrite filter_map_fst. fold (managed d). by rewrite decide_True.
Qed.

(** C32: too many agents make the page of devices unavailable.  The console asks for the
    status of all agents in one request, of which the TAM reads 32 KiB: once the key ids
    alone are longer (with 32 bytes each, from 1025 agents on), the page is a 502, although
    nothing is wrong with the TAM or the database. *)
Theorem too_many_agents_break_the_view `{!Reliable} `{!Codecs} r s (d := w_db (sys_world s)) :
  host_base (TAMAPIBase cfg) → has_admin d → fits (rows (agents d)) →
  (maxRequestBodyBytes < len (concat (managed d)))%Z → asks "GET" "/console/view-managed-devices" r →
  ∃ s', run (Console_ServeHTTP (tam_exchange t) cfg r) s
      = (Ok (with_headers cors_headers (fetch_failed (ErrorString "status 413 from TAM API"))), s') ∧
    w_db (sys_world s') = d.
Proof.
  intros Hb Hadm Hfit Hlong Hr. destruct (too_long_request t _ s Hb Hadm Hfit Hlong) as (s' & Hrun & Hdb).
  exists s'. split; [|done]. exact (devices_route t cfg r s _ s' Hb Hr (try_Err _ _ _ _ Hrun)).
Qed.

Lemma register_tc r s :
  host_base (TAMAPIBase cfg) → asks "POST" "/console/register-tc" r →
  ∃ resp s', run (Console_ServeHTTP (tam_exchange t) cfg r) s = (Ok resp, s') ∧
  sys_caches s' = sys_caches s ∧
  ((Resp_Status resp = StatusOK ∧ ∃ name content, multipart_file r = Some (Some (name, Some content)) ∧
      registers content (w_db (sys_world s)) (w_db (sys_world s'))) ∨
   (Resp_Status resp = StatusBadGateway ∧ w_db (sys_world s') = w_db (sys_world s))).
Proof.
  intros Hb [Hm Hp]. pose proof Hb as [Hne _]. rewrite Console_plain.
  unfold withCORS, console_routes, handleRegisterManifest. rewrite Hm, Hp.
  cbn [negb String.eqb Ascii.eqb Bool.eqb andb]. destruct (String.eqb_spec (TAMAPIBase cfg) ""); [done|].
  rewrite run_bind, run_bind, run_try.
  destruct (run (postTAMManifest (tam_exchange t) r (TAMAPIBase cfg)) s) as [res s1] eqn:Hpost.
  apply (postTAMManifest_run t _ _ _ _ _ Hb) in Hpost as (Hc & [(-> & Hreg)|[[e ->] Hdb]]);
    (eexists _, s1; split; [reflexivity|split; [done|]]).
  - by left.
  - by right.
Qed.

(** C19: the console reports as registered what is registered.  Every upload is answered: with
    a 200 exactly when the uploaded file, verified with the key of a registered signer, went
    into the TAM's repository, and otherwise with a 502 and the database as it was, whatever
    failed.  The caches are not touched. *)
Theorem console_registers_verified r s :
  host_base (TAMAPIBase cfg) → asks "POST" "/console/register-tc" r →
  ∃ resp s', run (Console_ServeHTTP (tam_exchange t) cfg r) s = (Ok resp, s') ∧
  sys_caches s' = sys_caches s ∧
  ((Resp_Status resp = StatusOK ∧ ∃ name content, multipart_file r = Some (Some (name, Some content)) ∧
      registers content (w_db (sys_world s)) (w_db (sys_world s'))) ∨
   (Resp_Status resp = StatusBadGateway ∧ w_db (sys_world s') = w_db (sys_world s))).
Proof. apply register_tc. Qed.

(** C34: the console always answers.  Whatever it is asked, in whatever state, whatever calls
    to the database fail and even where a handler of the TAM panics, it returns a response. *)
Theorem console_always_answers r s :
  host_base (TAMAPIBase cfg) → ∃ resp s', run (Console_ServeHTTP (tam_exchange t) cfg r) s = (Ok resp, s').
Proof.
  intros Hb. rewrite Console_plain. unfold withCORS. destruct (String.eqb _ _); [by eexists _, _|].
  assert (∃ resp s', run (console_routes (tam_exchange t) (TAMAPIBase cfg) r) s = (Ok resp, s')) as (resp & s' & Hr).
  { unfold console_routes, handleListAgents, handleListManifestsService, handleRegisterManifest.
    repeat match goal with |- context [run (if ?b then _ else _) _] => destruct b end; try by eexists _, _.
    - apply returns_try; [by apply returns_devices|]. intros []; by eexists.
    - apply returns_try; [by apply returns_manifests|]. intros []; by eexists.
    - apply returns_try; [by apply returns_post|]. intros []; by eexists. }
  rewrite run_bind, Hr. by eexists _, _.
Qed.

(** A registered manifest is the last row, and the newest of its component. *)
Lemma registers_appends content d d' :
  ordered d → registers content d d' →
  ∃ tagged m, SkipTag content (spare_capacity content) = Ok (tagged, SuitManifest_Manifest m) ∧
    rows (suit_manifests d') = rows (suit_manifests d) ++ [m] ∧ ordered d' ∧
    registry d' !! SuitManifest_TrustedComponentID m = Some (entry_of m).
Proof.
  intros Ho (envelope & tagged & untagged & k & key & manifest & component & tc & digest & Hreg). cbn zeta in Hreg.
  destruct Hreg as (_ & Hskip & _ & _ & _ & _ & _ & _ & _ & Hreg).
  pose proof (registered_ordered _ _ _ _ _ _ _ Ho Hreg) as Ho'. destruct Hreg as (k' & _ & _ & _ & ->).
  eexists tagged, _. split; [|split; [reflexivity|split; [done|]]]; [done|].
  unfold registry. simpl. rewrite registry_of_snoc. apply lookup_insert_eq.
Qed.

(** C8: what the console says it registered, it shows.  After an upload that was answered
    with a 200, the page of trusted components lists the manifest in the uploaded file with
    its component and sequence number, and no other manifest of this component. *)
Theorem uploaded_manifest_is_shown `{!Reliable} `{!Codecs} upload view s resp s1 :
  host_base (TAMAPIBase cfg) → ordered (w_db (sys_world s)) →
  asks "POST" "/console/register-tc" upload → asks "GET" "/console/view-managed-tcs" view →
  run (Console_ServeHTTP (tam_exchange t) cfg upload) s = (Ok resp, s1) → Resp_Status resp = StatusOK →
  sendable (w_db (sys_world s1)) →
  ∃ name content tagged m ms s2, multipart_file upload = Some (Some (name, Some content)) ∧
    SkipTag content (spare_capacity content) = Ok (tagged, SuitManifest_Manifest m) ∧
    rows (suit_manifests (w_db (sys_world s1))) = rows (suit_manifests (w_db (sys_world s))) ++ [m] ∧
    run (Console_ServeHTTP (tam_exchange t) cfg view) s1
      = (Ok (shows (JArray (map TrustedComponent_MarshalJSON (omap shown_manifest ms)))), s2) ∧
    (∀ shown, shown_manifest m = Some shown → shown ∈ omap shown_manifest ms) ∧
    (∀ m', m' ∈ ms → SuitManifest_TrustedComponentID m' = SuitManifest_TrustedComponentID m → entry_of m' = entry_of m).
Proof.
  intros Hb Ho Hup Hview Hrun Hst Hs.
  destruct (register_tc upload s Hb Hup) as (resp' & s1' & Hrun' & _ & Hcases).
  rewrite Hrun in Hrun'. injection Hrun' as <- <-.
  destruct Hcases as [(_ & name & content & Hfile & Hreg)|[Hbad _]]; [|by rewrite Hst in Hbad].
  destruct (registers_appends _ _ _ Ho Hreg) as (tagged & m & Hskip & Hrows & Ho1 & Hm).
  destruct (view_tcs view s1 Hb Ho1 Hs Hview) as (ms & s2 & Hpage & _ & _ & _ & Hlisted & _).
  exists name, content, tagged, m, ms, s2. split_and!; try done.
  - intros shown Hshown. destruct (proj1 (Hlisted _ _) Hm) as (m' & Hin & Htc & He). apply list_elem_of_omap. exists m'. split; [done|].
    unfold shown_manifest in Hshown |- *. unfold entry_of in He. injection He as _ _ _ Hn. by rewrite Htc, Hn.
  - intros m' Hin Htc. pose proof (proj2 (Hlisted _ _) (ex_intro _ m' (conj Hin (conj Htc eq_refl)))) as Hm'. congruence.
Qed.
End properties.

(** ** Witnesses *)

#[local] Instance example_formats : Formats := {|
  unicode_IsPrint := λ _, false;
  Format_RFC3339Nano := λ _, "2026-01-01T00:00:00Z";
  Duration_String := λ _, "1s";
  FormatFloat := λ _, "1.5";
|}.

#[local] Existing Instance lib.

(** Decoders that read what [stub] writes; every request uploads its body. *)
#[local] Instance console_stub : ConsoleLib := {|
  cbor_overviews := λ b, if decide (b = bs [0xF6]%Z) then Some [] else map overview_of_fields <$> unpack b;
  cbor_status_keys := λ b, map (λ key : bytes * Z, (key.1, whole_seconds key.2)) <$> unpack b;
  cbor_status_records := λ b,
    if decide (b = bs [0xF6]%Z) then Some [] else map (λ f, sent_record (record_of_fields f)) <$> unpack b;
  cbor_component_id := λ b, Some (Some [Some b]);
  Marshal_kids := λ kids, Some (pack_strings kids);
  cbor_Diagnose := λ _, None;
  json_Encode := λ _, [];
  base64_RawURLEncoding := string_of_bytes;
  Format_RFC3339 := λ _, "2026-01-01T00:00:00Z";
  Error_text := λ _, "";
  Status_text := λ _, "";
  multipart_file := λ r, Some (Some ("envelope.cbor", Some (Body_Bytes (Req_Body r))));
  asset := λ _, http_Error "404 page not found" StatusNotFound;
|}.

Lemma pack_strings_size kids : (len (concat kids) ≤ len (pack_strings kids))%Z.
Proof.
  unfold len, pack_strings. induction kids as [|kid l IH]; [done|]. cbn [concat flat_map]. rewrite !length_app.
  assert (length kid ≤ length (flat_map (λ x, [Byte.x01; x]) kid)); [|simpl; lia].
  induction kid; simpl; lia.
Qed.

#[local] Instance stub_codecs : @Codecs lib console_stub.
Proof.
  split.
  - intros l _. destruct l as [l|]; eexists; (split; [reflexivity|split; [done|]]); [|done]. cbn [cbor_overviews console_stub].
    rewrite decide_False by done. rewrite unpack_pack. cbn. by rewrite overviews_of_fields.
  - intros l _. eexists. split; [reflexivity|split; [done|]]. cbn [cbor_status_keys console_stub].
    by rewrite (unpack_pack (A:=list (bytes * Z))).
  - intros l _. destruct l as [l|]; eexists; (split; [reflexivity|split; [done|]]); [|done]. cbn [cbor_status_records console_stub].
    rewrite decide_False by done. rewrite unpack_pack. cbn. f_equal.
    rewrite <- (map_map record_of_fields sent_record). by rewrite records_of_fields.
  - intros kids _. eexists. split; [reflexivity|]. apply unpack_pack_strings.
  - intros kids b [= <-]. apply pack_strings_size.
Qed.

Definition console_config : AppConfig := mkAppConfig 9090 "http://127.0.0.1:8080/" false DefaultLevel.

Lemma console_base : @host_base lib (TAMAPIBase console_config).
Proof.
  split; [done|]. unfold api_paths. intros path Hp.
  repeat (apply elem_of_cons in Hp as [->|Hp]; [eexists; split; [vm_compute; reflexivity|reflexivity]|]).
  by apply not_elem_of_nil in Hp.
Qed.

(** An agent, a developer's manifest and an administrator. *)
Definition managed_world : World :=
  (run (@EntityRepository_Create calm (mkEntity 0 adminName true false false 0)) (with_manifest enrolled)).2.

Definition get (path : string) : Request := mkRequest "GET" path "" "" (mkBody [] false false).
Definition upload (body : bytes) : Request :=
  mkRequest "POST" "/console/register-tc" "" "multipart/form-data" (mkBody body false false).

(** At most one manifest. *)
Lemma one_manifest_ordered d m : rows (suit_manifests d) = [m] → ordered d.
Proof.
  intros Hd i j mi mj Hi Hj Hij _. rewrite Hd in Hj. apply lookup_lt_Some in Hj. simpl in Hj. lia.
Qed.

Lemma sendable_bool d :
  (Z.leb (Z.of_nat (length (rows (suit_manifests d)))) 131072 &&
   forallb (λ m, Z.leb 0 (SuitManifest_SequenceNumber m) && Z.ltb (SuitManifest_SequenceNumber m) (2 ^ 64))
     (rows (suit_manifests d)))%bool = true → sendable d.
Proof.
  intros [Hl Hf]%andb_true_iff. split; [by apply Z.leb_le|]. apply Forall_forall. intros m Hm.
  rewrite forallb_forall in Hf. apply list_elem_of_In in Hm. specialize (Hf m Hm).
  apply andb_true_iff in Hf as [H1%Z.leb_le H2%Z.ltb_lt]. lia.
Qed.

Definition managed_manifest : SuitManifest := mkSuitManifest 1 envelope manifest_digest 1 component_bytes 3 zero_time.

Lemma console_shows_registry_witness :
  ∃ ms s', run (Console_ServeHTTP (@tam_exchange calm lib tam) console_config
                  (get "/console/view-managed-tcs")) (mkSystem managed_world ∅)
    = (Ok (shows (JArray (map TrustedComponent_MarshalJSON (omap shown_manifest ms)))), s') ∧
    NoDup (SuitManifest_TrustedComponentID <$> ms).
Proof.
  destruct (@console_shows_registry calm example_formats lib console_stub tam console_config calm_reliable stub_codecs
    (get "/console/view-managed-tcs") (mkSystem managed_world ∅) console_base) as (ms & s' & Hrun & _ & _ & Hnd & _).
  - apply (one_manifest_ordered _ managed_manifest). vm_compute. reflexivity.
  - apply sendable_bool. vm_compute. reflexivity.
  - exact (conj eq_refl eq_refl).
  - exists ms, s'. exact (conj Hrun Hnd).
Defined.

Lemma console_shows_agents_witness :
  ∃ shown s', run (Console_ServeHTTP (@tam_exchange calm lib tam) console_config
                     (get "/console/view-managed-devices")) (mkSystem managed_world ∅)
    = (Ok (shows (JArray (map Agent_MarshalJSON shown))), s') ∧ map Console_KID shown = [agent_kid].
Proof.
  destruct (@console_shows_agents calm example_formats lib console_stub tam console_config calm_reliable stub_codecs
    (get "/console/view-managed-devices") (mkSystem managed_world ∅) console_base) as (shown & w' & c & Hrun & _ & Hk & _).
  - exists (mkEntity 2 adminName true false false 0). split; [vm_compute; reflexivity|exact eq_refl].
  - split; [vm_compute; discriminate|split; [split; [vm_compute; discriminate|]|]].
    + apply Forall_forall. intros r Hr. vm_compute in Hr. apply list_elem_of_singleton in Hr as ->.
      split; [vm_compute; discriminate|constructor].
    + intros b Hb. vm_compute in Hb. injection Hb as <-. vm_compute. discriminate.
  - exact (conj eq_refl eq_refl).
  - exists shown, (mkSystem w' (<[TAMAPIBase console_config := c]> ∅)). split; [exact Hrun|]. rewrite Hk. vm_compute. reflexivity.
Defined.

(** A TAM with 1025 agents. *)
Definition numbered_agent (n : nat) : Agent :=
  mkAgent (Z.of_nat n) (pad 32 (bs [Z.of_nat n / 256; Z.of_nat n mod 256]%Z)) None 0 (10 * second) None [].
Definition crowded_world : World :=
  with_db (rel_set (mkTable (map numbered_agent (List.seq 1 1025)) 1025) (w_db managed_world)) managed_world.

Lemma too_many_agents_break_the_view_witness :
  ∃ s', run (Console_ServeHTTP (@tam_exchange calm lib tam) console_config
               (get "/console/view-managed-devices")) (mkSystem crowded_world ∅)
    = (Ok (with_headers cors_headers (fetch_failed (ErrorString "status 413 from TAM API"))), s').
Proof.
  destruct (@too_many_agents_break_the_view calm example_formats lib console_stub tam console_config calm_reliable stub_codecs
    (get "/console/view-managed-devices") (mkSystem crowded_world ∅) console_base) as (s' & Hrun & _).
  - exists (mkEntity 2 adminName true false false 0). split; [vm_compute; reflexivity|exact eq_refl].
  - vm_compute. discriminate.
  - vm_compute. reflexivity.
  - exact (conj eq_refl eq_refl).
  - exists s'. exact Hrun.
Defined.

(** The developer's envelope, uploaded to a TAM that knows the developer. *)
Definition developer_world : System := mkSystem (with_developer initial_world) ∅.
Lemma upload_run_Ok :
  ∃ resp s', run (Console_ServeHTTP (@tam_exchange calm lib tam) console_config (upload envelope)) developer_world
      = (Ok resp, s') ∧
    Resp_Status resp = StatusOK ∧ sendable (w_db (sys_world s')).
Proof.
  set (r := run _ _).
  assert (match r.1 with Ok resp => Z.eqb (Resp_Status resp) 200 | _ => false end = true) as Hr by (vm_compute; reflexivity).
  assert (sendable (w_db (sys_world r.2))) as Hs by (apply sendable_bool; vm_compute; reflexivity).
  clearbody r. destruct r as [[resp|e| |] s']; [|discriminate Hr..]. exists resp, s'.
  split; [reflexivity|]. split; [exact (proj1 (Z.eqb_eq _ _) Hr)|exact Hs].
Qed.

Lemma console_registers_verified_witness :
  ∃ resp s', run (Console_ServeHTTP (@tam_exchange calm lib tam) console_config (upload envelope)) developer_world
      = (Ok resp, s') ∧ (Resp_Status resp = StatusOK ∨ Resp_Status resp = StatusBadGateway).
Proof.
  destruct (@console_registers_verified calm example_formats lib console_stub tam console_config
    (upload envelope) developer_world console_base (conj eq_refl eq_refl)) as (resp & s' & Hrun & _ & [[Hst _]|[Hst _]]);
    exists resp, s'; (split; [exact Hrun|]); [left|right]; exact Hst.
Defined.

(** No administrator: the TAM's handler panics, the console answers. *)
Lemma console_always_answers_witness :
  ∃ resp s', run (Console_ServeHTTP (@tam_exchange calm lib tam) console_config
                    (get "/console/view-managed-devices")) developer_world = (Ok resp, s').
Proof.
  destruct (@console_always_answers calm example_formats lib console_stub tam console_config
    (get "/console/view-managed-devices") developer_world console_base) as (resp & s' & Hrun).
  exists resp, s'. exact Hrun.
Defined.

Lemma uploaded_manifest_is_shown_witness :
  ∃ m ms s1 s2, SuitManifest_Manifest m = envelope ∧
    run (Console_ServeHTTP (@tam_exchange calm lib tam) console_config (get "/console/view-managed-tcs")) s1
      = (Ok (shows (JArray (map TrustedComponent_MarshalJSON (omap shown_manifest ms)))), s2) ∧
    ∀ shown, shown_manifest m = Some shown → shown ∈ omap shown_manifest ms.
Proof.
  destruct upload_run_Ok as (resp & s1 & Hrun & Hst & Hsend).
  destruct (@uploaded_manifest_is_shown calm example_formats lib console_stub tam console_config calm_reliable stub_codecs
    (upload envelope) (get "/console/view-managed-tcs") developer_world resp s1 console_base)
    as (name & content & tagged & m & ms & s2 & Hfile & Hskip & _ & Hpage & Hin & _).
  - intros i j mi mj Hi Hj Hij _. apply lookup_lt_Some in Hj. vm_compute in Hj. exfalso. lia.
  - exact (conj eq_refl eq_refl).
  - exact (conj eq_refl eq_refl).
  - exact Hrun.
  - exact Hst.
  - exact Hsend.
  - exists m, ms, s1, s2. split; [|exact (conj Hpage Hin)].
    injection Hfile as <- <-. exact (eq_sym (f_equal (λ r, match r with Ok p => p.2 | _ => [] end) Hskip)).
Defined.
